(* ===== verification/_CoqProject ===== *)
-Q . S2P
Prelude.v
Cmd.v
Types.v
Bench.v
Utils.v
Slots.v
Pt.v
Task.v
Partial.v
Stream.v
Wt.v
Buffer.v
Base.v
Syscall.v
WtSpec.v
BufferSpec.v
IoctlSpec.v
PciSpec.v
Lifetime.v
Invariant.v
Thread.v
Core.v
Calls.v
Release.v
System.v
Preempt.v
Issued.v
PreemptSpec.v
Races.v
Verdict.v
Board.v
Demand.v
Drain.v
User.v
UserSpec.v
Process.v
Tests.v
Uring.v
TestSpec.v
Runs.v
Scenarios.v
Sessions.v
Interrupts.v
Suite.v
