(* ===== verification/Prelude.v ===== *)
(** * The DiceDev Linux driver

    A verification of the driver of the DiceDev PCI board (src/).  A process
    opens the char device of a board, which gives it a context; ioctls create
    dice sets (buffers of up to 1024 pages, each behind a file of its own that
    can be mapped, read and written), queue tasks and wait for them.  A task
    (a [write] of command words, or a [run] of the commands stored in a
    buffer) goes to a work thread, one per board, which binds the output
    buffer to one of 16 hardware slots, checks and translates the commands,
    feeds them to the board word by word, and sets a fence; the interrupt
    handler sees the fence and wakes the thread, which accounts for the task.

    ** The model

    Memory is a record of finite maps, one per type of object ([state] in
    Types.v): devices, contexts, buffers, tasks, page tables, arrays of pages,
    coherent pages, command arrays, files, descriptors; plus the list of files
    whose release is due, the device table and the kernel resources held.
    Kernel routines are functions of a state monad with faults ([M], below): a
    routine returns ([Done]) or stops for a reason ([Crash]): a [BUG_ON], an
    access to null, freed or out-of-range memory, a lock taken twice, or a
    sleep whose condition is false.  Integers are [Z] with the reductions to
    32 and 64 bits written out.  Spin locks are booleans in the structures
    they protect.

    The board and the kernel are parameters: the classes [Hardware] (register
    reads and writes on an abstract board state) and [Kernel] (allocators,
    file and descriptor allocation, and calls with an integer result) of
    Types.v, with their documented behaviour in [HardwareLaws] (a polled
    command queue drains) and [KernelLaws] (addresses and descriptors handed
    out are not in use, coherent pages are aligned and below 2^40, error codes
    are negative).  Bench.v has an instance of all four.

    ** Files

    - Prelude.v: integers, record update, the monad with its weakest
      precondition [wp] (total: the routine returns) and [safe] (it returns or
      sleeps), list lemmas, tactics.
    - Cmd.v: src/dicedev.h, and the masks and the bit count of
      src/dicedev_wt.c.  Types.v: src/dicedev_types.h, src/dicedev_pt.h.
    - Utils.v: src/dicedev_utils.c.  Slots.v: the slot table invariant
      [slots_ok] and what binding and unbinding do to it.
    - Pt.v: src/dicedev_pt.c, with the well-formed page tables [pt_wf].
    - Task.v, Stream.v: the task iterators and the translation loop of
      src/dicedev_wt.c ([__wt_run_task]), against the reference translation
      [translate] of a list of words.  Partial.v: rules for routines that may
      fault ([pwp]), and the end of the translation loop on any words.
      Issued.v: what the loop feeds to the board, on any words.
    - Wt.v, WtSpec.v: the queue, the events and the loop of the work thread
      (the rest of src/dicedev_wt.c).
    - Buffer.v, BufferSpec.v: src/dicedev_buffer.c.
    - Base.v: src/dicedev_base.c.  IoctlSpec.v: ioctls and interrupt handler.
      PciSpec.v: probe, remove, suspend, resume, module init and exit.
    - Syscall.v: the tables of operations the driver registers, and how the
      kernel dispatches system calls through them.
    - Lifetime.v: references and lifetimes ([life]); a mapping and a sleeping
      read hold a reference to their file.  Invariant.v: the global
      invariant ([inv]).  Thread.v: one iteration of the work thread under it.
      Core.v: its part that does not speak of the work thread ([core]), and what
      a system call leaves alone of the things the thread relies on ([frame]).
      Calls.v, Release.v: system calls, interrupts, suspend, resume and the
      releases of files under the core.
    - System.v: configurations, actions, the step relation and its reachable
      configurations, which start with a probe that got its work thread.  Among
      the actions, the board may store to the pages of the sets bound to its
      slots, and a read that went to sleep goes on ([AWake]), in the waiting
      loop of the source, on the waitqueue of the context of its buffer.
    - Preempt.v: the loop of the work thread in small steps (program points
      [pc], step function [wt_step]) and their agreement with the iterations
      of Wt.v.  PreemptSpec.v: the invariant of each program point, which the
      steps of the thread establish and the interrupt handler and the board
      preserve.  Races.v: system calls preserve it too; executions of the whole
      system in which all of them take turns.
    - Verdict.v: which contexts the tasks in the queue make fail.  Board.v: what
      the board does on its own ([board_model], [board_ok]); it answers a fence
      only when the fence command is on the wire ([fence_due] in WtSpec.v).
      Demand.v: the
      sets that hold a slot or need one.  Drain.v: thread and board empty the
      queue.
    - User.v: user programs (system calls that block, mappings in pieces,
      signals, exits) and the helpers of src/z3-tst/common.h.  UserSpec.v,
      Process.v: rules for them, for a process with a context, sets and
      mappings of its own.  Tests.v, TestSpec.v: the tests of src/z3-tst and
      what they show.  Uring.v: the two tests that use io_uring, over an
      interface to liburing ([Liburing]); Suite.v executes them.
    - Bench.v, Scenarios.v, Runs.v, Sessions.v, Interrupts.v, Suite.v: concrete
      environments and executions to which the theorems are applied; Suite.v
      runs the tests on a bench with two devices.

    ** What the theorems show

    - The whole system ([reachable_safe], [reachable_well_typed],
      [mapping_store_confined], [reachable_accounting]): from the probe of a
      board on, in every interleaving of the driver's entry points, no entry
      point faults, no pointer dangles, mappings reach nothing but their own
      buffer, and task counts are exact.  The guards under which this holds
      ([permitted]) name what the code relies on and does not check; among them,
      that no context is freed while a read sleeps on its waitqueue, without
      which the reader goes on with freed memory ([sleeping_reader_freed]).
    - Interruption ([thread_turn_refines], [preempted_safe], [turn_bounded],
      [error_after_free], [fence_after_reset]): system calls, interrupts and
      the board may come in between the steps of the work thread; the steps
      compose to the iterations that the other theorems are about, neither they
      nor what comes in between faults, no wakeup by a fence is lost, and every
      turn ends.  At two points, where the finished task is freed and
      [running_task] still names it, an interrupt that is not expected there is
      fatal.
    - Progress ([queue_drains]): every queued task is finished, within an
      explicit number of turns; [close_buffer_lost_wakeup] and
      [wt_exit_stops_iff_idle] are the cases in which the thread hangs.
    - Fault isolation ([drain_verdict]): once the queue is empty, exactly those
      contexts have failed whose own tasks were refused or reported by the
      board; results apart, nothing else has changed.
    - Commands ([wt_run_task_write_refines], [wt_run_task_run_refines],
      [loop_issued], [wt_run_task_terminates], [get_die_credit],
      [get_die_slot_escape], [wt_run_task_truncated_overread]): what reaches the
      board is the reference translation of what the user submitted when that is
      a sequence of complete commands; on any words whatever, the commands fed
      are confined to the slot (up to its lowest bit) and the dice of the set,
      and the loop ends; where the checks of the code fall short.
    - The routines one by one, on every branch: slots, task queue, page
      tables, reads, writes, page faults, ioctls, interrupt handler, probe and
      removal, suspend and resume; round trips where one routine undoes
      another.
    - Tests ([error_tests_pass], [failing_tests_pass]): tests of the repository
      that expect errors do what they expect, from any reachable configuration
      (the first group) or any in which the device is idle (the second).  For
      the tests that look at dice, [dice_tests_run] says no more than that they
      do not fault, hang or fail before one of their assertions.

    ** Bounds and fuel

    The loops of the source are structural recursions over the list they walk.
    Three loops have fuel: the polling loop of [feed_cmd], bounded by the
    polling bound of the board ([HardwareLaws] makes it enough); the
    translation loop, whose fuel is one more than the number of words its
    iterator can deliver ([task_fuel], which is enough:
    [wt_run_task_terminates]); and [wt_loop], the endless loop of the
    work thread, of which the theorems use one iteration ([wt_iter]).  [drive]
    in Drain.v has fuel 7 per pending task plus 10 ([drive_fuel]), shown to be
    enough when at most 16 sets hold a slot or are the output of a task in
    flight.  The constants SIZE, COUNT and CMDS of three tests are arguments;
    Suite.v runs those tests with smaller values.

    ** Not modelled

    - Interleavings inside a system call.  The actions of System.v are whole
      entry points, split where they sleep; two of them never overlap.  The
      work thread is modelled in small steps too, with the actions in between:
      a step is one critical section, one store to a shared variable, one look
      for an event or one turn of the translation loop.  At one point, between
      the accounting of a task in [__task_destroy] and its kfree, only the
      board and the handler come in between ([between] in Races.v).
    - Several boards in one configuration of System.v, and removing a board or
      unloading the module while it is in use (the routines are in Base.v, and
      PciSpec.v treats them in isolation).
    - What the board computes: it may store any words in the first pages of
      the sets bound to its slots ([board_ok] bounds which, and excludes that
      it overwrites commands that still wait).
    - Closing the descriptor of an ioctl that waits, from another thread: a
      waiting ioctl is tried again later, with its descriptor (the kernel keeps
      its file, and with it the context, until it returns).
    - The reference count of a mapped page, the mutex of the device table,
      signals that interrupt a sleep, and the spin lock of a context, which is
      never taken.
    - dumb_run, crossmap, example, large_alloc, large_op, io_uring and
      io_uring_read are executed on the bench; the general theorems leave them
      out (a second device, a foreign descriptor, a thousand sets, the order in
      which a ring serves its requests).  *)

From Stdlib Require Export ZArith Lia.
From stdpp Require Export base numbers gmap sets list.

#[global] Open Scope Z_scope.

(** ** Machine integers *)

(** Conversion to [uint32_t] and to [size_t] / [uint64_t] / [dma_addr_t]
    (the driver targets 64-bit kernels). *)
Definition u32 (x : Z) : Z := x mod 2 ^ 32.
Definition u64 (x : Z) : Z := x mod 2 ^ 64.

(** ** Functional record update

    [Eta R] names the eta-expansion of a record; from it the update of any
    field is derived by abstracting the projection. *)
Class Eta (R : Type) := eta : R → R.
Class Update {R T : Type} (proj : R → T) := update : (T → T) → R → R.

Ltac derive_update R proj :=
  let body := eval hnf in (@eta R _) in
  match eval pattern proj in body with
  | ?ctx _ => exact (λ f, ctx (λ r, f (proj r)))
  end.

#[export] Hint Extern 1 (@Update ?R _ ?proj) => derive_update R proj : typeclass_instances.

Declare Scope dice_scope.
Delimit Scope dice_scope with dice.
Notation "r <| p := v |>" := (update (proj := p) (λ _, v) r)
  (at level 1, left associativity, p at next level, only parsing) : dice_scope.
#[global] Open Scope dice_scope.

(** Equality of updated records, field by field. *)
Ltac rec_eq := unfold update; simpl; f_equal.

(** ** Faulting state monad

    A kernel routine started in state [s] either returns ([Done]) or stops
    the thread for the reason given by [fault]. *)
Inductive fault :=
  | Bug            (** [BUG()] or a [BUG_ON] whose condition holds *)
  | BadAccess      (** null, dangling or out-of-range memory access, double free *)
  | SelfDeadlock   (** [spin_lock] on a lock that is already held *)
  | BadUnlock      (** [spin_unlock] on a lock that is not held *)
  | SpinExhausted  (** a polling loop ran out of its polling bound *)
  | LoopExhausted  (** a loop ran out of fuel *)
  | Sleeps.        (** the thread sleeps: the awaited condition is false *)

#[export] Instance fault_eq_dec : EqDecision fault.
Proof. solve_decision. Defined.

Inductive outcome (S A : Type) :=
  | Done (a : A) (s : S)
  | Crash (e : fault).
Arguments Done {S A} a s.
Arguments Crash {S A} e.

Definition M (S A : Type) : Type := S → outcome S A.

#[export] Instance M_ret S : MRet (M S) := λ A a s, Done a s.
#[export] Instance M_bind S : MBind (M S) := λ A B f m s,
  match m s with
  | Done a s' => f a s'
  | Crash e => Crash e
  end.

Section Primitives.
Context {S : Type}.

Definition crash {A} (e : fault) : M S A := λ _, Crash e.
(** Read through a pointer: [None] stands for an invalid access. *)
Definition fetch {A} (f : S → option A) : M S A := λ s,
  match f s with
  | Some a => Done a s
  | None => Crash BadAccess
  end.
Definition gets {A} (f : S → A) : M S A := λ s, Done (f s) s.
Definition modify (f : S → S) : M S unit := λ s, Done tt (f s).
(** [BUG_ON(b)] *)
Definition BUG_ON (b : bool) : M S unit := if b then crash Bug else mret tt.
(** Sleep until [b]; [b] is the awaited condition evaluated in the state. *)
Definition wait_until (b : bool) : M S unit := if b then mret tt else crash Sleeps.
Definition when (b : bool) (m : M S unit) : M S unit := if b then m else mret tt.

(** *** Total-correctness weakest precondition *)
Definition wp {A} (m : M S A) (s : S) (Q : A → S → Prop) : Prop :=
  match m s with
  | Done a s' => Q a s'
  | Crash _ => False
  end.

Lemma wp_run {A} (m : M S A) s Q :
  wp m s Q ↔ ∃ a s', m s = Done a s' ∧ Q a s'.
Proof.
  unfold wp. destruct (m s) as [a s'|e]; split.
  - intros ?. by exists a, s'.
  - by intros (? & ? & [= -> ->] & ?).
  - done.
  - by intros (? & ? & [=] & _).
Qed.

Lemma wp_bind {A B} (m : M S A) (f : A → M S B) s Q :
  wp m s (λ a s', wp (f a) s' Q) → wp (m ≫= f) s Q.
Proof. unfold wp, mbind, M_bind. by destruct (m s). Qed.

(** A routine that completes and then crashes, or crashes at once. *)
Lemma crash_after {A B} (m : M S A) (f : A → M S B) s e :
  wp m s (λ a s', f a s' = Crash e) → (m ≫= f) s = Crash e.
Proof. unfold wp, mbind, M_bind. by destruct (m s). Qed.

Lemma crash_here {A B} (m : M S A) (f : A → M S B) s e :
  m s = Crash e → (m ≫= f) s = Crash e.
Proof. unfold mbind, M_bind. by intros ->. Qed.

Lemma wp_mono {A} (m : M S A) s (P Q : A → S → Prop) :
  wp m s P → (∀ a s', P a s' → Q a s') → wp m s Q.
Proof. unfold wp. destruct (m s); naive_solver. Qed.

Lemma wp_done {A} (m : M S A) s a s' Q : m s = Done a s' → Q a s' → wp m s Q.
Proof. unfold wp. by intros ->. Qed.

Lemma wp_eq {A} (m m' : M S A) s Q : m s = m' s → wp m' s Q → wp m s Q.
Proof. unfold wp. by intros ->. Qed.

Lemma wp_ret {A} (a : A) s (Q : A → S → Prop) : Q a s → wp (mret a) s Q.
Proof. done. Qed.

Lemma wp_fetch {A} (f : S → option A) s a (Q : A → S → Prop) :
  f s = Some a → Q a s → wp (fetch f) s Q.
Proof. unfold wp, fetch. by intros ->. Qed.

Lemma wp_gets {A} (f : S → A) s (Q : A → S → Prop) : Q (f s) s → wp (gets f) s Q.
Proof. done. Qed.

Lemma wp_modify (f : S → S) s (Q : unit → S → Prop) : Q tt (f s) → wp (modify f) s Q.
Proof. done. Qed.

Lemma wp_BUG_ON b s (Q : unit → S → Prop) : b = false → Q tt s → wp (BUG_ON b) s Q.
Proof. by intros ->. Qed.

Lemma wp_wait_until b s (Q : unit → S → Prop) :
  b = true → Q tt s → wp (wait_until b) s Q.
Proof. by intros ->. Qed.

Lemma wp_when (b : bool) m s (Q : unit → S → Prop) :
  (b = true → wp m s Q) → (b = false → Q tt s) → wp (when b m) s Q.
Proof. destruct b; naive_solver. Qed.

(** *** Safety: a routine returns or sleeps, and does nothing worse *)
Definition safe {A} (m : M S A) (s : S) (Q : A → S → Prop) : Prop :=
  match m s with
  | Done a s' => Q a s'
  | Crash e => e = Sleeps
  end.

Lemma wp_safe {A} (m : M S A) s Q : wp m s Q → safe m s Q.
Proof. unfold wp, safe. by destruct (m s). Qed.

Lemma safe_done {A} (m : M S A) s a s' Q : m s = Done a s' → Q a s' → safe m s Q.
Proof. unfold safe. by intros ->. Qed.

Lemma safe_sleeps {A} (m : M S A) s Q : m s = Crash Sleeps → safe m s Q.
Proof. unfold safe. by intros ->. Qed.

Lemma safe_bind {A B} (m : M S A) (f : A → M S B) s Q :
  safe m s (λ a s', safe (f a) s' Q) → safe (m ≫= f) s Q.
Proof. unfold safe, mbind, M_bind. by destruct (m s). Qed.

(** Two facts about a routine that completes. *)
Lemma safe_wp {A} (m : M S A) s (P Q : A → S → Prop) :
  safe m s P → wp m s Q → wp m s (λ a s', P a s' ∧ Q a s').
Proof. unfold safe, wp. by destruct (m s). Qed.

Lemma safe_mono {A} (m : M S A) s (P Q : A → S → Prop) :
  safe m s P → (∀ a s', P a s' → Q a s') → safe m s Q.
Proof. unfold safe. destruct (m s); auto. Qed.

End Primitives.

(** [wp_step] decomposes the head of the routine; the facts about the state
    that it needs are found by rewriting with the hypotheses. *)
Create HintDb wp_db.
#[export] Hint Resolve wp_ret wp_gets wp_modify : wp_db.

Ltac wp_side := first [ eassumption | reflexivity | by simplify_map_eq ].
Ltac wp_step :=
  lazymatch goal with
  | |- wp (mbind _ _) _ _ => apply wp_bind
  | |- wp (mret _) _ _ => apply wp_ret
  | |- wp (gets _) _ _ => apply wp_gets
  | |- wp (modify _) _ _ => apply wp_modify
  | |- wp (fetch _) _ _ => eapply wp_fetch; [ wp_side | ]
  | |- wp (BUG_ON _) _ _ => apply wp_BUG_ON; [ wp_side | ]
  | |- wp (wait_until _) _ _ => apply wp_wait_until; [ wp_side | ]
  end; simpl.
Ltac wp_steps := repeat wp_step.

(** [lia] with the defining equations of [/] and [mod]. *)
Ltac dlia := Z.to_euclidean_division_equations; lia.

(** Closed decidable facts. *)
Ltac by_dec := apply (bool_decide_unpack _); vm_compute; exact I.

(** ** Bits of machine integers *)
Section Bits.

Lemma u32_small x : 0 ≤ x < 2 ^ 32 → u32 x = x.
Proof. apply Z.mod_small. Qed.

Lemma u64_small x : 0 ≤ x < 2 ^ 64 → u64 x = x.
Proof. apply Z.mod_small. Qed.

Lemma u32_range x : 0 ≤ u32 x < 2 ^ 32.
Proof. by apply Z.mod_pos_bound. Qed.

Lemma u64_range x : 0 ≤ u64 x < 2 ^ 64.
Proof. by apply Z.mod_pos_bound. Qed.

Lemma u32_testbit x i : 0 ≤ i → Z.testbit (u32 x) i = (i <? 32) && Z.testbit x i.
Proof.
  intros Hi. unfold u32. destruct (Z.ltb_spec i 32); simpl.
  - by rewrite Z.mod_pow2_bits_low by lia.
  - by rewrite Z.mod_pow2_bits_high by lia.
Qed.

Lemma testbit_above x k n : 0 ≤ x < 2 ^ k → 0 ≤ k ≤ n → Z.testbit x n = false.
Proof. intros Hx Hn. apply (Z.bounded_iff_bits_nonneg k x); lia. Qed.

Lemma land_bound x y k : 0 ≤ k → 0 ≤ x < 2 ^ k → 0 ≤ Z.land x y < 2 ^ k.
Proof.
  intros Hk Hx. assert (0 ≤ Z.land x y) by (apply Z.land_nonneg; lia).
  split; [done|]. apply Z.bounded_iff_bits_nonneg; [done..|]. intros l Hl.
  by rewrite Z.land_spec, (testbit_above x k) by lia.
Qed.

Lemma lor_bound x y k :
  0 ≤ k → 0 ≤ x < 2 ^ k → 0 ≤ y < 2 ^ k → 0 ≤ Z.lor x y < 2 ^ k.
Proof.
  intros Hk Hx Hy. assert (0 ≤ Z.lor x y) by (apply Z.lor_nonneg; lia).
  split; [done|]. apply Z.bounded_iff_bits_nonneg; [done..|]. intros l Hl.
  by rewrite Z.lor_spec, (testbit_above x k), (testbit_above y k) by lia.
Qed.

(** A number whose low [k] bits and high part are given separately. *)
Lemma add_shift_lor x y k :
  0 ≤ k → 0 ≤ x < 2 ^ k → x + 2 ^ k * y = Z.lor x (Z.shiftl y k).
Proof.
  intros Hk Hx. rewrite <-Z.add_lor_land, Z.shiftl_mul_pow2, (Z.mul_comm (2 ^ k)) by lia.
  replace (Z.land x (y * 2 ^ k)) with 0; [lia|].
  symmetry. apply Z.bits_inj'. intros n Hn. rewrite Z.land_spec, Z.bits_0.
  destruct (Z.ltb_spec n k).
  - rewrite Z.mul_pow2_bits_low by lia. apply andb_false_r.
  - by rewrite (testbit_above x k) by lia.
Qed.

Lemma testbit_add_shift x y k n :
  0 ≤ k → 0 ≤ x < 2 ^ k → 0 ≤ n →
  Z.testbit (x + 2 ^ k * y) n = if n <? k then Z.testbit x n else Z.testbit y (n - k).
Proof.
  intros Hk Hx Hn. rewrite add_shift_lor, Z.lor_spec, Z.shiftl_spec by lia.
  destruct (Z.ltb_spec n k).
  - rewrite (Z.testbit_neg_r y) by lia. apply orb_false_r.
  - by rewrite (testbit_above x k) by lia.
Qed.

Lemma land_add_shift a b c d k :
  0 ≤ k → 0 ≤ a < 2 ^ k → 0 ≤ c < 2 ^ k →
  Z.land (a + 2 ^ k * b) (c + 2 ^ k * d) = Z.land a c + 2 ^ k * Z.land b d.
Proof.
  intros Hk Ha Hc. apply Z.bits_inj'. intros n Hn.
  rewrite Z.land_spec, !testbit_add_shift by auto using land_bound.
  by destruct (n <? k); rewrite Z.land_spec.
Qed.

End Bits.

(** ** Lists *)

(** [l] completed with [d] to length [n]: an array whose first entries have
    been written. *)
Definition fill {A} (n : nat) (d : A) (l : list A) : list A :=
  l ++ replicate (n - length l) d.

Section Fill.
Context {A : Type}.
Implicit Types (l : list A) (d x : A).

Lemma length_fill n d l : (length l ≤ n)%nat → length (fill n d l) = n.
Proof. intros Hl. unfold fill. rewrite length_app, length_replicate. lia. Qed.

Lemma fill_nil n d : fill n d [] = replicate n d.
Proof. unfold fill. simpl. by rewrite Nat.sub_0_r. Qed.

Lemma insert_fill n d l x :
  (length l < n)%nat → <[length l := x]> (fill n d l) = fill n d (l ++ [x]).
Proof.
  intros Hl. unfold fill. rewrite insert_app_r_alt by lia.
  rewrite Nat.sub_diag, length_app. simpl.
  replace (n - length l)%nat with (S (n - (length l + 1))) by lia. simpl.
  by rewrite <-app_assoc.
Qed.

Lemma fill_lookup_l n d l i x : l !! i = Some x → fill n d l !! i = Some x.
Proof. intros Hi. unfold fill. by apply lookup_app_l_Some. Qed.

Lemma fill_lookup_r n d l i : (length l ≤ i < n)%nat → fill n d l !! i = Some d.
Proof.
  intros Hi. unfold fill. rewrite lookup_app_r by lia. apply lookup_replicate_2. lia.
Qed.

End Fill.

Lemma prefix_cons_drop {A} (w : A) ws n l :
  w :: ws `prefix_of` drop n l → l !! n = Some w ∧ ws `prefix_of` drop (S n) l.
Proof.
  intros [k Hk]. assert (Hn : l !! n = Some w).
  { replace n with (n + 0)%nat by lia. rewrite <-lookup_drop, Hk. done. }
  split; [done|]. exists k. rewrite (drop_S _ _ _ Hn) in Hk. by simplify_eq/=.
Qed.

(** Dropping whole blocks of equal length [k] of a concatenation. *)
Lemma drop_concat {A} k (ll : list (list A)) n :
  Forall (λ l, length l = k) ll → drop (n * k) (concat ll) = concat (drop n ll).
Proof.
  intros Hll. revert n. induction Hll as [|l ll Hl Hll IH]; intros [|n]; simpl; try done; [by rewrite drop_nil|].
  rewrite drop_app_ge by lia. rewrite <-IH. f_equal. lia.
Qed.

(** Indexing a concatenation of blocks of equal length [k]. *)
Lemma lookup_concat {A} k (ll : list (list A)) i j :
  Forall (λ l, length l = k) ll → (j < k)%nat →
  concat ll !! (i * k + j)%nat = ll !! i ≫= λ l, l !! j.
Proof.
  intros Hll Hj. revert i. induction Hll as [|l ll Hl Hll IH]; intros i; simpl; [done|].
  destruct i as [|i]; simpl.
  - by rewrite lookup_app_l by lia.
  - rewrite lookup_app_r by lia. rewrite <-IH. f_equal. lia.
Qed.

Lemma length_concat {A} k (ll : list (list A)) :
  Forall (λ l, length l = k) ll → length (concat ll) = (length ll * k)%nat.
Proof. induction 1 as [|l ll Hl _ IH]; simpl; [done|]. rewrite length_app, IH, Hl. lia. Qed.

(** Writing into a concatenation of blocks of equal length [k]. *)
Lemma insert_concat {A} k (ll : list (list A)) a j l v :
  Forall (λ l, length l = k) ll → ll !! a = Some l → (j < k)%nat →
  concat (<[a := <[j := v]> l]> ll) = <[(a * k + j)%nat := v]> (concat ll).
Proof.
  intros Hll Ha Hj. revert a Ha. induction Hll as [|l' ll Hl Hll IH]; intros [|a] Ha; simplify_eq/=.
  - by rewrite insert_app_l by lia.
  - replace (length l' + a * length l' + j)%nat with (length l' + (a * length l' + j))%nat by lia.
    by rewrite insert_app_r, IH.
Qed.

Lemma list_filter_id {A} (P : A → Prop) `{∀ x, Decision (P x)} (l : list A) :
  (∀ x, x ∈ l → P x) → filter P l = l.
Proof.
  induction l as [|y l IH]; intros Hl; [done|].
  rewrite filter_cons_True by (apply Hl; by left). f_equal. apply IH. intros x Hx.
  apply Hl. by right.
Qed.

(** [l] without the first occurrence of [x]. *)
Fixpoint remove_one {A} `{EqDecision A} (x : A) (l : list A) : list A :=
  match l with
  | [] => []
  | y :: l => if decide (y = x) then l else y :: remove_one x l
  end.

Lemma remove_one_Permutation {A} `{EqDecision A} (x : A) l : x ∈ l → l ≡ₚ x :: remove_one x l.
Proof.
  induction l as [|y l IH]; intros Hx; [by apply elem_of_nil in Hx|]. simpl.
  case_decide as E; [by rewrite E|]. apply elem_of_cons in Hx as [->|Hx]; [done|].
  rewrite (IH Hx) at 1. apply Permutation_swap.
Qed.
