(* ===== verification/Cmd.v ===== *)
(** Hardware interface of the DiceDev board (src/dicedev.h): register map,
    interrupt bits, ioctl numbers and argument blocks, the encodings of the
    command words, and the word-level helpers of the work thread
    (src/dicedev_wt.c: field masks and [numbers_of_bits_set]). *)

From S2P Require Import Prelude.

(** ** PCI ids, registers and constants *)
Definition DICEDEV_VENDOR_ID : Z := 0x0666.
Definition DICEDEV_DEVICE_ID : Z := 0x0011.

Definition DICEDEV_INTR : Z := 0x0000.
Definition DICEDEV_INTR_ENABLE : Z := 0x0004.
Definition DICEDEV_ENABLE : Z := 0x0008.
Definition DICEDEV_INCREMENT_SEED : Z := 0x000c.
Definition DICEDEV_PROC_STATE : Z := 0x0010.
Definition CMD_MANUAL_FEED : Z := 0x008c.
Definition CMD_MANUAL_FREE : Z := 0x0094.
Definition DICEDEV_BAR_SIZE : Z := 0x1000.
Definition DICEDEV_CMD_FENCE_LAST : Z := 0x009c.
Definition DICEDEV_CMD_FENCE_WAIT : Z := 0x00A4.

Definition DICEDEV_IOCTL_CREATE_SET : Z := 0x0.
Definition DICEDEV_IOCTL_RUN : Z := 0x1.
Definition DICEDEV_IOCTL_WAIT : Z := 0x3.
Definition DICEDEV_IOCTL_ENABLE_SEED_INCREMENT : Z := 0x4.
Definition DICEDEV_BUFFER_IOCTL_SEED : Z := 0x0.

(** ** ioctl argument blocks *)
Record dicedev_ioctl_create_set_arg := { cs_size : Z; cs_allowed : Z }.
Record dicedev_ioctl_run_arg := { r_cfd : Z; r_addr : Z; r_size : Z; r_bfd : Z }.
Record dicedev_ioctl_wait_arg := { w_cnt : Z }.
Record dicedev_ioctl_seed_arg := { sd_seed : Z }.
Record dicedev_ioctl_seed_increment_arg := { si_enable_increment : Z }.

(** ** Interrupt bits *)
Definition DICEDEV_INTR_FENCE_WAIT : Z := 0x1.
Definition DICEDEV_INTR_FEED_ERROR : Z := 0x2.
Definition DICEDEV_INTR_CMD_ERROR : Z := 0x4.
Definition DICEDEV_INTR_MEM_ERROR : Z := 0x8.
Definition DICEDEV_INTR_SLOT_ERROR : Z := 0x10.

Definition DICEDEV_ACTIVE_INTR : Z :=
  Z.lor DICEDEV_INTR_FENCE_WAIT (Z.lor DICEDEV_INTR_CMD_ERROR
    (Z.lor DICEDEV_INTR_MEM_ERROR DICEDEV_INTR_SLOT_ERROR)).
Definition DICEDEV_ALL_INTR : Z :=
  Z.lor DICEDEV_INTR_FENCE_WAIT (Z.lor DICEDEV_INTR_FEED_ERROR
    (Z.lor DICEDEV_INTR_CMD_ERROR
      (Z.lor DICEDEV_INTR_MEM_ERROR DICEDEV_INTR_SLOT_ERROR))).

Definition DICEDEV_PAGE_SHIFT : Z := 12.
Definition DICEDEV_PAGE_SIZE : Z := 0x1000.

(** Limits checked by the ioctl handlers (src/dicedev_base.c). *)
Definition DICEDEV_MAX_DEVICES : Z := 256.
Definition DICEDEV_MAX_BUFFER_SIZE : Z := DICEDEV_PAGE_SIZE * 1024.
Definition DICEDEV_MAX_ALLOWED : Z := Z.shiftl 1 33 - 1.

(** ** Command words *)
Definition DICEDEV_USER_CMD_TYPE_NOP : Z := 0x0.
Definition DICEDEV_USER_CMD_TYPE_BIND_SLOT : Z := 0x1.
Definition DICEDEV_USER_CMD_TYPE_GET_DIE : Z := 0x2.
Definition DICEDEV_USER_CMD_TYPE_FENCE : Z := 0x3.
Definition DICEDEV_USER_CMD_TYPE_NEW_SET : Z := 0x4.
Definition DICEDEV_USER_CMD_TYPE_UNBIND_SLOT : Z := 0x5.

(** The header macros combine fields with [|] and [<<] on the promoted type
    of their arguments; the store into a [uint32_t] truncates ([u32]). *)
Definition DICEDEV_USER_CMD_BIND_SLOT_HEADER (SLOT SEED : Z) : Z :=
  Z.lor (Z.lor DICEDEV_USER_CMD_TYPE_BIND_SLOT (Z.shiftl SLOT 4)) (Z.shiftl SEED 12).
Definition DICEDEV_USER_CMD_GET_DIE_HEADER (NUM OUTPUT_TYPE : Z) : Z :=
  Z.lor (Z.lor DICEDEV_USER_CMD_TYPE_GET_DIE (Z.shiftl NUM 4)) (Z.shiftl OUTPUT_TYPE 20).
Definition DICEDEV_USER_CMD_GET_DIE_HEADER_WSLOT (NUM OUTPUT_TYPE SLOT : Z) : Z :=
  Z.lor (Z.lor (Z.lor DICEDEV_USER_CMD_TYPE_GET_DIE (Z.shiftl NUM 4))
    (Z.shiftl OUTPUT_TYPE 20)) (Z.shiftl SLOT 24).
Definition DICEDEV_USER_CMD_FENCE_HEADER (NUM : Z) : Z :=
  Z.lor DICEDEV_USER_CMD_TYPE_FENCE (Z.shiftl NUM 4).
Definition DICEDEV_USER_CMD_NEW_SET : Z := DICEDEV_USER_CMD_TYPE_NEW_SET.
Definition DICEDEV_USER_CMD_NEW_SET_WSLOT (SLOT : Z) : Z :=
  Z.lor DICEDEV_USER_CMD_TYPE_NEW_SET (Z.shiftl SLOT 4).
Definition DICEDEV_USER_CMD_UNBIND_SLOT_HEADER (SLOT : Z) : Z :=
  Z.lor DICEDEV_USER_CMD_TYPE_UNBIND_SLOT (Z.shiftl SLOT 4).

(** A produced die and the [enum output_type] of a request. *)
Record dice := { d_value : Z; d_type : Z }.

Inductive output_type := FAIR | SNAKE_EYES | CHEAT_DICE.
Definition output_type_val (o : output_type) : Z :=
  match o with FAIR => 0 | SNAKE_EYES => 1 | CHEAT_DICE => 2 end.

Inductive processing_state :=
  | PS_NONE | BIND_SLOT_0 | BIND_SLOT_1 | BIND_SLOT_2 | GET_DIE_0.

(** ** Field masks of the work thread *)
Definition DICEDEV_CMD_TYPE_MASK : Z := 0xF.
Definition DICEDEV_MAX_FENCE_VAL : Z := Z.shiftl 1 28.
Definition DICEDEV_TASK_FENCE_VAL : Z := 42.
Definition GET_DIE_SLOT_MASK : Z := Z.lxor (Z.shiftl 1 28 - 1) (Z.shiftl 1 25 - 1).
Definition GET_DIE_NUM_MASK : Z := Z.lxor (Z.shiftl 1 20 - 1) (Z.shiftl 1 5 - 1).
Definition NEW_SET_SLOT_MASK : Z := Z.lxor (Z.shiftl 1 8 - 1) (Z.shiftl 1 5 - 1).

(** [numbers_of_bits_set]: the parallel bit count, every intermediate
    result truncated to [uint32_t]. *)
Definition numbers_of_bits_set (i : Z) : Z :=
  let i := u32 (i - Z.land (Z.shiftr i 1) 0x55555555) in
  let i := u32 (Z.land i 0x33333333 + Z.land (Z.shiftr i 2) 0x33333333) in
  let i := Z.land (u32 (i + Z.shiftr i 4)) 0x0F0F0F0F in
  Z.shiftr (u32 (i * 0x01010101)) 24.

(** Reference: the number of ones among the 32 bits. *)
Definition popcount (w : nat) (x : Z) : Z :=
  foldr (λ k acc, Z.b2z (Z.testbit x (Z.of_nat k)) + acc) 0 (seq 0 w).

Module Popcount.

(** One byte of each of the three folding steps. *)
Definition step1 (a : Z) : Z := a - Z.land (a / 2) 0x55.
Definition step2 (a : Z) : Z := Z.land a 0x33 + Z.land (a / 4) 0x33.
Definition step3 (a : Z) : Z := Z.land (a + a / 16) 0x0F.

Definition bytes_below (n : nat) : list Z := Z.of_nat <$> seq 0 n.

Lemma bytes_below_spec n (P : Z → bool) x :
  forallb P (bytes_below n) = true → 0 ≤ x < Z.of_nat n → P x = true.
Proof.
  intros H Hx. rewrite forallb_forall in H. apply H, list_elem_of_In.
  unfold bytes_below. apply list_elem_of_fmap. exists (Z.to_nat x).
  rewrite elem_of_seq. lia.
Qed.

Lemma land_byte a b c d :
  0 ≤ a < 256 → 0 ≤ c < 256 →
  Z.land (a + 256 * b) (c + 256 * d) = Z.land a c + 256 * Z.land b d.
Proof. intros. by apply (land_add_shift a b c d 8). Qed.

(** The finite check behind the three steps: the low byte of each step does
    not depend on the bits shifted in from the next byte. *)
Definition low1 (a c : Z) : bool :=
  Z.land (a / 2 + 128 * c) 0x55 =? Z.land (a / 2) 0x55.
Definition low2 (a c : Z) : bool :=
  Z.land (a / 4 + 64 * c) 0x33 =? Z.land (a / 4) 0x33.
Definition low3 (a c : Z) : bool :=
  Z.land (a + a / 16 + 16 * c) 0x0F =? Z.land (a + a / 16) 0x0F.

Lemma low1_ok a c : 0 ≤ a < 256 → 0 ≤ c < 2 → low1 a c = true.
Proof.
  intros Ha Hc. assert (H : forallb (λ c, forallb (λ a, low1 a c) (bytes_below 256))
    (bytes_below 2) = true) by by vm_compute.
  eapply (bytes_below_spec 2) in H; [|exact Hc].
  by eapply (bytes_below_spec 256 (λ a, low1 a c)) in H.
Qed.

Lemma low2_ok a c : 0 ≤ a < 256 → 0 ≤ c < 4 → low2 a c = true.
Proof.
  intros Ha Hc. assert (H : forallb (λ c, forallb (λ a, low2 a c) (bytes_below 256))
    (bytes_below 4) = true) by by vm_compute.
  eapply (bytes_below_spec 4) in H; [|exact Hc].
  by eapply (bytes_below_spec 256 (λ a, low2 a c)) in H.
Qed.

Lemma low3_ok a c : 0 ≤ a < 256 → 0 ≤ c < 16 → low3 a c = true.
Proof.
  intros Ha Hc. assert (H : forallb (λ c, forallb (λ a, low3 a c) (bytes_below 256))
    (bytes_below 16) = true) by by vm_compute.
  eapply (bytes_below_spec 16) in H; [|exact Hc].
  by eapply (bytes_below_spec 256 (λ a, low3 a c)) in H.
Qed.

(** Each step acts bytewise. *)
Lemma step1_byte a b m :
  0 ≤ a < 256 → 0 ≤ b →
  (a + 256 * b) - Z.land (Z.shiftr (a + 256 * b) 1) (0x55 + 256 * m)
  = step1 a + 256 * (b - Z.land (Z.shiftr b 1) m).
Proof.
  intros Ha Hb. rewrite !Z.shiftr_div_pow2 by lia. change (2 ^ 1) with 2.
  pose proof (low1_ok a (b mod 2) Ha ltac:(dlia)) as H.
  replace ((a + 256 * b) / 2) with (a / 2 + 128 * (b mod 2) + 256 * (b / 2)) by dlia.
  rewrite land_byte by dlia. unfold low1 in H. apply Z.eqb_eq in H. rewrite H.
  unfold step1. lia.
Qed.

Lemma step2_byte a b m :
  0 ≤ a < 256 → 0 ≤ b →
  Z.land (a + 256 * b) (0x33 + 256 * m)
    + Z.land (Z.shiftr (a + 256 * b) 2) (0x33 + 256 * m)
  = step2 a + 256 * (Z.land b m + Z.land (Z.shiftr b 2) m).
Proof.
  intros Ha Hb. rewrite !Z.shiftr_div_pow2 by lia. change (2 ^ 2) with 4.
  pose proof (low2_ok a (b mod 4) Ha ltac:(dlia)) as H.
  replace ((a + 256 * b) / 4) with (a / 4 + 64 * (b mod 4) + 256 * (b / 4)) by dlia.
  rewrite !land_byte by dlia. unfold low2 in H. apply Z.eqb_eq in H. rewrite H.
  unfold step2. lia.
Qed.

(** In the third step a byte holds two counts of at most 4. *)
Lemma step3_byte a b m :
  0 ≤ a ≤ 0x44 → 0 ≤ b → b mod 16 ≤ 4 →
  Z.land ((a + 256 * b) + Z.shiftr (a + 256 * b) 4) (0x0F + 256 * m)
  = step3 a + 256 * Z.land (b + Z.shiftr b 4) m.
Proof.
  intros Ha Hb Hn. rewrite !Z.shiftr_div_pow2 by lia. change (2 ^ 4) with 16.
  pose proof (low3_ok a (b mod 16) ltac:(dlia) ltac:(dlia)) as H.
  replace ((a + 256 * b) + (a + 256 * b) / 16)
    with ((a + a / 16 + 16 * (b mod 16)) + 256 * (b + b / 16)) by dlia.
  rewrite land_byte by dlia. unfold low3 in H. apply Z.eqb_eq in H. rewrite H.
  unfold step3. lia.
Qed.

(** The value of the three steps on one byte. *)
Definition byte_ok (a : Z) : bool :=
  let a1 := step1 a in let a2 := step2 a1 in
  (0 <=? a1) && (a1 <? 256) && (0 <=? a2) && (a2 <=? 0x44) && (a2 mod 16 <=? 4)
  && (step3 a2 =? popcount 8 a) && (0 <=? step3 a2) && (step3 a2 <=? 8).

Lemma byte_ok_all a : 0 ≤ a < 256 → byte_ok a = true.
Proof. apply (bytes_below_spec 256). by vm_compute. Qed.

Lemma popcount_acc x l c :
  foldr (λ k acc, Z.b2z (Z.testbit x (Z.of_nat k)) + acc) c l
  = foldr (λ k acc, Z.b2z (Z.testbit x (Z.of_nat k)) + acc) 0 l + c.
Proof. induction l as [|k l IH]; simpl; [lia|]. rewrite IH. lia. Qed.

Lemma popcount_S w x :
  popcount (S w) x = popcount w x + Z.b2z (Z.testbit x (Z.of_nat w)).
Proof.
  unfold popcount. rewrite seq_S, foldr_app. simpl. rewrite popcount_acc. lia.
Qed.

Lemma popcount_byte n a b :
  0 ≤ a < 256 → popcount (8 + n) (a + 256 * b) = popcount 8 a + popcount n b.
Proof.
  intros Ha. induction n as [|n IH].
  - rewrite Nat.add_0_r, Z.add_0_r. unfold popcount. cbn [foldr seq].
    change (a + 256 * b) with (a + 2 ^ 8 * b). by rewrite !testbit_add_shift by lia.
  - rewrite Nat.add_succ_r, (popcount_S (8 + n)), (popcount_S n), IH.
    change (a + 256 * b) with (a + 2 ^ 8 * b). rewrite testbit_add_shift by lia.
    destruct (Z.ltb_spec (Z.of_nat (8 + n)) 8); [lia|].
    replace (Z.of_nat (8 + n) - 8) with (Z.of_nat n) by lia. lia.
Qed.

Lemma byte_facts a :
  0 ≤ a < 256 →
  0 ≤ step1 a < 256 ∧ 0 ≤ step2 (step1 a) ≤ 0x44 ∧ step2 (step1 a) mod 16 ≤ 4
  ∧ step3 (step2 (step1 a)) = popcount 8 a ∧ 0 ≤ popcount 8 a ≤ 8.
Proof.
  intros Ha. pose proof (byte_ok_all a Ha) as H. unfold byte_ok in H.
  rewrite !andb_true_iff, ?Z.leb_le, ?Z.ltb_lt, ?Z.eqb_eq in H. lia.
Qed.

(** Four bytes, least significant first. *)
Definition join4 (a b c d : Z) : Z := a + 256 * (b + 256 * (c + 256 * (d + 256 * 0))).

Lemma join4_split x :
  0 ≤ x < 2 ^ 32 → ∃ a b c d, x = join4 a b c d ∧
    0 ≤ a < 256 ∧ 0 ≤ b < 256 ∧ 0 ≤ c < 256 ∧ 0 ≤ d < 256.
Proof.
  intros Hx. exists (x mod 256), (x / 256 mod 256), (x / 65536 mod 256), (x / 16777216).
  unfold join4. dlia.
Qed.

Lemma fold1 a b c d :
  0 ≤ a < 256 → 0 ≤ b < 256 → 0 ≤ c < 256 → 0 ≤ d < 256 →
  join4 a b c d - Z.land (Z.shiftr (join4 a b c d) 1) 0x55555555
  = join4 (step1 a) (step1 b) (step1 c) (step1 d).
Proof.
  intros. change 0x55555555 with (join4 0x55 0x55 0x55 0x55). unfold join4.
  by rewrite !step1_byte by lia.
Qed.

Lemma fold2 a b c d :
  0 ≤ a < 256 → 0 ≤ b < 256 → 0 ≤ c < 256 → 0 ≤ d < 256 →
  Z.land (join4 a b c d) 0x33333333
    + Z.land (Z.shiftr (join4 a b c d) 2) 0x33333333
  = join4 (step2 a) (step2 b) (step2 c) (step2 d).
Proof.
  intros. change 0x33333333 with (join4 0x33 0x33 0x33 0x33). unfold join4.
  by rewrite !step2_byte by lia.
Qed.

Lemma fold3 a b c d :
  0 ≤ a ≤ 0x44 → 0 ≤ b ≤ 0x44 → 0 ≤ c ≤ 0x44 → 0 ≤ d ≤ 0x44 →
  b mod 16 ≤ 4 → c mod 16 ≤ 4 → d mod 16 ≤ 4 →
  Z.land (join4 a b c d + Z.shiftr (join4 a b c d) 4) 0x0F0F0F0F
  = join4 (step3 a) (step3 b) (step3 c) (step3 d).
Proof.
  intros. change 0x0F0F0F0F with (join4 0x0F 0x0F 0x0F 0x0F). unfold join4.
  by rewrite !step3_byte by dlia.
Qed.

Lemma horizontal_sum a b c d :
  0 ≤ a ≤ 8 → 0 ≤ b ≤ 8 → 0 ≤ c ≤ 8 → 0 ≤ d ≤ 8 →
  Z.shiftr (u32 (join4 a b c d * 0x01010101)) 24 = a + b + c + d.
Proof.
  intros. set (low := a + 256 * (a + b) + 65536 * (a + b + c)).
  replace (u32 _) with (low + 2 ^ 24 * (a + b + c + d)); cycle 1.
  { eapply Z.mod_unique_pos with
      (q := (b + c + d) + 256 * (c + d) + 65536 * d); unfold low, join4; lia. }
  rewrite Z.shiftr_div_pow2 by lia.
  symmetry. apply (Z.div_unique_pos _ _ _ low); unfold low; lia.
Qed.

End Popcount.

(** ** Bit count *)

(** C33: on every 32-bit argument the parallel bit count of
    [numbers_of_bits_set], with its wrap-around arithmetic, returns the
    number of set bits. *)
Theorem numbers_of_bits_set_popcount x :
  0 ≤ x < 2 ^ 32 → numbers_of_bits_set x = popcount 32 x.
Proof.
  intros Hx. destruct (Popcount.join4_split x Hx) as (a & b & c & d & -> & Ha & Hb & Hc & Hd).
  destruct (Popcount.byte_facts a Ha) as (? & ? & ? & Ea & ?).
  destruct (Popcount.byte_facts b Hb) as (? & ? & ? & Eb & ?).
  destruct (Popcount.byte_facts c Hc) as (? & ? & ? & Ec & ?).
  destruct (Popcount.byte_facts d Hd) as (? & ? & ? & Ed & ?).
  unfold numbers_of_bits_set. rewrite Popcount.fold1 by done.
  rewrite (u32_small (Popcount.join4 _ _ _ _)) by (unfold Popcount.join4; lia).
  rewrite Popcount.fold2 by lia.
  rewrite (u32_small (Popcount.join4 _ _ _ _)) by (unfold Popcount.join4; lia).
  rewrite (u32_small (Popcount.join4 _ _ _ _ + _)); cycle 1.
  { rewrite Z.shiftr_div_pow2 by lia. unfold Popcount.join4. dlia. }
  rewrite Popcount.fold3 by lia. rewrite Ea, Eb, Ec, Ed, Popcount.horizontal_sum by lia.
  unfold Popcount.join4. rewrite (Popcount.popcount_byte 24) by done.
  rewrite (Popcount.popcount_byte 16), (Popcount.popcount_byte 8) by done.
  rewrite (Popcount.popcount_byte 0) by done. change (popcount 0 0) with 0. lia.
Qed.

Lemma numbers_of_bits_set_popcount_witness :
  numbers_of_bits_set 0xF00000A5 = popcount 32 0xF00000A5 ∧ popcount 32 0xF00000A5 = 8.
Proof. split; [apply numbers_of_bits_set_popcount; lia|reflexivity]. Defined.
