(* ===== verification/Types.v ===== *)
(** Data model of the driver (src/dicedev_types.h, src/dicedev_pt.h): the
    structures, the memory they live in, and the two environments the driver
    runs against, as type classes: [Hardware] (what [ioread32]/[iowrite32] on
    the mapped BAR do) and [Kernel] (the choices made by the kernel services:
    addresses, failures). *)

From S2P Require Import Prelude Cmd.

(** Kernel virtual addresses; [NULL] is [None : option ptr]. *)
Abbreviation ptr := positive.

(** Error codes *)
Definition EPERM : Z := 1.
Definition EIO : Z := 5.
Definition ENOMEM : Z := 12.
Definition EFAULT : Z := 14.
Definition EINVAL : Z := 22.
Definition ENOTTY : Z := 25.
Definition ENOSPC : Z := 28.

(** ** Environments *)

(** The board behind the BAR: registers are read and written at byte
    offsets.  Reading may change the board ([CMD_MANUAL_FREE] is polled while
    the board drains its queue). [poll_bound h] is a number of polls of
    [CMD_MANUAL_FREE] after which a board in state [h] has a free entry. *)
Class Hardware := {
  hw : Type;
  iowrite32 : Z → Z → hw → hw;
  ioread32 : Z → hw → Z * hw;
  poll_bound : hw → nat;
}.

(** [polls n h]: the board after [n] reads of [CMD_MANUAL_FREE]. *)
Fixpoint polls `{Hardware} (n : nat) (h : hw) : hw :=
  match n with
  | O => h
  | S n => polls n (ioread32 CMD_MANUAL_FREE h).2
  end.

(** The board frees a queue entry sooner or later. *)
Class HardwareLaws `{Hardware} : Prop := {
  poll_bound_spec : ∀ h, ∃ n, (n ≤ poll_bound h)%nat ∧
    (ioread32 CMD_MANUAL_FREE (polls n h)).1 ≠ 0;
}.

(** Kernel calls of which the driver only sees an integer result. *)
Inductive kcall :=
  | KNonseekableOpen
  | KPciEnableDevice | KDmaSetMask | KPciRequestRegions | KPciIomap
  | KRequestIrq | KKthreadRun | KCdevAdd | KDeviceCreate
  | KAllocChrdevRegion | KClassRegister | KPciRegisterDriver.

(** [k_alloc size live]: kmalloc/kzalloc; [live] are the addresses in use.
    [k_dma_alloc live]: dma_alloc_coherent of one page, with its bus address.
    [k_getfile live]: anon_inode_getfile, an address or an error code.
    [k_unused_fd used]: get_unused_fd_flags, a descriptor or an error code.
    [k_fd_shared]: whether the descriptor table of the calling process is
    shared with another thread; fdget then counts the reference it takes. *)
Class Kernel := {
  kenv : Type;
  k_alloc : Z → gset ptr → kenv → option ptr * kenv;
  k_dma_alloc : gset ptr → kenv → option (ptr * Z) * kenv;
  k_getfile : gset ptr → kenv → (ptr + Z) * kenv;
  k_unused_fd : gset Z → kenv → Z * kenv;
  k_call : kcall → kenv → Z * kenv;
  k_fd_shared : kenv → bool;
}.

(** Documented behaviour: allocators never return an address or a descriptor
    in use; a
    coherent page is page aligned and respects the 40-bit DMA mask that
    [dicedev_probe] sets; error codes are negative. *)
Class KernelLaws `{Kernel} : Prop := {
  k_alloc_fresh n live e p e' : k_alloc n live e = (Some p, e') → p ∉ live;
  k_dma_fresh live e p h e' : k_dma_alloc live e = (Some (p, h), e') → p ∉ live;
  k_dma_addr live e p h e' :
    k_dma_alloc live e = (Some (p, h), e') → 0 ≤ h < 2 ^ 40 ∧ h mod 4096 = 0;
  k_getfile_fresh live e p e' : k_getfile live e = (inl p, e') → p ∉ live;
  k_getfile_err live e r e' : k_getfile live e = (inr r, e') → r < 0;
  k_nonseekable e r e' : k_call KNonseekableOpen e = (r, e') → r ≤ 0;
  k_fd_fresh used e fd e' : k_unused_fd used e = (fd, e') → 0 ≤ fd → fd ∉ used;
}.

(** ** Structures *)

(** Sizes passed to kzalloc / kmalloc (64-bit kernel). *)
Definition sizeof_device : Z := 1024.
Definition sizeof_context : Z := 64.
Definition sizeof_buffer : Z := 104.
Definition sizeof_task : Z := 104.
Definition sizeof_page_table : Z := 40.

Definition DICEDEV_NUM_SLOTS : Z := 16.
Definition DICEDEV_BUFFER_NO_SLOT : Z := -1.
Definition DICEDEV_DEFAULT_SEED : Z := 42.
Definition DICEDEV_FENCE_DONE_NUM : Z := 1.
Definition DICEDEV_ADDR_BITS : Z := 40.

(** struct dicedev_page, struct dicedev_page_table; [pages] is the address
    of the kzalloc'ed array of pages. *)
Record dicedev_page := mkPage { page : option ptr; dma_handler : Z }.
Record dicedev_page_table := mkPt {
  pt : dicedev_page; pages : option ptr; num_pages : Z; max_size : Z }.

(** A coherent page: its bus address and its 1024 32-bit words. *)
Record dma_page := mkDma { dp_handle : Z; dp_words : list Z }.

Inductive dicedev_fence_state :=
  | DICEDEV_FENCE_STATE_NONE
  | DICEDEV_FENCE_STATE_WAITING
  | DICEDEV_FENCE_STATE_REACHED.
#[export] Instance fence_state_eq_dec : EqDecision dicedev_fence_state.
Proof. solve_decision. Defined.

(** struct dicedev_context *)
Record dicedev_context := mkCtx {
  ctx_dev : ptr; ctx_failed : bool; task_count : Z; allocated_buffers : list ptr }.

(** buff->reader *)
Record dicedev_reader := mkReader { result_count : Z; rd_offset : Z }.

(** struct dicedev_buffer *)
Record dicedev_buffer := mkBuf {
  buf_pt : option ptr; buf_dev : ptr; buf_ctx : ptr; buf_file : option ptr;
  destroyed : bool; seed : Z; seed_chg : bool; allowed : Z; usage_count : Z;
  binded_slot : Z; reader : dicedev_reader }.

(** struct dicedev_task_write / dicedev_task_run with their iterators, and
    struct dicedev_task, the tagged union of the two. *)
Record dicedev_task_write := mkTWrite { tw_cmd : ptr; cmd_size : Z; tw_offset : Z }.
Record dicedev_task_run := mkTRun {
  cBuff : ptr; tr_offset : Z; tr_size : Z;
  curr_pg : option ptr; curr_pg_no : Z; curr_pg_off : Z; it_bytes_left : Z }.
Inductive task_body :=
  | DICEDEV_TASK_TYPE_WRITE (w : dicedev_task_write)
  | DICEDEV_TASK_TYPE_RUN (r : dicedev_task_run).
Record dicedev_task := mkTask {
  body : task_body; task_ctx : ptr; task_results : Z; buff_out : ptr }.

(** An open file as far as the driver sees it. *)
Inductive file_kind := FDicedev | FBuffer | FOther.
#[export] Instance file_kind_eq_dec : EqDecision file_kind.
Proof. solve_decision. Defined.
Record file := mkFile { f_kind : file_kind; f_count : Z; private_data : option ptr }.

(** Resources of the kernel that the module or a device holds. *)
Inductive kres :=
  | RChrdevRegion | RClass | RPciDriver
  | RPciEnabled | RPciRegions | RIomap | RIrq | RThread | RCdev | RDeviceNode.
#[export] Instance kres_eq_dec : EqDecision kres.
Proof. solve_decision. Defined.

Section Structures.
Context `{Hardware, Kernel}.

(** struct dicedev_device.  [bar] is the board behind the mapped BAR and
    [mmio] the log of the register writes made to it, oldest first.
    [wt_thread]: whether [wt.thread] is a thread and not the error pointer of
    a kthread_run that failed.  [should_stop], [should_park] and [wt_sleeping]
    belong to that thread: the requests made to it and whether it sleeps on
    [wt.event_cond]. [dev_node] is the [struct device] of the char device. *)
Record dicedev_device := mkDev {
  idx : Z; dev_node : bool; bar : hw; mmio : list (Z * Z);
  slock : bool; feed_lock : bool;
  fence_state : dicedev_fence_state; dev_failed : bool;
  buff_slots : list (option ptr); free_slots : Z;
  wt_thread : bool; should_stop : bool; should_park : bool; wt_sleeping : bool;
  pending_tasks : list ptr; running_task : option ptr }.

(** Kernel memory as the driver uses it: one map per type of object (an
    address that is not in the map of the type it is used at is an invalid
    access), the file descriptor table, the files whose last reference was
    dropped and whose release is due, the module's device table, and the
    kernel resources held (by the module: [None], or by a device). *)
Record state := mkState {
  env : kenv;
  devs : gmap ptr dicedev_device;
  ctxs : gmap ptr dicedev_context;
  bufs : gmap ptr dicedev_buffer;
  tasks : gmap ptr dicedev_task;
  pts : gmap ptr dicedev_page_table;
  pgarrs : gmap ptr (list dicedev_page);
  cmds : gmap ptr (list Z);
  dmas : gmap ptr dma_page;
  files : gmap ptr file;
  fds : gmap Z ptr;
  releasing : list ptr;
  dicedev_devices : list (option ptr);
  held : list (option ptr * kres) }.

End Structures.
Arguments dicedev_device {_}.
Arguments state {_ _}.

(** Kernel code: computations on [state]. *)
Abbreviation K := (M state).

#[export] Instance eta_pt : Eta dicedev_page_table := λ r,
  mkPt (pt r) (pages r) (num_pages r) (max_size r).
#[export] Instance eta_dma : Eta dma_page := λ r, mkDma (dp_handle r) (dp_words r).
#[export] Instance eta_ctx : Eta dicedev_context := λ r,
  mkCtx (ctx_dev r) (ctx_failed r) (task_count r) (allocated_buffers r).
#[export] Instance eta_reader : Eta dicedev_reader := λ r,
  mkReader (result_count r) (rd_offset r).
#[export] Instance eta_buf : Eta dicedev_buffer := λ r,
  mkBuf (buf_pt r) (buf_dev r) (buf_ctx r) (buf_file r) (destroyed r) (seed r)
    (seed_chg r) (allowed r) (usage_count r) (binded_slot r) (reader r).
#[export] Instance eta_twrite : Eta dicedev_task_write := λ r,
  mkTWrite (tw_cmd r) (cmd_size r) (tw_offset r).
#[export] Instance eta_trun : Eta dicedev_task_run := λ r,
  mkTRun (cBuff r) (tr_offset r) (tr_size r) (curr_pg r) (curr_pg_no r)
    (curr_pg_off r) (it_bytes_left r).
#[export] Instance eta_task : Eta dicedev_task := λ r,
  mkTask (body r) (task_ctx r) (task_results r) (buff_out r).
#[export] Instance eta_file : Eta file := λ r,
  mkFile (f_kind r) (f_count r) (private_data r).
#[export] Instance eta_dev `{Hardware} : Eta dicedev_device := λ r,
  mkDev (idx r) (dev_node r) (bar r) (mmio r) (slock r) (feed_lock r)
    (fence_state r) (dev_failed r) (buff_slots r) (free_slots r) (wt_thread r) (should_stop r)
    (should_park r) (wt_sleeping r) (pending_tasks r) (running_task r).
#[export] Instance eta_state `{Hardware, Kernel} : Eta state := λ s,
  mkState (env s) (devs s) (ctxs s) (bufs s) (tasks s) (pts s) (pgarrs s)
    (cmds s) (dmas s) (files s) (fds s) (releasing s) (dicedev_devices s) (held s).

Section Memory.
Context `{Hardware, Kernel}.

(** Addresses in use. *)
Definition live (s : state) : gset ptr :=
  dom (devs s) ∪ dom (ctxs s) ∪ dom (bufs s) ∪ dom (tasks s) ∪ dom (pts s)
  ∪ dom (pgarrs s) ∪ dom (cmds s) ∪ dom (dmas s) ∪ dom (files s).

(** Dereferencing a pointer of a given type, and storing through it. *)
Definition get_dev (p : ptr) : K dicedev_device := fetch (λ s, devs s !! p).
Definition get_ctx (p : ptr) : K dicedev_context := fetch (λ s, ctxs s !! p).
Definition get_buf (p : ptr) : K dicedev_buffer := fetch (λ s, bufs s !! p).
Definition get_task (p : ptr) : K dicedev_task := fetch (λ s, tasks s !! p).
Definition get_pt (p : ptr) : K dicedev_page_table := fetch (λ s, pts s !! p).
Definition get_file (p : ptr) : K file := fetch (λ s, files s !! p).
Definition get_dma (p : ptr) : K dma_page := fetch (λ s, dmas s !! p).
Definition get_cmds (p : ptr) : K (list Z) := fetch (λ s, cmds s !! p).
Definition get_pgarr (p : ptr) : K (list dicedev_page) := fetch (λ s, pgarrs s !! p).

(** Memory after a store through a pointer. *)
Definition upd_dev (p : ptr) (x : dicedev_device) (s : state) : state :=
  s <| devs := <[p := x]> (devs s) |>.
Definition upd_ctx (p : ptr) (x : dicedev_context) (s : state) : state :=
  s <| ctxs := <[p := x]> (ctxs s) |>.
Definition upd_buf (p : ptr) (x : dicedev_buffer) (s : state) : state :=
  s <| bufs := <[p := x]> (bufs s) |>.
Definition upd_task (p : ptr) (x : dicedev_task) (s : state) : state :=
  s <| tasks := <[p := x]> (tasks s) |>.
Definition upd_pt (p : ptr) (x : dicedev_page_table) (s : state) : state :=
  s <| pts := <[p := x]> (pts s) |>.
Definition upd_file (p : ptr) (x : file) (s : state) : state :=
  s <| files := <[p := x]> (files s) |>.
Definition upd_dma (p : ptr) (x : dma_page) (s : state) : state :=
  s <| dmas := <[p := x]> (dmas s) |>.
Definition upd_pgarr (p : ptr) (x : list dicedev_page) (s : state) : state :=
  s <| pgarrs := <[p := x]> (pgarrs s) |>.

Definition put_dev (p : ptr) (x : dicedev_device) : K unit := modify (upd_dev p x).
Definition put_ctx (p : ptr) (x : dicedev_context) : K unit := modify (upd_ctx p x).
Definition put_buf (p : ptr) (x : dicedev_buffer) : K unit := modify (upd_buf p x).
Definition put_task (p : ptr) (x : dicedev_task) : K unit := modify (upd_task p x).
Definition put_pt (p : ptr) (x : dicedev_page_table) : K unit := modify (upd_pt p x).
Definition put_file (p : ptr) (x : file) : K unit := modify (upd_file p x).
Definition put_dma (p : ptr) (x : dma_page) : K unit := modify (upd_dma p x).
Definition put_pgarr (p : ptr) (x : list dicedev_page) : K unit := modify (upd_pgarr p x).

(** A pointer that must not be [NULL]. *)
Definition deref (p : option ptr) : K ptr := fetch (λ _, p).
(** [a[i]] with bounds. *)
Definition index {A} (l : list A) (i : Z) : K A :=
  fetch (λ _, if 0 <=? i then l !! Z.to_nat i else None).
Definition in_bounds {A} (l : list A) (i : Z) : bool :=
  (0 <=? i) && (i <? Z.of_nat (length l)).
(** [a[i] = x] with bounds. *)
Definition store {A} (l : list A) (i : Z) (x : A) : K (list A) :=
  if in_bounds l i then mret (<[Z.to_nat i := x]> l) else crash BadAccess.

(** kmalloc/kzalloc: the address, or [None] for [NULL]. *)
Definition kmalloc (size : Z) : K (option ptr) := λ s,
  let (r, e) := k_alloc size (live s) (env s) in Done r (s <| env := e |>).
(** get_unused_fd_flags: a descriptor that is not in use, or an error code. *)
Definition get_unused_fd : K Z := λ s,
  let (r, e) := k_unused_fd (dom (fds s)) (env s) in Done r (s <| env := e |>).
(** A kernel call with an integer result. *)
Definition kcall_int (c : kcall) : K Z := λ s,
  let (r, e) := k_call c (env s) in Done r (s <| env := e |>).

(** kfree of an object of each type. *)
Definition kfree_ctx (p : ptr) : K unit :=
  get_ctx p;; modify (λ s, s <| ctxs := delete p (ctxs s) |>).
Definition kfree_buf (p : ptr) : K unit :=
  get_buf p;; modify (λ s, s <| bufs := delete p (bufs s) |>).
Definition kfree_task (p : ptr) : K unit :=
  get_task p;; modify (λ s, s <| tasks := delete p (tasks s) |>).
Definition kfree_pt (p : ptr) : K unit :=
  get_pt p;; modify (λ s, s <| pts := delete p (pts s) |>).
Definition kfree_pgarr (p : ptr) : K unit :=
  get_pgarr p;; modify (λ s, s <| pgarrs := delete p (pgarrs s) |>).
Definition kfree_cmds (p : ptr) : K unit :=
  get_cmds p;; modify (λ s, s <| cmds := delete p (cmds s) |>).
Definition kfree_dev (p : ptr) : K unit :=
  get_dev p;; modify (λ s, s <| devs := delete p (devs s) |>).

(** Taking and giving back a kernel resource. *)
Definition acquire (o : option ptr) (r : kres) : K unit :=
  modify (λ s, s <| held := (o, r) :: held s |>).
Definition give_back (o : option ptr) (r : kres) : K unit :=
  h ← gets held;
  if bool_decide ((o, r) ∈ h)
  then modify (λ s, s <| held := filter (λ q, q ≠ (o, r)) h |>)
  else crash BadAccess.

(** spin_lock_irqsave / spin_unlock_irqrestore on [dev->slock] and
    [dev->feed_lock]. *)
Definition lock_slock (d : ptr) : K unit :=
  x ← get_dev d;
  if slock x then crash SelfDeadlock else put_dev d (x <| slock := true |>).
Definition unlock_slock (d : ptr) : K unit :=
  x ← get_dev d;
  if slock x then put_dev d (x <| slock := false |>) else crash BadUnlock.
Definition lock_feed (d : ptr) : K unit :=
  x ← get_dev d;
  if feed_lock x then crash SelfDeadlock else put_dev d (x <| feed_lock := true |>).
Definition unlock_feed (d : ptr) : K unit :=
  x ← get_dev d;
  if feed_lock x then put_dev d (x <| feed_lock := false |>) else crash BadUnlock.

(** Memories are compared field by field. *)
Lemma state_ext (s s' : state) :
  env s = env s' → devs s = devs s' → ctxs s = ctxs s' → bufs s = bufs s' →
  tasks s = tasks s' → pts s = pts s' → pgarrs s = pgarrs s' → cmds s = cmds s' →
  dmas s = dmas s' → files s = files s' → fds s = fds s' → releasing s = releasing s' →
  dicedev_devices s = dicedev_devices s' → held s = held s' → s = s'.
Proof. destruct s, s'. simpl. by intros -> -> -> -> -> -> -> -> -> -> -> -> -> ->. Qed.

Lemma upd_dev_twice p x y s : upd_dev p y (upd_dev p x s) = upd_dev p y s.
Proof. unfold upd_dev. rec_eq. by rewrite insert_insert_eq. Qed.

Lemma upd_dev_id p x s : devs s !! p = Some x → upd_dev p x s = s.
Proof. intros Hp. unfold upd_dev. destruct s. simpl in *. by rewrite insert_id. Qed.

Lemma devs_upd_dev p x s : devs (upd_dev p x s) !! p = Some x.
Proof. apply lookup_insert_eq. Qed.

Lemma upd_ctx_twice p x y s : upd_ctx p y (upd_ctx p x s) = upd_ctx p y s.
Proof. unfold upd_ctx. rec_eq. by rewrite insert_insert_eq. Qed.

Lemma upd_ctx_id p x s : ctxs s !! p = Some x → upd_ctx p x s = s.
Proof. intros Hp. unfold upd_ctx. destruct s. simpl in *. by rewrite insert_id. Qed.

Lemma ctxs_upd_ctx p x s : ctxs (upd_ctx p x s) !! p = Some x.
Proof. apply lookup_insert_eq. Qed.

Lemma upd_buf_twice p x y s : upd_buf p y (upd_buf p x s) = upd_buf p y s.
Proof. unfold upd_buf. rec_eq. by rewrite insert_insert_eq. Qed.

Lemma upd_buf_id p x s : bufs s !! p = Some x → upd_buf p x s = s.
Proof. intros Hp. unfold upd_buf. destruct s. simpl in *. by rewrite insert_id. Qed.

Lemma bufs_upd_buf p x s : bufs (upd_buf p x s) !! p = Some x.
Proof. apply lookup_insert_eq. Qed.

Lemma upd_task_twice p x y s : upd_task p y (upd_task p x s) = upd_task p y s.
Proof. unfold upd_task. rec_eq. by rewrite insert_insert_eq. Qed.

Lemma upd_task_id p x s : tasks s !! p = Some x → upd_task p x s = s.
Proof. intros Hp. unfold upd_task. destruct s. simpl in *. by rewrite insert_id. Qed.

Lemma tasks_upd_task p x s : tasks (upd_task p x s) !! p = Some x.
Proof. apply lookup_insert_eq. Qed.

Lemma not_live p s :
  p ∉ live s →
  devs s !! p = None ∧ ctxs s !! p = None ∧ bufs s !! p = None ∧ tasks s !! p = None ∧
  pts s !! p = None ∧ pgarrs s !! p = None ∧ cmds s !! p = None ∧ dmas s !! p = None ∧
  files s !! p = None.
Proof.
  unfold live. rewrite !not_elem_of_union, !not_elem_of_dom. tauto.
Qed.

Lemma wp_kmalloc n s (Q : option ptr → state → Prop) :
  (∀ r e, k_alloc n (live s) (env s) = (r, e) → Q r (s <| env := e |>)) →
  wp (kmalloc n) s Q.
Proof. intros HQ. unfold wp, kmalloc. destruct (k_alloc _ _ _) eqn:E. by apply HQ. Qed.

Lemma wp_index {A} (l : list A) (i : nat) a s (Q : A → state → Prop) :
  l !! i = Some a → Q a s → wp (index l (Z.of_nat i)) s Q.
Proof.
  intros Hi HQ. eapply wp_fetch; [|exact HQ]. simpl.
  destruct (Z.leb_spec 0 (Z.of_nat i)); [|lia]. by rewrite Nat2Z.id.
Qed.

Lemma wp_store {A} (l : list A) (i : nat) (a : A) s (Q : list A → state → Prop) :
  (i < length l)%nat → Q (<[i := a]> l) s → wp (store l (Z.of_nat i) a) s Q.
Proof.
  intros Hi HQ. unfold store, in_bounds.
  destruct (Z.leb_spec 0 (Z.of_nat i)), (Z.ltb_spec (Z.of_nat i) (Z.of_nat (length l)));
    simpl; try lia. rewrite Nat2Z.id. by apply wp_ret.
Qed.

End Memory.

(** Pointer accesses unfold to [fetch] and [modify], which [wp_step] solves. *)
Ltac unfold_mem :=
  unfold get_dev, get_ctx, get_buf, get_task, get_pt, get_file, get_dma, get_cmds,
    get_pgarr, put_dev, put_ctx, put_buf, put_task, put_pt, put_file, put_dma,
    put_pgarr, deref.
Ltac state_eq := apply state_ext; simpl; try done.
Ltac wp_mem := unfold_mem; wp_steps.
