(* ===== verification/Bench.v ===== *)
(** A concrete environment that satisfies the assumptions of the model, used
    to evaluate the definitions on concrete inputs: a board with a command
    queue of 255 entries that drains while it is polled, and a kernel whose
    allocators fail on request. *)

From S2P Require Import Prelude Cmd Types.

(** Occupied queue entries and the other registers. *)
Record board := mkBoard { occupied : nat; regs : gmap Z Z }.

Definition board_write (reg val : Z) (b : board) : board :=
  if reg =? CMD_MANUAL_FEED then mkBoard (S (occupied b)) (regs b)
  else if reg =? DICEDEV_INTR then
    mkBoard (occupied b)
      (<[reg := Z.ldiff (default 0 (regs b !! reg)) val]> (regs b))
  else mkBoard (occupied b) (<[reg := val]> (regs b)).

Definition board_read (reg : Z) (b : board) : Z * board :=
  if reg =? CMD_MANUAL_FREE then
    (if (occupied b <? 255)%nat then 1 else 0, mkBoard (pred (occupied b)) (regs b))
  else (default 0 (regs b !! reg), b).

#[export] Instance bench_hw : Hardware := {|
  hw := board; iowrite32 := board_write; ioread32 := board_read;
  poll_bound := occupied |}.

Lemma board_polls n b : occupied (polls n b) = (occupied b - n)%nat.
Proof.
  revert b. induction n as [|n IH]; intros b; simpl; [lia|].
  rewrite IH. simpl. lia.
Qed.

#[export] Instance bench_hw_laws : HardwareLaws.
Proof.
  split. intros b. exists (occupied b). split; [done|].
  change (ioread32 CMD_MANUAL_FREE (polls (occupied b) b))
    with (board_read CMD_MANUAL_FREE (polls (occupied b) b)).
  unfold board_read. simpl. pose proof (board_polls (occupied b) b) as E.
  rewrite E, Nat.sub_diag. done.
Qed.

(** An address above all addresses in use. *)
Definition next_ptr (live : gset ptr) : ptr :=
  Pos.succ (foldr Pos.max 1%positive (elements live)).

Lemma next_ptr_fresh live : next_ptr live ∉ live.
Proof.
  rewrite <-elem_of_elements. unfold next_ptr. intros Hin.
  assert (Hle : ∀ l (p : ptr), p ∈ l → (p ≤ foldr Pos.max 1 l)%positive).
  { intros l p. induction l as [|q l IH]; simpl; [set_solver|].
    intros [->|?]%elem_of_cons; [lia|]. specialize (IH H). lia. }
  apply Hle in Hin. lia.
Qed.

(** A descriptor above all descriptors in use; the first three are taken. *)
Definition next_fd (used : gset Z) : Z := 1 + foldr Z.max 2 (elements used).

Lemma next_fd_fresh used : next_fd used ∉ used.
Proof.
  rewrite <-elem_of_elements. unfold next_fd. intros Hin.
  assert (Hle : ∀ l fd, fd ∈ l → fd ≤ foldr Z.max 2 l).
  { intros l fd. induction l as [|q l IH]; simpl; [set_solver|].
    intros [->|?]%elem_of_cons; [lia|]. specialize (IH H). lia. }
  apply Hle in Hin. lia.
Qed.

(** The environment lists, for the coming fallible calls, whether they fail, and
    says whether descriptor tables are shared. *)
Record bench_env := mkEnv { failures : list bool; shared_fds : bool }.

Definition bench_alloc (live : gset ptr) (e : bench_env) : option ptr * bench_env :=
  match failures e with
  | true :: l => (None, mkEnv l (shared_fds e))
  | l => (Some (next_ptr live), mkEnv (tail l) (shared_fds e))
  end.

#[export] Instance bench_kernel : Kernel := {|
  kenv := bench_env;
  k_alloc _ live e := bench_alloc live e;
  k_dma_alloc live e :=
    let (r, e') := bench_alloc live e in
    ((λ p, (p, (4096 * Z.pos p) mod 2 ^ 40)) <$> r, e');
  k_getfile live e :=
    match bench_alloc live e with
    | (Some p, e') => (inl p, e')
    | (None, e') => (inr (- ENOMEM), e')
    end;
  k_unused_fd used e :=
    match failures e with
    | true :: l => (- EINVAL, mkEnv l (shared_fds e))
    | l => (next_fd used, mkEnv (tail l) (shared_fds e))
    end;
  k_call c e :=
    match failures e, c with
    | true :: l, _ => (- EINVAL, mkEnv l (shared_fds e))
    | l, KPciIomap => (1, mkEnv (tail l) (shared_fds e))
    | l, _ => (0, mkEnv (tail l) (shared_fds e))
    end;
  k_fd_shared := shared_fds;
|}.

Lemma bench_alloc_fresh live e p e' : bench_alloc live e = (Some p, e') → p ∉ live.
Proof.
  unfold bench_alloc. destruct e as [[|[] l] sh]; simpl; intros [= <- <-]; apply next_ptr_fresh.
Qed.

#[export] Instance bench_kernel_laws : KernelLaws.
Proof.
  split; simpl.
  - intros _. apply bench_alloc_fresh.
  - intros live e p h e'. destruct (bench_alloc live e) as [[q|] e''] eqn:E; [|done].
    intros [= <- <- <-]. by eapply bench_alloc_fresh.
  - intros live e p h e'. destruct (bench_alloc live e) as [[q|] e''] eqn:E; [|done].
    intros [= <- <- <-]. split; [by apply Z.mod_pos_bound|].
    replace (2 ^ 40) with (4096 * 2 ^ 28) by lia.
    rewrite Zmult_mod_distr_l, Z.mul_comm. by apply Z_mod_mult.
  - intros live e p e'. destruct (bench_alloc live e) as [[q|] e''] eqn:E; [|done].
    intros [= <- <-]. by eapply bench_alloc_fresh.
  - intros live e r e'. destruct (bench_alloc live e) as [[q|] e''] eqn:E; [done|].
    by intros [= <- <-].
  - intros e r e'. by destruct e as [[|[] l] sh]; intros [= <- <-].
  - intros used e fd e'. destruct e as [[|[] l] sh]; simpl; intros [= <- <-] ?; [|done|]; apply next_fd_fresh.
Qed.

(** An empty memory, and a freshly reset device. *)
Definition state0 (e : list bool) : state :=
  mkState (H0 := bench_kernel) (mkEnv e false) ∅ ∅ ∅ ∅ ∅ ∅ ∅ ∅ ∅ ∅ [] (replicate 256 None) [].
Definition device0 : dicedev_device :=
  mkDev 0 true (mkBoard 0 ∅) [] false false DICEDEV_FENCE_STATE_NONE false
    (replicate 16 None) 16 true false false false [] None.

(** Memory after a routine that completes. *)
Definition exec {A} (m : K A) (s : state) : state :=
  match m s with Done _ s' => s' | Crash _ => s end.
Definition result {A} (m : K A) (s : state) : option A :=
  match m s with Done a _ => Some a | Crash _ => None end.

Lemma exec_run {A} (m : K A) s a : result m s = Some a → m s = Done a (exec m s).
Proof. unfold result, exec. destruct (m s); congruence. Qed.
