(* ===== verification/Utils.v ===== *)
(** Communication with the board and slot management (src/dicedev_utils.c). *)

From S2P Require Import Prelude Cmd Types.

Section Utils.
Context `{Hardware, Kernel}.

(** ** Register access *)
Definition dicedev_iow (d : ptr) (reg val : Z) : K unit :=
  x ← get_dev d;
  put_dev d (x <| bar := iowrite32 reg (u32 val) (bar x) |>
               <| mmio := mmio x ++ [(reg, u32 val)] |>).

Definition dicedev_ior (d : ptr) (reg : Z) : K Z :=
  x ← get_dev d;
  let (v, h) := ioread32 reg (bar x) in
  put_dev d (x <| bar := h |>);;
  mret v.

(** [while (dicedev_ior(dev, CMD_MANUAL_FREE) == 0) {}], at most [fuel]+1
    polls. *)
Fixpoint wait_manual_free (fuel : nat) (d : ptr) : K unit :=
  v ← dicedev_ior d CMD_MANUAL_FREE;
  if v =? 0 then
    match fuel with
    | O => crash SpinExhausted
    | S fuel => wait_manual_free fuel d
    end
  else mret tt.

Fixpoint feed_words (d : ptr) (cmd : list Z) : K unit :=
  match cmd with
  | [] => mret tt
  | w :: cmd =>
      x ← get_dev d;
      wait_manual_free (poll_bound (bar x)) d;;
      dicedev_iow d CMD_MANUAL_FEED w;;
      feed_words d cmd
  end.

(** The array [cmd] of [cmd_size] words is the list [cmd]. *)
Definition feed_cmd (d : ptr) (cmd : list Z) : K unit :=
  lock_feed d;; feed_words d cmd;; unlock_feed d.

(** ** Slots *)

(** [for (i = 0; i < DICEDEV_NUM_SLOTS; i++) if (buff_slots[i] == NULL)]:
    the first free index at or after [i], or -1. *)
Fixpoint first_null (slots : list (option ptr)) (i : Z) : Z :=
  match slots with
  | [] => -1
  | None :: _ => i
  | Some _ :: slots => first_null slots (i + 1)
  end.

Definition get_slot (d : ptr) : K Z :=
  x ← get_dev d;
  mret (if 0 <? free_slots x then first_null (buff_slots x) 0 else -1).

Definition bind_slot (d b : ptr) (slot : Z) : K unit :=
  x ← get_dev d;
  cur ← index (buff_slots x) slot;
  BUG_ON (bool_decide (cur ≠ None));;
  slots ← store (buff_slots x) slot (Some b);
  put_dev d (x <| free_slots := u64 (free_slots x - 1) |> <| buff_slots := slots |>);;
  buf ← get_buf b;
  put_buf b (buf <| binded_slot := slot |> <| usage_count := 1 |>);;
  ptp ← deref (buf_pt buf);
  tbl ← get_pt ptp;
  feed_cmd d
    [ u32 (DICEDEV_USER_CMD_BIND_SLOT_HEADER slot (seed buf));
      u32 (allowed buf);
      u32 (dma_handler (pt tbl));
      u32 (Z.shiftr (dma_handler (pt tbl)) 32) ].

Definition unbind_slot (d b : ptr) : K unit :=
  buf ← get_buf b;
  BUG_ON (binded_slot buf =? DICEDEV_BUFFER_NO_SLOT);;
  let cmd := u32 (DICEDEV_USER_CMD_UNBIND_SLOT_HEADER (binded_slot buf)) in
  x ← get_dev d;
  slots ← store (buff_slots x) (binded_slot buf) None;
  put_buf b (buf <| binded_slot := DICEDEV_BUFFER_NO_SLOT |> <| usage_count := 0 |>);;
  put_dev d (x <| buff_slots := slots |> <| free_slots := u64 (free_slots x + 1) |>);;
  feed_cmd d [cmd].

Definition restart_device (d : ptr) : K unit :=
  dicedev_iow d DICEDEV_ENABLE 0;;
  dicedev_iow d DICEDEV_INTR_ENABLE 0;;
  dicedev_iow d DICEDEV_INTR DICEDEV_ACTIVE_INTR;;
  dicedev_iow d DICEDEV_INTR_ENABLE DICEDEV_ACTIVE_INTR;;
  dicedev_iow d DICEDEV_ENABLE 1.

(** ** Effects on memory *)

(** The log entries of words fed to the board, and device [x] after some
    register traffic: new board state, new log entries. *)
Definition feeds (ws : list Z) : list (Z * Z) := (λ w, (CMD_MANUAL_FEED, u32 w)) <$> ws.
Definition dev_io (h : hw) (log : list (Z * Z)) (x : dicedev_device) : dicedev_device :=
  x <| bar := h |> <| mmio := mmio x ++ log |>.

Lemma feeds_app l l' : feeds (l ++ l') = feeds l ++ feeds l'.
Proof. apply fmap_app. Qed.

Lemma dev_io_io h h' l l' x : dev_io h' l' (dev_io h l x) = dev_io h' (l ++ l') x.
Proof. unfold dev_io. simpl. by rewrite app_assoc. Qed.

Lemma dev_io_id x : dev_io (bar x) [] x = x.
Proof. destruct x. unfold dev_io. simpl. by rewrite app_nil_r. Qed.

Lemma wp_dicedev_iow d reg val s x (Q : unit → state → Prop) :
  devs s !! d = Some x →
  (∀ h, Q tt (upd_dev d (dev_io h [(reg, u32 val)] x) s)) →
  wp (dicedev_iow d reg val) s Q.
Proof. intros Hd HQ. unfold dicedev_iow, get_dev, put_dev. wp_steps. apply HQ. Qed.

Lemma wp_dicedev_ior d reg s x (Q : Z → state → Prop) :
  devs s !! d = Some x →
  (∀ v h, ioread32 reg (bar x) = (v, h) → Q v (upd_dev d (dev_io h [] x) s)) →
  wp (dicedev_ior d reg) s Q.
Proof.
  intros Hd HQ. unfold dicedev_ior, get_dev, put_dev. wp_steps.
  destruct (ioread32 reg (bar x)) as [v h] eqn:E. wp_steps.
  specialize (HQ v h eq_refl). unfold upd_dev, dev_io in HQ. simpl in HQ.
  by rewrite app_nil_r in HQ.
Qed.

Section Feeding.
Context `{!HardwareLaws}.

Lemma wp_wait_manual_free fuel n d s x (Q : unit → state → Prop) :
  devs s !! d = Some x → (n ≤ fuel)%nat →
  (ioread32 CMD_MANUAL_FREE (polls n (bar x))).1 ≠ 0 →
  (∀ h, Q tt (upd_dev d (dev_io h [] x) s)) →
  wp (wait_manual_free fuel d) s Q.
Proof.
  revert n s x. induction fuel as [|fuel IH]; intros n s x Hd Hn Hfree HQ; simpl.
  - replace n with 0%nat in Hfree by lia. simpl in Hfree.
    apply wp_bind. eapply wp_dicedev_ior; [done|]. intros v h E.
    rewrite E in Hfree. simpl in Hfree. destruct (Z.eqb_spec v 0); [done|]. by wp_steps.
  - apply wp_bind. eapply wp_dicedev_ior; [done|]. intros v h E.
    destruct (Z.eqb_spec v 0) as [->|]; [|by wp_steps].
    destruct n as [|n]; simpl in Hfree; rewrite E in Hfree; [done|].
    eapply IH with (n := n); [apply devs_upd_dev|lia|done|].
    intros h'. rewrite upd_dev_twice, dev_io_io. apply HQ.
Qed.

Lemma wp_feed_words d ws s x (Q : unit → state → Prop) :
  devs s !! d = Some x →
  (∀ h, Q tt (upd_dev d (dev_io h (feeds ws) x) s)) →
  wp (feed_words d ws) s Q.
Proof.
  revert s x. induction ws as [|w ws IH]; intros s x Hd HQ; simpl.
  - wp_steps. specialize (HQ (bar x)). simpl in HQ. by rewrite dev_io_id, upd_dev_id in HQ.
  - apply wp_bind. unfold get_dev. wp_step.
    destruct (poll_bound_spec (bar x)) as (n & Hn & Hfree).
    apply wp_bind. eapply wp_wait_manual_free; [done..|]. intros h.
    apply wp_bind. eapply wp_dicedev_iow; [apply devs_upd_dev|]. intros h'.
    eapply IH; [apply devs_upd_dev|]. intros h''.
    rewrite !upd_dev_twice, !dev_io_io. apply HQ.
Qed.

(** [feed_cmd] terminates and writes exactly its words, in order, to
    [CMD_MANUAL_FEED]; nothing else of memory changes. *)
Lemma wp_feed_cmd d ws s x (Q : unit → state → Prop) :
  devs s !! d = Some x → feed_lock x = false →
  (∀ h, Q tt (upd_dev d (dev_io h (feeds ws) x) s)) →
  wp (feed_cmd d ws) s Q.
Proof.
  intros Hd Hl HQ. unfold feed_cmd, lock_feed, unlock_feed, get_dev, put_dev.
  do 2 apply wp_bind. wp_step. rewrite Hl. wp_step. apply wp_bind.
  eapply wp_feed_words; [apply lookup_insert_eq|]. intros h.
  apply wp_bind. eapply wp_fetch; [apply devs_upd_dev|]. simpl. wp_step.
  specialize (HQ h). unfold upd_dev, dev_io in *. simpl in *.
  rewrite !insert_insert_eq, <-Hl. exact HQ.
Qed.

End Feeding.
End Utils.
