(* ===== verification/Slots.v ===== *)
(** Slot table of a device: the invariant that ties [dev->buff_slots],
    [dev->free_slots] and [buff->binded_slot] together, and the effect of
    [get_slot], [bind_slot] and [unbind_slot] (src/dicedev_utils.c) on it. *)

From S2P Require Import Prelude Cmd Types Utils.

Section Slots.
Context `{Hardware, Kernel}.

(** Free entries of a slot table. *)
Fixpoint count_null (l : list (option ptr)) : Z :=
  match l with
  | [] => 0
  | None :: l => 1 + count_null l
  | Some _ :: l => count_null l
  end.

(** The slot table of device [d] (whose contents are [x]) agrees with the
    buffers: an occupied entry and the [binded_slot] of its buffer name each
    other, and [free_slots] counts the free entries. *)
Record slots_ok (s : state) (d : ptr) (x : dicedev_device) : Prop := {
  so_length : length (buff_slots x) = Z.to_nat DICEDEV_NUM_SLOTS;
  so_free : free_slots x = count_null (buff_slots x);
  so_entry i b : buff_slots x !! i = Some (Some b) →
    ∃ buf, bufs s !! b = Some buf ∧ buf_dev buf = d ∧ binded_slot buf = Z.of_nat i;
  so_bound b buf : bufs s !! b = Some buf → buf_dev buf = d →
    binded_slot buf = DICEDEV_BUFFER_NO_SLOT ∨
    ∃ i, binded_slot buf = Z.of_nat i ∧ buff_slots x !! i = Some (Some b);
}.

(** Device and buffer after a successful bind and after an unbind. *)
Definition dev_bind (slot : nat) (b : ptr) (x : dicedev_device) : dicedev_device :=
  x <| free_slots := u64 (free_slots x - 1) |>
    <| buff_slots := <[slot := Some b]> (buff_slots x) |>.
Definition buf_bind (slot : nat) (buf : dicedev_buffer) : dicedev_buffer :=
  buf <| binded_slot := Z.of_nat slot |> <| usage_count := 1 |>.
Definition dev_unbind (slot : nat) (x : dicedev_device) : dicedev_device :=
  x <| buff_slots := <[slot := None]> (buff_slots x) |>
    <| free_slots := u64 (free_slots x + 1) |>.
Definition buf_unbind (buf : dicedev_buffer) : dicedev_buffer :=
  buf <| binded_slot := DICEDEV_BUFFER_NO_SLOT |> <| usage_count := 0 |>.

(** The words the board receives. *)
Definition bind_words (slot : nat) (buf : dicedev_buffer) (tbl : dicedev_page_table) : list Z :=
  [ u32 (DICEDEV_USER_CMD_BIND_SLOT_HEADER (Z.of_nat slot) (seed buf));
    u32 (allowed buf);
    u32 (dma_handler (pt tbl));
    u32 (Z.shiftr (dma_handler (pt tbl)) 32) ].
Definition unbind_words (slot : nat) : list Z :=
  [ u32 (DICEDEV_USER_CMD_UNBIND_SLOT_HEADER (Z.of_nat slot)) ].

(** *** Counting free entries *)

Lemma count_null_insert_Some l i b :
  l !! i = Some None → count_null (<[i := Some b]> l) = count_null l - 1.
Proof.
  revert i. induction l as [|[c|] l IH]; intros [|i] Hi; simplify_eq/=;
    try specialize (IH i Hi); lia.
Qed.

Lemma count_null_insert_None l i b :
  l !! i = Some (Some b) → count_null (<[i := None]> l) = count_null l + 1.
Proof.
  revert i. induction l as [|[c|] l IH]; intros [|i] Hi; simplify_eq/=;
    try specialize (IH i Hi); lia.
Qed.

Lemma count_null_bound l : 0 ≤ count_null l ≤ Z.of_nat (length l).
Proof. induction l as [|[c|] l IH]; simpl; lia. Qed.

Lemma first_null_spec l k :
  (first_null l k = -1 ∧ count_null l = 0) ∨
  (∃ i, first_null l k = k + Z.of_nat i ∧ l !! i = Some None ∧ 0 < count_null l ∧
    ∀ j, (j < i)%nat → ∃ b, l !! j = Some (Some b)).
Proof.
  revert k. induction l as [|[b|] l IH]; intros k; simpl; [by left|..].
  - destruct (IH (k + 1)) as [[-> ?]|(i & -> & Hi & ? & Hj)]; [by left|].
    right. exists (S i). split; [lia|]. split; [done|]. split; [done|].
    intros [|j] ?; simpl; [by eexists|apply Hj; lia].
  - right. exists 0%nat. pose proof (count_null_bound l).
    split; [lia|]. split; [done|]. split; [lia|]. intros j ?. lia.
Qed.

Lemma slots_ok_free_bound s d x : slots_ok s d x → 0 ≤ free_slots x ≤ 16.
Proof.
  intros [Hl Hf _ _]. rewrite Hf. pose proof (count_null_bound (buff_slots x)).
  rewrite Hl in *. change (Z.of_nat (Z.to_nat DICEDEV_NUM_SLOTS)) with 16 in *. done.
Qed.

Lemma wp_get_slot d s x (Q : Z → state → Prop) :
  devs s !! d = Some x →
  Q (if 0 <? free_slots x then first_null (buff_slots x) 0 else -1) s →
  wp (get_slot d) s Q.
Proof. intros Hd HQ. unfold get_slot, get_dev. by wp_steps. Qed.

Section Binding.
Context `{!HardwareLaws}.

Lemma wp_bind_slot d b (slot : nat) s x buf p tbl (Q : unit → state → Prop) :
  devs s !! d = Some x → feed_lock x = false →
  buff_slots x !! slot = Some None →
  bufs s !! b = Some buf → buf_pt buf = Some p → pts s !! p = Some tbl →
  (∀ h, Q tt (upd_dev d (dev_io h (feeds (bind_words slot buf tbl)) (dev_bind slot b x))
                (upd_buf b (buf_bind slot buf) s))) →
  wp (bind_slot d b (Z.of_nat slot)) s Q.
Proof.
  intros Hd Hl Hs Hb Hp Ht HQ. unfold bind_slot.
  wp_mem. eapply wp_index; [done|]. simpl. wp_steps.
  eapply wp_store; [by eapply lookup_lt_Some|]. wp_steps.
  eapply wp_feed_cmd; [simpl; apply lookup_insert_eq|done|]. intros h.
  specialize (HQ h). unfold upd_dev, upd_buf, dev_bind in *. simpl in *.
  by rewrite insert_insert_eq.
Qed.

Lemma wp_unbind_slot d b (slot : nat) s x buf (Q : unit → state → Prop) :
  devs s !! d = Some x → feed_lock x = false →
  bufs s !! b = Some buf → binded_slot buf = Z.of_nat slot →
  (slot < length (buff_slots x))%nat →
  (∀ h, Q tt (upd_dev d (dev_io h (feeds (unbind_words slot)) (dev_unbind slot x))
                (upd_buf b (buf_unbind buf) s))) →
  wp (unbind_slot d b) s Q.
Proof.
  intros Hd Hl Hb Hslot Hlt HQ. unfold unbind_slot. wp_mem.
  rewrite Hslot. apply wp_BUG_ON.
  { apply Z.eqb_neq. unfold DICEDEV_BUFFER_NO_SLOT. lia. }
  wp_steps. eapply wp_store; [done|]. wp_steps.
  eapply wp_feed_cmd; [simpl; apply lookup_insert_eq|done|]. intros h.
  specialize (HQ h). unfold upd_dev, upd_buf, dev_unbind in *. simpl in *.
  by rewrite insert_insert_eq.
Qed.

End Binding.

(** *** Preservation of the slot invariant *)

(** The invariant reads the slot table of the device, and of each buffer its
    device and slot; memories and devices that agree on these are
    interchangeable in it. *)
Definition slot_view (s : state) : gmap ptr (ptr * Z) :=
  (λ buf, (buf_dev buf, binded_slot buf)) <$> bufs s.
Definition same_slots (s s' : state) : Prop := slot_view s = slot_view s'.
Definition same_table (x y : dicedev_device) : Prop :=
  buff_slots x = buff_slots y ∧ free_slots x = free_slots y.

#[global] Instance same_slots_equiv : Equivalence same_slots.
Proof. unfold same_slots. split; [by intros ?|by intros ? ?|]. intros ? ? ? -> ->. done. Qed.

#[global] Instance same_table_equiv : Equivalence same_table.
Proof.
  unfold same_table. split; [by intros ?|by intros ? ? [-> ->]|].
  by intros ? ? ? [-> ->] [-> ->].
Qed.

Lemma slot_view_lookup s s' b buf :
  same_slots s s' → bufs s !! b = Some buf →
  ∃ buf', bufs s' !! b = Some buf' ∧ buf_dev buf' = buf_dev buf ∧
    binded_slot buf' = binded_slot buf.
Proof.
  intros E Hb. assert (Hv : slot_view s' !! b = Some (buf_dev buf, binded_slot buf)).
  { rewrite <-E. unfold slot_view. by rewrite lookup_fmap, Hb. }
  unfold slot_view in Hv. rewrite lookup_fmap in Hv.
  apply fmap_Some in Hv as (buf' & ? & ?). exists buf'. by simplify_eq.
Qed.

Lemma slots_ok_same s s' d x y :
  same_slots s s' → same_table x y → slots_ok s d x → slots_ok s' d y.
Proof.
  intros E [E1 E2] [Hlen Hfree Hentry Hbound]. split; rewrite <-?E1, <-?E2; [done..| |].
  - intros i b Hi. destruct (Hentry i b Hi) as (buf & Hb & Hd & Hs).
    destruct (slot_view_lookup s s' b buf E Hb) as (buf' & ? & ? & ?).
    exists buf'. split_and!; congruence.
  - intros b buf Hb Hd. destruct (slot_view_lookup s' s b buf) as (buf' & Hb' & Hd' & Hs');
      [by symmetry|done|]. rewrite <-Hs'. apply (Hbound b buf'); [done|congruence].
Qed.

#[global] Instance slots_ok_proper :
  Proper (same_slots ==> eq ==> same_table ==> iff) slots_ok.
Proof.
  intros s s' Es d ? <- x y Ex. split; apply slots_ok_same; done || by symmetry.
Qed.

(** A buffer update that keeps device and slot. *)
Lemma same_slots_upd_buf s b buf buf' :
  bufs s !! b = Some buf → buf_dev buf' = buf_dev buf → binded_slot buf' = binded_slot buf →
  same_slots (upd_buf b buf' s) s.
Proof.
  intros Hb E1 E2. unfold same_slots, slot_view. simpl. rewrite fmap_insert.
  apply insert_id. by rewrite lookup_fmap, Hb, E1, E2.
Qed.

Lemma slots_ok_bind s s' d x y b buf buf' slot :
  slots_ok s d x → bufs s !! b = Some buf →
  binded_slot buf = DICEDEV_BUFFER_NO_SLOT → buff_slots x !! slot = Some None →
  bufs s' = <[b := buf']> (bufs s) → buf_dev buf' = d → binded_slot buf' = Z.of_nat slot →
  same_table y (dev_bind slot b x) → slots_ok s' d y.
Proof.
  intros Hok Hb Hno Hs Es Hd' Hb'' [Ey Ef]. pose proof (slots_ok_free_bound _ _ _ Hok) as Hfb.
  destruct Hok as [Hlen Hfree Hentry Hbound].
  assert (Hlt : (slot < length (buff_slots x))%nat) by by eapply lookup_lt_Some.
  assert (Hpos : 0 < free_slots x).
  { rewrite Hfree. pose proof (count_null_insert_Some _ _ b Hs).
    pose proof (count_null_bound (<[slot := Some b]> (buff_slots x))). lia. }
  split; rewrite ?Ey, ?Ef, ?Es; simpl.
  - by rewrite length_insert.
  - rewrite u64_small by lia. rewrite (count_null_insert_Some _ _ b Hs). lia.
  - intros i b' Hi. destruct (decide (i = slot)) as [->|Hne].
    + rewrite list_lookup_insert_eq in Hi by done. simplify_eq.
      rewrite lookup_insert_eq. eauto.
    + rewrite list_lookup_insert_ne in Hi by done.
      destruct (Hentry i b' Hi) as (bufj & Hb' & ? & Hslot').
      assert (b' ≠ b) by (intros ->; simplify_eq; unfold DICEDEV_BUFFER_NO_SLOT in *; lia).
      rewrite lookup_insert_ne by done. eauto.
  - intros b' bufj Hb' Hdev'. destruct (decide (b' = b)) as [->|Hne].
    + rewrite lookup_insert_eq in Hb'. simplify_eq. right. exists slot.
      by rewrite list_lookup_insert_eq.
    + rewrite lookup_insert_ne in Hb' by done.
      destruct (Hbound b' bufj Hb' Hdev') as [?|(i & Hi & Hx)]; [by left|].
      right. exists i. split; [done|]. rewrite list_lookup_insert_ne; [done|congruence].
Qed.

(** A buffer without a slot may come and change. *)
Lemma slots_ok_unbound s s' d x y b buf' :
  slots_ok s d x → (∀ i, buff_slots x !! i ≠ Some (Some b)) →
  bufs s' = <[b := buf']> (bufs s) → binded_slot buf' = DICEDEV_BUFFER_NO_SLOT →
  same_table y x → slots_ok s' d y.
Proof.
  intros [Hlen Hfree Hentry Hbound] Hnb Es Hno [Ey Ef].
  split; rewrite ?Ey, ?Ef, ?Es; [done..| |].
  - intros i b' Hi. destruct (Hentry i b' Hi) as (buf & Hb' & ? & ?).
    rewrite lookup_insert_ne; [eauto|]. intros ->. by apply (Hnb i).
  - intros b' buf. destruct (decide (b' = b)) as [->|Hne].
    + rewrite lookup_insert_eq. intros [= <-] _. by left.
    + rewrite lookup_insert_ne by done. apply Hbound.
Qed.

Lemma slots_ok_new s d x b i : slots_ok s d x → bufs s !! b = None → buff_slots x !! i ≠ Some (Some b).
Proof. intros Hok Hb Hi. destruct (so_entry _ _ _ Hok i b Hi) as (? & ? & _). congruence. Qed.

Lemma slots_ok_unbind s s' d x y b buf buf' slot :
  slots_ok s d x → bufs s !! b = Some buf → buf_dev buf = d →
  binded_slot buf = Z.of_nat slot →
  bufs s' = <[b := buf']> (bufs s) → binded_slot buf' = DICEDEV_BUFFER_NO_SLOT →
  same_table y (dev_unbind slot x) → slots_ok s' d y.
Proof.
  intros Hok Hb Hdev Hslot Es Hno [Ey Ef]. pose proof (slots_ok_free_bound _ _ _ Hok) as Hfb.
  destruct Hok as [Hlen Hfree Hentry Hbound].
  assert (Hs : buff_slots x !! slot = Some (Some b)).
  { destruct (Hbound b buf Hb Hdev) as [?|(i & Hi & Hx)];
      [unfold DICEDEV_BUFFER_NO_SLOT in *; lia|].
    by replace slot with i by lia. }
  assert (Hlt : (slot < length (buff_slots x))%nat) by by eapply lookup_lt_Some.
  split; rewrite ?Ey, ?Ef, ?Es; simpl.
  - by rewrite length_insert.
  - rewrite u64_small by lia. rewrite (count_null_insert_None _ _ b Hs). lia.
  - intros i b' Hi. destruct (decide (i = slot)) as [->|Hne].
    + by rewrite list_lookup_insert_eq in Hi by done.
    + rewrite list_lookup_insert_ne in Hi by done.
      destruct (Hentry i b' Hi) as (bufj & Hb' & ? & Hslot').
      assert (b' ≠ b) by (intros ->; simplify_eq; lia).
      rewrite lookup_insert_ne by done. eauto.
  - intros b' bufj Hb' Hdev'. destruct (decide (b' = b)) as [->|Hne].
    + rewrite lookup_insert_eq in Hb'. simplify_eq. by left.
    + rewrite lookup_insert_ne in Hb' by done.
      destruct (Hbound b' bufj Hb' Hdev') as [?|(i & Hi & Hx)]; [by left|].
      right. exists i. split; [done|]. rewrite list_lookup_insert_ne; [done|congruence].
Qed.

(** A buffer without a slot may go. *)
Lemma slots_ok_delete s s' d x y b :
  slots_ok s d x → (∀ i, buff_slots x !! i ≠ Some (Some b)) → bufs s' = delete b (bufs s) →
  same_table y x → slots_ok s' d y.
Proof.
  intros [Hlen Hfree Hentry Hbound] Hnb Es [Ey Ef]. split; rewrite ?Ey, ?Ef, ?Es; [done..| |].
  - intros i b' Hi. destruct (Hentry i b' Hi) as (buf & Hb' & ? & ?).
    rewrite lookup_delete_ne; [eauto|]. intros ->. by apply (Hnb i).
  - intros b' buf [_ Hb']%lookup_delete_Some. by apply Hbound.
Qed.

(** A buffer that has no slot is not in the table. *)
Lemma slots_ok_absent s d x b buf i :
  slots_ok s d x → bufs s !! b = Some buf → binded_slot buf = DICEDEV_BUFFER_NO_SLOT →
  buff_slots x !! i ≠ Some (Some b).
Proof.
  intros Hok Hb Hno Hi. destruct (so_entry _ _ _ Hok i b Hi) as (buf' & Hb' & _ & Hs). simplify_eq.
  unfold DICEDEV_BUFFER_NO_SLOT in *. lia.
Qed.

Lemma dev_unbind_io slot h l x : dev_unbind slot (dev_io h l x) = dev_io h l (dev_unbind slot x).
Proof. done. Qed.


End Slots.
