(* ===== verification/Pt.v ===== *)
(** Page tables of the buffers (src/dicedev_pt.c): allocation and release of
    the table page and of the data pages, and the table entries. *)

From S2P Require Import Prelude Cmd Types Utils.

Section Pt.
Context `{Hardware, Kernel}.

Definition PRESENT_MASK : Z := 0x1.
Definition PRESENT (x : Z) : Z := Z.land x PRESENT_MASK.
Definition MAKE_PT_ENTRY (addr : Z) : Z := Z.lor 0x1 (Z.shiftr addr 8).

(** Where a [struct dicedev_page] lives: [&page_table->pt], or
    [&page_table->pages[i]] in the array at [arr]. *)
Inductive page_loc := LPt (ptp : ptr) | LArr (arr : ptr) (i : Z).

Definition load_page (l : page_loc) : K dicedev_page :=
  match l with
  | LPt ptp => t ← get_pt ptp; mret (pt t)
  | LArr arr i => a ← get_pgarr arr; index a i
  end.
Definition store_page (l : page_loc) (pg : dicedev_page) : K unit :=
  match l with
  | LPt ptp => t ← get_pt ptp; put_pt ptp (t <| pt := pg |>)
  | LArr arr i => a ← get_pgarr arr; a' ← store a i pg; put_pgarr arr a'
  end.

(** A fresh page with bus address [h]: 1024 words, all zero. *)
Definition zero_page (h : Z) : dma_page := mkDma h (replicate 1024 0).
Arguments zero_page : simpl never.

(** dma_alloc_coherent(DICEDEV_PAGE_SIZE, __GFP_ZERO): a zeroed page of 1024
    words, or [NULL] (the bus address is then left as it was). *)
Definition dma_alloc_coherent (old : dicedev_page) : K dicedev_page := λ s,
  match k_dma_alloc (live s) (env s) with
  | (Some (p, h), e) =>
      Done (mkPage (Some p) h)
        (s <| env := e |> <| dmas := <[p := zero_page h]> (dmas s) |>)
  | (None, e) => Done (mkPage None (dma_handler old)) (s <| env := e |>)
  end.

(** dma_free_coherent: the page must be live and have that bus address. *)
Definition dma_free_coherent (pg : dicedev_page) : K unit :=
  p ← deref (page pg);
  m ← get_dma p;
  if dp_handle m =? dma_handler pg
  then modify (λ s, s <| dmas := delete p (dmas s) |>)
  else crash BadAccess.

Definition page_init (p : option page_loc) : K Z :=
  match p with
  | None => mret (- EINVAL)
  | Some l =>
      old ← load_page l;
      pg ← dma_alloc_coherent old;
      store_page l pg;;
      match page pg with
      | None => mret (- ENOMEM)
      | Some _ => mret 0
      end
  end.

Definition page_free (p : option page_loc) : K unit :=
  match p with
  | None => mret tt
  | Some l => pg ← load_page l; dma_free_coherent pg
  end.

(** The allocation loop of [dicedev_pt_init] from index [i], [n] pages left;
    [false] is the jump to [err_pages]. *)
Fixpoint pt_init_loop (n : nat) (i : Z) (arr entries : ptr) : K bool :=
  match n with
  | O => mret true
  | S n =>
      r ← page_init (Some (LArr arr i));
      if r <? 0 then mret false
      else
        pg ← load_page (LArr arr i);
        m ← get_dma entries;
        ws ← store (dp_words m) i (u32 (MAKE_PT_ENTRY (dma_handler pg)));
        put_dma entries (m <| dp_words := ws |>);;
        pt_init_loop n (i + 1) arr entries
  end.

(** The release loop shared by [err_pages] and [dicedev_pt_free]: stop at
    the first entry that is not present. *)
Fixpoint pt_free_loop (n : nat) (i : Z) (arr entries : ptr) : K unit :=
  match n with
  | O => mret tt
  | S n =>
      m ← get_dma entries;
      e ← index (dp_words m) i;
      if PRESENT e =? 0 then mret tt
      else page_free (Some (LArr arr i));; pt_free_loop n (i + 1) arr entries
  end.

Definition pages_for (size : Z) : Z :=
  u64 (size + DICEDEV_PAGE_SIZE - 1) / DICEDEV_PAGE_SIZE.

Definition dicedev_pt_init (page_table : option ptr) (size : Z) : K Z :=
  match page_table with
  | None => mret (- EINVAL)
  | Some ptp =>
      r ← page_init (Some (LPt ptp));
      if r <? 0 then mret (- ENOMEM)
      else
        let n := pages_for size in
        tbl ← get_pt ptp;
        entries ← deref (page (pt tbl));
        a ← kmalloc (u64 (16 * n));
        put_pt ptp (tbl <| max_size := size |> <| num_pages := n |> <| pages := a |>);;
        match a with
        | None => page_free (Some (LPt ptp));; mret (- ENOMEM)
        | Some arr =>
            put_pgarr arr (replicate (Z.to_nat n) (mkPage None 0));;
            ok ← pt_init_loop (Z.to_nat n) 0 arr entries;
            if (ok : bool) then mret 0
            else
              pt_free_loop (Z.to_nat n) 0 arr entries;;
              kfree_pgarr arr;;
              page_free (Some (LPt ptp));;
              mret (- ENOMEM)
        end
  end.

Definition dicedev_pt_free (page_table : option ptr) : K unit :=
  match page_table with
  | None => mret tt
  | Some ptp =>
      tbl ← get_pt ptp;
      entries ← deref (page (pt tbl));
      arr ← deref (pages tbl);
      pt_free_loop (Z.to_nat (num_pages tbl)) 0 arr entries;;
      kfree_pgarr arr;;
      page_free (Some (LPt ptp))
  end.

(** ** Table entries *)

(** The bus address held in an entry: the entry with its low four flag bits
    cleared, shifted back. *)
Definition entry_addr (e : Z) : Z := Z.shiftl (Z.ldiff e 0xF) 8.

Lemma pt_entry_fits h : 0 ≤ h < 2 ^ 40 → 0 ≤ MAKE_PT_ENTRY h < 2 ^ 32.
Proof.
  intros Hh. apply lor_bound; [lia..|]. rewrite Z.shiftr_div_pow2 by lia. dlia.
Qed.

Lemma PRESENT_entry h : PRESENT (u32 (MAKE_PT_ENTRY h)) = 1.
Proof.
  unfold PRESENT, PRESENT_MASK. apply Z.bits_inj'. intros n Hn.
  rewrite Z.land_spec, u32_testbit by done. destruct (decide (n = 0)) as [->|].
  - unfold MAKE_PT_ENTRY. by rewrite Z.lor_spec.
  - rewrite (testbit_above 1 1) by lia. apply andb_false_r.
Qed.

(** For every page-aligned bus address within the 40-bit DMA mask the
    32-bit table entry loses nothing: it has the present bit set and the
    address can be read back from it. *)
Theorem pt_entry_roundtrip h :
  0 ≤ h < 2 ^ 40 → h mod DICEDEV_PAGE_SIZE = 0 →
  PRESENT (u32 (MAKE_PT_ENTRY h)) = 1 ∧ entry_addr (u32 (MAKE_PT_ENTRY h)) = h.
Proof.
  intros Hh Ha. split; [apply PRESENT_entry|]. rewrite u32_small by by apply pt_entry_fits.
  unfold entry_addr, MAKE_PT_ENTRY. apply Z.bits_inj'. intros n Hn.
  change DICEDEV_PAGE_SIZE with (2 ^ 12) in Ha.
  rewrite Z.shiftl_spec by lia. destruct (Z.ltb_spec n 12) as [Hlt|Hge].
  - replace (Z.testbit h n) with (Z.testbit (h mod 2 ^ 12) n)
      by (rewrite Z.mod_pow2_bits_low by lia; done).
    rewrite Ha, Z.bits_0. destruct (Z.ltb_spec n 8).
    + by apply Z.testbit_neg_r; lia.
    + rewrite Z.ldiff_spec. replace (Z.testbit 15 (n - 8)) with true; [apply andb_false_r|].
      change 15 with (Z.ones 4). by rewrite Z.ones_spec_low by lia.
  - rewrite Z.ldiff_spec, Z.lor_spec, Z.shiftr_spec by lia.
    rewrite (testbit_above 1 1), (testbit_above 15 4) by lia. simpl.
    rewrite andb_true_r. f_equal. lia.
Qed.

(** ** Allocation and release *)

(** Allocated pages, oldest first: kernel address and bus address. *)
Implicit Types acc : list (ptr * Z).

Definition page_of (q : ptr * Z) : dicedev_page := mkPage (Some q.1) q.2.
Definition entry_of (q : ptr * Z) : Z := u32 (MAKE_PT_ENTRY q.2).

(** The memory of coherent pages after allocating and after releasing [acc]. *)
Definition ins (acc : list (ptr * Z)) (D : gmap ptr dma_page) : gmap ptr dma_page :=
  foldr (λ q D, <[q.1 := zero_page q.2]> D) D acc.
Definition del (acc : list (ptr * Z)) (D : gmap ptr dma_page) : gmap ptr dma_page :=
  foldr (λ q D, delete q.1 D) D acc.

Lemma lookup_ins_ne acc D p : p ∉ acc.*1 → ins acc D !! p = D !! p.
Proof.
  induction acc as [|q acc IH]; simpl; [done|]. rewrite not_elem_of_cons.
  intros [Hne Hp]. by rewrite lookup_insert_ne, IH.
Qed.

Lemma ins_subseteq acc D : (∀ p, p ∈ acc.*1 → D !! p = None) → D ⊆ ins acc D.
Proof.
  intros Hf. apply map_subseteq_spec. intros p m Hp. rewrite lookup_ins_ne; [done|].
  intros Hin. by rewrite (Hf p Hin) in Hp.
Qed.

Lemma lookup_ins acc D i q :
  NoDup acc.*1 → acc !! i = Some q → ins acc D !! q.1 = Some (zero_page q.2).
Proof.
  revert i. induction acc as [|q' acc IH]; intros [|i] Hnd Hi; simplify_eq/=.
  - apply lookup_insert_eq.
  - apply NoDup_cons in Hnd as [Hnin Hnd]. rewrite lookup_insert_ne; [by eapply IH|].
    intros E. apply Hnin. rewrite E. apply list_elem_of_fmap. exists q.
    split; [done|]. by eapply list_elem_of_lookup_2.
Qed.

Lemma ins_insert acc D p v : p ∉ acc.*1 → <[p := v]> (ins acc D) = ins acc (<[p := v]> D).
Proof.
  induction acc as [|q acc IH]; simpl; [done|]. rewrite not_elem_of_cons. intros [Hne Hp].
  by rewrite insert_insert_ne, IH.
Qed.

Lemma ins_snoc acc q D :
  q.1 ∉ acc.*1 → ins (acc ++ [q]) D = <[q.1 := zero_page q.2]> (ins acc D).
Proof.
  intros Hq. rewrite ins_insert by done. unfold ins. by rewrite foldr_app.
Qed.

Lemma lookup_del_ne acc D p : p ∉ acc.*1 → del acc D !! p = D !! p.
Proof.
  induction acc as [|q acc IH]; simpl; [done|]. rewrite not_elem_of_cons.
  intros [Hne Hp]. by rewrite lookup_delete_ne, IH.
Qed.

Lemma del_delete acc D p : delete p (del acc D) = del acc (delete p D).
Proof. induction acc as [|q acc IH]; simpl; [done|]. by rewrite delete_delete, IH. Qed.

Lemma del_ins acc D : (∀ p, p ∈ acc.*1 → D !! p = None) → del acc (ins acc D) = D.
Proof.
  induction acc as [|q acc IH]; simpl; intros Hf; [done|].
  rewrite del_delete, delete_insert_eq, <-del_delete, IH by set_solver.
  apply delete_id, Hf. set_solver.
Qed.

Lemma dom_ins acc D : dom (ins acc D) = list_to_set acc.*1 ∪ dom D.
Proof.
  induction acc as [|q acc IH]; simpl; [set_solver|]. rewrite dom_insert_L, IH. set_solver.
Qed.

Lemma wp_dma_free p h s m (Q : unit → state → Prop) :
  dmas s !! p = Some m → dp_handle m = h →
  Q tt (s <| dmas := delete p (dmas s) |>) →
  wp (dma_free_coherent (mkPage (Some p) h)) s Q.
Proof.
  intros Hp Hh HQ. unfold dma_free_coherent. wp_mem. rewrite Hh, Z.eqb_refl. by wp_steps.
Qed.

(** The release loop frees the pages [L] whose entries are present and stops
    at the end of the table or at the first entry that is not present. *)
Lemma wp_pt_free_loop L n (i : nat) arr entries s m pgs (Q : unit → state → Prop) :
  dmas s !! entries = Some m → pgarrs s !! arr = Some pgs →
  NoDup L.*1 → entries ∉ L.*1 →
  (∀ j q, L !! j = Some q → pgs !! (i + j)%nat = Some (page_of q) ∧
     (∃ e, dp_words m !! (i + j)%nat = Some e ∧ PRESENT e ≠ 0) ∧
     ∃ mq, dmas s !! q.1 = Some mq ∧ dp_handle mq = q.2) →
  (n = length L ∨ (length L < n)%nat ∧
     ∃ e, dp_words m !! (i + length L)%nat = Some e ∧ PRESENT e = 0) →
  Q tt (s <| dmas := del L (dmas s) |>) →
  wp (pt_free_loop n (Z.of_nat i) arr entries) s Q.
Proof.
  revert n i s. induction L as [|q L IH]; intros n i s Hm Ha Hnd Hne HL Hn HQ.
  - destruct n as [|n]; simpl.
    { wp_steps. by destruct s. }
    destruct Hn as [|(_ & e & He & Hz)]; [done|]. rewrite Nat.add_0_r in He.
    wp_mem. eapply wp_index; [done|]. rewrite Hz. simpl. wp_steps. by destruct s.
  - destruct n as [|n]; [simpl in Hn; lia|]. simpl in *.
    apply NoDup_cons in Hnd as [Hq Hnd]. apply not_elem_of_cons in Hne as [Hne Hne'].
    destruct (HL 0%nat q eq_refl) as (Hpg & (e & He & Hp) & (mq & Hmq & Hh)).
    rewrite Nat.add_0_r in Hpg, He. wp_mem. eapply wp_index; [done|]. simpl.
    destruct (Z.eqb_spec (PRESENT e) 0); [done|].
    wp_mem. eapply wp_index; [done|].
    eapply wp_dma_free; [done..|].
    replace (Z.of_nat i + 1) with (Z.of_nat (S i)) by lia.
    apply IH; simpl; [by rewrite lookup_delete_ne|done|done|done|..].
    + intros j q' Hj. destruct (HL (S j) q' Hj) as (Hpj & Hej & mq' & ? & ?).
      rewrite Nat.add_succ_r in Hpj, Hej. split; [done|]. split; [done|]. exists mq'.
      rewrite lookup_delete_ne; [done|]. intros E. apply Hq. rewrite E.
      apply list_elem_of_fmap. exists q'. split; [done|]. by eapply list_elem_of_lookup_2.
    + rewrite Nat.add_succ_r in Hn. destruct Hn as [?|[? ?]]; [left; lia|right].
      split; [lia|done].
    + by rewrite <-del_delete.
Qed.

Lemma wp_page_init_arr arr i a old s (Q : Z → state → Prop) :
  pgarrs s !! arr = Some a → a !! i = Some old →
  (∀ p h e, k_dma_alloc (live s) (env s) = (Some (p, h), e) →
    Q 0 (s <| env := e |> <| dmas := <[p := zero_page h]> (dmas s) |>
           <| pgarrs := <[arr := <[i := page_of (p, h)]> a]> (pgarrs s) |>)) →
  (∀ e, Q (- ENOMEM) (s <| env := e |>
     <| pgarrs := <[arr := <[i := mkPage None (dma_handler old)]> a]> (pgarrs s) |>)) →
  wp (page_init (Some (LArr arr (Z.of_nat i)))) s Q.
Proof.
  intros Ha Hi Hs Hf. unfold page_init. simpl. wp_mem. eapply wp_index; [done|].
  wp_step. unfold dma_alloc_coherent, wp at 1.
  destruct (k_dma_alloc _ _) as [[[p h]|] e] eqn:E; simpl; wp_mem;
    (eapply wp_store; [by eapply lookup_lt_Some|]); wp_steps; [by apply Hs|apply Hf].
Qed.

Lemma wp_page_init_pt ptp t s (Q : Z → state → Prop) :
  pts s !! ptp = Some t →
  (∀ p h e, k_dma_alloc (live s) (env s) = (Some (p, h), e) →
    Q 0 (s <| env := e |> <| dmas := <[p := zero_page h]> (dmas s) |>
           <| pts := <[ptp := t <| pt := page_of (p, h) |>]> (pts s) |>)) →
  (∀ e, Q (- ENOMEM) (s <| env := e |>
     <| pts := <[ptp := t <| pt := mkPage None (dma_handler (pt t)) |>]> (pts s) |>)) →
  wp (page_init (Some (LPt ptp))) s Q.
Proof.
  intros Ht Hs Hf. unfold page_init. simpl. wp_mem.
  unfold dma_alloc_coherent, wp at 1.
  destruct (k_dma_alloc _ _) as [[[p h]|] e] eqn:E; simpl; wp_mem; [by apply Hs|apply Hf].
Qed.

Section Init.
Context `{!KernelLaws}.
Variables (s0 : state) (pp arr : ptr) (hp : Z) (n : nat).

(** Memory while [dicedev_pt_init] has allocated the table page [pp], the
    array [arr] of [n] pages and the data pages [acc]. *)
Definition pt_shape (e : kenv) (acc : list (ptr * Z)) : state :=
  s0 <| env := e |>
     <| dmas := ins acc (<[pp := mkDma hp (fill 1024 0 (entry_of <$> acc))]> (dmas s0)) |>
     <| pgarrs := <[arr := fill n (mkPage None 0) (page_of <$> acc)]> (pgarrs s0) |>.

Definition bus_ok (h : Z) : Prop := 0 ≤ h < 2 ^ 40 ∧ h mod DICEDEV_PAGE_SIZE = 0.

Record acc_ok (acc : list (ptr * Z)) : Prop := {
  acc_nodup : NoDup acc.*1;
  acc_pp : pp ∉ acc.*1;
  acc_fresh p : p ∈ acc.*1 → dmas s0 !! p = None;
  acc_bus : Forall (λ q, bus_ok q.2) acc;
}.

Lemma shape_snoc e acc p h :
  pp ∉ acc.*1 → p ∉ acc.*1 → p ≠ pp → (length acc < n)%nat → (length acc < 1024)%nat →
  pt_shape e (acc ++ [(p, h)])
  = (pt_shape e acc)
      <| dmas := <[pp := mkDma hp (<[length acc := entry_of (p, h)]>
                                     (fill 1024 0 (entry_of <$> acc)))]>
                   (<[p := zero_page h]> (dmas (pt_shape e acc))) |>
      <| pgarrs := <[arr := <[length acc := page_of (p, h)]>
                              (fill n (mkPage None 0) (page_of <$> acc))]>
                     (pgarrs (pt_shape e acc)) |>.
Proof.
  intros Hpp Hp Hne Hn Hn'. unfold pt_shape. rec_eq.
  - rewrite insert_insert_eq. f_equal. rewrite fmap_app. simpl.
    rewrite <-insert_fill by by rewrite length_fmap. by rewrite length_fmap.
  - rewrite ins_snoc by done. simpl. rewrite (insert_insert_ne _ pp p) by done.
    rewrite (ins_insert acc _ pp), insert_insert_eq by done. do 4 f_equal.
    rewrite fmap_app. simpl. rewrite <-insert_fill by by rewrite length_fmap.
    by rewrite length_fmap.
Qed.

Lemma acc_ok_snoc e acc p h :
  acc_ok acc → p ∉ live (pt_shape e acc) → bus_ok h →
  (p ∉ acc.*1) ∧ p ≠ pp ∧ acc_ok (acc ++ [(p, h)]).
Proof.
  intros [Hnd Hpp Hf Hb] Hp Hh.
  assert (Hp' : p ∉ dom (dmas (pt_shape e acc))) by (unfold live in Hp; set_solver).
  unfold pt_shape in Hp'. simpl in Hp'. rewrite dom_ins, dom_insert_L in Hp'.
  rewrite elem_of_union, elem_of_list_to_set, elem_of_union, elem_of_singleton in Hp'.
  assert (p ∉ acc.*1) by tauto. assert (p ≠ pp) by tauto.
  assert (p ∉ dom (dmas s0)) by tauto. split; [done|]. split; [done|]. split.
  - rewrite fmap_app. apply NoDup_app. split; [done|]. split; [set_solver|].
    apply NoDup_singleton.
  - rewrite fmap_app. set_solver.
  - intros q. rewrite fmap_app, elem_of_app. simpl. intros [?|Hq]; [by apply Hf|].
    apply list_elem_of_singleton in Hq as ->. by apply not_elem_of_dom.
  - apply Forall_app. by rewrite Forall_singleton.
Qed.

Lemma wp_pt_init_loop k e acc :
  (length acc + k = n)%nat → (n ≤ 1024)%nat → acc_ok acc →
  wp (pt_init_loop k (Z.of_nat (length acc)) arr pp) (pt_shape e acc)
    (λ ok s', ∃ e' acc', acc_ok acc' ∧ s' = pt_shape e' acc' ∧
       if ok then length acc' = n else (length acc' < n)%nat).
Proof.
  revert e acc. induction k as [|k IH]; intros e acc Hk Hn Hacc; simpl.
  { wp_steps. exists e, acc. split; [done|]. split; [done|]. lia. }
  apply wp_bind. eapply wp_page_init_arr;
    [simpl; apply lookup_insert_eq|apply fill_lookup_r; rewrite length_fmap; lia|..].
  - intros p h e' E. simpl.
    destruct (acc_ok_snoc e acc p h) as (Hp & Hne & Hacc'); [done| |by apply k_dma_addr in E|].
    { by apply k_dma_fresh in E. }
    wp_mem. eapply wp_index.
    { apply list_lookup_insert_eq. rewrite length_fill by (rewrite length_fmap; lia); lia. }
    simpl. apply wp_bind. eapply wp_fetch.
    { simpl. rewrite lookup_insert_ne by done. rewrite lookup_ins_ne by apply Hacc.
      apply lookup_insert_eq. }
    simpl. apply wp_bind. eapply wp_store.
    { rewrite length_fill by (rewrite length_fmap; lia); lia. }
    wp_step. wp_step. specialize (IH e' (acc ++ [(p, h)])). rewrite length_app in IH.
    simpl in IH. rewrite shape_snoc in IH by (apply Hacc || done || lia).
    replace (Z.of_nat (length acc) + 1) with (Z.of_nat (length acc + 1)) by lia.
    eapply wp_mono; [apply IH; [lia|done|done]|done].
  - intros e'. simpl. wp_step. exists e', acc. split; [done|]. split; [|lia].
    unfold pt_shape. rec_eq. rewrite insert_insert_eq, list_insert_id; [done|].
    apply fill_lookup_r. rewrite length_fmap. lia.
Qed.

End Init.
(** ** Well-formed page tables *)

(** A complete table: table page [pp], array [arr], data pages [L]; every
    page is live, the pages are distinct, and entry [i] of the table page
    holds the bus address of page [i]. *)
Record pt_wf (s : state) (tbl : dicedev_page_table) (pp : ptr) (hp : Z) (arr : ptr)
    (L : list (ptr * Z)) : Prop := {
  ptw_pt : pt tbl = page_of (pp, hp);
  ptw_pages : pages tbl = Some arr;
  ptw_arr : pgarrs s !! arr = Some (page_of <$> L);
  ptw_num : num_pages tbl = Z.of_nat (length L);
  ptw_size : 0 ≤ max_size tbl ≤ DICEDEV_MAX_BUFFER_SIZE;
  ptw_cover : num_pages tbl = pages_for (max_size tbl);
  ptw_nodup : NoDup (pp :: L.*1);
  ptw_bus : Forall (λ q, bus_ok q.2) ((pp, hp) :: L);
  ptw_table : ∃ m, dmas s !! pp = Some m ∧ dp_handle m = hp ∧
    length (dp_words m) = 1024%nat ∧
    ∀ i q, L !! i = Some q → dp_words m !! i = Some (entry_of q);
  ptw_page q : q ∈ L → ∃ m, dmas s !! q.1 = Some m ∧ dp_handle m = q.2 ∧
    length (dp_words m) = 1024%nat;
}.

(** The words of the data pages, in order. *)
Definition page_words (s : state) (q : ptr * Z) : list Z :=
  match dmas s !! q.1 with Some m => dp_words m | None => [] end.
Definition buffer_words (s : state) (L : list (ptr * Z)) : list Z :=
  concat (page_words s <$> L).

Lemma pt_wf_words s tbl pp hp arr L :
  pt_wf s tbl pp hp arr L → Forall (λ l, length l = 1024%nat) (page_words s <$> L).
Proof.
  intros [_ _ _ _ _ _ _ _ _ Hp]. apply Forall_fmap, Forall_forall. intros q Hq.
  destruct (Hp q Hq) as (m & Hm & _ & Hl). simpl. unfold page_words. by rewrite Hm.
Qed.

(** A store to word [i mod 1024] of page [i / 1024] is a store to word [i]. *)
Lemma buffer_words_store s tbl pp hp arr L i q m v :
  pt_wf s tbl pp hp arr L → 0 ≤ i → L !! Z.to_nat (i / 1024) = Some q → dmas s !! q.1 = Some m →
  buffer_words (upd_dma q.1 (m <| dp_words := <[Z.to_nat (i mod 1024) := v]> (dp_words m) |>) s) L =
  <[Z.to_nat i := v]> (buffer_words s L).
Proof.
  intros Hwf Hi Hq Hm. pose proof (pt_wf_words _ _ _ _ _ _ Hwf) as Hlen.
  pose proof (ptw_nodup _ _ _ _ _ _ Hwf) as Hnd. apply NoDup_cons in Hnd as [_ Hnd].
  assert (Hl : (page_words s <$> L) !! Z.to_nat (i / 1024) = Some (dp_words m)).
  { rewrite list_lookup_fmap, Hq. simpl. unfold page_words. by rewrite Hm. }
  replace (Z.to_nat i) with (Z.to_nat (i / 1024) * 1024 + Z.to_nat (i mod 1024))%nat by dlia.
  unfold buffer_words. rewrite <-(insert_concat 1024 _ _ _ (dp_words m)); [|done|done|dlia].
  f_equal. apply list_eq. intros k. rewrite list_lookup_fmap.
  destruct (decide (k = Z.to_nat (i / 1024))) as [->|Hne].
  - rewrite list_lookup_insert_eq by by eapply lookup_lt_Some. rewrite Hq. simpl.
    unfold page_words. simpl. by rewrite lookup_insert_eq.
  - rewrite list_lookup_insert_ne, list_lookup_fmap by done. destruct (L !! k) as [q'|] eqn:Hk; [|done].
    simpl. f_equal. unfold page_words. simpl. rewrite lookup_insert_ne; [done|]. intros E. apply Hne.
    eapply (NoDup_lookup L.*1); [done|by rewrite list_lookup_fmap, Hk|]. rewrite list_lookup_fmap, Hq. simpl. congruence.
Qed.

(** A table stays well formed when memory grows. *)
Lemma pt_wf_mono s s' tbl pp hp arr L :
  pgarrs s ⊆ pgarrs s' → dmas s ⊆ dmas s' → pt_wf s tbl pp hp arr L →
  pt_wf s' tbl pp hp arr L.
Proof.
  intros E1 E2 [? ? Ha ? ? ? ? ? (m & Hm & Hr) Hp]. split; try done.
  - by eapply lookup_weaken.
  - exists m. split; [by eapply lookup_weaken|done].
  - intros q Hq. destruct (Hp q Hq) as (mq & ? & ?). exists mq.
    split; [by eapply lookup_weaken|done].
Qed.

Lemma pt_wf_same s s' tbl pp hp arr L :
  pgarrs s' = pgarrs s → dmas s' = dmas s → pt_wf s tbl pp hp arr L →
  pt_wf s' tbl pp hp arr L.
Proof. intros E1 E2. apply pt_wf_mono; by rewrite ?E1, ?E2. Qed.

Lemma pages_for_spec size :
  0 ≤ size ≤ DICEDEV_MAX_BUFFER_SIZE →
  0 ≤ pages_for size ≤ 1024 ∧ size ≤ 4096 * pages_for size < size + 4096.
Proof.
  unfold pages_for, DICEDEV_MAX_BUFFER_SIZE, DICEDEV_PAGE_SIZE. intros Hs.
  rewrite u64_small by lia. dlia.
Qed.

(** Releasing a well-formed table removes exactly its pages and its array. *)
Lemma wp_pt_free ptp s tbl pp hp arr L (Q : unit → state → Prop) :
  pts s !! ptp = Some tbl → pt_wf s tbl pp hp arr L →
  Q tt (s <| dmas := delete pp (del L (dmas s)) |> <| pgarrs := delete arr (pgarrs s) |>) →
  wp (dicedev_pt_free (Some ptp)) s Q.
Proof.
  intros Ht [Hpt Hpg Harr Hnum _ _ Hnd _ (m & Hm & Hh & Hlen & Hent) Hpage] HQ.
  apply NoDup_cons in Hnd as [Hpp Hnd]. unfold dicedev_pt_free. wp_mem.
  eapply wp_fetch; [by rewrite Hpt|]. wp_steps.
  rewrite Hnum, Nat2Z.id.
  eapply (wp_pt_free_loop L _ 0); [done..| |by left|].
  - intros j q Hj. simpl. split; [by rewrite list_lookup_fmap, Hj|]. split.
    + exists (entry_of q). split; [by apply Hent|]. unfold entry_of; by rewrite PRESENT_entry.
    + destruct (Hpage q) as (mq & ? & ? & _); [by eapply list_elem_of_lookup_2|]. eauto.
  - unfold kfree_pgarr, page_free. simpl. wp_mem. rewrite Hpt.
    eapply wp_dma_free; [simpl; by rewrite lookup_del_ne|done|]. exact HQ.
Qed.

Section InitFree.
Context `{!KernelLaws}.

(** Memory after a successful [dicedev_pt_init]: the table, the array and
    the pages [acc] were added, nothing else changed. *)
Definition pt_added (s : state) (ptp : ptr) (t : dicedev_page_table) (size : Z)
    (e : kenv) (pp : ptr) (hp : Z) (arr : ptr) (acc : list (ptr * Z)) : state :=
  pt_shape (s <| pts := <[ptp := mkPt (page_of (pp, hp)) (Some arr) (pages_for size) size]>
                          (pts s) |>)
    pp arr hp (Z.to_nat (pages_for size)) e acc.

Lemma acc_ok_nil s pp : acc_ok s pp [].
Proof. split; simpl; [constructor|set_solver|set_solver|constructor]. Qed.

Lemma acc_ok_dmas s s' pp acc : dmas s = dmas s' → acc_ok s pp acc → acc_ok s' pp acc.
Proof. intros E [? ? Hf ?]. rewrite E in Hf. by split. Qed.

Lemma pt_shape_nil s0 pp arr hp n e :
  pt_shape s0 pp arr hp n e []
  = s0 <| env := e |> <| dmas := <[pp := zero_page hp]> (dmas s0) |>
       <| pgarrs := <[arr := replicate n (mkPage None 0)]> (pgarrs s0) |>.
Proof.
  unfold pt_shape, zero_page. cbn [fmap list_fmap]. by rewrite !fill_nil.
Qed.

(** The clean-up after a failed allocation, from [err_pages] on. *)
Lemma wp_pt_init_cleanup s0 ptp tbl pp arr hp n e acc (Q : Z → state → Prop) :
  pts s0 !! ptp = Some tbl → pt tbl = page_of (pp, hp) →
  acc_ok s0 pp acc → (length acc < n)%nat → (n ≤ 1024)%nat →
  dmas s0 !! pp = None → pgarrs s0 !! arr = None →
  Q (- ENOMEM) (s0 <| env := e |>) →
  wp (pt_free_loop n 0 arr pp;; kfree_pgarr arr;; page_free (Some (LPt ptp));;
      mret (- ENOMEM)) (pt_shape s0 pp arr hp n e acc) Q.
Proof.
  intros Ht Hpt [Hnd Hpp Hf _] Hlt Hn Hpp0 Harr0 HQ. apply wp_bind.
  eapply (wp_pt_free_loop acc n 0).
  { simpl. rewrite lookup_ins_ne by done. apply lookup_insert_eq. }
  { simpl. apply lookup_insert_eq. }
  { done. } { done. }
  { intros j q Hj. simpl. split; [|split].
    - apply fill_lookup_l. by rewrite list_lookup_fmap, Hj.
    - exists (entry_of q). split; [|unfold entry_of; by rewrite PRESENT_entry].
      apply fill_lookup_l. by rewrite list_lookup_fmap, Hj.
    - exists (zero_page q.2). split; [by eapply lookup_ins|done]. }
  { right. split; [done|]. exists 0. split; [|done]. simpl.
    apply fill_lookup_r. rewrite length_fmap. lia. }
  unfold kfree_pgarr, page_free. simpl. wp_mem.
  rewrite del_ins, delete_insert_eq, delete_id by
    (done || intros p Hp; rewrite lookup_insert_ne by set_solver; by apply Hf).
  rewrite Hpt. eapply wp_dma_free; [apply lookup_insert_eq|done|]. simpl. wp_step.
  rewrite delete_insert_eq, delete_id by done. by destruct s0.
Qed.

Lemma pt_init_spec ptp t size s :
  pts s !! ptp = Some t → 0 ≤ size ≤ DICEDEV_MAX_BUFFER_SIZE →
  wp (dicedev_pt_init (Some ptp) size) s (λ r s',
    (r = 0 ∧ ∃ e pp hp arr acc, s' = pt_added s ptp t size e pp hp arr acc ∧
       acc_ok s pp acc ∧ length acc = Z.to_nat (pages_for size) ∧
       bus_ok hp ∧ dmas s !! pp = None ∧ pgarrs s !! arr = None) ∨
    (r = - ENOMEM ∧ ∃ e t', s' = s <| env := e |> <| pts := <[ptp := t']> (pts s) |>)).
Proof.
  intros Ht Hsize. pose proof (pages_for_spec size Hsize) as [Hn _].
  unfold dicedev_pt_init. apply wp_bind. eapply wp_page_init_pt; [done|..]; simpl.
  2:{ intros e. wp_steps. right. eauto. }
  intros pp hp e E. pose proof (k_dma_addr _ _ _ _ _ E) as Hhp.
  apply k_dma_fresh, not_live in E as (_ & _ & _ & _ & _ & _ & _ & Hpp & _).
  wp_mem. apply wp_kmalloc. simpl. intros [arr|] e' Ea; wp_mem; unfold upd_pt, upd_pgarr; simpl;
    rewrite !insert_insert_eq.
  2:{ eapply wp_dma_free; [simpl; apply lookup_insert_eq|done|]. simpl. wp_step. right.
      split; [done|]. exists e'. eexists. state_eq. by rewrite delete_insert_eq, delete_id. }
  apply k_alloc_fresh, not_live in Ea as (_ & _ & _ & _ & _ & Harr & _).
  set (s0 := s <| pts := <[ptp := mkPt (page_of (pp, hp)) (Some arr) (pages_for size) size]>
                          (pts s) |>).
  match goal with |- wp _ ?st _ =>
    replace st with (pt_shape s0 pp arr hp (Z.to_nat (pages_for size)) e' [])
      by by rewrite pt_shape_nil end.
  eapply wp_mono.
  { apply (wp_pt_init_loop _ _ _ _ _ _ _ []); [done|lia|apply acc_ok_nil]. }
  intros ok s' (e'' & acc & Hacc & -> & Hlen). destruct ok.
  - wp_step. left. split; [done|]. exists e'', pp, hp, arr, acc.
    split; [done|]. split; [by apply (acc_ok_dmas s0)|done].
  - eapply wp_pt_init_cleanup; [apply lookup_insert_eq|done|done|done|lia|done|done|].
    right. split; [done|]. exists e''. by eexists.
Qed.

Lemma pt_added_wf s ptp t size e pp hp arr acc :
  0 ≤ size ≤ DICEDEV_MAX_BUFFER_SIZE → acc_ok s pp acc →
  length acc = Z.to_nat (pages_for size) → bus_ok hp →
  pt_wf (pt_added s ptp t size e pp hp arr acc)
    (mkPt (page_of (pp, hp)) (Some arr) (pages_for size) size) pp hp arr acc.
Proof.
  intros Hsize [Hnd Hpp Hf Hb] Hlen Hhp. pose proof (pages_for_spec size Hsize) as [Hn _].
  split; simpl; try done.
  - rewrite lookup_insert_eq. f_equal. unfold fill. rewrite length_fmap, Hlen, Nat.sub_diag.
    apply app_nil_r.
  - lia.
  - by constructor.
  - by constructor.
  - eexists. rewrite lookup_ins_ne by done. split; [apply lookup_insert_eq|].
    split; [done|]. simpl. split; [apply length_fill; rewrite length_fmap; lia|].
    intros i q Hi. apply fill_lookup_l. by rewrite list_lookup_fmap, Hi.
  - intros q [i Hi]%list_elem_of_lookup_1. eexists.
    split; [by eapply lookup_ins|]. split; [done|]. apply length_replicate.
Qed.

(** C32: for every size the ioctl accepts, [dicedev_pt_init] returns: either
    0, with a complete well-formed table of [ceil(size / 4096)] zeroed pages,
    all of them fresh, or -ENOMEM, in which case every page and the array
    allocated on the way have been released again and no other memory
    changed. *)
Theorem pt_init_all_or_nothing ptp t size s :
  pts s !! ptp = Some t → 0 ≤ size ≤ DICEDEV_MAX_BUFFER_SIZE →
  ∃ r s', dicedev_pt_init (Some ptp) size s = Done r s' ∧
    ((r = 0 ∧ ∃ tbl pp hp arr L, pts s' !! ptp = Some tbl ∧ max_size tbl = size ∧
        pt_wf s' tbl pp hp arr L ∧ ∀ p, p ∈ pp :: L.*1 → dmas s !! p = None) ∨
     (r = - ENOMEM ∧ dmas s' = dmas s ∧ pgarrs s' = pgarrs s ∧
        dom (pts s') = dom (pts s))).
Proof.
  intros Ht Hsize. pose proof (pt_init_spec ptp t size s Ht Hsize) as Hwp.
  apply wp_run in Hwp as (r & s' & Hrun & Hr). exists r, s'. split; [done|].
  destruct Hr as [(-> & e & pp & hp & arr & acc & -> & Hacc & Hlen & Hhp & Hpp & _)|
                  (-> & e & t' & ->)]; [left|right].
  - split; [done|]. eexists _, pp, hp, arr, acc. split; [apply lookup_insert_eq|].
    split; [done|]. split; [by apply pt_added_wf|].
    intros p [->|?]%elem_of_cons; [done|by apply Hacc].
  - simpl. split; [done|]. split; [done|]. split; [done|].
    rewrite dom_insert_lookup_L; [done|by eexists].
Qed.

(** [dicedev_pt_free] undoes [dicedev_pt_init]: after a successful
    initialisation and the release, the coherent pages and page arrays in use
    are exactly those in use before. *)
Theorem pt_init_free_roundtrip ptp t size s s' :
  pts s !! ptp = Some t → 0 ≤ size ≤ DICEDEV_MAX_BUFFER_SIZE →
  dicedev_pt_init (Some ptp) size s = Done 0 s' →
  ∃ s'', dicedev_pt_free (Some ptp) s' = Done tt s'' ∧
    dmas s'' = dmas s ∧ pgarrs s'' = pgarrs s.
Proof.
  intros Ht Hsize Hrun. pose proof (pt_init_spec ptp t size s Ht Hsize) as Hwp.
  unfold wp in Hwp. rewrite Hrun in Hwp.
  destruct Hwp as [(_ & e & pp & hp & arr & acc & -> & Hacc & Hlen & Hhp & Hpp & Harr)|
                   [? _]]; [|done].
  assert (Hfree : wp (dicedev_pt_free (Some ptp)) (pt_added s ptp t size e pp hp arr acc)
    (λ _ s'', dmas s'' = dmas s ∧ pgarrs s'' = pgarrs s)).
  { eapply wp_pt_free; [apply lookup_insert_eq|by apply pt_added_wf|]. simpl.
    destruct Hacc as [_ Hnp Hf _].
    rewrite del_ins by (intros p Hp; rewrite lookup_insert_ne by set_solver; by apply Hf).
    by rewrite !delete_insert_eq, !delete_id. }
  apply wp_run in Hfree as ([] & s'' & ? & ?). eauto.
Qed.

End InitFree.
End Pt.

#[global] Arguments dicedev_pt_init : simpl never.
#[global] Arguments dicedev_pt_free : simpl never.
