(* ===== verification/Task.v ===== *)
(** Tasks (src/dicedev_wt.c): the iterator over the command words of a task
    and [__wt_run_task], which translates the words for the slot of the output
    buffer and feeds them to the board. *)

From S2P Require Import Prelude Cmd Types Utils Slots Pt.

(** The kernel's page size. *)
Definition PAGE_SIZE : Z := 4096.

Section Task.
Context `{Hardware, Kernel}.

(** ** The iterator *)

(** [run_task->cBuff->pt->pages[i]] *)
Definition cbuff_page (cb : ptr) (i : Z) : K dicedev_page :=
  buf ← get_buf cb;
  ptp ← deref (buf_pt buf);
  tbl ← get_pt ptp;
  arr ← deref (pages tbl);
  a ← get_pgarr arr;
  index a i.

Definition dicedev_task_get_next_word (t : ptr) : K Z :=
  task ← get_task t;
  match body task with
  | DICEDEV_TASK_TYPE_WRITE w =>
      BUG_ON (cmd_size w =? tw_offset w);;
      cmd ← get_cmds (tw_cmd w);
      v ← index cmd (tw_offset w);
      put_task t (task <| body :=
        DICEDEV_TASK_TYPE_WRITE (w <| tw_offset := u64 (tw_offset w + 1) |>) |>);;
      mret v
  | DICEDEV_TASK_TYPE_RUN r =>
      r ← (if curr_pg_off r =? PAGE_SIZE / 4 then
             pg ← cbuff_page (cBuff r) (u64 (curr_pg_no r + 1));
             mret (r <| curr_pg_off := 0 |> <| curr_pg_no := u64 (curr_pg_no r + 1) |>
                     <| curr_pg := page pg |>)
           else mret r);
      p ← deref (curr_pg r);
      m ← get_dma p;
      v ← index (dp_words m) (curr_pg_off r);
      put_task t (task <| body :=
        DICEDEV_TASK_TYPE_RUN (r <| it_bytes_left := u64 (it_bytes_left r - 4) |>
                                 <| curr_pg_off := u64 (curr_pg_off r + 1) |>) |>);;
      mret v
  end.

Definition dicedev_task_init_it (t : ptr) : K unit :=
  task ← get_task t;
  match body task with
  | DICEDEV_TASK_TYPE_WRITE w =>
      put_task t (task <| body := DICEDEV_TASK_TYPE_WRITE (w <| tw_offset := 0 |>) |>)
  | DICEDEV_TASK_TYPE_RUN r =>
      let no := tr_offset r / PAGE_SIZE in
      pg ← cbuff_page (cBuff r) no;
      put_task t (task <| body :=
        DICEDEV_TASK_TYPE_RUN (r <| curr_pg_no := no |>
          <| curr_pg_off := (tr_offset r mod PAGE_SIZE) mod 4 |>
          <| curr_pg := page pg |> <| it_bytes_left := tr_size r |>) |>)
  end.

(** ** Translation loop *)

(** The loop of [__wt_run_task]; [false] is the jump to [err_ctx_fail].
    Every iteration consumes at least one word of the task. *)
Fixpoint wt_run_loop (fuel : nat) (t d bo : ptr) (bytes_left : Z) : K bool :=
  match fuel with
  | O => crash LoopExhausted
  | S fuel =>
      if bytes_left =? 0 then mret true
      else
        cmd0 ← dicedev_task_get_next_word t;
        let ty := Z.land cmd0 DICEDEV_CMD_TYPE_MASK in
        if ty =? DICEDEV_USER_CMD_TYPE_NOP then
          wt_run_loop fuel t d bo (u64 (bytes_left - 4))
        else if ty =? DICEDEV_USER_CMD_TYPE_GET_DIE then
          if bytes_left <? 4 then mret false
          else
            cmd1 ← dicedev_task_get_next_word t;
            if negb (Z.land cmd0 GET_DIE_SLOT_MASK =? 0) then mret false
            else
              buf ← get_buf bo;
              if negb (Z.land cmd1 (u32 (Z.lnot (allowed buf))) =? 0) then mret false
              else
                let res_count := u64 (Z.land cmd0 GET_DIE_NUM_MASK *
                                      numbers_of_bits_set cmd1) in
                task ← get_task t;
                put_task t (task <| task_results :=
                  u64 (task_results task + Z.land cmd0 GET_DIE_NUM_MASK) |>);;
                feed_cmd d [ u32 (Z.lor cmd0 (Z.shiftl (binded_slot buf) 24)); cmd1 ];;
                wt_run_loop fuel t d bo (u64 (bytes_left - 8))
        else if ty =? DICEDEV_USER_CMD_TYPE_NEW_SET then
          if negb (Z.land cmd0 NEW_SET_SLOT_MASK =? 0) then mret false
          else
            buf ← get_buf bo;
            feed_cmd d [ u32 (Z.lor cmd0 (Z.shiftl (binded_slot buf) 4)) ];;
            wt_run_loop fuel t d bo (u64 (bytes_left - 4))
        else mret false
  end.

(** Words the iterator of a task can deliver before it leaves the memory of
    the task; one more iteration than that is enough fuel. *)
Definition task_fuel (t : ptr) : K nat :=
  task ← get_task t;
  match body task with
  | DICEDEV_TASK_TYPE_WRITE w => cmd ← get_cmds (tw_cmd w); mret (S (length cmd))
  | DICEDEV_TASK_TYPE_RUN r =>
      buf ← get_buf (cBuff r);
      ptp ← deref (buf_pt buf);
      tbl ← get_pt ptp;
      arr ← deref (pages tbl);
      a ← get_pgarr arr;
      mret (S (1024 * length a))
  end.

Definition task_bytes (b : task_body) : Z :=
  match b with
  | DICEDEV_TASK_TYPE_WRITE w => cmd_size w
  | DICEDEV_TASK_TYPE_RUN r => tr_size r
  end.

Definition __wt_run_task (t : ptr) : K unit :=
  task ← get_task t;
  ctx ← get_ctx (task_ctx task);
  let d := ctx_dev ctx in
  let bytes_left := task_bytes (body task) in
  x ← get_dev d;
  put_dev d (x <| running_task := Some t |>);;
  buf ← get_buf (buff_out task);
  BUG_ON (binded_slot buf =? DICEDEV_BUFFER_NO_SLOT);;
  dicedev_task_init_it t;;
  fuel ← task_fuel t;
  ok ← wt_run_loop fuel t d (buff_out task) bytes_left;
  if (ok : bool) then mret tt
  else
    c ← get_ctx (task_ctx task);
    put_ctx (task_ctx task) (c <| ctx_failed := true |>).

(** ** Reference semantics of a command stream

    What a stream of words means for an output buffer bound to [slot] that
    allows the dice [al]: the commands for the board, the number of results
    credited to the task, and whether the stream is accepted to its end.
    [None]: the stream ends in the middle of a GET_DIE command. *)
Record translation := mkTr { tr_fed : list (list Z); tr_cnt : Z; tr_ok : bool }.

Definition tr_cons (c : list Z) (n : Z) (r : translation) : translation :=
  mkTr (c :: tr_fed r) (n + tr_cnt r) (tr_ok r).
Definition tr_reject : translation := mkTr [] 0 false.

Definition get_die_ok (al c0 c1 : Z) : bool :=
  (Z.land c0 GET_DIE_SLOT_MASK =? 0) && (Z.land c1 (u32 (Z.lnot al)) =? 0).
Definition with_die_slot (slot c0 : Z) : Z := u32 (Z.lor c0 (Z.shiftl slot 24)).
Definition with_set_slot (slot c0 : Z) : Z := u32 (Z.lor c0 (Z.shiftl slot 4)).

Fixpoint translate (slot al : Z) (ws : list Z) : option translation :=
  match ws with
  | [] => Some (mkTr [] 0 true)
  | c0 :: ws =>
      let ty := Z.land c0 DICEDEV_CMD_TYPE_MASK in
      if ty =? DICEDEV_USER_CMD_TYPE_NOP then translate slot al ws
      else if ty =? DICEDEV_USER_CMD_TYPE_GET_DIE then
        match ws with
        | [] => None
        | c1 :: ws =>
            if get_die_ok al c0 c1 then
              tr_cons [with_die_slot slot c0; c1] (Z.land c0 GET_DIE_NUM_MASK)
                <$> translate slot al ws
            else Some tr_reject
        end
      else if ty =? DICEDEV_USER_CMD_TYPE_NEW_SET then
        if Z.land c0 NEW_SET_SLOT_MASK =? 0 then
          tr_cons [with_set_slot slot c0] 0 <$> translate slot al ws
        else Some tr_reject
      else Some tr_reject
  end.

(** ** Streams

    [TaskStream t P]: [P s ws] says that in memory [s] the iterator of task
    [t] has the words [ws] ahead; reading returns the first of them, and
    nothing but the iterator matters to what is left. *)
Definition same_data (s s' : state) : Prop :=
  bufs s' = bufs s ∧ pts s' = pts s ∧ pgarrs s' = pgarrs s ∧ cmds s' = cmds s ∧
  dmas s' = dmas s.

(** The iterator of a task moves; the commands it names stay. *)
Definition same_source (b b' : task_body) : Prop :=
  match b, b' with
  | DICEDEV_TASK_TYPE_WRITE w, DICEDEV_TASK_TYPE_WRITE w' =>
      tw_cmd w' = tw_cmd w ∧ cmd_size w' = cmd_size w
  | DICEDEV_TASK_TYPE_RUN r, DICEDEV_TASK_TYPE_RUN r' =>
      cBuff r' = cBuff r ∧ tr_offset r' = tr_offset r ∧ tr_size r' = tr_size r
  | _, _ => False
  end.

#[global] Instance same_source_preorder : PreOrder same_source.
Proof.
  split; [by intros []|]. intros [w|r] [w1|r1] [w2|r2] H1 H2; try done; simpl in *;
    destruct_and?; split_and!; congruence.
Qed.

Class TaskStream (t : ptr) (P : state → list Z → Prop) : Prop := {
  stream_next s w ws : P s (w :: ws) → ∃ task b',
    tasks s !! t = Some task ∧ same_source (body task) b' ∧
    let s' := upd_task t (task <| body := b' |>) s in
    dicedev_task_get_next_word t s = Done w s' ∧ P s' ws;
  stream_stable s s' ws task task' : P s ws → same_data s s' →
    tasks s !! t = Some task → tasks s' !! t = Some task' → body task' = body task →
    P s' ws;
}.

Lemma u64_add_l a b : u64 (u64 a + b) = u64 (a + b).
Proof. apply Zplus_mod_idemp_l. Qed.

Section RunLoop.
Context `{!HardwareLaws} (t : ptr) (P : state → list Z → Prop) `{!TaskStream t P}.

(** Memory after the loop: the iterator moved, results were credited, and
    the commands were fed. *)
Definition run_effect (d : ptr) (x : dicedev_device) (task : dicedev_task)
    (h : hw) (b' : task_body) (r : translation) (s : state) : state :=
  upd_dev d (dev_io h (feeds (concat (tr_fed r))) x)
    (upd_task t (task <| body := b' |>
       <| task_results := u64 (task_results task + tr_cnt r) |>) s).

Lemma run_effect_cons d x task h h' b1 b' c n r s :
  run_effect d (dev_io h (feeds c) x)
    (task <| body := b1 |> <| task_results := u64 (task_results task + n) |>) h' b' r
    (upd_dev d (dev_io h (feeds c) x)
      (upd_task t (task <| body := b1 |>
         <| task_results := u64 (task_results task + n) |>) s))
  = run_effect d x task h' b' (tr_cons c n r) s.
Proof.
  unfold run_effect. cbn [tr_cons tr_fed tr_cnt concat]. rewrite feeds_app, dev_io_io.
  unfold upd_dev, upd_task. rec_eq; rewrite !insert_insert_eq; [done|]. f_equal. rec_eq.
  by rewrite u64_add_l, Z.add_assoc.
Qed.

Lemma run_effect_cons0 d x task h h' b1 b' c r s :
  0 ≤ task_results task < 2 ^ 64 →
  run_effect d (dev_io h (feeds c) x) (task <| body := b1 |>) h' b' r
    (upd_dev d (dev_io h (feeds c) x) (upd_task t (task <| body := b1 |>) s))
  = run_effect d x task h' b' (tr_cons c 0 r) s.
Proof.
  intros Hr. rewrite <-(run_effect_cons _ _ _ h _ b1). rewrite Z.add_0_r, u64_small by done.
  by destruct task.
Qed.

Lemma run_effect_word d x task h' b1 b' r s :
  run_effect d x (task <| body := b1 |>) h' b' r (upd_task t (task <| body := b1 |>) s)
  = run_effect d x task h' b' r s.
Proof. unfold run_effect. by rewrite upd_task_twice. Qed.

(** Nothing fed, nothing credited: only the iterator moved. *)
Lemma run_effect_nil d x task b' ok s :
  devs s !! d = Some x → 0 ≤ task_results task < 2 ^ 64 →
  run_effect d x task (bar x) b' (mkTr [] 0 ok) s = upd_task t (task <| body := b' |>) s.
Proof.
  intros Hd Hr. unfold run_effect. simpl. rewrite dev_io_id, Z.add_0_r, u64_small by done.
  by rewrite upd_dev_id.
Qed.

Lemma wp_next_word s w ws (Q : Z → state → Prop) task :
  P s (w :: ws) → tasks s !! t = Some task →
  (∀ b', same_source (body task) b' → P (upd_task t (task <| body := b' |>) s) ws →
     Q w (upd_task t (task <| body := b' |>) s)) →
  wp (dicedev_task_get_next_word t) s Q.
Proof.
  intros HP Ht HQ. destruct (stream_next s w ws HP) as (task' & b' & Ht' & Hsrc & Hrun & HP').
  simplify_eq. eapply wp_done; [exact Hrun|]. by apply HQ.
Qed.

(** Feeding a command and crediting results keeps the stream. *)
Lemma stream_io s ws d x task :
  P s ws → tasks s !! t = Some task → P (upd_dev d x s) ws.
Proof. intros HP Ht. by eapply stream_stable. Qed.

Lemma stream_feed s ws d x task n :
  P (upd_task t task s) ws →
  P (upd_dev d x (upd_task t (task <| task_results := n |>) s)) ws.
Proof.
  intros HP. eapply stream_stable; [exact HP|done|apply tasks_upd_task|
    apply tasks_upd_task|done].
Qed.

Lemma wp_run_loop d bo fuel ws s x buf task r (Q : bool → state → Prop) :
  P s ws → (length ws < fuel)%nat → 4 * Z.of_nat (length ws) < 2 ^ 64 →
  devs s !! d = Some x → feed_lock x = false → bufs s !! bo = Some buf →
  tasks s !! t = Some task → 0 ≤ task_results task < 2 ^ 64 →
  translate (binded_slot buf) (allowed buf) ws = Some r →
  (∀ h b', same_source (body task) b' → Q (tr_ok r) (run_effect d x task h b' r s)) →
  wp (wt_run_loop fuel t d bo (4 * Z.of_nat (length ws))) s Q.
Proof.
  revert ws s x task r. induction fuel as [|fuel IH];
    intros ws s x task r HP Hfuel Hlen Hd Hl Hbo Ht Htr Hr HQ; [lia|].
  assert (Hrej : r = tr_reject → ∀ b', same_source (body task) b' →
    Q false (upd_task t (task <| body := b' |>) s)).
  { intros -> b' Hsrc. specialize (HQ (bar x) b' Hsrc). unfold tr_reject in HQ.
    by rewrite run_effect_nil in HQ. }
  destruct ws as [|c0 ws]; simpl.
  { simpl in Hr. simplify_eq. wp_step. specialize (HQ (bar x) (body task) (reflexivity _)).
    rewrite run_effect_nil in HQ by done. rewrite upd_task_id in HQ; [done|].
    rewrite Ht. by destruct task. }
  destruct (Z.eqb_spec (4 * Z.of_nat (S (length ws))) 0); [lia|].
  cbn [length] in *. apply wp_bind. eapply wp_next_word; [done..|]. intros b1 Hs1 HP1.
  cbn [translate] in Hr.
  destruct (_ =? DICEDEV_USER_CMD_TYPE_NOP).
  { rewrite u64_small by lia. replace (_ - 4) with (4 * Z.of_nat (length ws)) by lia.
    eapply (IH ws); [done|lia|lia|done|done|done|apply tasks_upd_task|done|done|].
    intros h b' Hsrc. rewrite run_effect_word. apply HQ. by etrans. }
  destruct (_ =? DICEDEV_USER_CMD_TYPE_GET_DIE).
  { destruct ws as [|c1 ws]; [done|]. cbn [length] in *.
    destruct (Z.ltb_spec (4 * Z.of_nat (S (S (length ws)))) 4); [lia|].
    apply wp_bind. eapply wp_next_word; [done|apply tasks_upd_task|]. intros b2 Hs2 HP2.
    assert (Hs12 : same_source (body task) b2) by by etrans.
    rewrite upd_task_twice in *. unfold get_die_ok in Hr.
    destruct (Z.land c0 GET_DIE_SLOT_MASK =? 0); simpl in Hr |- *;
      [|wp_step; simplify_eq; by apply Hrej].
    wp_mem. destruct (Z.land c1 _ =? 0); simpl in Hr |- *;
      [|wp_step; simplify_eq; by apply Hrej].
    apply fmap_Some in Hr as (r' & Hr & ->).
    wp_mem. rewrite upd_task_twice.
    eapply wp_feed_cmd; [done..|]. intros h. rewrite u64_small by lia.
    replace (_ - 8) with (4 * Z.of_nat (length ws)) by lia.
    eapply (IH ws); [|lia|lia|apply devs_upd_dev|done|done|apply tasks_upd_task|
      apply u64_range|done|]; [by apply stream_feed|].
    intros h' b' Hsrc. pose proof (HQ h' b' (transitivity Hs12 Hsrc)) as HQ'.
    by rewrite <-(run_effect_cons _ _ _ h _ b2) in HQ'. }
  destruct (_ =? DICEDEV_USER_CMD_TYPE_NEW_SET);
    [|wp_step; simplify_eq; by apply Hrej].
  destruct (Z.land c0 NEW_SET_SLOT_MASK =? 0); simpl in Hr |- *;
    [|wp_step; simplify_eq; by apply Hrej].
  apply fmap_Some in Hr as (r' & Hr & ->). wp_mem.
  eapply wp_feed_cmd; [done..|]. intros h. rewrite u64_small by lia.
  replace (_ - 4) with (4 * Z.of_nat (length ws)) by lia.
  eapply (IH ws); [|lia|lia|apply devs_upd_dev|done|done|apply tasks_upd_task|
    done|done|]; [eapply stream_io; [done|apply tasks_upd_task]|].
  intros h' b' Hsrc. pose proof (HQ h' b' (transitivity Hs1 Hsrc)) as HQ'.
  by rewrite <-(run_effect_cons0 _ _ _ h _ b1) in HQ'.
Qed.

End RunLoop.
(** *** The two kinds of streams *)

(** A write task delivers its command array [cmd]. *)
Definition write_stream (t : ptr) (cmd : list Z) (s : state) (ws : list Z) : Prop :=
  ∃ task w, tasks s !! t = Some task ∧ body task = DICEDEV_TASK_TYPE_WRITE w ∧
    cmds s !! tw_cmd w = Some cmd ∧ 0 ≤ tw_offset w ∧
    cmd_size w = 4 * Z.of_nat (length cmd) ∧ cmd_size w < 2 ^ 64 ∧
    ws = drop (Z.to_nat (tw_offset w)) cmd ∧ tw_offset w ≤ Z.of_nat (length cmd).

#[global] Instance write_stream_ok t cmd : TaskStream t (write_stream t cmd).
Proof.
  split.
  - intros s c ws (task & w & Ht & Hb & Hc & Ho & Hsz & Hsz' & Hws & Hle).
    assert (Hlt : (Z.to_nat (tw_offset w) < length cmd)%nat).
    { apply (f_equal length) in Hws. rewrite length_drop in Hws. simpl in Hws. lia. }
    assert (Hcmd : cmd !! Z.to_nat (tw_offset w) = Some c).
    { replace (Z.to_nat (tw_offset w)) with (Z.to_nat (tw_offset w) + 0)%nat by lia.
      by rewrite <-lookup_drop, <-Hws. }
    exists task, (DICEDEV_TASK_TYPE_WRITE (w <| tw_offset := u64 (tw_offset w + 1) |>)).
    split; [done|]. split; [by rewrite Hb|]. simpl. split.
    + unfold dicedev_task_get_next_word, get_task, get_cmds, index, fetch, mbind, M_bind.
      rewrite Ht, Hb. destruct (Z.eqb_spec (cmd_size w) (tw_offset w)); [lia|]. simpl.
      rewrite Hc. destruct (Z.leb_spec 0 (tw_offset w)); [|lia]. by rewrite Hcmd.
    + eexists _, _. split; [apply tasks_upd_task|]. split; [done|]. simpl.
      rewrite u64_small by lia. split; [done|]. split; [lia|]. split; [done|].
      split; [done|]. rewrite (drop_S _ _ _ Hcmd) in Hws. simplify_eq.
      split; [f_equal|]; lia.
  - intros s s' ws task task' (task0 & w & Ht0 & Hb & Hc & Hrest) Hsame Ht Ht' Eb.
    simplify_eq. exists task', w. split; [done|]. split; [congruence|].
    destruct Hsame as (_ & _ & _ & -> & _). by split.
Qed.

(** Reading past the end of a non-empty array: the word index differs from
    the byte count that [BUG_ON] compares it with. *)
Lemma write_stream_end t cmd s :
  write_stream t cmd s [] → cmd ≠ [] → dicedev_task_get_next_word t s = Crash BadAccess.
Proof.
  intros (task & w & Ht & Hb & Hc & Ho & Hsz & Hsz' & Hws & Hle) Hne.
  assert (0 < length cmd)%nat by (destruct cmd; simpl; [done|lia]).
  assert (Hoff : tw_offset w = Z.of_nat (length cmd)).
  { apply (f_equal length) in Hws. rewrite length_drop in Hws. simpl in Hws. lia. }
  unfold dicedev_task_get_next_word, get_task, get_cmds, index, fetch, mbind, M_bind.
  rewrite Ht, Hb. destruct (Z.eqb_spec (cmd_size w) (tw_offset w)); [lia|].
  simpl. rewrite Hc, Hoff. destruct (Z.leb_spec 0 (Z.of_nat (length cmd))); [|lia].
  by rewrite Nat2Z.id, lookup_ge_None_2.
Qed.

(** A run task delivers the words of the pages of its command buffer. *)
Definition run_stream (t : ptr) (s : state) (ws : list Z) : Prop :=
  ∃ task r buf ptp tbl pp hp arr L (no off : nat) q,
    tasks s !! t = Some task ∧ body task = DICEDEV_TASK_TYPE_RUN r ∧
    bufs s !! cBuff r = Some buf ∧ buf_pt buf = Some ptp ∧ pts s !! ptp = Some tbl ∧
    pt_wf s tbl pp hp arr L ∧ curr_pg_no r = Z.of_nat no ∧ curr_pg_off r = Z.of_nat off ∧
    (off ≤ 1024)%nat ∧ L !! no = Some q ∧ curr_pg r = Some q.1 ∧
    ws `prefix_of` drop (no * 1024 + off) (buffer_words s L).

Lemma cbuff_page_ok s cb buf ptp tbl pp hp arr L (i : nat) q :
  bufs s !! cb = Some buf → buf_pt buf = Some ptp → pts s !! ptp = Some tbl →
  pt_wf s tbl pp hp arr L → L !! i = Some q →
  cbuff_page cb (Z.of_nat i) s = Done (page_of q) s.
Proof.
  intros Hb Hp Ht Hwf Hi.
  assert (Hwp : wp (cbuff_page cb (Z.of_nat i)) s (λ r s', r = page_of q ∧ s' = s)).
  { unfold cbuff_page. pose proof (ptw_pages _ _ _ _ _ _ Hwf).
    pose proof (ptw_arr _ _ _ _ _ _ Hwf). wp_mem.
    eapply wp_index; [by rewrite list_lookup_fmap, Hi|done]. }
  by apply wp_run in Hwp as (? & ? & ? & -> & ->).
Qed.

Lemma buffer_words_lookup s tbl pp hp arr L i j w :
  pt_wf s tbl pp hp arr L → (j < 1024)%nat →
  buffer_words s L !! (i * 1024 + j)%nat = Some w →
  ∃ q m, L !! i = Some q ∧ dmas s !! q.1 = Some m ∧ dp_words m !! j = Some w.
Proof.
  intros Hwf Hj. unfold buffer_words.
  rewrite (lookup_concat 1024) by (done || by eapply pt_wf_words).
  rewrite list_lookup_fmap. destruct (L !! i) as [q|]; simpl; [|done].
  unfold page_words. destruct (dmas s !! q.1) as [m|] eqn:E; [|done]. eauto.
Qed.

(** The page switch of the run iterator. *)
Definition run_turn (r : dicedev_task_run) : K dicedev_task_run :=
  if curr_pg_off r =? PAGE_SIZE / 4 then
    pg ← cbuff_page (cBuff r) (u64 (curr_pg_no r + 1));
    mret (r <| curr_pg_off := 0 |> <| curr_pg_no := u64 (curr_pg_no r + 1) |>
            <| curr_pg := page pg |>)
  else mret r.

Lemma run_turn_ok s r buf ptp tbl pp hp arr L (no off : nat) q w ws :
  bufs s !! cBuff r = Some buf → buf_pt buf = Some ptp → pts s !! ptp = Some tbl →
  pt_wf s tbl pp hp arr L → curr_pg_no r = Z.of_nat no → curr_pg_off r = Z.of_nat off →
  (off ≤ 1024)%nat → L !! no = Some q → curr_pg r = Some q.1 →
  w :: ws `prefix_of` drop (no * 1024 + off) (buffer_words s L) →
  ∃ r' (no' off' : nat) q' m, run_turn r s = Done r' s ∧ cBuff r' = cBuff r ∧
    tr_offset r' = tr_offset r ∧ tr_size r' = tr_size r ∧
    curr_pg_no r' = Z.of_nat no' ∧ curr_pg_off r' = Z.of_nat off' ∧ (off' < 1024)%nat ∧
    L !! no' = Some q' ∧ curr_pg r' = Some q'.1 ∧ dmas s !! q'.1 = Some m ∧
    dp_words m !! off' = Some w ∧ ws `prefix_of` drop (no' * 1024 + S off') (buffer_words s L).
Proof.
  intros Hb Hp Ht Hwf Hno Hoff Hle HL Hpg Hpre.
  apply prefix_cons_drop in Hpre as [Hw Hpre]. unfold run_turn. rewrite Hoff.
  change (PAGE_SIZE / 4) with 1024.
  assert (Hnum : (no < 1024)%nat).
  { apply lookup_lt_Some in HL. pose proof (ptw_num _ _ _ _ _ _ Hwf).
    pose proof (pages_for_spec _ (ptw_size _ _ _ _ _ _ Hwf)).
    pose proof (ptw_cover _ _ _ _ _ _ Hwf). lia. }
  destruct (Z.eqb_spec (Z.of_nat off) 1024) as [He|Hne].
  - assert (Hpos : (no * 1024 + off = S no * 1024 + 0)%nat) by lia. rewrite Hpos in Hw.
    destruct (buffer_words_lookup s tbl pp hp arr L (S no) 0 w)
      as (q' & m & HL' & Hm & Hw'); [done|lia|done|].
    rewrite Hno, u64_small by lia. replace (Z.of_nat no + 1) with (Z.of_nat (S no)) by lia.
    unfold mbind, M_bind. erewrite cbuff_page_ok by done.
    replace (S (no * 1024 + off)) with (S no * 1024 + 1)%nat in Hpre by lia.
    eexists _, (S no), 0%nat, q', m. split; [reflexivity|].
    split_and!; [done..|lia|done|done|done|done|exact Hpre].
  - destruct (buffer_words_lookup s tbl pp hp arr L no off w)
      as (q' & m & HL' & Hm & Hw'); [done|lia|done|]. simplify_eq.
    exists r, no, off, q, m. do 6 (split; [done|]). split; [lia|]. do 4 (split; [done|]).
    by rewrite Nat.add_succ_r.
Qed.

#[global] Instance run_stream_ok t : TaskStream t (run_stream t).
Proof.
  split.
  - intros s c ws (task & r & buf & ptp & tbl & pp & hp & arr & L & no & off & q & Ht & Hbd &
      Hb & Hp & Hpt & Hwf & Hno & Hoff & Hle & HL & Hpg & Hpre).
    destruct (run_turn_ok s r buf ptp tbl pp hp arr L no off q c ws)
      as (r' & no' & off' & q' & m & Hturn & Hcb & Hto & Hts & Hno' & Hoff' & Hlt & HL' & Hpg' & Hm &
        Hw & Hpre'); [done..|].
    exists task, (DICEDEV_TASK_TYPE_RUN (r' <| it_bytes_left := u64 (it_bytes_left r' - 4) |>
      <| curr_pg_off := u64 (curr_pg_off r' + 1) |>)).
    split; [done|]. split; [by rewrite Hbd|]. simpl. split.
    + unfold dicedev_task_get_next_word, get_task, get_dma, deref, index, fetch,
        mbind, M_bind. rewrite Ht, Hbd.
      change (if curr_pg_off r =? _ then _ else _) with (run_turn r). rewrite Hturn.
      rewrite Hpg', Hm, Hoff'. destruct (Z.leb_spec 0 (Z.of_nat off')); [|lia].
      rewrite Nat2Z.id, Hw. reflexivity.
    + eexists _, _, buf, ptp, tbl, pp, hp, arr, L, no', (S off'), q'.
      split; [apply tasks_upd_task|]. split; [reflexivity|]. simpl. rewrite Hcb.
      split; [done|]. split; [done|]. split; [done|].
      split; [by apply (pt_wf_same s)|]. split; [done|]. rewrite u64_small by lia.
      split; [lia|]. split; [lia|]. done.
  - intros s s' ws task task' (task0 & r & buf & ptp & tbl & pp & hp & arr & L & no & off &
      q & Ht0 & Hbd & Hb & Hp & Hpt & Hwf & Hrest) (E1 & E2 & E3 & E4 & E5) Ht Ht' Eb.
    simplify_eq. exists task', r, buf, ptp, tbl, pp, hp, arr, L, no, off, q.
    split; [done|]. split; [congruence|]. rewrite E1, E2. do 3 (split; [done|]).
    split; [by apply (pt_wf_same s)|].
    unfold buffer_words, page_words in *. by rewrite E5.
Qed.

(** ** Running a task *)

(** Memory after [__wt_run_task]. *)
Definition run_post (t : ptr) (task : dicedev_task) (ctx : dicedev_context)
    (x : dicedev_device) (h : hw) (b' : task_body) (r : translation) (s : state) : state :=
  let s1 := run_effect t (ctx_dev ctx) (x <| running_task := Some t |>) task h b' r s in
  if tr_ok r then s1 else upd_ctx (task_ctx task) (ctx <| ctx_failed := true |>) s1.

(** What [__wt_run_task] relies on: the structures it dereferences are live,
    the output buffer has a slot, no feeding is in progress. *)
Record runnable (s : state) (t : ptr) (task : dicedev_task) (ctx : dicedev_context)
    (x : dicedev_device) (buf : dicedev_buffer) : Prop := {
  ra_task : tasks s !! t = Some task;
  ra_ctx : ctxs s !! task_ctx task = Some ctx;
  ra_dev : devs s !! ctx_dev ctx = Some x;
  ra_feed : feed_lock x = false;
  ra_buf : bufs s !! buff_out task = Some buf;
  ra_slot : binded_slot buf ≠ DICEDEV_BUFFER_NO_SLOT;
  ra_res : 0 ≤ task_results task < 2 ^ 64;
}.

Lemma wp_run_task_stream `{!HardwareLaws} t P `{!TaskStream t P}
    s task ctx x buf ws r b0 fuel (Q : unit → state → Prop) :
  runnable s t task ctx x buf →
  task_bytes (body task) = 4 * Z.of_nat (length ws) → 4 * Z.of_nat (length ws) < 2 ^ 64 →
  let s1 := upd_dev (ctx_dev ctx) (x <| running_task := Some t |>) s in
  let s2 := upd_task t (task <| body := b0 |>) s1 in
  dicedev_task_init_it t s1 = Done tt s2 → same_source (body task) b0 → P s2 ws →
  task_fuel t s2 = Done fuel s2 → (length ws < fuel)%nat →
  translate (binded_slot buf) (allowed buf) ws = Some r →
  (∀ h b', same_source (body task) b' → Q tt (run_post t task ctx x h b' r s)) →
  wp (__wt_run_task t) s Q.
Proof.
  intros [Ht Hc Hd Hl Hb Hs Hr] Hbytes Hlen s1 s2 Hinit Hs0 HP Hfuel Hlt Htr HQ.
  unfold __wt_run_task. wp_mem. apply wp_BUG_ON; [by apply Z.eqb_neq|].
  wp_step. eapply wp_done; [exact Hinit|]. wp_step. eapply wp_done; [exact Hfuel|].
  wp_step. rewrite Hbytes.
  eapply (wp_run_loop t P) with (task := task <| body := b0 |>);
    [done|done|done|apply devs_upd_dev|done|done|apply tasks_upd_task|done|done|].
  intros h b' Hsrc. pose proof (HQ h b' (transitivity Hs0 Hsrc)) as HQ'. unfold run_post in HQ'.
  assert (Hre : run_effect t (ctx_dev ctx) (x <| running_task := Some t |>)
      (task <| body := b0 |>) h b' r s2
    = run_effect t (ctx_dev ctx) (x <| running_task := Some t |>) task h b' r s).
  { unfold s2. rewrite run_effect_word. unfold run_effect, s1, upd_dev, upd_task.
    rec_eq. by rewrite insert_insert_eq. }
  rewrite Hre. destruct (tr_ok r); [by wp_step|]. wp_mem. exact HQ'.
Qed.

Lemma wp_run_task_write `{!HardwareLaws} t s task ctx x buf w cmd r (Q : unit → state → Prop) :
  runnable s t task ctx x buf →
  body task = DICEDEV_TASK_TYPE_WRITE w → cmds s !! tw_cmd w = Some cmd →
  cmd_size w = 4 * Z.of_nat (length cmd) → cmd_size w < 2 ^ 64 →
  translate (binded_slot buf) (allowed buf) cmd = Some r →
  (∀ h b', same_source (body task) b' → Q tt (run_post t task ctx x h b' r s)) →
  wp (__wt_run_task t) s Q.
Proof.
  intros Hra Hb Hc Hsz Hlt Htr HQ.
  eapply (wp_run_task_stream t (write_stream t cmd)) with (ws := cmd)
    (b0 := DICEDEV_TASK_TYPE_WRITE (w <| tw_offset := 0 |>)) (fuel := S (length cmd));
    [done| | | |by rewrite Hb| | | |done|done]; simpl.
  - by rewrite Hb.
  - lia.
  - unfold dicedev_task_init_it, get_task, fetch, mbind, M_bind. simpl.
    by rewrite (ra_task _ _ _ _ _ _ Hra), Hb.
  - eexists _, _. split; [apply tasks_upd_task|]. split; [done|]. split_and!; try done.
    simpl. lia.
  - unfold task_fuel, get_task, get_cmds, fetch, mbind, M_bind.
    rewrite tasks_upd_task. simpl. by rewrite Hc.
  - lia.
Qed.

(** The words a run task executes: [size / 4] words of the command buffer
    from the start of the page that holds [offset]. *)
Definition run_words (s : state) (L : list (ptr * Z)) (offset size : Z) : list Z :=
  take (Z.to_nat (size / 4)) (drop (Z.to_nat (offset / PAGE_SIZE) * 1024) (buffer_words s L)).

Lemma length_buffer_words s tbl pp hp arr L :
  pt_wf s tbl pp hp arr L → length (buffer_words s L) = (length L * 1024)%nat.
Proof.
  intros Hwf. unfold buffer_words. rewrite (length_concat 1024) by by eapply pt_wf_words.
  by rewrite length_fmap.
Qed.

(** A run within the buffer stays within its pages. *)
Lemma run_in_range s tbl pp hp arr L offset size :
  pt_wf s tbl pp hp arr L → 0 ≤ offset → 0 < size → offset + size ≤ max_size tbl →
  (Z.to_nat (offset / PAGE_SIZE) < length L)%nat ∧
  length (run_words s L offset size) = Z.to_nat (size / 4).
Proof.
  intros Hwf Ho Hs Hle. pose proof (ptw_num _ _ _ _ _ _ Hwf) as Hn.
  pose proof (pages_for_spec _ (ptw_size _ _ _ _ _ _ Hwf)) as Hp.
  pose proof (ptw_cover _ _ _ _ _ _ Hwf) as Hc. unfold run_words, PAGE_SIZE.
  rewrite length_take, length_drop, (length_buffer_words _ _ _ _ _ _ Hwf).
  assert (4096 * (offset / 4096) ≤ offset) by dlia.
  assert (4 * (size / 4) ≤ size) by dlia. lia.
Qed.

Lemma wp_run_task_run `{!HardwareLaws} t s task ctx x buf r0 cbuf ptp tbl pp hp arr L r
    (Q : unit → state → Prop) :
  runnable s t task ctx x buf →
  body task = DICEDEV_TASK_TYPE_RUN r0 →
  bufs s !! cBuff r0 = Some cbuf → buf_pt cbuf = Some ptp → pts s !! ptp = Some tbl →
  pt_wf s tbl pp hp arr L →
  0 ≤ tr_offset r0 → tr_offset r0 mod 4 = 0 → 0 < tr_size r0 → tr_size r0 mod 4 = 0 →
  tr_offset r0 + tr_size r0 ≤ max_size tbl →
  translate (binded_slot buf) (allowed buf) (run_words s L (tr_offset r0) (tr_size r0)) = Some r →
  (∀ h b', same_source (body task) b' → Q tt (run_post t task ctx x h b' r s)) →
  wp (__wt_run_task t) s Q.
Proof.
  intros Hra Hb Hcb Hp Ht Hwf Ho Ho4 Hs Hs4 Hle Htr HQ.
  destruct (run_in_range _ _ _ _ _ _ _ _ Hwf Ho Hs Hle) as [Hno Hlen].
  destruct (lookup_lt_is_Some_2 L (Z.to_nat (tr_offset r0 / PAGE_SIZE)) Hno) as [q Hq].
  pose proof (ptw_size _ _ _ _ _ _ Hwf) as Hmax.
  unfold DICEDEV_MAX_BUFFER_SIZE, DICEDEV_PAGE_SIZE in Hmax.
  assert (Hoff : (tr_offset r0 mod PAGE_SIZE) mod 4 = 0) by (unfold PAGE_SIZE; dlia).
  assert (Hnn : tr_offset r0 / PAGE_SIZE = Z.of_nat (Z.to_nat (tr_offset r0 / PAGE_SIZE)))
    by (unfold PAGE_SIZE; dlia).
  assert (Hsz : 4 * Z.of_nat (Z.to_nat (tr_size r0 / 4)) = tr_size r0) by dlia.
  eapply (wp_run_task_stream t (run_stream t)) with
    (ws := run_words s L (tr_offset r0) (tr_size r0)) (fuel := S (1024 * length L))
    (b0 := DICEDEV_TASK_TYPE_RUN (r0 <| curr_pg_no := tr_offset r0 / PAGE_SIZE |>
      <| curr_pg_off := (tr_offset r0 mod PAGE_SIZE) mod 4 |> <| curr_pg := Some q.1 |>
      <| it_bytes_left := tr_size r0 |>)); [done| | | |by rewrite Hb| | | |done|done]; simpl.
  - rewrite Hb. simpl. lia.
  - lia.
  - unfold dicedev_task_init_it, get_task, fetch, mbind, M_bind. simpl.
    rewrite (ra_task _ _ _ _ _ _ Hra), Hb, Hnn.
    erewrite cbuff_page_ok by (done || by apply (pt_wf_same s)). by rewrite <-Hnn.
  - eexists _, _, cbuf, ptp, tbl, pp, hp, arr, L, _, 0%nat, q.
    split; [apply tasks_upd_task|]. split; [reflexivity|]. simpl. rewrite Hoff.
    split_and!; try done; [by apply (pt_wf_same s)|lia|].
    rewrite Nat.add_0_r. apply prefix_take.
  - unfold task_fuel, get_task, get_buf, deref, get_pt, get_pgarr, fetch, mbind, M_bind.
    rewrite tasks_upd_task. simpl. rewrite Hcb, Hp. simpl. rewrite Ht.
    rewrite (ptw_pages _ _ _ _ _ _ Hwf). simpl.
    rewrite (ptw_arr _ _ _ _ _ _ Hwf), length_fmap. done.
  - pose proof (length_buffer_words _ _ _ _ _ _ Hwf). unfold run_words.
    rewrite length_take, length_drop. lia.
Qed.

(** ** What a task does to the board and to its context *)

(** Device, context and task after running a task whose stream translates
    to [r]: the board got exactly the translated commands, the results were
    credited, and the context failed iff the stream was rejected. *)
Definition ran (s s' : state) (t : ptr) (task : dicedev_task) (ctx : dicedev_context)
    (x : dicedev_device) (r : translation) : Prop :=
  (∃ h, devs s' = <[ctx_dev ctx := dev_io h (feeds (concat (tr_fed r)))
                      (x <| running_task := Some t |>)]> (devs s)) ∧
  (∃ task', tasks s' = <[t := task']> (tasks s) ∧
     task_results task' = u64 (task_results task + tr_cnt r) ∧
     task_ctx task' = task_ctx task ∧ buff_out task' = buff_out task) ∧
  ctxs s' = <[task_ctx task := ctx <| ctx_failed := ctx_failed ctx || negb (tr_ok r) |>]>
              (ctxs s) ∧
  bufs s' = bufs s ∧ pts s' = pts s ∧ pgarrs s' = pgarrs s ∧ cmds s' = cmds s ∧
  dmas s' = dmas s ∧ files s' = files s.

Lemma run_post_ran s t task ctx x h b' r :
  ctxs s !! task_ctx task = Some ctx →
  ran s (run_post t task ctx x h b' r s) t task ctx x r.
Proof.
  intros Hc. unfold run_post, run_effect.
  destruct (tr_ok r) eqn:E; (split; [by exists h|]); (split; [by eexists|]); rewrite E; simpl.
  - split; [|done]. rewrite orb_false_r. symmetry. apply insert_id. rewrite Hc.
    by destruct ctx.
  - split; [|done]. by rewrite orb_true_r.
Qed.

Section RunTheorems.
Context `{!HardwareLaws}.

(** C3: a write task whose command array is well framed runs to completion
    and refines the reference translation: the board receives exactly the
    translated commands in order, the credited results are the sum over the
    accepted GET_DIE commands, and the context fails iff a command was
    rejected. *)
Theorem wt_run_task_write_refines t s task ctx x buf w cmd r :
  runnable s t task ctx x buf →
  body task = DICEDEV_TASK_TYPE_WRITE w → cmds s !! tw_cmd w = Some cmd →
  cmd_size w = 4 * Z.of_nat (length cmd) → cmd_size w < 2 ^ 64 →
  translate (binded_slot buf) (allowed buf) cmd = Some r →
  ∃ s', __wt_run_task t s = Done tt s' ∧ ran s s' t task ctx x r.
Proof.
  intros Hra Hb Hc Hsz Hlt Htr.
  assert (Hwp : wp (__wt_run_task t) s (λ _ s', ran s s' t task ctx x r)).
  { eapply wp_run_task_write; [done..|]. intros h b' _. apply run_post_ran, Hra. }
  apply wp_run in Hwp as ([] & s' & ? & ?). eauto.
Qed.

(** C4: a run task inside its command buffer runs to completion and refines
    the reference translation of [size / 4] words taken from the start of
    the page that contains [offset]. *)
Theorem wt_run_task_run_refines t s task ctx x buf r0 cbuf ptp tbl pp hp arr L r :
  runnable s t task ctx x buf →
  body task = DICEDEV_TASK_TYPE_RUN r0 →
  bufs s !! cBuff r0 = Some cbuf → buf_pt cbuf = Some ptp → pts s !! ptp = Some tbl →
  pt_wf s tbl pp hp arr L →
  0 ≤ tr_offset r0 → tr_offset r0 mod 4 = 0 → 0 < tr_size r0 → tr_size r0 mod 4 = 0 →
  tr_offset r0 + tr_size r0 ≤ max_size tbl →
  translate (binded_slot buf) (allowed buf) (run_words s L (tr_offset r0) (tr_size r0)) = Some r →
  ∃ s', __wt_run_task t s = Done tt s' ∧ ran s s' t task ctx x r.
Proof.
  intros Hra Hb Hcb Hp Ht Hwf Ho Ho4 Hs Hs4 Hle Htr.
  assert (Hwp : wp (__wt_run_task t) s (λ _ s', ran s s' t task ctx x r)).
  { eapply wp_run_task_run; [done..|]. intros h b' _. apply run_post_ran, Hra. }
  apply wp_run in Hwp as ([] & s' & ? & ?). eauto.
Qed.

Lemma run_loop_truncated t cmd d bo fuel ws s x buf task :
  write_stream t cmd s ws → cmd ≠ [] → (length ws < fuel)%nat → 4 * Z.of_nat (length ws) < 2 ^ 64 →
  devs s !! d = Some x → feed_lock x = false → bufs s !! bo = Some buf →
  tasks s !! t = Some task → 0 ≤ task_results task < 2 ^ 64 →
  translate (binded_slot buf) (allowed buf) ws = None →
  wt_run_loop fuel t d bo (4 * Z.of_nat (length ws)) s = Crash BadAccess.
Proof.
  revert ws s x task. induction fuel as [|fuel IH];
    intros ws s x task HP Hne Hfuel Hlen Hd Hl Hbo Ht Htr Hr; [lia|].
  destruct ws as [|c0 ws]; [done|]. cbn [wt_run_loop length].
  destruct (Z.eqb_spec (4 * Z.of_nat (S (length ws))) 0); [lia|].
  cbn [length] in *. apply crash_after. eapply (wp_next_word t (write_stream t cmd)); [done..|]. intros b1 _ HP1.
  cbn [translate] in Hr.
  destruct (_ =? DICEDEV_USER_CMD_TYPE_NOP).
  { rewrite u64_small by lia. replace (_ - 4) with (4 * Z.of_nat (length ws)) by lia.
    eapply (IH ws); [done|done|lia|lia|exact Hd|done|exact Hbo|apply tasks_upd_task|done|done]. }
  destruct (_ =? DICEDEV_USER_CMD_TYPE_GET_DIE).
  { destruct (Z.ltb_spec (4 * Z.of_nat (S (length ws))) 4); [lia|].
    destruct ws as [|c1 ws].
    - apply crash_here. by eapply write_stream_end.
    - cbn [length] in *. apply crash_after.
      eapply (wp_next_word t (write_stream t cmd)); [exact HP1|apply tasks_upd_task|]. intros b2 _ HP2.
      rewrite upd_task_twice in *. unfold get_die_ok in Hr.
      destruct (Z.land c0 GET_DIE_SLOT_MASK =? 0); simpl in Hr |- *; [|done].
      apply crash_after. wp_mem. destruct (Z.land c1 _ =? 0); simpl in Hr |- *; [|done].
      apply fmap_None in Hr. do 2 (apply crash_after; wp_mem). rewrite upd_task_twice.
      apply crash_after. eapply wp_feed_cmd; [done..|]. intros h. rewrite u64_small by lia.
      replace (_ - 8) with (4 * Z.of_nat (length ws)) by lia.
      eapply (IH ws); [|done|lia|lia|apply devs_upd_dev|done|exact Hbo|apply tasks_upd_task|
        apply u64_range|done]; by apply (stream_feed t (write_stream t cmd)). }
  destruct (_ =? DICEDEV_USER_CMD_TYPE_NEW_SET); [|done].
  destruct (Z.land c0 NEW_SET_SLOT_MASK =? 0); simpl in Hr |- *; [|done].
  apply fmap_None in Hr. apply crash_after. wp_mem.
  apply crash_after. eapply wp_feed_cmd; [done..|]. intros h. rewrite u64_small by lia.
  replace (_ - 4) with (4 * Z.of_nat (length ws)) by lia.
  eapply (IH ws); [|done|lia|lia|apply devs_upd_dev|done|exact Hbo|apply tasks_upd_task|
    done|done]; eapply (stream_io t (write_stream t cmd)); [done|apply tasks_upd_task].
Qed.

(** C34: a write task whose command array ends inside a GET_DIE command makes
    the work thread read past the end of the array. *)
Theorem wt_run_task_truncated_overread t s task ctx x buf w cmd :
  runnable s t task ctx x buf →
  body task = DICEDEV_TASK_TYPE_WRITE w → cmds s !! tw_cmd w = Some cmd →
  cmd_size w = 4 * Z.of_nat (length cmd) → cmd_size w < 2 ^ 64 →
  translate (binded_slot buf) (allowed buf) cmd = None →
  __wt_run_task t s = Crash BadAccess.
Proof.
  intros [Ht Hc Hd Hl Hb Hs Hr] Hbd Hcm Hsz Hlt Htr. unfold __wt_run_task.
  do 4 (apply crash_after; wp_mem). apply crash_after. wp_mem.
  apply crash_after. apply wp_BUG_ON; [by apply Z.eqb_neq|].
  apply crash_after. unfold dicedev_task_init_it. wp_mem. rewrite Hbd. wp_mem.
  apply crash_after. unfold task_fuel. wp_mem.
  apply crash_here. rewrite Hsz.
  eapply (run_loop_truncated t cmd _ _ (S (length cmd)) cmd); [|by intros ->|lia|lia|apply devs_upd_dev|done|exact Hb|
    apply tasks_upd_task|done|done].
  eexists _, _. split; [apply tasks_upd_task|]. split; [done|]. split_and!; try done.
  simpl. lia.
Qed.

End RunTheorems.
End Task.
