(* ===== verification/Partial.v ===== *)
(** Rules for routines that may end in a fault, for a chosen set of faults;
    with them, the translation loop of [__wt_run_task] (src/dicedev_wt.c) comes
    to an end whatever the words of the task are. *)

From S2P Require Import Prelude Cmd Types Utils Slots Pt Task.

(** ** Partial correctness *)

Section Rules.
Context {S : Type}.

(** The routine returns in [Q], or ends in a fault of [E]. *)
Definition pwp {A} (E : fault → Prop) (m : M S A) (s : S) (Q : A → S → Prop) : Prop :=
  match m s with Done a s' => Q a s' | Crash e => E e end.

Variable E : fault → Prop.

Lemma pwp_bind {A B} (m : M S A) (k : A → M S B) s (Q : B → S → Prop) :
  pwp E m s (λ a s', pwp E (k a) s' Q) → pwp E (m ≫= k) s Q.
Proof. unfold pwp, mbind, M_bind. by destruct (m s). Qed.

Lemma pwp_assoc {A B C} (m : M S A) (k : A → M S B) (l : B → M S C) s (Q : C → S → Prop) :
  pwp E ((m ≫= k) ≫= l) s Q → pwp E (m ≫= λ a, k a ≫= l) s Q.
Proof. unfold pwp, mbind, M_bind. by destruct (m s). Qed.

Lemma pwp_wp {A} (m : M S A) s (Q : A → S → Prop) : wp m s Q → pwp E m s Q.
Proof. unfold wp, pwp. by destruct (m s). Qed.

Lemma pwp_mono {A} (m : M S A) s (P Q : A → S → Prop) :
  pwp E m s P → (∀ a s', P a s' → Q a s') → pwp E m s Q.
Proof. unfold pwp. destruct (m s); auto. Qed.

Lemma pwp_done {A} (m : M S A) s (Q : A → S → Prop) a s' : pwp E m s Q → m s = Done a s' → Q a s'.
Proof. unfold pwp. intros Hp Hm. by rewrite Hm in Hp. Qed.

Lemma pwp_crash {A} (m : M S A) s (Q : A → S → Prop) e : pwp E m s Q → m s = Crash e → E e.
Proof. unfold pwp. intros Hp Hm. by rewrite Hm in Hp. Qed.

Lemma pwp_ret {A} (a : A) s (Q : A → S → Prop) : Q a s → pwp E (mret a) s Q.
Proof. done. Qed.

Lemma pwp_fetch {A} (f : S → option A) s (Q : A → S → Prop) :
  E BadAccess → (∀ a, f s = Some a → Q a s) → pwp E (fetch f) s Q.
Proof. unfold pwp, fetch. destruct (f s); auto. Qed.

Lemma pwp_modify (f : S → S) s (Q : unit → S → Prop) : Q tt (f s) → pwp E (modify f) s Q.
Proof. done. Qed.

Lemma pwp_BUG_ON b s (Q : unit → S → Prop) : E Bug → Q tt s → pwp E (BUG_ON b) s Q.
Proof. by destruct b. Qed.

End Rules.

(** Reads and updates of memory, one after the other. *)
Ltac pwp_step :=
  lazymatch goal with
  | |- pwp _ (_ ≫= _) _ _ => apply pwp_bind
  | |- pwp _ (mret _) _ _ => apply pwp_ret
  | |- pwp _ (modify _) _ _ => apply pwp_modify
  | |- pwp _ (BUG_ON _) _ _ => apply pwp_BUG_ON; [done|]
  | |- pwp _ (fetch _) _ _ => apply pwp_fetch; [done|]; intros ? ?
  end.

Section Partial.
Context `{Hardware, Kernel, !HardwareLaws}.

(** Feeding commands writes them to the board, unless the device is gone or
    its lock is taken. *)
Lemma pwp_feed_cmd (E : fault → Prop) D ws s (Q : unit → state → Prop) :
  E BadAccess → E SelfDeadlock →
  (∀ x h, devs s !! D = Some x → Q tt (upd_dev D (dev_io h (feeds ws) x) s)) → pwp E (feed_cmd D ws) s Q.
Proof.
  intros Hb Hl HQ. destruct (devs s !! D) as [x|] eqn:Hd.
  - destruct (feed_lock x) eqn:Hf; [|apply pwp_wp; eapply wp_feed_cmd; eauto].
    unfold pwp, feed_cmd, lock_feed, get_dev, fetch, mbind, M_bind. by rewrite Hd, Hf.
  - unfold pwp, feed_cmd, lock_feed, get_dev, fetch, mbind, M_bind. by rewrite Hd.
Qed.

(** ** The words ahead *)

(** The iterator of task [t] delivers at most [k] more words before it leaves
    the memory of the task. *)
Definition words_ahead (s : state) (t : ptr) (k : Z) : Prop :=
  0 ≤ k ∧ ∃ task, tasks s !! t = Some task ∧
  match body task with
  | DICEDEV_TASK_TYPE_WRITE w => ∃ cmd, cmds s !! tw_cmd w = Some cmd ∧ Z.of_nat (length cmd) < 2 ^ 64 ∧
      0 ≤ tw_offset w ∧ Z.of_nat (length cmd) ≤ tw_offset w + k
  | DICEDEV_TASK_TYPE_RUN r => ∃ buf ptp tbl arr a, bufs s !! cBuff r = Some buf ∧ buf_pt buf = Some ptp ∧
      pts s !! ptp = Some tbl ∧ pages tbl = Some arr ∧ pgarrs s !! arr = Some a ∧
      Z.of_nat (length a) < 2 ^ 64 ∧ 0 ≤ curr_pg_no r < Z.of_nat (length a) ∧ 0 ≤ curr_pg_off r ≤ 1024 ∧
      1024 * (Z.of_nat (length a) - curr_pg_no r) ≤ curr_pg_off r + k
  end.

Lemma index_bound {A} (l : list A) i v :
  (if 0 <=? i then l !! Z.to_nat i else None) = Some v → 0 ≤ i < Z.of_nat (length l).
Proof. destruct (Z.leb_spec 0 i); [|done]. intros ?%lookup_lt_Some. lia. Qed.

(** No fault but an exhausted loop is excluded. *)
Abbreviation ending := (λ e, e ≠ LoopExhausted).

Lemma next_word_ahead s t k :
  words_ahead s t k →
  pwp ending (dicedev_task_get_next_word t) s (λ _ s', words_ahead s' t (k - 1)).
Proof.
  intros (Hk & task & Ht & Hb). unfold dicedev_task_get_next_word, get_task, put_task, get_cmds, get_dma, deref, index.
  do 2 pwp_step. simplify_eq. destruct (body task) as [w|r] eqn:Eb.
  - destruct Hb as (cmd & Hc & Hlt & Ho & Hle). repeat pwp_step. simplify_eq.
    match goal with Hi : _ = Some _ |- _ => apply index_bound in Hi end.
    split; [lia|]. eexists. rewrite tasks_upd_task. split; [done|]. exists cmd. simpl.
    rewrite u64_small by lia. split_and!; try done; lia.
  - destruct Hb as (buf & ptp & tbl & arr & a & Hbuf & Hp & Hpt & Hpg & Ha & Hlt & Hno & Hoff & Hle).
    pwp_step. change (PAGE_SIZE / 4) with 1024. destruct (Z.eqb_spec (curr_pg_off r) 1024) as [E|E].
    + unfold cbuff_page, get_buf, get_pt, get_pgarr, deref, index. repeat pwp_step. simplify_eq.
      repeat match goal with Hi : (if _ then _ else _) = Some _ |- _ => apply index_bound in Hi end. simpl in *.
      rewrite u64_small in * by lia. split; [lia|]. eexists. rewrite tasks_upd_task. split; [done|].
      exists buf, ptp, tbl, arr, a. simpl. rewrite !u64_small by lia. split_and!; try done; lia.
    + repeat pwp_step. simpl in *. split; [lia|]. eexists. rewrite tasks_upd_task. split; [done|].
      exists buf, ptp, tbl, arr, a. simpl. rewrite !u64_small by lia. split_and!; try done; lia.
Qed.

Lemma ahead_dev s t k D y : words_ahead s t k → words_ahead (upd_dev D y s) t k.
Proof. done. Qed.

Lemma ahead_results s t k task n :
  words_ahead s t k → tasks s !! t = Some task → words_ahead (upd_task t (task <| task_results := n |>) s) t k.
Proof.
  intros (Hk & task' & Ht' & Hb) Ht. simplify_eq. split; [done|]. eexists. rewrite tasks_upd_task.
  split; [done|]. exact Hb.
Qed.

(** ** The loop ends *)

Lemma run_loop_ends fuel t D bo : ∀ s n k,
  words_ahead s t k → k < Z.of_nat fuel → pwp ending (wt_run_loop fuel t D bo n) s (λ _ _, True).
Proof.
  induction fuel as [|fuel IH]; intros s n k Hw Hlt; [destruct Hw; lia|]. cbn [wt_run_loop].
  destruct (n =? 0); [done|]. pwp_step. eapply pwp_mono; [exact (next_word_ahead _ _ _ Hw)|]. intros c0 s1 Hw1.
  destruct (_ =? DICEDEV_USER_CMD_TYPE_NOP); [eapply IH; [exact Hw1|lia]|].
  destruct (_ =? DICEDEV_USER_CMD_TYPE_GET_DIE).
  - destruct (n <? 4); [done|]. pwp_step. eapply pwp_mono; [exact (next_word_ahead _ _ _ Hw1)|]. intros c1 s2 Hw2.
    destruct (negb _); [done|]. unfold get_buf. do 2 pwp_step. destruct (negb _); [done|].
    unfold get_task, put_task. do 5 pwp_step. apply pwp_feed_cmd; [done..|]. intros x h _.
    eapply (IH _ _ (k - 1 - 1)); [|lia]. by apply ahead_dev, ahead_results.
  - destruct (_ =? DICEDEV_USER_CMD_TYPE_NEW_SET); [|done]. destruct (negb _); [done|].
    unfold get_buf. do 3 pwp_step. apply pwp_feed_cmd; [done..|]. intros x h _.
    eapply (IH _ _ (k - 1)); [by apply ahead_dev|lia].
Qed.

(** Arrays have fewer than 2^64 entries. *)
Definition arrays_small (s : state) : Prop :=
  map_Forall (λ _ l, Z.of_nat (length l) < 2 ^ 64) (cmds s) ∧
  map_Forall (λ _ l, Z.of_nat (length l) < 2 ^ 64) (pgarrs s).

#[global] Instance arrays_small_dec s : Decision (arrays_small s).
Proof. unfold arrays_small. apply _. Defined.

(** The fuel is more than the words ahead. *)
Lemma init_it_ahead t s :
  arrays_small s →
  pwp ending (dicedev_task_init_it t;; task_fuel t) s (λ fuel s', ∃ k, words_ahead s' t k ∧ k < Z.of_nat fuel).
Proof.
  intros [Hsc Hsp]. unfold map_Forall in Hsc, Hsp. unfold dicedev_task_init_it, task_fuel, get_task, put_task. do 3 pwp_step.
  match goal with |- context [body ?tk] => destruct (body tk) as [w|r] eqn:Eb end.
  - do 3 pwp_step. rewrite tasks_upd_task in *. simplify_eq. simpl. unfold get_cmds. do 3 pwp_step.
    match goal with Hc : cmds _ !! _ = Some ?l |- _ => exists (Z.of_nat (length l)) end.
    split; [|lia]. split; [lia|]. eexists. rewrite tasks_upd_task. split; [done|].
    simpl. eexists. split_and!; [done|by eapply Hsc|lia|lia].
  - unfold cbuff_page, get_buf, get_pt, get_pgarr, deref, index. repeat pwp_step.
    rewrite tasks_upd_task in *. simplify_eq. simpl. repeat pwp_step. simpl in *. simplify_eq.
    match goal with Hi : (if _ then _ else _) = Some _ |- _ => apply index_bound in Hi end.
    match goal with Ha : pgarrs _ !! _ = Some ?l |- _ => pose proof (Hsp _ _ Ha); exists (1024 * Z.of_nat (length l)) end.
    split; [|lia]. split; [lia|]. eexists. rewrite tasks_upd_task. split; [done|]. simpl.
    eexists _, _, _, _, _. split_and!; try done; unfold PAGE_SIZE in *; dlia.
Qed.


End Partial.
