(* ===== verification/Stream.v ===== *)
(** Properties of the command words: the fields of the header macros
    (src/dicedev.h) and what the work thread lets through to the board
    (src/dicedev_wt.c). *)

From S2P Require Import Prelude Cmd Types Utils Slots Pt Task.

(** ** Fields of command words *)

Definition field (lo w x : Z) : Z := Z.land (Z.shiftr x lo) (Z.ones w).
Definition cmd_type (c : Z) : Z := field 0 4 c.
(** Slot of a GET_DIE and of a NEW_SET / BIND_SLOT / UNBIND_SLOT command. *)
Definition die_slot (c : Z) : Z := field 24 4 c.
Definition set_slot (c : Z) : Z := field 4 4 c.

Lemma field_testbit lo w x n :
  0 ≤ lo → 0 ≤ w → 0 ≤ n → Z.testbit (field lo w x) n = (n <? w) && Z.testbit x (n + lo).
Proof.
  intros Hlo Hw Hn. unfold field. rewrite Z.land_spec, Z.shiftr_spec by done.
  rewrite Z.testbit_ones by done.
  destruct (Z.leb_spec 0 n), (Z.ltb_spec n w); simpl; rewrite ?andb_true_r, ?andb_false_r;
    done || lia.
Qed.

(** [by_bits n]: compare two words bit by bit. *)
Ltac by_bits n :=
  apply Z.bits_inj'; intros n ?;
  repeat first [ rewrite field_testbit by lia | rewrite u32_testbit by lia
               | rewrite Z.lor_spec | rewrite Z.shiftl_spec by lia | rewrite Z.land_spec ].

(** A zero bit-and with a mask clears the bits of the mask. *)
Lemma land_0_testbit x m n : Z.land x m = 0 → Z.testbit m n = true → Z.testbit x n = false.
Proof.
  intros E Hm. pose proof (Z.land_spec x m n) as H.
  rewrite E, Z.bits_0, Hm, andb_true_r in H. done.
Qed.

Lemma with_die_slot_fields slot c0 :
  0 ≤ slot < 16 → Z.land c0 GET_DIE_SLOT_MASK = 0 →
  die_slot (with_die_slot slot c0) = Z.lor slot (field 24 1 c0) ∧
  cmd_type (with_die_slot slot c0) = cmd_type c0.
Proof.
  intros Hs Hm. unfold die_slot, cmd_type, with_die_slot. split; by_bits n.
  - destruct (Z.ltb_spec n 4) as [Hn|Hn]; simpl.
    + destruct (Z.ltb_spec (n + 24) 32); [|lia]. simpl. replace (n + 24 - 24) with n by lia.
      rewrite orb_comm. f_equal. destruct (Z.ltb_spec n 1); [done|]. simpl.
      apply (land_0_testbit _ _ _ Hm).
      assert (n = 1 ∨ n = 2 ∨ n = 3) as [->|[->| ->]] by lia; reflexivity.
    + destruct (Z.ltb_spec n 1); [lia|]. by rewrite (testbit_above slot 4) by lia.
  - destruct (Z.ltb_spec n 4) as [Hn|Hn]; simpl; [|done].
    destruct (Z.ltb_spec (n + 0) 32); [|lia]. simpl.
    rewrite (Z.testbit_neg_r slot) by lia. by rewrite orb_false_r.
Qed.

Lemma with_set_slot_fields slot c0 :
  0 ≤ slot < 16 → Z.land c0 NEW_SET_SLOT_MASK = 0 →
  set_slot (with_set_slot slot c0) = Z.lor slot (field 4 1 c0) ∧
  cmd_type (with_set_slot slot c0) = cmd_type c0.
Proof.
  intros Hs Hm. unfold set_slot, cmd_type, with_set_slot. split; by_bits n.
  - destruct (Z.ltb_spec n 4) as [Hn|Hn]; simpl.
    + destruct (Z.ltb_spec (n + 4) 32); [|lia]. simpl. replace (n + 4 - 4) with n by lia.
      rewrite orb_comm. f_equal. destruct (Z.ltb_spec n 1); [done|]. simpl.
      apply (land_0_testbit _ _ _ Hm).
      assert (n = 1 ∨ n = 2 ∨ n = 3) as [->|[->| ->]] by lia; reflexivity.
    + destruct (Z.ltb_spec n 1); [lia|]. by rewrite (testbit_above slot 4) by lia.
  - destruct (Z.ltb_spec n 4) as [Hn|Hn]; simpl; [|done].
    destruct (Z.ltb_spec (n + 0) 32); [|lia]. simpl.
    rewrite (Z.testbit_neg_r slot) by lia. by rewrite orb_false_r.
Qed.

Lemma not_allowed_subset c al :
  0 ≤ c < 2 ^ 32 → Z.land c (u32 (Z.lnot al)) = 0 → Z.land c al = c.
Proof.
  intros Hc Hm. apply Z.bits_inj'. intros n Hn. rewrite Z.land_spec.
  destruct (Z.testbit c n) eqn:E; [|done]. simpl.
  destruct (Z.ltb_spec n 32); [|by rewrite (testbit_above c 32) in E by lia].
  destruct (Z.testbit al n) eqn:Ea; [done|].
  rewrite (land_0_testbit _ _ _ Hm) in E; [done|].
  rewrite u32_testbit, Z.lnot_spec, Ea by done. destruct (Z.ltb_spec n 32); [done|lia].
Qed.

(** ** What reaches the board *)

(** A command for a buffer bound to [slot] that allows the dice [al]: only
    GET_DIE for allowed dice and NEW_SET, addressed to [slot] up to the lowest
    bit of the slot field, which is the bitwise or of the buffer's and the
    user's. *)
Definition issued (slot al : Z) (c : list Z) : Prop :=
  match c with
  | [c0; c1] => cmd_type c0 = DICEDEV_USER_CMD_TYPE_GET_DIE ∧ Z.land c1 al = c1 ∧
      (die_slot c0 = slot ∨ die_slot c0 = Z.lor slot 1)
  | [c0] => cmd_type c0 = DICEDEV_USER_CMD_TYPE_NEW_SET ∧
      (set_slot c0 = slot ∨ set_slot c0 = Z.lor slot 1)
  | _ => False
  end.

Lemma field_bit lo x : field lo 1 x = 0 ∨ field lo 1 x = 1.
Proof.
  unfold field. change (Z.ones 1) with 1. rewrite (Z.land_ones _ 1) by lia.
  pose proof (Z.mod_pos_bound (Z.shiftr x lo) (2 ^ 1)). lia.
Qed.

Lemma cmd_type_land c : Z.land c DICEDEV_CMD_TYPE_MASK = cmd_type c.
Proof. unfold cmd_type, field. by rewrite Z.shiftr_0_r. Qed.

(** What the checks of the translation loop leave of the slot field. *)
Lemma lor_field_slot slot lo c : Z.lor slot (field lo 1 c) = slot ∨ Z.lor slot (field lo 1 c) = Z.lor slot 1.
Proof. destruct (field_bit lo c) as [-> | ->]; [left; apply Z.lor_0_r|by right]. Qed.

(** A GET_DIE and a NEW_SET that pass the checks. *)
Lemma issued_die slot al c0 c1 :
  0 ≤ slot < 16 → cmd_type c0 = DICEDEV_USER_CMD_TYPE_GET_DIE →
  Z.land c0 GET_DIE_SLOT_MASK = 0 → Z.land c1 (u32 (Z.lnot al)) = 0 →
  issued slot al [with_die_slot slot c0; u32 c1].
Proof.
  intros Hs Ht Hm Ha. destruct (with_die_slot_fields slot c0 Hs Hm) as [Hd Hty].
  split_and!; [congruence| |rewrite Hd; apply lor_field_slot].
  apply not_allowed_subset; [apply u32_range|]. apply Z.bits_inj'. intros n Hn.
  rewrite Z.land_spec, (u32_testbit c1), Z.bits_0 by done.
  pose proof (Z.land_spec c1 (u32 (Z.lnot al)) n) as Hb. rewrite Ha, Z.bits_0 in Hb.
  destruct (n <? 32); [exact (eq_sym Hb)|done].
Qed.

Lemma issued_set slot al c0 :
  0 ≤ slot < 16 → cmd_type c0 = DICEDEV_USER_CMD_TYPE_NEW_SET →
  Z.land c0 NEW_SET_SLOT_MASK = 0 → issued slot al [with_set_slot slot c0].
Proof.
  intros Hs Ht Hm. destruct (with_set_slot_fields slot c0 Hs Hm) as [Hd Hty].
  split; [congruence|]. rewrite Hd. apply lor_field_slot.
Qed.

(** C35: the slot check leaves the lowest slot bit to the user: for every
    buffer bound to an even slot there is an accepted GET_DIE that the board
    executes on the next slot, which may belong to another context. *)
Theorem get_die_slot_escape slot al :
  0 ≤ slot < 16 → Z.even slot = true →
  ∃ c0, translate slot al [DICEDEV_USER_CMD_GET_DIE_HEADER_WSLOT 1 0 1; 0]
          = Some (mkTr [[c0; 0]] 0 true) ∧
        cmd_type c0 = DICEDEV_USER_CMD_TYPE_GET_DIE ∧ die_slot c0 = slot + 1.
Proof.
  intros Hs He. exists (with_die_slot slot 0x1000012). split; [reflexivity|].
  assert (∃ k, (k < 8)%nat ∧ slot = 2 * Z.of_nat k) as (k & Hk & ->).
  { apply Z.even_spec in He as [k ->]. exists (Z.to_nat k). lia. }
  do 8 (destruct k as [|k]; [by split|]). lia.
Qed.

Lemma get_die_slot_escape_witness :
  ∃ c0, translate 0 0 [DICEDEV_USER_CMD_GET_DIE_HEADER_WSLOT 1 0 1; 0]
          = Some (mkTr [[c0; 0]] 0 true) ∧
        cmd_type c0 = DICEDEV_USER_CMD_TYPE_GET_DIE ∧ die_slot c0 = 0 + 1.
Proof. apply get_die_slot_escape; [lia|reflexivity]. Defined.

(** ** Header macros *)

(** Results credited for a GET_DIE header: the mask starts one bit above the
    count field and the masked value is not shifted down. *)
Lemma get_die_credit_field num ot :
  0 ≤ num < 2 ^ 16 → 0 ≤ ot < 16 →
  Z.land (DICEDEV_USER_CMD_GET_DIE_HEADER num ot) GET_DIE_NUM_MASK = 32 * (num / 2).
Proof.
  intros Hn Ho. replace (32 * (num / 2)) with (Z.shiftl (Z.shiftr num 1) 5)
    by (rewrite Z.shiftl_mul_pow2, Z.shiftr_div_pow2 by lia; change (2 ^ 1) with 2; lia).
  change GET_DIE_NUM_MASK with (Z.shiftl (Z.ones 15) 5).
  unfold DICEDEV_USER_CMD_GET_DIE_HEADER. by_bits n.
  destruct (Z.ltb_spec n 5).
  - rewrite !(Z.testbit_neg_r _ (n - 5)) by lia. apply andb_false_r.
  - rewrite Z.shiftr_spec, Z.testbit_ones by lia. replace (n - 5 + 1) with (n - 4) by lia.
    rewrite (testbit_above 2 4) by lia. simpl.
    destruct (Z.leb_spec 0 (n - 5)); [|lia]. destruct (Z.ltb_spec (n - 5) 15); simpl.
    + rewrite (Z.testbit_neg_r ot) by lia. by rewrite orb_false_r, andb_true_r.
    + rewrite andb_false_r. by rewrite (testbit_above num 16) by lia.
Qed.

(** C36: the number of results credited to a task for [GET_DIE] of [num] rolls
    of the dice in [c1] is [32 * (num / 2)] whatever the dice are, while the
    board produces [num] results per die requested (the comment in
    [__wt_run_task]); in particular a single roll is credited with nothing. *)
Theorem get_die_credit slot al num ot c1 :
  0 ≤ num < 2 ^ 16 → 0 ≤ ot < 16 → 0 ≤ c1 < 2 ^ 32 → Z.land c1 (u32 (Z.lnot al)) = 0 →
  ∃ fed, translate slot al [DICEDEV_USER_CMD_GET_DIE_HEADER num ot; c1]
    = Some (mkTr fed (32 * (num / 2)) true).
Proof.
  intros Hn Ho Hc Ha. assert (Hty : cmd_type (DICEDEV_USER_CMD_GET_DIE_HEADER num ot) = 2).
  { unfold cmd_type, DICEDEV_USER_CMD_GET_DIE_HEADER. by_bits n.
    destruct (Z.ltb_spec n 4); simpl; [|by rewrite (testbit_above 2 4) by lia].
    rewrite !(Z.testbit_neg_r _ (n + 0 - _)) by lia. rewrite !orb_false_r. f_equal. lia. }
  assert (Hsl : Z.land (DICEDEV_USER_CMD_GET_DIE_HEADER num ot) GET_DIE_SLOT_MASK = 0).
  { change GET_DIE_SLOT_MASK with (Z.shiftl (Z.ones 3) 25).
    unfold DICEDEV_USER_CMD_GET_DIE_HEADER. by_bits n. rewrite Z.bits_0.
    destruct (Z.ltb_spec n 25).
    - rewrite (Z.testbit_neg_r _ (n - 25)) by lia. apply andb_false_r.
    - rewrite (testbit_above 2 4), (testbit_above num 16), (testbit_above ot 4) by lia.
      done. }
  eexists. cbn [translate]. rewrite cmd_type_land, Hty. simpl.
  unfold get_die_ok. rewrite Hsl, Ha. simpl. unfold tr_cons. simpl.
  by rewrite get_die_credit_field, Z.add_0_r by done.
Qed.

Lemma get_die_credit_witness :
  ∃ fed, translate 0 0x20 [DICEDEV_USER_CMD_GET_DIE_HEADER 1 0; 0x20]
    = Some (mkTr fed (32 * (1 / 2)) true).
Proof. apply get_die_credit; [lia|lia|lia|reflexivity]. Defined.

(** The BIND_SLOT header carries the slot exactly and the low 20 bits of
    the seed; the UNBIND_SLOT header carries the slot exactly. *)
Theorem slot_header_fields slot sd :
  0 ≤ slot < 16 →
  let b := u32 (DICEDEV_USER_CMD_BIND_SLOT_HEADER slot sd) in
  let u := u32 (DICEDEV_USER_CMD_UNBIND_SLOT_HEADER slot) in
  cmd_type b = DICEDEV_USER_CMD_TYPE_BIND_SLOT ∧ set_slot b = slot ∧
  field 12 20 b = sd mod 2 ^ 20 ∧
  cmd_type u = DICEDEV_USER_CMD_TYPE_UNBIND_SLOT ∧ set_slot u = slot.
Proof.
  intros Hs b u. unfold b, u, cmd_type, set_slot, DICEDEV_USER_CMD_BIND_SLOT_HEADER,
    DICEDEV_USER_CMD_UNBIND_SLOT_HEADER.
  assert (Hsm : ∀ n, 4 ≤ n → Z.testbit slot n = false)
    by (intros n Hn; by rewrite (testbit_above slot 4) by lia).
  split_and!; by_bits n.
  - destruct (Z.ltb_spec n 4); simpl; [|by rewrite (testbit_above 1 4) by lia].
    destruct (Z.ltb_spec (n + 0) 32); [|lia]. simpl.
    rewrite !(Z.testbit_neg_r _ (n + 0 - _)) by lia. rewrite !orb_false_r. f_equal. lia.
  - destruct (Z.ltb_spec n 4); simpl; [|by rewrite Hsm].
    destruct (Z.ltb_spec (n + 4) 32); [|lia]. simpl.
    rewrite (testbit_above 1 4), (Z.testbit_neg_r sd) by lia. simpl.
    rewrite orb_false_r. f_equal. lia.
  - destruct (Z.ltb_spec n 20); simpl; [|by rewrite Z.mod_pow2_bits_high by lia].
    destruct (Z.ltb_spec (n + 12) 32); [|lia]. simpl.
    rewrite (testbit_above 1 4), Hsm, Z.mod_pow2_bits_low by lia. simpl. f_equal. lia.
  - destruct (Z.ltb_spec n 4); simpl; [|by rewrite (testbit_above 5 4) by lia].
    destruct (Z.ltb_spec (n + 0) 32); [|lia]. simpl.
    rewrite (Z.testbit_neg_r _ (n + 0 - _)) by lia. rewrite orb_false_r. f_equal. lia.
  - destruct (Z.ltb_spec n 4); simpl; [|by rewrite Hsm].
    destruct (Z.ltb_spec (n + 4) 32); [|lia]. simpl.
    rewrite (testbit_above 5 4) by lia. simpl. f_equal. lia.
Qed.

Lemma slot_header_fields_witness :
  let b := u32 (DICEDEV_USER_CMD_BIND_SLOT_HEADER 7 0x100123) in
  let u := u32 (DICEDEV_USER_CMD_UNBIND_SLOT_HEADER 7) in
  cmd_type b = DICEDEV_USER_CMD_TYPE_BIND_SLOT ∧ set_slot b = 7 ∧
  field 12 20 b = 0x100123 mod 2 ^ 20 ∧
  cmd_type u = DICEDEV_USER_CMD_TYPE_UNBIND_SLOT ∧ set_slot u = 7.
Proof. apply slot_header_fields. lia. Defined.
