(* ===== verification/Wt.v ===== *)
(** The work thread (src/dicedev_wt.c): its queue, the events it reacts to,
    and the reaction to each of them.  The thread's local variable
    [wtState.next_task] is passed and returned; everything else it touches is
    in memory. *)

From S2P Require Import Prelude Cmd Types Utils Slots Pt Task.

Section Wt.
Context `{Hardware, Kernel}.

(** [dicedev_wt_init]; kthread_run makes a new thread runnable or returns an
    error pointer, which is stored all the same. *)
Definition dicedev_wt_init (d : ptr) : K unit :=
  x ← get_dev d;
  put_dev d (x <| running_task := None |> <| pending_tasks := [] |>);;
  err ← kcall_int KKthreadRun;
  x ← get_dev d;
  put_dev d (x <| wt_thread := negb (err <? 0) |> <| should_stop := false |>
               <| should_park := false |> <| wt_sleeping := false |>);;
  when (negb (err <? 0)) (acquire (Some d) RThread).

(** wake_up_interruptible(&dev->wt.event_cond) *)
Definition wake_wt (d : ptr) : K unit :=
  x ← get_dev d; put_dev d (x <| wt_sleeping := false |>).
(** wake_up_interruptible(&ctx->wq): waiters re-evaluate their condition; the
    context must be alive. *)
Definition wake_ctx (c : ptr) : K unit := get_ctx c;; mret tt.

Definition dicedev_wt_add_task (c t : ptr) : K unit :=
  ctx ← get_ctx c;
  let d := ctx_dev ctx in
  lock_slock d;;
  x ← get_dev d;
  put_dev d (x <| pending_tasks := pending_tasks x ++ [t] |>);;
  wake_wt d;;
  unlock_slock d.

(** [dicedev_buffer_init_reader] (src/dicedev_buffer.c) *)
Definition dicedev_buffer_init_reader (b : ptr) : K unit :=
  buf ← get_buf b;
  put_buf b (buf <| reader := mkReader 0 0 |>).

Inductive wt_event :=
  | WT_NO_EVENT | WT_EVENT_TASK_GET_NEXT | WT_EVENT_TASK_BIND_SLOT
  | WT_EVENT_TASK_RUN | WT_EVENT_TASK_FINISH | WT_PARK | WT_STOP.
#[global] Instance wt_event_eq_dec : EqDecision wt_event.
Proof. solve_decision. Defined.

(** struct wt_state, the thread's local state. *)
Record wt_state := mkWt { wt_dev : ptr; next_task : option ptr }.

Definition __wt_get_event (w : wt_state) : K wt_event :=
  let d := wt_dev w in
  x ← get_dev d;
  if should_stop x then mret WT_STOP
  else if should_park x then mret WT_PARK
  else if bool_decide (fence_state x = DICEDEV_FENCE_STATE_REACHED)
  then mret WT_EVENT_TASK_FINISH
  else
    match next_task w with
    | None =>
        mret (if bool_decide (pending_tasks x ≠ [])
              then WT_EVENT_TASK_GET_NEXT else WT_NO_EVENT)
    | Some t =>
        if bool_decide (fence_state x ≠ DICEDEV_FENCE_STATE_NONE) then mret WT_NO_EVENT
        else
          lock_slock d;;
          task ← get_task t;
          buf ← get_buf (buff_out task);
          if binded_slot buf =? DICEDEV_BUFFER_NO_SLOT then
            unlock_slock d;;
            x ← get_dev d;
            mret (if 0 <? free_slots x then WT_EVENT_TASK_BIND_SLOT else WT_NO_EVENT)
          else
            unlock_slock d;;
            mret WT_EVENT_TASK_RUN
    end.

Definition is_run (b : task_body) : bool :=
  match b with DICEDEV_TASK_TYPE_RUN _ => true | _ => false end.

(** The first critical section of [__task_destroy]: give the slot back. *)
Definition task_release_slot (d t : ptr) : K unit :=
  lock_slock d;;
  task ← get_task t;
  buf ← get_buf (buff_out task);
  ctx ← get_ctx (task_ctx task);
  when (negb (binded_slot buf =? DICEDEV_BUFFER_NO_SLOT) &&
        (is_run (body task) || ctx_failed ctx)) (unbind_slot d (buff_out task));;
  unlock_slock d.

(** The second one: account for the finished task and publish its results. *)
Definition task_account (t : ptr) : K unit :=
  task ← get_task t;
  buf ← get_buf (buff_out task);
  let d := buf_dev buf in
  lock_slock d;;
  ctx ← get_ctx (task_ctx task);
  put_ctx (task_ctx task) (ctx <| task_count := u64 (task_count ctx - 1) |>);;
  buf ← get_buf (buff_out task);
  put_buf (buff_out task) (buf <| reader := (reader buf) <| result_count :=
    u64 (result_count (reader buf) + task_results task) |> |>);;
  wake_ctx (task_ctx task);;
  unlock_slock d.

Definition __task_destroy (t : ptr) : K unit :=
  task ← get_task t;
  ctx ← get_ctx (task_ctx task);
  task_release_slot (ctx_dev ctx) t;;
  task_account t;;
  kfree_task t.

(** ** Reactions to the events *)

(** WT_EVENT_TASK_GET_NEXT: returns the new [next_task]. Unlinking from an
    empty list would corrupt its head. *)
Definition wt_get_next (d : ptr) : K (option ptr) :=
  lock_slock d;;
  x ← get_dev d;
  match pending_tasks x with
  | [] => crash BadAccess
  | t :: rest =>
      put_dev d (x <| pending_tasks := rest |>);;
      unlock_slock d;;
      task ← get_task t;
      ctx ← get_ctx (task_ctx task);
      if ctx_failed ctx then __task_destroy t;; mret None
      else mret (Some t)
  end.

(** WT_EVENT_TASK_BIND_SLOT *)
Definition wt_bind (d t : ptr) : K unit :=
  task ← get_task t;
  lock_slock d;;
  slot ← get_slot d;
  bind_slot d (buff_out task) slot;;
  dicedev_buffer_init_reader (buff_out task);;
  unlock_slock d.

(** WT_EVENT_TASK_RUN: run the task, then set the fence. *)
Definition wt_send_fence (d : ptr) : K unit :=
  lock_slock d;;
  dicedev_iow d DICEDEV_CMD_FENCE_WAIT DICEDEV_TASK_FENCE_VAL;;
  feed_cmd d [u32 (DICEDEV_USER_CMD_FENCE_HEADER DICEDEV_TASK_FENCE_VAL)];;
  unlock_slock d.

Definition wt_run (d t : ptr) : K unit :=
  x ← get_dev d;
  put_dev d (x <| fence_state := DICEDEV_FENCE_STATE_WAITING |>);;
  __wt_run_task t;;
  wt_send_fence d.

(** WT_EVENT_TASK_FINISH *)
Definition wt_finish (d : ptr) : K unit :=
  x ← get_dev d;
  BUG_ON (bool_decide (running_task x = None));;
  t ← deref (running_task x);
  __task_destroy t;;
  x ← get_dev d;
  when (dev_failed x) (
    restart_device d;;
    x ← get_dev d;
    put_dev d (x <| dev_failed := false |>));;
  x ← get_dev d;
  put_dev d (x <| fence_state := DICEDEV_FENCE_STATE_NONE |> <| running_task := None |>).

(** One iteration of the [while (!kthread_should_stop())] loop; [None] leaves
    the loop. Without an event the thread goes to sleep on [event_cond], with
    a park request it parks. *)
Definition wt_iter (w : wt_state) : K (option wt_state) :=
  let d := wt_dev w in
  x ← get_dev d;
  if should_stop x then mret None
  else
    e ← __wt_get_event w;
    match e with
    | WT_STOP => mret (Some w)
    | WT_PARK => wait_until false;; mret (Some w)
    | WT_NO_EVENT =>
        x ← get_dev d;
        put_dev d (x <| wt_sleeping := true |>);;
        mret (Some w)
    | WT_EVENT_TASK_GET_NEXT => t ← wt_get_next d; mret (Some (mkWt d t))
    | WT_EVENT_TASK_BIND_SLOT =>
        t ← deref (next_task w); wt_bind d t;; mret (Some w)
    | WT_EVENT_TASK_RUN =>
        t ← deref (next_task w); wt_run d t;; mret (Some (mkWt d None))
    | WT_EVENT_TASK_FINISH => wt_finish d;; mret (Some w)
    end.

(** The loop, as long as the thread does not have to sleep. *)
Fixpoint wt_loop (fuel : nat) (w : wt_state) : K unit :=
  match fuel with
  | O => crash LoopExhausted
  | S fuel =>
      x ← get_dev (wt_dev w);
      wait_until (negb (wt_sleeping x) || should_stop x);;
      r ← wt_iter w;
      match r with
      | None => mret tt
      | Some w => wt_loop fuel w
      end
  end.

(** After the loop: drop the pending tasks and the running one. *)
Fixpoint drain_tasks (d : ptr) (ts : list ptr) : K unit :=
  match ts with
  | [] => mret tt
  | t :: ts =>
      x ← get_dev d;
      put_dev d (x <| pending_tasks := ts |>);;
      __task_destroy t;;
      drain_tasks d ts
  end.

Definition wt_exit (d : ptr) : K unit :=
  lock_slock d;;
  x ← get_dev d;
  drain_tasks d (pending_tasks x);;
  x ← get_dev d;
  match running_task x with
  | None => mret tt
  | Some t => put_dev d (x <| running_task := None |>);; __task_destroy t
  end;;
  unlock_slock d.

Definition dicedev_wt_fn (fuel : nat) (d : ptr) : K unit :=
  wt_loop fuel (mkWt d None);; wt_exit d.

End Wt.
