(* ===== verification/Buffer.v ===== *)
(** The buffer file (src/dicedev_buffer.c): life cycle, and the mmap, read,
    write and ioctl handlers. What [copy_from_user] fetches is an argument of
    the handler ([None]: the copy faults). *)

From S2P Require Import Prelude Cmd Types Utils Slots Pt Task Wt.

Section Buffer.
Context `{Hardware, Kernel}.

(** ** Memory mapping *)

Definition VM_FAULT_SIGBUS : Z := 2.

(** The page fault handler: the page at [pgoff], or SIGBUS. *)
Definition dicedev_buffer_vm_fault (b : ptr) (pgoff : Z) : K (Z * option ptr) :=
  buf ← get_buf b;
  ptp ← deref (buf_pt buf);
  tbl ← get_pt ptp;
  if num_pages tbl <=? pgoff then mret (VM_FAULT_SIGBUS, None)
  else
    arr ← deref (pages tbl);
    a ← get_pgarr arr;
    pg ← index a pgoff;
    p ← deref (page pg);
    mret (0, Some p).

Definition dicedev_buffer_mmap (filp : ptr) : K (Z * option ptr) :=
  f ← get_file filp;
  match private_data f with
  | None => mret (- EINVAL, None)
  | Some b => mret (0, Some b)
  end.

(** ** Writing *)

(** The critical section at the start: refuse a destroyed buffer, else
    announce the task. *)
Definition write_begin (b : ptr) : K (option ptr) :=
  buf ← get_buf b;
  let d := buf_dev buf in
  lock_slock d;;
  buf ← get_buf b;
  if destroyed buf then unlock_slock d;; mret None
  else
    ctx ← get_ctx (buf_ctx buf);
    put_ctx (buf_ctx buf) (ctx <| task_count := u64 (task_count ctx + 1) |>);;
    unlock_slock d;;
    mret (Some (buf_ctx buf)).

(** Label [err_task]: the counter is taken back, then the wait queue is
    reached through [task->ctx]; [task] is not initialised on the way here
    from the first two errors and [NULL] on the way from the third. *)
Definition write_err_task (b c : ptr) (task : option ptr) (err : Z) : K Z :=
  buf ← get_buf b;
  lock_slock (buf_dev buf);;
  ctx ← get_ctx c;
  put_ctx c (ctx <| task_count := u64 (task_count ctx - 1) |>);;
  t ← deref task;
  tk ← get_task t;
  wake_ctx (task_ctx tk);;
  unlock_slock (buf_dev buf);;
  mret err.

Definition write_task (b c cmd : ptr) (count : Z) : dicedev_task :=
  mkTask (DICEDEV_TASK_TYPE_WRITE (mkTWrite cmd count 0)) c 0 b.

(** [words]: the contents of the user buffer, [count / 4] words. *)
Definition dicedev_buffer_write (filp : ptr) (words : option (list Z)) (count : Z) : K Z :=
  f ← get_file filp;
  if negb (count mod 4 =? 0) then mret (- EINVAL)
  else
    b ← deref (private_data f);
    r ← write_begin b;
    match r with
    | None => mret (- EPERM)
    | Some c =>
        a ← kmalloc count;
        match a with
        | None => write_err_task b c None (- ENOMEM)
        | Some cmd =>
            modify (λ s, s <| cmds := <[cmd := replicate (Z.to_nat (count / 4)) 0]> (cmds s) |>);;
            match words with
            | None => kfree_cmds cmd;; write_err_task b c None (- EFAULT)
            | Some ws =>
                modify (λ s, s <| cmds := <[cmd := ws]> (cmds s) |>);;
                a ← kmalloc sizeof_task;
                match a with
                | None => kfree_cmds cmd;; write_err_task b c None (- ENOMEM)
                | Some t =>
                    put_task t (write_task b c cmd count);;
                    dicedev_wt_add_task c t;;
                    mret count
                end
            end
        end
    end.

(** ** Reading *)

Definition READS_AVAILABLE (r : dicedev_reader) : Z := u64 (result_count r - rd_offset r).

(** sizeof(struct dice) *)
Definition DICE_SIZE : Z := 8.

(** [result_page[i]]: two words of the page. *)
Definition dice_at (ws : list Z) (i : Z) : K dice :=
  v ← index ws (2 * i);
  ty ← index ws (2 * i + 1);
  mret {| d_value := v; d_type := ty |}.

Definition __buff_read_result (b : ptr) : K (Z * option dice) :=
  buf ← get_buf b;
  let off := rd_offset (reader buf) in
  put_buf b (buf <| reader := (reader buf) <| rd_offset := u64 (off + 1) |> |>);;
  let page_no := off / (DICEDEV_PAGE_SIZE / DICE_SIZE) in
  ptp ← deref (buf_pt buf);
  tbl ← get_pt ptp;
  if num_pages tbl <=? page_no then mret (- EINVAL, None)
  else
    arr ← deref (pages tbl);
    a ← get_pgarr arr;
    pg ← index a page_no;
    p ← deref (page pg);
    m ← get_dma p;
    r ← dice_at (dp_words m) (off mod (DICEDEV_PAGE_SIZE / DICE_SIZE));
    mret (0, Some r).

(** [READS_AVAILABLE(reader) == 0 && !destroyed && ctx->task_count > 0],
    evaluated left to right. *)
Definition read_must_wait (b : ptr) : K bool :=
  buf ← get_buf b;
  if negb (READS_AVAILABLE (reader buf) =? 0) then mret false
  else if destroyed buf then mret false
  else ctx ← get_ctx (buf_ctx buf); mret (0 <? task_count ctx).

(** The handler from a state in which it need not wait; [fault]: whether
    [copy_to_user] faults. *)
Definition dicedev_buffer_read (filp : ptr) (count : Z) (fault : bool) : K (Z * option dice) :=
  f ← get_file filp;
  if negb (count =? DICE_SIZE) then mret (- EINVAL, None)
  else
    b ← deref (private_data f);
    buf ← get_buf b;
    let d := buf_dev buf in
    lock_slock d;;
    w ← read_must_wait b;
    wait_until (negb w);;
    buf ← get_buf b;
    if READS_AVAILABLE (reader buf) =? 0 then unlock_slock d;; mret (0, None)
    else
      r ← __buff_read_result b;
      match r with
      | (_, None) => unlock_slock d;; mret (- EFAULT, None)
      | (_, Some res) =>
          if fault then unlock_slock d;; mret (- EFAULT, None)
          else unlock_slock d;; mret (DICE_SIZE, Some res)
      end.

(** The handler once a reader that slept is woken up: [wait_event_interruptible]
    goes back to the waitqueue of the context, [res_buff->ctx->wq], to test its
    condition and to leave the queue, and the loop starts over. *)
Definition buffer_read_resume (filp : ptr) (fault : bool) : K (Z * option dice) :=
  f ← get_file filp;
  b ← deref (private_data f);
  buf ← get_buf b;
  get_ctx (buf_ctx buf);;
  dicedev_buffer_read filp DICE_SIZE fault.

(** ** ioctl *)
Definition dicedev_buffer_ioctl (filp : ptr) (cmd : Z)
    (arg : option dicedev_ioctl_seed_arg) : K Z :=
  f ← get_file filp;
  match private_data f with
  | None => mret (- EINVAL)
  | Some b =>
      if cmd =? DICEDEV_BUFFER_IOCTL_SEED then
        match arg with
        | None => mret (- EFAULT)
        | Some a =>
            buf ← get_buf b;
            put_buf b (buf <| seed_chg := true |> <| seed := sd_seed a |>);;
            mret 0
        end
      else mret (- ENOTTY)
  end.

(** ** Life cycle *)

(** anon_inode_getfile: a file with one reference, or an error code. *)
Definition anon_inode_getfile (b : ptr) : K (ptr + Z) := λ s,
  match k_getfile (live s) (env s) with
  | (inl p, e) =>
      Done (inl p) (s <| env := e |>
        <| files := <[p := mkFile FBuffer 1 (Some b)]> (files s) |>)
  | (inr r, e) => Done (inr r) (s <| env := e |>)
  end.

(** get_file: one more reference. *)
Definition file_get (p : ptr) : K unit :=
  f ← get_file p; put_file p (f <| f_count := f_count f + 1 |>).
(** fput: drop a reference; with the last one the release of the file is due. *)
Definition fput (p : ptr) : K unit :=
  f ← get_file p;
  put_file p (f <| f_count := f_count f - 1 |>);;
  when (f_count f =? 1) (modify (λ s, s <| releasing := releasing s ++ [p] |>)).

Definition dicedev_buffer_init (c b : ptr) (size al : Z) : K Z :=
  a ← kmalloc sizeof_page_table;
  buf ← get_buf b;
  put_buf b (buf <| buf_pt := a |>);;
  match a with
  | None => mret (- ENOMEM)
  | Some ptp =>
      put_pt ptp (mkPt (mkPage None 0) None 0 0);;
      ctx ← get_ctx c;
      r ← dicedev_pt_init (Some ptp) size;
      if r <? 0 then kfree_pt ptp;; mret (- ENOMEM)
      else
        buf ← get_buf b;
        put_buf b (buf <| buf_ctx := c |> <| buf_dev := ctx_dev ctx |>
          <| destroyed := false |> <| seed := DICEDEV_DEFAULT_SEED |>
          <| seed_chg := false |> <| allowed := u32 al |>
          <| binded_slot := DICEDEV_BUFFER_NO_SLOT |> <| reader := mkReader 0 0 |>);;
        fr ← anon_inode_getfile b;
        match fr with
        | inr err =>
            dicedev_pt_free (Some ptp);; kfree_pt ptp;; mret err
        | inl p =>
            buf ← get_buf b;
            put_buf b (buf <| buf_file := Some p |>);;
            file_get p;;
            mret 0
        end
  end.

Definition dicedev_buffer_destroy (b : ptr) : K unit :=
  buf ← get_buf b;
  let d := buf_dev buf in
  lock_slock d;;
  buf ← get_buf b;
  when (negb (binded_slot buf =? DICEDEV_BUFFER_NO_SLOT)) (unbind_slot d b);;
  unlock_slock d;;
  dicedev_pt_free (buf_pt buf);;
  ptp ← deref (buf_pt buf);
  kfree_pt ptp.

Definition dicedev_buffer_release (filp : ptr) : K Z :=
  f ← get_file filp;
  b ← deref (private_data f);
  dicedev_buffer_destroy b;;
  kfree_buf b;;
  mret 0.

Definition dicedev_buffer_get_fd (b : ptr) : K Z :=
  r ← get_unused_fd;
  if r <? 0 then mret r
  else
    buf ← get_buf b;
    p ← deref (buf_file buf);
    modify (λ s, s <| fds := <[r := p]> (fds s) |>);;
    mret r.

End Buffer.
