(* ===== verification/Base.v ===== *)
(** The char device, the ioctl handlers, the interrupt handler and the PCI
    driver (src/dicedev_base.c). *)

From S2P Require Import Prelude Cmd Types Utils Slots Pt Task Wt Buffer.

Section Base.
Context `{Hardware, Kernel}.

(** ** Open and release of the char device *)

Definition dicedev_open (d filp : ptr) : K Z :=
  a ← kmalloc sizeof_context;
  match a with
  | None => mret (- ENOMEM)
  | Some c =>
      put_ctx c (mkCtx d false 0 []);;
      f ← get_file filp;
      put_file filp (f <| private_data := Some c |>);;
      kcall_int KNonseekableOpen
  end.

(** First loop of [dicedev_release]: mark the buffers as destroyed. *)
Fixpoint mark_destroyed (bs : list ptr) : K unit :=
  match bs with
  | [] => mret tt
  | b :: bs =>
      buf ← get_buf b;
      put_buf b (buf <| destroyed := true |>);;
      mark_destroyed bs
  end.

Definition release_mark (c : ptr) : K unit :=
  ctx ← get_ctx c;
  lock_slock (ctx_dev ctx);;
  mark_destroyed (allocated_buffers ctx);;
  unlock_slock (ctx_dev ctx).

(** Second loop, one iteration: unbind and drop the buffer [b] at the head of
    the list; [bs] is the rest of the list. *)
Definition close_buffer (d c b : ptr) (bs : list ptr) : K unit :=
  lock_slock d;;
  buf ← get_buf b;
  when (negb (binded_slot buf =? DICEDEV_BUFFER_NO_SLOT)) (unbind_slot d b);;
  unlock_slock d;;
  ctx ← get_ctx c;
  put_ctx c (ctx <| allocated_buffers := bs |>);;
  p ← deref (buf_file buf);
  fput p.

Fixpoint close_buffers (d c : ptr) (bs : list ptr) : K unit :=
  match bs with
  | [] => mret tt
  | b :: bs => close_buffer d c b bs;; close_buffers d c bs
  end.

Definition release_close (c : ptr) : K unit :=
  ctx ← get_ctx c;
  close_buffers (ctx_dev ctx) c (allocated_buffers ctx);;
  kfree_ctx c.

(** From the wait for the tasks of the context on. *)
Definition release_finish (c : ptr) : K unit :=
  ctx ← get_ctx c;
  wait_until (task_count ctx =? 0);;
  release_close c.

Definition dicedev_release (filp : ptr) : K Z :=
  f ← get_file filp;
  c ← deref (private_data f);
  release_mark c;;
  release_finish c;;
  mret 0.

(** ** ioctl handlers *)

(** What copy_from_user finds at the ioctl argument for each argument type. *)
Record user_arg := mkArg {
  ua_create_set : option dicedev_ioctl_create_set_arg;
  ua_run : option dicedev_ioctl_run_arg;
  ua_wait : option dicedev_ioctl_wait_arg;
  ua_seed_increment : option dicedev_ioctl_seed_increment_arg }.

(** A kzalloc'ed buffer; the device and context pointers are set by
    [dicedev_buffer_init] before anything reads them. *)
Definition zero_buffer : dicedev_buffer :=
  mkBuf None 1 1 None false 0 false 0 0 0 (mkReader 0 0).

Definition dicedev_ioctl_create_set (c : ptr) (arg : option dicedev_ioctl_create_set_arg) : K Z :=
  match arg with
  | None => mret (- EFAULT)
  | Some cs =>
      if (cs_size cs <? 0) || (DICEDEV_MAX_BUFFER_SIZE <? cs_size cs) then mret (- EINVAL)
      else if DICEDEV_MAX_ALLOWED <? cs_allowed cs then mret (- EINVAL)
      else
        a ← kmalloc sizeof_buffer;
        match a with
        | None => mret (- ENOMEM)
        | Some b =>
            put_buf b zero_buffer;;
            r ← dicedev_buffer_init c b (cs_size cs) (cs_allowed cs);
            if r <? 0 then kfree_buf b;; mret (- ENOMEM)
            else
              fd ← dicedev_buffer_get_fd b;
              if fd <? 0 then
                dicedev_buffer_destroy b;;
                kfree_buf b;;
                mret fd
              else
                ctx ← get_ctx c;
                put_ctx c (ctx <| allocated_buffers := b :: allocated_buffers ctx |>);;
                mret fd
        end
  end.

(** fdget: the file behind [fd], with a reference that is counted only if the
    descriptor table is shared; [None]: the descriptor is not open. *)
Definition fdget (fd : Z) : K (option ptr) :=
  o ← gets (λ s, fds s !! fd);
  shared ← gets (λ s, k_fd_shared (env s));
  match o with
  | Some p => when shared (file_get p);; mret (Some p)
  | None => mret None
  end.

(** [fdget(fd).file->private_data]; the reference is never put back. *)
Definition fd_private (fd : Z) : K (option ptr) :=
  o ← fdget fd;
  p ← deref o;
  f ← get_file p;
  mret (private_data f).

Definition run_task_of (c cb db : ptr) (addr size : Z) : dicedev_task :=
  mkTask (DICEDEV_TASK_TYPE_RUN (mkTRun cb addr size None 0 0 0)) c 0 db.

Definition dicedev_ioctl_run (c : ptr) (arg : option dicedev_ioctl_run_arg) : K Z :=
  match arg with
  | None => mret (- EFAULT)
  | Some rc =>
      if negb (r_addr rc mod 4 =? 0) || negb (r_size rc mod 4 =? 0) then mret (- EINVAL)
      else
        cp ← fd_private (r_cfd rc);
        dp ← fd_private (r_bfd rc);
        match cp, dp with
        | Some cb, Some db =>
            cbuf ← get_buf cb;
            ptp ← deref (buf_pt cbuf);
            tbl ← get_pt ptp;
            if max_size tbl <? u64 (r_addr rc + r_size rc) then mret (- EINVAL)
            else if bool_decide (buf_ctx cbuf ≠ c) then mret (- EINVAL)
            else
              dbuf ← get_buf db;
              if bool_decide (buf_ctx dbuf ≠ c) then mret (- EINVAL)
              else
                ctx ← get_ctx c;
                if ctx_failed ctx then mret (- EIO)
                else
                  a ← kmalloc sizeof_task;
                  match a with
                  | None => mret (- ENOMEM)
                  | Some t =>
                      lock_slock (buf_dev dbuf);;
                      ctx ← get_ctx c;
                      put_ctx c (ctx <| task_count := u64 (task_count ctx + 1) |>);;
                      unlock_slock (buf_dev dbuf);;
                      put_task t (run_task_of c cb db (r_addr rc) (r_size rc));;
                      dicedev_wt_add_task c t;;
                      mret 0
                  end
        | _, _ => mret (- EINVAL)
        end
  end.

Definition dicedev_ioctl_wait (c : ptr) (arg : option dicedev_ioctl_wait_arg) : K Z :=
  match arg with
  | None => mret (- EFAULT)
  | Some wc =>
      ctx ← get_ctx c;
      wait_until (negb (w_cnt wc <? task_count ctx));;
      ctx ← get_ctx c;
      if ctx_failed ctx then mret (- EIO) else mret 0
  end.

Definition dicedev_ioctl_seed_increment (c : ptr)
    (arg : option dicedev_ioctl_seed_increment_arg) : K Z :=
  match arg with
  | None => mret (- EFAULT)
  | Some si =>
      if negb (si_enable_increment si =? 0) && negb (si_enable_increment si =? 1)
      then mret (- EINVAL)
      else
        ctx ← get_ctx c;
        lock_slock (ctx_dev ctx);;
        dicedev_iow (ctx_dev ctx) DICEDEV_INCREMENT_SEED (si_enable_increment si);;
        unlock_slock (ctx_dev ctx);;
        mret 0
  end.

Definition dicedev_ioctl (filp : ptr) (cmd : Z) (arg : user_arg) : K Z :=
  f ← get_file filp;
  c ← deref (private_data f);
  if cmd =? DICEDEV_IOCTL_CREATE_SET then dicedev_ioctl_create_set c (ua_create_set arg)
  else if cmd =? DICEDEV_IOCTL_RUN then dicedev_ioctl_run c (ua_run arg)
  else if cmd =? DICEDEV_IOCTL_WAIT then dicedev_ioctl_wait c (ua_wait arg)
  else if cmd =? DICEDEV_IOCTL_ENABLE_SEED_INCREMENT
  then dicedev_ioctl_seed_increment c (ua_seed_increment arg)
  else mret (- EINVAL).

(** ** Interrupt handler *)

Definition dicedev_ctx_fail (c : ptr) : K unit :=
  ctx ← get_ctx c; put_ctx c (ctx <| ctx_failed := true |>).

Definition has_bit (v mask : Z) : bool := negb (Z.land v mask =? 0).

Definition dicedev_isr (d : ptr) : K bool :=
  lock_slock d;;
  i ← dicedev_ior d DICEDEV_INTR;
  en ← dicedev_ior d DICEDEV_INTR_ENABLE;
  let istatus := Z.land i en in
  when (negb (istatus =? 0)) (
    dicedev_iow d DICEDEV_INTR istatus;;
    when (has_bit istatus (Z.lor DICEDEV_INTR_CMD_ERROR DICEDEV_INTR_MEM_ERROR)) (
      x ← get_dev d;
      BUG_ON (bool_decide (running_task x = None));;
      t ← deref (running_task x);
      task ← get_task t;
      dicedev_ctx_fail (task_ctx task));;
    when (has_bit istatus DICEDEV_INTR_FENCE_WAIT) (
      x ← get_dev d;
      BUG_ON (bool_decide (running_task x = None));;
      put_dev d (x <| fence_state := DICEDEV_FENCE_STATE_REACHED |>);;
      wake_wt d));;
  unlock_slock d;;
  mret (negb (istatus =? 0)).

(** ** PCI driver *)

(** A kzalloc'ed device on a board in state [h]. *)
Definition zero_device (h : hw) : dicedev_device :=
  mkDev 0 false h [] false false DICEDEV_FENCE_STATE_NONE false
    (replicate 16 None) 0 false false false false [] None.

(** The slot reset loop of [dicedev_probe], from slot [i]. *)
Fixpoint probe_unbind (n : nat) (i : Z) (d : ptr) : K unit :=
  match n with
  | O => mret tt
  | S n =>
      feed_cmd d [u32 (DICEDEV_USER_CMD_UNBIND_SLOT_HEADER i)];;
      probe_unbind n (i + 1) d
  end.

(** Clearing the entry of [d] in the device table and freeing it: labels
    [err_enable_dev] to [err_alloc_dev]. *)
Definition drop_device (d : ptr) : K unit :=
  x ← get_dev d;
  tbl ← gets dicedev_devices;
  tbl' ← store tbl (idx x) None;
  modify (λ s, s <| dicedev_devices := tbl' |>);;
  kfree_dev d.

(** The statements of the clean-up labels, in the order the code falls through
    them. *)
Definition probe_undo_irq (d : ptr) : K unit := give_back (Some d) RIrq.
Definition probe_undo_iomap (d : ptr) : K unit := give_back (Some d) RIomap.
Definition probe_undo_regions (d : ptr) : K unit := give_back (Some d) RPciRegions.
Definition probe_undo_enable (d : ptr) : K unit := give_back (Some d) RPciEnabled.

(** Label [err_cdev_add]. *)
Definition probe_err_cdev_add (d : ptr) : K unit :=
  dicedev_iow d DICEDEV_ENABLE 0;;
  dicedev_iow d DICEDEV_INTR_ENABLE 0;;
  probe_undo_irq d;; probe_undo_iomap d;; probe_undo_regions d;; probe_undo_enable d;;
  drop_device d.

(** From "Initialize device defaults" on: all PCI resources are held. *)
Definition probe_start (d : ptr) : K Z :=
  x ← get_dev d;
  put_dev d (x <| fence_state := DICEDEV_FENCE_STATE_NONE |> <| dev_failed := false |>
    <| buff_slots := replicate 16 None |> <| free_slots := DICEDEV_NUM_SLOTS |>);;
  dicedev_wt_init d;;
  dicedev_iow d DICEDEV_INTR DICEDEV_ALL_INTR;;
  dicedev_iow d DICEDEV_INTR_ENABLE DICEDEV_ACTIVE_INTR;;
  dicedev_iow d DICEDEV_CMD_FENCE_WAIT 1;;
  dicedev_iow d DICEDEV_CMD_FENCE_LAST 0;;
  dicedev_iow d DICEDEV_ENABLE 1;;
  probe_unbind 16 0 d;;
  err ← kcall_int KCdevAdd;
  if negb (err =? 0) then probe_err_cdev_add d;; mret err
  else
    acquire (Some d) RCdev;;
    node ← kcall_int KDeviceCreate;
    if node <? 0 then
      x ← get_dev d;
      put_dev d (x <| dev_node := false |>);;
      probe_err_cdev_add d;;
      mret err
    else
      acquire (Some d) RDeviceNode;;
      x ← get_dev d;
      put_dev d (x <| dev_node := true |>);;
      mret 0.

(** Enabling the hardware resources one after the other. *)
Definition probe_enable (d : ptr) : K Z :=
  err ← kcall_int KPciEnableDevice;
  if negb (err =? 0) then drop_device d;; mret err
  else
    acquire (Some d) RPciEnabled;;
    err ← kcall_int KDmaSetMask;
    if negb (err =? 0) then probe_undo_enable d;; drop_device d;; mret err
    else
      err ← kcall_int KPciRequestRegions;
      if negb (err =? 0) then probe_undo_enable d;; drop_device d;; mret err
      else
        acquire (Some d) RPciRegions;;
        map ← kcall_int KPciIomap;
        if map =? 0 then
          probe_undo_regions d;; probe_undo_enable d;; drop_device d;; mret (- ENOMEM)
        else
          acquire (Some d) RIomap;;
          err ← kcall_int KRequestIrq;
          if negb (err =? 0) then
            probe_undo_iomap d;; probe_undo_regions d;; probe_undo_enable d;;
            drop_device d;; mret err
          else
            acquire (Some d) RIrq;;
            probe_start d.

Definition dicedev_probe (h : hw) : K Z :=
  a ← kmalloc sizeof_device;
  match a with
  | None => mret (- ENOMEM)
  | Some d =>
      put_dev d (zero_device h);;
      tbl ← gets dicedev_devices;
      let i := first_null tbl 0 in
      if i =? -1 then kfree_dev d;; mret (- ENOSPC)
      else
        tbl' ← store tbl i (Some d);
        modify (λ s, s <| dicedev_devices := tbl' |>);;
        x ← get_dev d;
        put_dev d (x <| idx := i |>);;
        probe_enable d
  end.

(** kthread_stop(dev->wt.thread): there is a thread (not an error pointer); it
    sees the request, leaves its loop, runs its exit code and ends. *)
Definition kthread_stop (d : ptr) : K unit :=
  give_back (Some d) RThread;;
  x ← get_dev d;
  put_dev d (x <| should_stop := true |>);;
  wt_exit d.

Definition dicedev_remove (d : ptr) : K unit :=
  x ← get_dev d;
  when (dev_node x) (give_back (Some d) RDeviceNode);;
  give_back (Some d) RCdev;;
  dicedev_iow d DICEDEV_INTR_ENABLE 0;;
  kthread_stop d;;
  dicedev_iow d DICEDEV_ENABLE 0;;
  give_back (Some d) RIrq;;
  give_back (Some d) RIomap;;
  give_back (Some d) RPciRegions;;
  give_back (Some d) RPciEnabled;;
  drop_device d.

(** dev->wt.thread, which kthread_park and kthread_unpark follow. *)
Definition follow_thread (x : dicedev_device) : K unit :=
  if wt_thread x then mret tt else crash BadAccess.

Definition dicedev_suspend (d : ptr) : K Z :=
  dicedev_iow d DICEDEV_INTR_ENABLE 0;;
  x ← get_dev d;
  follow_thread x;;
  put_dev d (x <| should_park := true |> <| wt_sleeping := false |>);;
  dicedev_iow d DICEDEV_ENABLE 0;;
  mret 0.

Definition dicedev_resume (d : ptr) : K Z :=
  x ← get_dev d;
  follow_thread x;;
  put_dev d (x <| should_park := false |>);;
  dicedev_iow d DICEDEV_INTR_ENABLE DICEDEV_ACTIVE_INTR;;
  dicedev_iow d DICEDEV_ENABLE 1;;
  mret 0.

(** ** Module entry points *)
Definition dicedev_init : K Z :=
  err ← kcall_int KAllocChrdevRegion;
  if negb (err =? 0) then mret err
  else
    acquire None RChrdevRegion;;
    err ← kcall_int KClassRegister;
    if negb (err =? 0) then give_back None RChrdevRegion;; mret err
    else
      acquire None RClass;;
      err ← kcall_int KPciRegisterDriver;
      if negb (err =? 0) then
        give_back None RClass;; give_back None RChrdevRegion;; mret err
      else acquire None RPciDriver;; mret 0.

Definition dicedev_exit : K unit :=
  give_back None RPciDriver;;
  give_back None RClass;;
  give_back None RChrdevRegion.

End Base.
