(* ===== verification/Syscall.v ===== *)
(** The system calls that reach the driver: the tables of operations it
    registers (src/dicedev_base.c, src/dicedev_buffer.c) and the way the kernel
    dispatches through them from a file descriptor. *)

From S2P Require Import Prelude Cmd Types Utils Slots Pt Task Wt Buffer Base.

Definition EBADF : Z := 9.
Definition ENODEV : Z := 19.

(** What copy_from_user finds at an ioctl argument, for every argument type
    of the two kinds of files. *)
Record ioctl_arg := mkIoctlArg {
  ia_dev : user_arg;
  ia_seed : option dicedev_ioctl_seed_arg }.

(** An argument that points nowhere. *)
Definition bad_arg : ioctl_arg := mkIoctlArg (mkArg None None None None) None.

Section Syscall.
Context `{Hardware, Kernel}.

(** ** Tables *)

(** struct file_operations, as far as the driver fills it in. *)
Record file_operations := mkFops {
  fo_open : option (ptr → ptr → K Z);
  fo_release : option (ptr → K Z);
  fo_ioctl : option (ptr → Z → ioctl_arg → K Z);
  fo_read : option (ptr → Z → bool → K (Z * option dice));
  fo_write : option (ptr → option (list Z) → Z → K Z);
  fo_mmap : option (ptr → K (Z * option ptr)) }.

Definition dicedev_file_ops : file_operations := {|
  fo_open := Some dicedev_open;
  fo_release := Some dicedev_release;
  fo_ioctl := Some (λ filp cmd arg, dicedev_ioctl filp cmd (ia_dev arg));
  fo_read := None; fo_write := None; fo_mmap := None |}.

Definition dicedev_buffer_fops : file_operations := {|
  fo_open := None;
  fo_release := Some dicedev_buffer_release;
  fo_ioctl := Some (λ filp cmd arg, dicedev_buffer_ioctl filp cmd (ia_seed arg));
  fo_read := Some dicedev_buffer_read;
  fo_write := Some dicedev_buffer_write;
  fo_mmap := Some dicedev_buffer_mmap |}.

(** The operations behind a file; a file of another driver has none of
    them. *)
Definition fops_of (k : file_kind) : option file_operations :=
  match k with
  | FDicedev => Some dicedev_file_ops
  | FBuffer => Some dicedev_buffer_fops
  | FOther => None
  end.

(** struct pci_driver (its name aside) and its id table, without the entry
    that ends it. *)
Record pci_driver := mkPciDriver {
  id_table : list (Z * Z);
  pd_probe : hw → K Z;
  pd_remove : ptr → K unit;
  pd_suspend : ptr → K Z;
  pd_resume : ptr → K Z }.

Definition dicedev_pci_ids : list (Z * Z) := [(DICEDEV_VENDOR_ID, DICEDEV_DEVICE_ID)].

Definition dicedev_pci_driver : pci_driver := {|
  id_table := dicedev_pci_ids;
  pd_probe := dicedev_probe;
  pd_remove := dicedev_remove;
  pd_suspend := dicedev_suspend;
  pd_resume := dicedev_resume |}.

(** ** Dispatch *)

(** The file behind a descriptor. *)
Definition fd_file (fd : Z) : K (option ptr) := gets (λ s, fds s !! fd).

(** Operation [op] of the table behind descriptor [fd]: [ebadf] when the
    descriptor is not open, [enoop] when the file has no such operation. *)
Definition dispatch {A B} (fd : Z) (op : file_operations → option B) (ebadf enoop : A)
    (call : B → ptr → K A) : K A :=
  o ← fd_file fd;
  match o with
  | None => mret ebadf
  | Some p =>
      f ← get_file p;
      match fops_of (f_kind f) ≫= op with
      | None => mret enoop
      | Some g => call g p
      end
  end.

Definition sys_ioctl (fd cmd : Z) (arg : ioctl_arg) : K Z :=
  dispatch fd fo_ioctl (- EBADF) (- ENOTTY) (λ g p, g p cmd arg).
Definition sys_read (fd count : Z) (fault : bool) : K (Z * option dice) :=
  dispatch fd fo_read (- EBADF, None) (- EINVAL, None) (λ g p, g p count fault).
Definition sys_write (fd : Z) (words : option (list Z)) (count : Z) : K Z :=
  dispatch fd fo_write (- EBADF) (- EINVAL) (λ g p, g p words count).
(** A successful mmap takes a reference to the file for the mapping; the file
    is returned with the result. *)
Definition sys_mmap (fd : Z) : K (Z * option ptr) :=
  dispatch fd fo_mmap (- EBADF, None) (- ENODEV, None) (λ g p,
    r ← g p;
    if r.1 =? 0 then file_get p;; mret (0, Some p) else mret (r.1, None)).

(** open of the char device of [d]: a descriptor, a file, the open operation,
    and the descriptor is installed. *)
Definition vfs_new_file : K (ptr + Z) := λ s,
  match k_getfile (live s) (env s) with
  | (inl p, e) =>
      Done (inl p) (s <| env := e |>
        <| files := <[p := mkFile FDicedev 1 None]> (files s) |>)
  | (inr r, e) => Done (inr r) (s <| env := e |>)
  end.
Definition vfs_drop_file (p : ptr) : K unit :=
  get_file p;; modify (λ s, s <| files := delete p (files s) |>).

Definition sys_open (d : ptr) : K Z :=
  fd ← get_unused_fd;
  if fd <? 0 then mret fd
  else
    fr ← vfs_new_file;
    match fr with
    | inr err => mret err
    | inl p =>
        r ← match fo_open dicedev_file_ops with Some g => g d p | None => mret 0 end;
        if r =? 0 then modify (λ s, s <| fds := <[fd := p]> (fds s) |>);; mret fd
        else vfs_drop_file p;; mret r
    end.

(** close: the descriptor is gone at once; the release of the file is due when
    the last reference is dropped. *)
Definition sys_close (fd : Z) : K Z :=
  o ← fd_file fd;
  match o with
  | None => mret (- EBADF)
  | Some p =>
      modify (λ s, s <| fds := delete fd (fds s) |>);;
      fput p;;
      mret 0
  end.

(** The release of file [p] is over: it leaves the list and is freed. *)
Definition vfs_released (p : ptr) : K unit :=
  modify (λ s, s <| releasing := filter (λ q, q ≠ p) (releasing s) |>);;
  vfs_drop_file p.

(** A store of the word [i] of a mapping of file [p]: a page fault finds the
    page, and the word is written; [false]: SIGBUS. *)
Definition user_store (p : ptr) (i v : Z) : K bool :=
  f ← get_file p;
  b ← deref (private_data f);
  r ← dicedev_buffer_vm_fault b (i / 1024);
  match r.2 with
  | None => mret false
  | Some pg =>
      m ← get_dma pg;
      ws ← store (dp_words m) (i mod 1024) (u32 v);
      put_dma pg (m <| dp_words := ws |>);;
      mret true
  end.

(** The board writes word [i] of page [q] of a set. *)
Definition board_store (q : ptr) (i v : Z) : K unit :=
  m ← get_dma q;
  ws ← store (dp_words m) i (u32 v);
  put_dma q (m <| dp_words := ws |>).

End Syscall.
