(* ===== verification/WtSpec.v ===== *)
(** What the operations of the work thread do: the effect of every routine of
    src/dicedev_wt.c on memory, as weakest-precondition lemmas, and the
    theorems about the queue, the slots and the life of a task. *)

From S2P Require Import Prelude Cmd Types Utils Slots Pt Task Wt Buffer Base.

Section WtSpec.
Context `{Hardware, Kernel}.

(** ** Locks *)

Lemma wp_lock_slock d s x (Q : unit → state → Prop) :
  devs s !! d = Some x → slock x = false →
  Q tt (upd_dev d (x <| slock := true |>) s) → wp (lock_slock d) s Q.
Proof. intros Hd Hl HQ. unfold lock_slock. wp_mem. rewrite Hl. by wp_steps. Qed.

Lemma wp_unlock_slock d s x (Q : unit → state → Prop) :
  devs s !! d = Some x → slock x = true →
  Q tt (upd_dev d (x <| slock := false |>) s) → wp (unlock_slock d) s Q.
Proof. intros Hd Hl HQ. unfold unlock_slock. wp_mem. rewrite Hl. by wp_steps. Qed.

(** ** Queue *)

Definition dev_enqueue (t : ptr) (x : dicedev_device) : dicedev_device :=
  x <| pending_tasks := pending_tasks x ++ [t] |> <| wt_sleeping := false |>.

Lemma wp_add_task c t s ctx x (Q : unit → state → Prop) :
  ctxs s !! c = Some ctx → devs s !! ctx_dev ctx = Some x → slock x = false →
  Q tt (upd_dev (ctx_dev ctx) (dev_enqueue t x) s) →
  wp (dicedev_wt_add_task c t) s Q.
Proof.
  intros Hc Hd Hl HQ. unfold dicedev_wt_add_task. wp_mem.
  eapply wp_lock_slock; [done..|]. wp_mem. unfold wake_wt. wp_mem.
  eapply wp_unlock_slock; [apply devs_upd_dev|done|]. rewrite !upd_dev_twice.
  unfold dev_enqueue in HQ. destruct x. simpl in *. by subst.
Qed.

(** ** Binding *)

Definition buf_reset (buf : dicedev_buffer) : dicedev_buffer :=
  buf <| reader := mkReader 0 0 |>.

Lemma wp_wt_bind `{!HardwareLaws} d t s x task buf p tbl (Q : unit → state → Prop) :
  devs s !! d = Some x → slock x = false → feed_lock x = false →
  slots_ok s d x → 0 < free_slots x →
  tasks s !! t = Some task → bufs s !! buff_out task = Some buf →
  buf_pt buf = Some p → pts s !! p = Some tbl →
  (∀ slot h, buff_slots x !! slot = Some None →
     (∀ j, (j < slot)%nat → ∃ b, buff_slots x !! j = Some (Some b)) →
     Q tt (upd_dev d (dev_io h (feeds (bind_words slot buf tbl)) (dev_bind slot (buff_out task) x))
        (upd_buf (buff_out task) (buf_reset (buf_bind slot buf)) s))) →
  wp (wt_bind d t) s Q.
Proof.
  intros Hd Hl Hf Hok Hfree Ht Hb Hp Hpt HQ. unfold wt_bind. wp_mem.
  eapply wp_lock_slock; [done..|]. apply wp_bind.
  eapply wp_get_slot; [apply devs_upd_dev|]. simpl.
  destruct (Z.ltb_spec 0 (free_slots x)); [|lia].
  destruct (first_null_spec (buff_slots x) 0) as [[_ Hz]|(slot & -> & Hs & _ & Hj)].
  { rewrite (so_free _ _ _ Hok) in Hfree. lia. }
  rewrite Z.add_0_l. apply wp_bind.
  eapply wp_bind_slot; [apply devs_upd_dev|done|done|done|done|done|]. intros h.
  unfold dicedev_buffer_init_reader. wp_mem.
  eapply wp_unlock_slock; [apply devs_upd_dev|done|].
  specialize (HQ slot h Hs Hj). unfold upd_dev, upd_buf, dev_io, dev_bind in *. simpl in *.
  rewrite !insert_insert_eq. destruct x. simpl in *. by subst.
Qed.

(** ** Finishing a task *)

(** Whether [__task_destroy] gives the slot back, and what it leaves. *)
Definition frees_slot (task : dicedev_task) (ctx : dicedev_context) (buf : dicedev_buffer) : bool :=
  negb (binded_slot buf =? DICEDEV_BUFFER_NO_SLOT) && (is_run (body task) || ctx_failed ctx).

Definition slot_of (buf : dicedev_buffer) : nat := Z.to_nat (binded_slot buf).

Definition dev_freed (fr : bool) (slot : nat) (h : hw) (x : dicedev_device) : dicedev_device :=
  if fr then dev_io h (feeds (unbind_words slot)) (dev_unbind slot x) else x.
Definition buf_freed (fr : bool) (buf : dicedev_buffer) : dicedev_buffer :=
  if fr then buf_unbind buf else buf.
Definition buf_publish (n : Z) (buf : dicedev_buffer) : dicedev_buffer :=
  buf <| reader := (reader buf) <| result_count := u64 (result_count (reader buf) + n) |> |>.
Definition ctx_done (ctx : dicedev_context) : dicedev_context :=
  ctx <| task_count := u64 (task_count ctx - 1) |>.

Definition destroyed_task (t d : ptr) (task : dicedev_task) (ctx : dicedev_context)
    (buf : dicedev_buffer) (x : dicedev_device) (h : hw) (s : state) : state :=
  let fr := frees_slot task ctx buf in
  (upd_dev d (dev_freed fr (slot_of buf) h x)
    (upd_buf (buff_out task) (buf_publish (task_results task) (buf_freed fr buf))
      (upd_ctx (task_ctx task) (ctx_done ctx) s))) <| tasks := delete t (tasks s) |>.

(** What [__task_destroy] relies on. *)
Record finishable (s : state) (t d : ptr) (task : dicedev_task) (ctx : dicedev_context)
    (buf : dicedev_buffer) (x : dicedev_device) : Prop := {
  fi_task : tasks s !! t = Some task;
  fi_ctx : ctxs s !! task_ctx task = Some ctx;
  fi_ctx_dev : ctx_dev ctx = d;
  fi_buf : bufs s !! buff_out task = Some buf;
  fi_buf_dev : buf_dev buf = d;
  fi_dev : devs s !! d = Some x;
  fi_slock : slock x = false;
  fi_feed : feed_lock x = false;
  fi_slots : slots_ok s d x;
}.

(** A bound buffer has a slot of the table. *)
Lemma slots_ok_slot_of s d x b buf :
  slots_ok s d x → bufs s !! b = Some buf → buf_dev buf = d →
  binded_slot buf ≠ DICEDEV_BUFFER_NO_SLOT →
  binded_slot buf = Z.of_nat (slot_of buf) ∧ buff_slots x !! slot_of buf = Some (Some b) ∧
  (slot_of buf < 16)%nat.
Proof.
  intros Hok Hb Hd Hne. destruct (so_bound _ _ _ Hok b buf Hb Hd) as [?|(i & Hi & Hx)]; [done|].
  unfold slot_of. rewrite Hi, Nat2Z.id. split; [done|]. split; [done|].
  apply lookup_lt_Some in Hx. by rewrite (so_length _ _ _ Hok) in Hx.
Qed.

Lemma wp_task_release_slot `{!HardwareLaws} s t d task ctx buf x (Q : unit → state → Prop) :
  finishable s t d task ctx buf x →
  (∀ h, let fr := frees_slot task ctx buf in
     Q tt (upd_dev d (dev_freed fr (slot_of buf) h x)
             (upd_buf (buff_out task) (buf_freed fr buf) s))) →
  wp (task_release_slot d t) s Q.
Proof.
  intros [Ht Hc Hcd Hb Hbd Hd Hl Hf Hok] HQ. unfold task_release_slot. wp_mem.
  eapply wp_lock_slock; [done..|]. wp_mem. fold (frees_slot task ctx buf).
  apply wp_when; intros E; rewrite E in HQ; simpl in HQ.
  - apply andb_prop in E as [Hbd'%negb_true_iff%Z.eqb_neq _].
    destruct (slots_ok_slot_of _ _ _ _ _ Hok Hb Hbd Hbd') as (Hs & Hx & _).
    eapply wp_unbind_slot; [apply devs_upd_dev|done|done|done|by eapply lookup_lt_Some|].
    intros h. eapply wp_unlock_slock; [apply devs_upd_dev|done|].
    specialize (HQ h). unfold upd_dev, upd_buf, dev_io, dev_unbind in *. simpl in *.
    rewrite !insert_insert_eq. destruct x. simpl in *. by subst.
  - eapply wp_unlock_slock; [apply devs_upd_dev|done|]. rewrite upd_dev_twice.
    specialize (HQ (bar x)). rewrite upd_buf_id in HQ by done. destruct x. simpl in *. by subst.
Qed.

Lemma wp_task_account s t d task ctx buf x (Q : unit → state → Prop) :
  tasks s !! t = Some task → ctxs s !! task_ctx task = Some ctx →
  bufs s !! buff_out task = Some buf → buf_dev buf = d →
  devs s !! d = Some x → slock x = false →
  Q tt (upd_buf (buff_out task) (buf_publish (task_results task) buf)
          (upd_ctx (task_ctx task) (ctx_done ctx) s)) →
  wp (task_account t) s Q.
Proof.
  intros Ht Hc Hb Hbd Hd Hl HQ. unfold task_account. wp_mem. rewrite Hbd.
  eapply wp_lock_slock; [done..|]. wp_mem. unfold wake_ctx. wp_mem.
  eapply wp_unlock_slock; [apply devs_upd_dev|done|].
  replace (upd_dev _ _ _) with (upd_buf (buff_out task) (buf_publish (task_results task) buf)
          (upd_ctx (task_ctx task) (ctx_done ctx) s)); [done|].
  unfold upd_dev, upd_buf, upd_ctx. rec_eq. rewrite insert_insert_eq.
  symmetry. apply insert_id. rewrite Hd. destruct x. simpl in *. by subst.
Qed.

Lemma wp_task_destroy `{!HardwareLaws} s t d task ctx buf x (Q : unit → state → Prop) :
  finishable s t d task ctx buf x →
  (∀ h, Q tt (destroyed_task t d task ctx buf x h s)) →
  wp (__task_destroy t) s Q.
Proof.
  intros Hfi HQ. pose proof Hfi as [Ht Hc Hcd Hb Hbd Hd Hl Hf Hok].
  unfold __task_destroy. wp_mem. rewrite Hcd.
  eapply wp_task_release_slot; [done|]. intros h fr. apply wp_bind.
  eapply wp_task_account; [done|done|apply bufs_upd_buf|by destruct fr|apply devs_upd_dev|
    by destruct fr|].
  unfold kfree_task. wp_mem.
  specialize (HQ h). unfold destroyed_task in HQ. fold fr in HQ.
  unfold upd_dev, upd_buf, upd_ctx in *. simpl in *. by rewrite insert_insert_eq.
Qed.

(** ** Events *)

(** The event as a function of the device, the task the thread holds and the
    slot of that task's output buffer. *)
Definition event_of (x : dicedev_device) (next : option Z) : wt_event :=
  if should_stop x then WT_STOP
  else if should_park x then WT_PARK
  else match fence_state x, next with
  | DICEDEV_FENCE_STATE_REACHED, _ => WT_EVENT_TASK_FINISH
  | _, None =>
      match pending_tasks x with [] => WT_NO_EVENT | _ => WT_EVENT_TASK_GET_NEXT end
  | DICEDEV_FENCE_STATE_WAITING, Some _ => WT_NO_EVENT
  | DICEDEV_FENCE_STATE_NONE, Some slot =>
      if slot =? DICEDEV_BUFFER_NO_SLOT
      then if 0 <? free_slots x then WT_EVENT_TASK_BIND_SLOT else WT_NO_EVENT
      else WT_EVENT_TASK_RUN
  end.

(** Slot of the output buffer of task [t]. *)
Definition out_slot (s : state) (t : ptr) : option Z :=
  task ← tasks s !! t; buf ← bufs s !! buff_out task; Some (binded_slot buf).

Lemma wp_get_event s d x nt (Q : wt_event → state → Prop) :
  devs s !! d = Some x → slock x = false →
  (∀ t, nt = Some t → is_Some (out_slot s t)) →
  Q (event_of x (nt ≫= out_slot s)) s →
  wp (__wt_get_event (mkWt d nt)) s Q.
Proof.
  intros Hd Hl Hnt HQ. unfold __wt_get_event. simpl. wp_mem. unfold event_of in HQ.
  destruct (should_stop x); [by wp_step|]. destruct (should_park x); [by wp_step|].
  destruct nt as [t|]; simpl in HQ.
  2:{ destruct (fence_state x), (pending_tasks x); simpl; by wp_step. }
  destruct (Hnt t eq_refl) as [slot E]. rewrite E in HQ. unfold out_slot in E.
  destruct (tasks s !! t) as [task|] eqn:Ht; simplify_eq/=.
  destruct (bufs s !! buff_out task) as [buf|] eqn:Hb; simplify_eq/=.
  destruct (fence_state x); simpl; [|by wp_step..].
  apply wp_bind. eapply wp_lock_slock; [done..|]. wp_mem.
  destruct (binded_slot buf =? DICEDEV_BUFFER_NO_SLOT); simpl;
    (apply wp_bind; eapply wp_unlock_slock; [apply devs_upd_dev|done|]);
    rewrite upd_dev_twice;
    (replace (upd_dev _ _ s) with s; [by wp_mem|]);
    symmetry; apply upd_dev_id; rewrite Hd; destruct x; simpl in *; by subst.
Qed.

(** ** Running *)

(** The words task [task] consists of, in memory [s]. *)
Definition task_words (s : state) (task : dicedev_task) (ws : list Z) : Prop :=
  match body task with
  | DICEDEV_TASK_TYPE_WRITE w =>
      cmds s !! tw_cmd w = Some ws ∧ cmd_size w = 4 * Z.of_nat (length ws) ∧ cmd_size w < 2 ^ 64
  | DICEDEV_TASK_TYPE_RUN r =>
      ∃ cbuf ptp tbl pp hp arr L,
        bufs s !! cBuff r = Some cbuf ∧ buf_pt cbuf = Some ptp ∧ pts s !! ptp = Some tbl ∧
        pt_wf s tbl pp hp arr L ∧ 0 ≤ tr_offset r ∧ tr_offset r mod 4 = 0 ∧
        0 < tr_size r ∧ tr_size r mod 4 = 0 ∧ tr_offset r + tr_size r ≤ max_size tbl ∧
        ws = run_words s L (tr_offset r) (tr_size r)
  end.

Lemma wp_run_task `{!HardwareLaws} t s task ctx x buf ws r (Q : unit → state → Prop) :
  runnable s t task ctx x buf → task_words s task ws →
  translate (binded_slot buf) (allowed buf) ws = Some r →
  (∀ h b', same_source (body task) b' → Q tt (run_post t task ctx x h b' r s)) →
  wp (__wt_run_task t) s Q.
Proof.
  intros Hra Hw Htr HQ. unfold task_words in Hw. destruct (body task) as [w|r0] eqn:Hb.
  - rewrite <-Hb in HQ. destruct Hw as (? & ? & ?). by eapply wp_run_task_write.
  - destruct Hw as (cbuf & ptp & tbl & pp & hp & arr & L & ? & ? & ? & ? & ? & ? & ? & ? & ? & ->).
    rewrite <-Hb in HQ. by eapply wp_run_task_run.
Qed.

(** Only the data of a task matters to its words. *)
Lemma task_words_same s s' task ws :
  same_data s s' → task_words s task ws → task_words s' task ws.
Proof.
  intros (E1 & E2 & E3 & E4 & E5) Hw. unfold task_words in *.
  destruct (body task) as [w|r]; [by rewrite E4|].
  destruct Hw as (cbuf & ptp & tbl & pp & hp & arr & L & ? & ? & ? & Hwf & ? & ? & ? & ? & ? & ->).
  exists cbuf, ptp, tbl, pp, hp, arr, L. rewrite E1, E2. split_and!; try done.
  - by apply (pt_wf_same s).
  - unfold run_words, buffer_words, page_words. by rewrite E5.
Qed.

Definition fence_log : list (Z * Z) :=
  (DICEDEV_CMD_FENCE_WAIT, u32 DICEDEV_TASK_FENCE_VAL)
  :: feeds [u32 (DICEDEV_USER_CMD_FENCE_HEADER DICEDEV_TASK_FENCE_VAL)].

(** *** The fence on the wire

    What the register writes so far say about the fence: its value was written
    to the fence register; the fence command was fed after that, so that the
    board is due to signal it; or neither, or the signal was acknowledged. *)
Inductive fence_wire := Unfenced_wire | Armed_wire | Due_wire.

Definition fence_track (w : fence_wire) (e : Z * Z) : fence_wire :=
  if decide (e = (DICEDEV_CMD_FENCE_WAIT, u32 DICEDEV_TASK_FENCE_VAL)) then Armed_wire
  else if decide (e = (CMD_MANUAL_FEED, u32 (DICEDEV_USER_CMD_FENCE_HEADER DICEDEV_TASK_FENCE_VAL)))
  then match w with Armed_wire => Due_wire | _ => w end
  else if decide (e.1 = DICEDEV_INTR ∧ has_bit e.2 DICEDEV_INTR_FENCE_WAIT) then Unfenced_wire
  else w.

Definition fence_due (log : list (Z * Z)) : Prop := foldl fence_track Unfenced_wire log = Due_wire.

#[global] Instance fence_wire_eq_dec : EqDecision fence_wire.
Proof. solve_decision. Defined.
#[global] Instance fence_due_dec log : Decision (fence_due log).
Proof. unfold fence_due. apply _. Defined.

(** A write that neither sets the fence register nor acknowledges the fence. *)
Definition fence_quiet (e : Z * Z) : Prop :=
  e.1 ≠ DICEDEV_CMD_FENCE_WAIT ∧ (e.1 = DICEDEV_INTR → has_bit e.2 DICEDEV_INTR_FENCE_WAIT = false).

Lemma fence_due_quiet log l : Forall fence_quiet l → fence_due log → fence_due (log ++ l).
Proof.
  unfold fence_due. rewrite foldl_app. intros Hl ->. induction Hl as [|e l [Hne Hack] _ IH]; [done|].
  simpl. replace (fence_track Due_wire e) with Due_wire; [done|]. unfold fence_track.
  rewrite decide_False by (intros ->; done). case_decide; [done|].
  rewrite decide_False; [done|]. intros [E%Hack Hb]. by rewrite E in Hb.
Qed.

Lemma feeds_quiet ws : Forall fence_quiet (feeds ws).
Proof. apply Forall_fmap, Forall_true. intros w. done. Qed.

Lemma fence_due_feeds log ws : fence_due log → fence_due (log ++ feeds ws).
Proof. apply fence_due_quiet, feeds_quiet. Qed.

Lemma fence_due_sent log ws : fence_due (log ++ feeds ws ++ fence_log).
Proof.
  unfold fence_due. rewrite !foldl_app. by vm_compute.
Qed.

(** Giving a slot back does not concern the fence. *)
Lemma fence_due_freed fr slot h x : fence_due (mmio x) → fence_due (mmio (dev_freed fr slot h x)).
Proof. destruct fr; [|done]. apply fence_due_feeds. Qed.

(** A device that waits for a fence has sent it. *)
Definition fence_sent (x : dicedev_device) : Prop :=
  fence_state x = DICEDEV_FENCE_STATE_WAITING → fence_due (mmio x).

Lemma wp_wt_send_fence `{!HardwareLaws} d s x (Q : unit → state → Prop) :
  devs s !! d = Some x → slock x = false → feed_lock x = false →
  (∀ h, Q tt (upd_dev d (dev_io h fence_log x) s)) → wp (wt_send_fence d) s Q.
Proof.
  intros Hd Hl Hf HQ. unfold wt_send_fence. apply wp_bind.
  eapply wp_lock_slock; [done..|]. apply wp_bind.
  eapply wp_dicedev_iow; [apply devs_upd_dev|]. intros h. apply wp_bind.
  eapply wp_feed_cmd; [apply devs_upd_dev|done|]. intros h'.
  eapply wp_unlock_slock; [apply devs_upd_dev|done|].
  specialize (HQ h'). rewrite dev_io_io, !upd_dev_twice. destruct x. simpl in *. by subst.
Qed.

(** Memory after WT_EVENT_TASK_RUN. *)
Definition task_sent (t : ptr) (task : dicedev_task) (ctx : dicedev_context)
    (x : dicedev_device) (h : hw) (b' : task_body) (r : translation) (s : state) : state :=
  upd_dev (ctx_dev ctx)
    (dev_io h (feeds (concat (tr_fed r)) ++ fence_log)
      (x <| fence_state := DICEDEV_FENCE_STATE_WAITING |> <| running_task := Some t |>))
    (upd_task t (task <| body := b' |> <| task_results := u64 (task_results task + tr_cnt r) |>)
      (upd_ctx (task_ctx task) (ctx <| ctx_failed := ctx_failed ctx || negb (tr_ok r) |>) s)).

Lemma wp_wt_run `{!HardwareLaws} t s task ctx x buf ws r (Q : unit → state → Prop) :
  runnable s t task ctx x buf → slock x = false → task_words s task ws →
  translate (binded_slot buf) (allowed buf) ws = Some r →
  (∀ h b', same_source (body task) b' → Q tt (task_sent t task ctx x h b' r s)) →
  wp (wt_run (ctx_dev ctx) t) s Q.
Proof.
  intros [Ht Hc Hd Hl Hb Hs Hr] Hsl Hw Htr HQ. unfold wt_run. wp_mem.
  set (x1 := x <| fence_state := DICEDEV_FENCE_STATE_WAITING |>).
  eapply (wp_run_task t _ task ctx x1 buf ws r); [split; try done; apply devs_upd_dev|
    by eapply (task_words_same s)|done|].
  intros h b' Hsrc. eapply (wp_wt_send_fence _ _ (dev_io h (feeds (concat (tr_fed r)))
    (x1 <| running_task := Some t |>))); [|done|done|].
  { unfold run_post. destruct (tr_ok r); apply devs_upd_dev. }
  intros h'. specialize (HQ h' b' Hsrc). unfold task_sent in HQ. rewrite dev_io_io.
  unfold run_post, run_effect in *. destruct (tr_ok r); simpl in HQ;
    rewrite ?orb_false_r, ?orb_true_r in HQ.
  - rewrite upd_ctx_id in HQ by (rewrite Hc; by destruct ctx).
    unfold upd_dev, upd_task in *. simpl in *. by rewrite !insert_insert_eq.
  - unfold upd_dev, upd_task, upd_ctx in *. simpl in *. by rewrite !insert_insert_eq.
Qed.

(** ** The other reactions *)

Definition restart_log : list (Z * Z) :=
  [ (DICEDEV_ENABLE, 0); (DICEDEV_INTR_ENABLE, 0); (DICEDEV_INTR, u32 DICEDEV_ACTIVE_INTR);
    (DICEDEV_INTR_ENABLE, u32 DICEDEV_ACTIVE_INTR); (DICEDEV_ENABLE, 1) ].

Lemma wp_restart_device d s x (Q : unit → state → Prop) :
  devs s !! d = Some x → (∀ h, Q tt (upd_dev d (dev_io h restart_log x) s)) →
  wp (restart_device d) s Q.
Proof.
  intros Hd HQ. unfold restart_device.
  apply wp_bind. eapply wp_dicedev_iow; [done|]. intros h1.
  do 3 (apply wp_bind; eapply wp_dicedev_iow; [apply devs_upd_dev|]; intros ?).
  eapply wp_dicedev_iow; [apply devs_upd_dev|]. intros h5.
  rewrite !upd_dev_twice, !dev_io_io. apply HQ.
Qed.

(** The device after WT_EVENT_TASK_FINISH, from the device [x] that
    [__task_destroy] left. *)
Definition dev_idle (h : hw) (x : dicedev_device) : dicedev_device :=
  (if dev_failed x then dev_io h restart_log x <| dev_failed := false |> else x)
    <| fence_state := DICEDEV_FENCE_STATE_NONE |> <| running_task := None |>.

(** The device is served by its work thread and is not marked as failed. *)
Definition in_service (x : dicedev_device) : bool := wt_thread x && negb (dev_failed x).

Lemma in_service_true x : in_service x = true ↔ wt_thread x = true ∧ dev_failed x = false.
Proof. unfold in_service. by rewrite andb_true_iff, negb_true_iff. Qed.

(** Giving a slot back leaves the control fields of the device alone. *)
Lemma dev_freed_same fr slot h x :
  let y := dev_freed fr slot h x in
  running_task y = running_task x ∧ pending_tasks y = pending_tasks x ∧
  fence_state y = fence_state x ∧ in_service y = in_service x.
Proof. by destruct fr. Qed.

Lemma dev_failed_freed fr slot h x : dev_failed (dev_freed fr slot h x) = dev_failed x.
Proof. by destruct fr. Qed.

Lemma wp_wt_finish `{!HardwareLaws} s t d task ctx buf x (Q : unit → state → Prop) :
  finishable s t d task ctx buf x → running_task x = Some t →
  (∀ h h', Q tt (upd_dev d (dev_idle h' (dev_freed (frees_slot task ctx buf) (slot_of buf) h x))
                   (destroyed_task t d task ctx buf x h s))) →
  wp (wt_finish d) s Q.
Proof.
  intros Hfi Hrun HQ. pose proof (fi_dev _ _ _ _ _ _ _ Hfi) as Hd.
  unfold wt_finish. unfold_mem. wp_step. wp_step. rewrite Hrun. wp_steps.
  eapply wp_task_destroy; [done|]. intros h. wp_step. eapply wp_fetch; [apply devs_upd_dev|].
  wp_step. specialize (HQ h). unfold dev_idle in HQ. rewrite dev_failed_freed in *.
  apply wp_when; intros E; rewrite E in HQ.
  - wp_step. eapply wp_restart_device; [apply devs_upd_dev|]. intros h'. specialize (HQ h').
    wp_mem. by rewrite !upd_dev_twice in *.
  - specialize (HQ h). wp_step. eapply wp_fetch; [apply devs_upd_dev|]. wp_step. exact HQ.
Qed.

Definition dev_dequeue (rest : list ptr) (x : dicedev_device) : dicedev_device :=
  x <| pending_tasks := rest |>.

(** A task of a context that has not failed becomes the next task; one of a
    failed context is finished at once. *)
Lemma wp_wt_get_next `{!HardwareLaws} s t d rest task ctx buf x
    (Q : option ptr → state → Prop) :
  finishable s t d task ctx buf x → pending_tasks x = t :: rest →
  (ctx_failed ctx = false → Q (Some t) (upd_dev d (dev_dequeue rest x) s)) →
  (∀ h, ctx_failed ctx = true →
    Q None (destroyed_task t d task ctx buf (dev_dequeue rest x) h
              (upd_dev d (dev_dequeue rest x) s))) →
  wp (wt_get_next d) s Q.
Proof.
  intros [Ht Hc Hcd Hb Hbd Hd Hl Hf Hok] Hp HQ1 HQ2. unfold wt_get_next. apply wp_bind.
  eapply wp_lock_slock; [done..|]. unfold_mem. wp_step. eapply wp_fetch; [apply devs_upd_dev|].
  simpl. rewrite Hp. wp_steps. eapply wp_unlock_slock; [apply devs_upd_dev|done|].
  rewrite !upd_dev_twice.
  replace (upd_dev d _ s) with (upd_dev d (dev_dequeue rest x) s); cycle 1.
  { unfold dev_dequeue. destruct x. simpl in *. by subst. }
  wp_mem. destruct (ctx_failed ctx) eqn:E; [|by wp_step; apply HQ1].
  apply wp_bind. eapply (wp_task_destroy _ t d task ctx buf (dev_dequeue rest x)).
  { split; try done; [apply devs_upd_dev|].
    by apply (slots_ok_same s _ d x). }
  intros h. wp_step. by apply HQ2.
Qed.

(** ** Stopping the thread *)

Lemma wp_wt_exit_idle d s x (Q : unit → state → Prop) :
  devs s !! d = Some x → slock x = false → pending_tasks x = [] → running_task x = None →
  Q tt s → wp (wt_exit d) s Q.
Proof.
  intros Hd Hl Hp Hr HQ. unfold wt_exit. apply wp_bind. eapply wp_lock_slock; [done..|].
  unfold_mem. wp_step. eapply wp_fetch; [apply devs_upd_dev|]. simpl. rewrite Hp. wp_steps.
  rewrite Hr. wp_steps. eapply wp_unlock_slock; [apply devs_upd_dev|done|].
  rewrite upd_dev_twice, upd_dev_id; [done|]. rewrite Hd. destruct x. simpl in *. by subst.
Qed.

(** [__task_destroy] with the lock of the device held. *)
Lemma task_destroy_locked t s task ctx x :
  tasks s !! t = Some task → ctxs s !! task_ctx task = Some ctx →
  devs s !! ctx_dev ctx = Some x → slock x = true →
  __task_destroy t s = Crash SelfDeadlock.
Proof.
  intros Ht Hc Hd Hl. unfold __task_destroy.
  do 2 (apply crash_after; wp_mem). apply crash_here. unfold task_release_slot.
  apply crash_here. unfold lock_slock. apply crash_after. wp_mem. by rewrite Hl.
Qed.

Lemma wt_exit_deadlock d t s x task ctx :
  devs s !! d = Some x → slock x = false →
  head (pending_tasks x ++ option_list (running_task x)) = Some t →
  tasks s !! t = Some task → ctxs s !! task_ctx task = Some ctx → ctx_dev ctx = d →
  wt_exit d s = Crash SelfDeadlock.
Proof.
  intros Hd Hl Hh Ht Hc Hcd. unfold wt_exit. apply crash_after. eapply wp_lock_slock; [done..|].
  apply crash_after. unfold_mem. eapply wp_fetch; [apply devs_upd_dev|]. simpl.
  destruct (pending_tasks x) as [|t' ts] eqn:Hp; simplify_eq/=.
  - apply crash_after. wp_mem. apply crash_after. unfold_mem.
    eapply wp_fetch; [apply devs_upd_dev|]. simpl.
    destruct (running_task x) as [t'|] eqn:Hr; simplify_eq/=.
    apply crash_here, crash_after. wp_mem.
    eapply task_destroy_locked; [done|done|apply devs_upd_dev|done].
  - apply crash_here. apply crash_after. unfold_mem. eapply wp_fetch; [apply devs_upd_dev|].
    apply crash_after. wp_mem. apply crash_here.
    eapply task_destroy_locked; [done|done|apply devs_upd_dev|done].
Qed.

(** ** Theorems *)

(** A total-correctness triple gives a run. *)
Lemma wp_exists {A} (m : K A) s (Q : A → state → Prop) :
  wp m s Q → ∃ a s', m s = Done a s' ∧ Q a s'.
Proof. apply wp_run. Qed.

Lemma get_event_inv s d x t e task buf :
  devs s !! d = Some x → slock x = false →
  tasks s !! t = Some task → bufs s !! buff_out task = Some buf →
  __wt_get_event (mkWt d (Some t)) s = Done e s →
  e = event_of x (Some (binded_slot buf)).
Proof.
  intros Hd Hl Ht Hb He.
  assert (Ho : out_slot s t = Some (binded_slot buf)).
  { unfold out_slot. rewrite Ht. simpl. by rewrite Hb. }
  assert (Hwp : wp (__wt_get_event (mkWt d (Some t))) s
    (λ e' _, e' = event_of x (Some (binded_slot buf)))).
  { eapply wp_get_event; [done..| |simpl; by rewrite Ho]. intros ? [= <-]. by rewrite Ho. }
  unfold wp in Hwp. by rewrite He in Hwp.
Qed.

(** Device, slot table and buffer after a bind. *)
Record bound_to (s s' : state) (d b : ptr) (x : dicedev_device) (buf : dicedev_buffer)
    (tbl : dicedev_page_table) (slot : nat) : Prop := {
  bt_free : buff_slots x !! slot = Some None;
  bt_lowest j : (j < slot)%nat → ∃ b', buff_slots x !! j = Some (Some b');
  bt_dev : ∃ x', devs s' = <[d := x']> (devs s) ∧ slots_ok s' d x' ∧
    buff_slots x' = <[slot := Some b]> (buff_slots x) ∧ slock x' = false ∧
    feed_lock x' = false ∧ mmio x' = mmio x ++ feeds (bind_words slot buf tbl);
  bt_buf : ∃ buf', bufs s' = <[b := buf']> (bufs s) ∧ binded_slot buf' = Z.of_nat slot ∧
    reader buf' = mkReader 0 0 ∧ usage_count buf' = 1;
}.

(** C13: when the work thread sees WT_EVENT_TASK_BIND_SLOT, binding cannot run
    into the [BUG_ON] of [bind_slot] or outside the slot table: it completes,
    the output buffer gets the lowest free slot and a fresh reader, the board
    receives the bind command with the page table of the buffer, and slot
    table and buffers stay consistent. *)
Theorem wt_bind_event_safe `{!HardwareLaws} s d t x task buf p tbl :
  devs s !! d = Some x → slock x = false → feed_lock x = false → slots_ok s d x →
  tasks s !! t = Some task → bufs s !! buff_out task = Some buf → buf_dev buf = d →
  buf_pt buf = Some p → pts s !! p = Some tbl →
  __wt_get_event (mkWt d (Some t)) s = Done WT_EVENT_TASK_BIND_SLOT s →
  ∃ slot s', wt_bind d t s = Done tt s' ∧ bound_to s s' d (buff_out task) x buf tbl slot.
Proof.
  intros Hd Hl Hf Hok Ht Hb Hbd Hp Hpt He.
  pose proof (get_event_inv _ _ _ _ _ _ _ Hd Hl Ht Hb He) as Ev. unfold event_of in Ev.
  assert (binded_slot buf = DICEDEV_BUFFER_NO_SLOT ∧ 0 < free_slots x) as [Hno Hfree].
  { destruct (should_stop x), (should_park x), (fence_state x); try done.
    destruct (Z.eqb_spec (binded_slot buf) DICEDEV_BUFFER_NO_SLOT); [|done].
    by destruct (Z.ltb_spec 0 (free_slots x)). }
  assert (Hwp : wp (wt_bind d t) s (λ _ s', ∃ slot,
    bound_to s s' d (buff_out task) x buf tbl slot)).
  { eapply wp_wt_bind; [done..|]. intros slot h Hs Hj. exists slot. split; [done|done|..].
    - eexists. split; [reflexivity|]. split; [|by split_and!].
      by eapply (slots_ok_bind s _ d x).
    - eexists. split; [reflexivity|done]. }
  apply wp_exists in Hwp as ([] & s' & ? & slot & ?). eauto.
Qed.

(** C16: stopping the work thread works only when it has nothing to do: with
    no pending and no running task [dicedev_wt_fn]'s exit code leaves memory
    as it is; with any such task it calls [__task_destroy] with [dev->slock]
    held, which takes the lock again: the thread deadlocks, and with it
    [kthread_stop] in [dicedev_remove]. *)
Theorem wt_exit_stops_iff_idle s d x :
  devs s !! d = Some x → slock x = false →
  (∀ t, t ∈ pending_tasks x ++ option_list (running_task x) →
     ∃ task ctx, tasks s !! t = Some task ∧ ctxs s !! task_ctx task = Some ctx ∧
       ctx_dev ctx = d) →
  wt_exit d s = if bool_decide (pending_tasks x ++ option_list (running_task x) = [])
                then Done tt s else Crash SelfDeadlock.
Proof.
  intros Hd Hl Hts. case_bool_decide as E.
  - apply app_eq_nil in E as [Hp Hr].
    assert (Hn : running_task x = None) by (by destruct (running_task x)).
    assert (Hwp : wp (wt_exit d) s (λ _ s', s' = s)) by by eapply wp_wt_exit_idle.
    by apply wp_exists in Hwp as ([] & ? & ? & ->).
  - destruct (pending_tasks x ++ _) as [|t ts] eqn:Eq; [done|].
    destruct (Hts t) as (task & ctx & ? & ? & ?); [by left|].
    eapply wt_exit_deadlock; [done|done|by rewrite Eq|done..].
Qed.

Lemma destroyed_task_slots s t d task ctx buf x h :
  finishable s t d task ctx buf x →
  slots_ok (destroyed_task t d task ctx buf x h s) d
    (dev_freed (frees_slot task ctx buf) (slot_of buf) h x).
Proof.
  intros [Ht Hc Hcd Hb Hbd Hd Hl Hf Hok]. unfold destroyed_task.
  destruct (frees_slot task ctx buf) eqn:E; simpl.
  - apply andb_prop in E as [Hne%negb_true_iff%Z.eqb_neq _].
    destruct (slots_ok_slot_of _ _ _ _ _ Hok Hb Hbd Hne) as (Hs & _).
    by eapply (slots_ok_unbind s _ d x).
  - eapply slots_ok_same; [|reflexivity|exact Hok]. symmetry.
    by apply (same_slots_upd_buf s _ buf).
Qed.

(** C14: finishing a task always completes and does exactly this: the task is
    freed, the task count of its context drops by one, its results are added
    to the reader of the output buffer, and the slot of the buffer is given
    back iff the task was a run or its context has failed; both locks are
    free afterwards and the slot table stays consistent. *)
Theorem task_destroy_spec `{!HardwareLaws} s t d task ctx buf x :
  finishable s t d task ctx buf x →
  ∃ s' x' buf', __task_destroy t s = Done tt s' ∧
    tasks s' = delete t (tasks s) ∧
    ctxs s' = <[task_ctx task := ctx <| task_count := u64 (task_count ctx - 1) |>]> (ctxs s) ∧
    bufs s' = <[buff_out task := buf']> (bufs s) ∧ devs s' = <[d := x']> (devs s) ∧
    slots_ok s' d x' ∧ slock x' = false ∧ feed_lock x' = false ∧
    result_count (reader buf') = u64 (result_count (reader buf) + task_results task) ∧
    (binded_slot buf' = if is_run (body task) || ctx_failed ctx
                        then DICEDEV_BUFFER_NO_SLOT else binded_slot buf) ∧
    mmio x' = mmio x ++ (if frees_slot task ctx buf then feeds (unbind_words (slot_of buf)) else []).
Proof.
  intros Hfi. pose proof Hfi as [Ht Hc Hcd Hb Hbd Hd Hl Hf Hok].
  assert (Hwp : wp (__task_destroy t) s (λ _ s', ∃ h, s' = destroyed_task t d task ctx buf x h s))
    by (eapply wp_task_destroy; eauto).
  apply wp_exists in Hwp as ([] & s' & Hrun & h & ->).
  eexists _, _, _. split; [exact Hrun|]. split; [done|]. split; [reflexivity|].
  split; [reflexivity|]. split; [reflexivity|]. split; [by apply destroyed_task_slots|].
  unfold frees_slot.
  destruct (Z.eqb_spec (binded_slot buf) DICEDEV_BUFFER_NO_SLOT) as [E|E];
    destruct (is_run (body task)), (ctx_failed ctx); simpl; rewrite ?app_nil_r, ?E; by split_and!.
Qed.

(** ** The queue is first in, first out *)

(** Tasks submitted one after the other, each through its context; and the
    tasks the work thread takes in [n] WT_EVENT_TASK_GET_NEXT steps. *)
Fixpoint add_tasks (ts : list (ptr * ptr)) : K unit :=
  match ts with
  | [] => mret tt
  | (c, t) :: ts => dicedev_wt_add_task c t;; add_tasks ts
  end.
Fixpoint take_tasks (n : nat) (d : ptr) : K (list (option ptr)) :=
  match n with
  | O => mret []
  | S n => t ← wt_get_next d; ts ← take_tasks n d; mret (t :: ts)
  end.

Lemma wp_add_tasks d ts s x (Q : unit → state → Prop) :
  devs s !! d = Some x → slock x = false →
  (∀ c t, (c, t) ∈ ts → ∃ ctx, ctxs s !! c = Some ctx ∧ ctx_dev ctx = d) →
  (∀ b, Q tt (upd_dev d (x <| pending_tasks := pending_tasks x ++ ts.*2 |>
                           <| wt_sleeping := b |>) s)) →
  wp (add_tasks ts) s Q.
Proof.
  revert s x. induction ts as [|[c t] ts IH]; intros s x Hd Hl Hts HQ; simpl.
  - wp_step. specialize (HQ (wt_sleeping x)). simpl in HQ. rewrite app_nil_r, upd_dev_id in HQ;
      [done|]. rewrite Hd. by destruct x.
  - destruct (Hts c t) as (ctx & Hc & Hcd); [by left|]. apply wp_bind. subst d.
    eapply wp_add_task; [done..|]. eapply IH; [apply devs_upd_dev|done| |].
    + intros c' t' Hin. apply (Hts c' t'). by right.
    + intros b. rewrite upd_dev_twice. simpl. rewrite <-app_assoc. apply HQ.
Qed.

Lemma wp_take_tasks `{!HardwareLaws} d ts s x (Q : list (option ptr) → state → Prop) :
  devs s !! d = Some x → slock x = false → feed_lock x = false → slots_ok s d x →
  pending_tasks x = ts →
  (∀ t, t ∈ ts → ∃ task ctx buf, tasks s !! t = Some task ∧
     ctxs s !! task_ctx task = Some ctx ∧ ctx_dev ctx = d ∧ ctx_failed ctx = false ∧
     bufs s !! buff_out task = Some buf ∧ buf_dev buf = d) →
  Q (Some <$> ts) (upd_dev d (x <| pending_tasks := [] |>) s) →
  wp (take_tasks (length ts) d) s Q.
Proof.
  revert s x Q. induction ts as [|t ts IH]; intros s x Q Hd Hl Hf Hok Hp Hts HQ; simpl.
  - wp_step. rewrite upd_dev_id in HQ; [done|]. rewrite Hd. destruct x. simpl in *. by subst.
  - destruct (Hts t) as (task & ctx & buf & ? & ? & ? & Hnf & ? & ?); [by left|].
    apply wp_bind. eapply (wp_wt_get_next s t d ts task ctx buf x); [by split|done| |congruence].
    intros _. apply wp_bind. eapply IH; [apply devs_upd_dev|done|done|
      by apply (slots_ok_same s _ d x)|done| |].
    + intros t' Hin. apply Hts. by right.
    + wp_step. rewrite upd_dev_twice. exact HQ.
Qed.

(** C15: the work queue is first in, first out: tasks of contexts that have
    not failed, submitted in any order by any contexts to an empty queue, are
    taken by the work thread exactly in the order of submission, each once,
    and the queue is empty again. *)
Theorem queue_fifo `{!HardwareLaws} d ts s x :
  devs s !! d = Some x → slock x = false → feed_lock x = false → slots_ok s d x →
  pending_tasks x = [] →
  (∀ c t, (c, t) ∈ ts → ∃ task ctx buf, tasks s !! t = Some task ∧ task_ctx task = c ∧
     ctxs s !! c = Some ctx ∧ ctx_dev ctx = d ∧ ctx_failed ctx = false ∧
     bufs s !! buff_out task = Some buf ∧ buf_dev buf = d) →
  ∃ s' x', (add_tasks ts;; take_tasks (length ts) d) s = Done (Some <$> ts.*2) s' ∧
    devs s' !! d = Some x' ∧ pending_tasks x' = [].
Proof.
  intros Hd Hl Hf Hok Hp Hts.
  assert (Hwp : wp (add_tasks ts;; take_tasks (length ts) d) s (λ r s', r = Some <$> ts.*2 ∧
    ∃ x', devs s' !! d = Some x' ∧ pending_tasks x' = [])).
  { apply wp_bind. eapply wp_add_tasks; [done..| |].
    - intros c t Hin. destruct (Hts c t Hin) as (? & ctx & ? & ? & ? & ? & ? & ?). eauto.
    - intros b. rewrite Hp, app_nil_l. rewrite <-(length_fmap snd ts).
      eapply wp_take_tasks; [apply devs_upd_dev|done|done|by apply (slots_ok_same s _ d x)|done| |].
      + intros t ([c t'] & -> & Hin)%list_elem_of_fmap.
        destruct (Hts c t' Hin) as (task & ctx & buf & ? & <- & ? & ? & ? & ? & ?). simpl.
        exists task, ctx, buf. by split_and!.
      + split; [done|]. eexists. split; [apply devs_upd_dev|done]. }
  apply wp_exists in Hwp as (r & s' & Hrun & -> & x' & ? & ?). eauto.
Qed.

End WtSpec.
