(* ===== verification/BufferSpec.v ===== *)
(** What the buffer file operations do (src/dicedev_buffer.c): page faults,
    reads and writes, and the resources taken and given back by
    [dicedev_buffer_init] and [dicedev_buffer_destroy]. *)

From S2P Require Import Prelude Cmd Types Utils Slots Pt Task Wt Buffer WtSpec.

Section BufferSpec.
Context `{Hardware, Kernel}.

(** A buffer with a complete page table: its words are those of the pages
    [L]. *)
Record buf_pages (s : state) (b : ptr) (buf : dicedev_buffer) (ptp : ptr)
    (tbl : dicedev_page_table) (pp : ptr) (hp : Z) (arr : ptr) (L : list (ptr * Z)) : Prop := {
  bp_buf : bufs s !! b = Some buf;
  bp_pt : buf_pt buf = Some ptp;
  bp_tbl : pts s !! ptp = Some tbl;
  bp_wf : pt_wf s tbl pp hp arr L;
}.

(** ** Page faults *)

Lemma page_in_range s tbl pp hp arr (L : list (ptr * Z)) pgoff :
  pt_wf s tbl pp hp arr L → 0 ≤ pgoff → is_Some (L !! Z.to_nat pgoff) ↔ pgoff < num_pages tbl.
Proof.
  intros Hwf Hoff. pose proof (ptw_num _ _ _ _ _ _ Hwf) as Hn. rewrite lookup_lt_is_Some. lia.
Qed.

Lemma fault_page s b buf ptp tbl pp hp arr L pgoff :
  buf_pages s b buf ptp tbl pp hp arr L → 0 ≤ pgoff →
  dicedev_buffer_vm_fault b pgoff s =
    match L !! Z.to_nat pgoff with
    | Some q => Done (0, Some q.1) s
    | None => Done (VM_FAULT_SIGBUS, None) s
    end.
Proof.
  intros [Hb Hp Ht Hwf] Hoff. pose proof (page_in_range _ _ _ _ _ _ _ Hwf Hoff) as Hiff.
  unfold dicedev_buffer_vm_fault, get_buf, deref, get_pt, fetch, mbind, M_bind.
  rewrite Hb, Hp, Ht. destruct (Z.leb_spec (num_pages tbl) pgoff).
  - destruct (L !! Z.to_nat pgoff); [|done]. destruct Hiff as [Hi _]. lapply Hi; [lia|done].
  - destruct Hiff as [_ Hi]. destruct Hi as [q Hq]; [done|].
    rewrite (ptw_pages _ _ _ _ _ _ Hwf). unfold get_pgarr, index, fetch.
    rewrite (ptw_arr _ _ _ _ _ _ Hwf). destruct (Z.leb_spec 0 pgoff); [|lia].
    by rewrite list_lookup_fmap, Hq.
Qed.

(** C23: the fault handler of a mapped buffer hands out page [pgoff] of the
    buffer for every offset below [ceil(size / 4096)] and raises SIGBUS for
    all others; it never touches memory outside the page array. *)
Theorem vm_fault_in_bounds s b buf ptp tbl pp hp arr L pgoff :
  buf_pages s b buf ptp tbl pp hp arr L → 0 ≤ pgoff →
  dicedev_buffer_vm_fault b pgoff s =
    match L !! Z.to_nat pgoff with
    | Some q => Done (0, Some q.1) s
    | None => Done (VM_FAULT_SIGBUS, None) s
    end ∧
  (is_Some (L !! Z.to_nat pgoff) ↔ 4096 * pgoff < max_size tbl).
Proof.
  intros Hbp Hoff. split; [by eapply fault_page|]. destruct Hbp as [_ _ _ Hwf].
  pose proof (pages_for_spec _ (ptw_size _ _ _ _ _ _ Hwf)) as Hpf.
  rewrite <-(ptw_cover _ _ _ _ _ _ Hwf) in Hpf. rewrite (page_in_range _ _ _ _ _ _ _ Hwf Hoff). lia.
Qed.

(** ** Reading *)

(** Die [i] of a buffer whose words are [ws]. *)
Definition die_of (ws : list Z) (i : nat) : option dice :=
  v ← ws !! (2 * i)%nat; ty ← ws !! (2 * i + 1)%nat;
  Some {| d_value := v; d_type := ty |}.

Definition buf_advance (buf : dicedev_buffer) : dicedev_buffer :=
  buf <| reader := (reader buf) <| rd_offset := u64 (rd_offset (reader buf) + 1) |> |>.

Lemma die_in_page s tbl pp hp arr L o :
  pt_wf s tbl pp hp arr L →
  match L !! (o / 512)%nat with
  | Some q => ∃ m v ty, dmas s !! q.1 = Some m ∧ dp_words m !! (2 * (o mod 512))%nat = Some v ∧
      dp_words m !! (2 * (o mod 512) + 1)%nat = Some ty ∧
      die_of (buffer_words s L) o = Some {| d_value := v; d_type := ty |}
  | None => die_of (buffer_words s L) o = None
  end.
Proof.
  intros Hwf. pose proof (Nat.div_mod_eq o 512) as Hdm.
  pose proof (Nat.mod_upper_bound o 512 ltac:(lia)) as Hm.
  assert (E1 : (2 * o = o / 512 * 1024 + 2 * (o mod 512))%nat) by lia.
  assert (E2 : (2 * o + 1 = o / 512 * 1024 + (2 * (o mod 512) + 1))%nat) by lia.
  unfold die_of. rewrite E1, <-Nat.add_assoc. unfold buffer_words.
  rewrite !(lookup_concat 1024) by (lia || by eapply pt_wf_words).
  rewrite list_lookup_fmap. set (k := (2 * (o mod 512))%nat) in *.
  destruct (L !! (o / 512)%nat) as [q|] eqn:Eq; simpl; [|done].
  destruct (ptw_page _ _ _ _ _ _ Hwf q) as (m & Hq & _ & Hlen); [by eapply list_elem_of_lookup_2|].
  unfold page_words. rewrite Hq.
  destruct (lookup_lt_is_Some_2 (dp_words m) k) as [v Hv]; [lia|].
  destruct (lookup_lt_is_Some_2 (dp_words m) (k + 1)) as [ty Hty]; [lia|].
  exists m, v, ty. by rewrite Hv, Hty.
Qed.

Lemma wp_dice_at ws (i : nat) v ty s (Q : dice → state → Prop) :
  ws !! (2 * i)%nat = Some v → ws !! (2 * i + 1)%nat = Some ty →
  Q {| d_value := v; d_type := ty |} s → wp (dice_at ws (Z.of_nat i)) s Q.
Proof.
  intros Hv Hty HQ. unfold dice_at. apply wp_bind.
  replace (2 * Z.of_nat i) with (Z.of_nat (2 * i)) by lia. eapply wp_index; [done|].
  apply wp_bind. replace (Z.of_nat (2 * i) + 1) with (Z.of_nat (2 * i + 1)) by lia.
  eapply wp_index; [done|]. by wp_step.
Qed.

Lemma wp_buff_read_result s b buf ptp tbl pp hp arr L (o : nat) (Q : Z * option dice → state → Prop) :
  buf_pages s b buf ptp tbl pp hp arr L → rd_offset (reader buf) = Z.of_nat o →
  (∀ die, die_of (buffer_words s L) o = Some die →
     Q (0, Some die) (upd_buf b (buf_advance buf) s)) →
  (die_of (buffer_words s L) o = None → Q (- EINVAL, None) (upd_buf b (buf_advance buf) s)) →
  wp (__buff_read_result b) s Q.
Proof.
  intros [Hb Hp Ht Hwf] Ho HQ1 HQ2. unfold __buff_read_result. wp_mem. rewrite Ho in *.
  change (DICEDEV_PAGE_SIZE / DICE_SIZE) with 512.
  change 512 with (Z.of_nat 512). rewrite <-Nat2Z.inj_div, <-Nat2Z.inj_mod.
  pose proof (die_in_page s tbl pp hp arr L o Hwf) as Hdie.
  pose proof (ptw_num _ _ _ _ _ _ Hwf) as Hn. unfold buf_advance in HQ1, HQ2. rewrite Ho in *.
  set (no := (o / 512)%nat) in *. set (off := (o mod 512)%nat) in *.
  destruct (L !! no) as [q|] eqn:Eq.
  - destruct Hdie as (m & v & ty & Hm & Hv & Hty & Hdie).
    destruct (Z.leb_spec (num_pages tbl) (Z.of_nat no)).
    { apply lookup_lt_Some in Eq. lia. }
    pose proof (ptw_pages _ _ _ _ _ _ Hwf). pose proof (ptw_arr _ _ _ _ _ _ Hwf).
    wp_mem. eapply wp_index; [by rewrite list_lookup_fmap, Eq|]. simpl. wp_steps.
    eapply wp_dice_at; [done..|]. wp_step. by apply HQ1.
  - destruct (Z.leb_spec (num_pages tbl) (Z.of_nat no)); [by wp_step; apply HQ2|].
    apply lookup_ge_None in Eq. lia.
Qed.

(** The two counters of a reader are 64-bit numbers. *)
Definition reader_ok (r : dicedev_reader) : Prop :=
  0 ≤ rd_offset r < 2 ^ 64 ∧ 0 ≤ result_count r < 2 ^ 64.

(** What a read of [DICE_SIZE] bytes relies on. *)
Record readable (s : state) (filp b : ptr) (buf : dicedev_buffer) (x : dicedev_device)
    (L : list (ptr * Z)) : Prop := {
  re_file : ∃ f, files s !! filp = Some f ∧ private_data f = Some b;
  re_pages : ∃ ptp tbl pp hp arr, buf_pages s b buf ptp tbl pp hp arr L;
  re_dev : devs s !! buf_dev buf = Some x;
  re_slock : slock x = false;
  re_reader : reader_ok (reader buf);
  re_ctx : destroyed buf = false → is_Some (ctxs s !! buf_ctx buf);
}.

(** Whether a reader that finds no results has to sleep. *)
Definition read_sleeps (s : state) (buf : dicedev_buffer) : bool :=
  match ctxs s !! buf_ctx buf with
  | Some ctx => negb (destroyed buf) && (0 <? task_count ctx)
  | None => false
  end.

(** The outcome of a read, as a function of the words of the buffer. *)
Definition read_spec (s : state) (b : ptr) (buf : dicedev_buffer) (L : list (ptr * Z))
    (fault : bool) : outcome state (Z * option dice) :=
  let r := reader buf in
  if rd_offset r =? result_count r then
    if read_sleeps s buf then Crash Sleeps else Done (0, None) s
  else
    let s' := upd_buf b (buf_advance buf) s in
    match die_of (buffer_words s L) (Z.to_nat (rd_offset r)) with
    | Some die => if fault then Done (- EFAULT, None) s' else Done (DICE_SIZE, Some die) s'
    | None => Done (- EFAULT, None) s'
    end.

Lemma reads_available_zero r :
  reader_ok r →
  (READS_AVAILABLE r =? 0) = (rd_offset r =? result_count r).
Proof.
  intros [Hr Hr']. unfold READS_AVAILABLE, u64.
  destruct (Z.eqb_spec (rd_offset r) (result_count r)) as [->|Hne]; [by rewrite Z.sub_diag|].
  apply Z.eqb_neq. rewrite Z.mod_divide by done. intros [k Hk]. nia.
Qed.

Lemma run_eq {A} (m : K A) s a s1 : wp m s (λ a' s', a' = a ∧ s' = s1) → m s = Done a s1.
Proof. intros Hwp. by apply wp_exists in Hwp as (? & ? & ? & -> & ->). Qed.

Lemma relock_id d s x :
  devs s !! d = Some x → slock x = false →
  upd_dev d ((x <| slock := true |>) <| slock := false |>) s = s.
Proof. intros Hd Hl. apply upd_dev_id. rewrite Hd. destruct x. simpl in *. by subst. Qed.

Lemma read_must_wait_locked s b buf x d :
  bufs s !! b = Some buf → reader_ok (reader buf) →
  (destroyed buf = false → is_Some (ctxs s !! buf_ctx buf)) →
  read_must_wait b (upd_dev d x s)
  = Done ((rd_offset (reader buf) =? result_count (reader buf)) && read_sleeps s buf) (upd_dev d x s).
Proof.
  intros Hb Hr Hc. unfold read_must_wait, get_buf, get_ctx, fetch, mbind, M_bind, read_sleeps.
  simpl. rewrite Hb, reads_available_zero by done.
  destruct (rd_offset (reader buf) =? result_count (reader buf)); simpl; [|done].
  destruct (destroyed buf) eqn:E; simpl; [by destruct (ctxs s !! buf_ctx buf)|].
  destruct (Hc eq_refl) as [ctx Hctx]. by rewrite Hctx.
Qed.

Lemma wp_read_available s filp b buf x f ptp tbl pp hp arr L (fault : bool) (Q : Z * option dice → state → Prop) :
  files s !! filp = Some f → private_data f = Some b → buf_pages s b buf ptp tbl pp hp arr L →
  devs s !! buf_dev buf = Some x → slock x = false → reader_ok (reader buf) →
  read_must_wait b (upd_dev (buf_dev buf) (x <| slock := true |>) s)
    = Done false (upd_dev (buf_dev buf) (x <| slock := true |>) s) →
  (READS_AVAILABLE (reader buf) =? 0) = false →
  (let s' := upd_buf b (buf_advance buf) s in
   match die_of (buffer_words s L) (Z.to_nat (rd_offset (reader buf))) with
   | Some die => if fault then Q (- EFAULT, None) s' else Q (DICE_SIZE, Some die) s'
   | None => Q (- EFAULT, None) s'
   end) →
  wp (dicedev_buffer_read filp DICE_SIZE fault) s Q.
Proof.
  intros Hf Hpd Hpg Hd Hl [Hr _] Hw E HQ. pose proof (bp_buf _ _ _ _ _ _ _ _ _ Hpg) as Hb.
  assert (Hun : ∀ Q' : unit → state → Prop, Q' tt (upd_buf b (buf_advance buf) s) →
    wp (unlock_slock (buf_dev buf))
      (upd_buf b (buf_advance buf) (upd_dev (buf_dev buf) (x <| slock := true |>) s)) Q').
  { intros Q' HQ'. eapply wp_unlock_slock; [apply devs_upd_dev|done|].
    unfold upd_dev, upd_buf in *. simpl. rewrite insert_insert_eq, insert_id; [done|].
    rewrite Hd. destruct x. simpl in *. by subst. }
  unfold dicedev_buffer_read. wp_mem. eapply wp_lock_slock; [done..|]. wp_step.
  eapply wp_done; [exact Hw|]. wp_mem. rewrite E. wp_step.
  eapply (wp_buff_read_result _ b buf ptp tbl pp hp arr L (Z.to_nat (rd_offset (reader buf)))).
  { destruct Hpg as [? ? ? Hwf]. split; [done..|]. by apply (pt_wf_same s). }
  { lia. }
  - intros die Hdie. change (buffer_words _ L) with (buffer_words s L) in Hdie. rewrite Hdie in HQ.
    destruct fault; wp_step; apply Hun; by wp_step.
  - intros Hdie. change (buffer_words _ L) with (buffer_words s L) in Hdie. rewrite Hdie in HQ.
    wp_step; apply Hun; by wp_step.
Qed.

Lemma read_one s filp b buf x L fault :
  readable s filp b buf x L →
  dicedev_buffer_read filp DICE_SIZE fault s = read_spec s b buf L fault.
Proof.
  intros [(f & Hf & Hpd) (ptp & tbl & pp & hp & arr & Hpg) Hd Hl Hr Hc].
  pose proof (bp_buf _ _ _ _ _ _ _ _ _ Hpg) as Hb. unfold dicedev_buffer_read, read_spec.
  pose proof (read_must_wait_locked s b buf (x <| slock := true |>) (buf_dev buf) Hb Hr Hc) as Hw.
  rewrite <-(reads_available_zero (reader buf)) in * by done.
  destruct (READS_AVAILABLE (reader buf) =? 0) eqn:E; simpl in Hw.
  - destruct (read_sleeps s buf).
    { do 3 (apply crash_after; wp_mem). apply crash_after. eapply wp_lock_slock; [done..|].
      apply crash_after. eapply wp_done; [exact Hw|]. by apply crash_here. }
    apply run_eq. wp_mem. eapply wp_lock_slock; [done..|]. wp_step.
    eapply wp_done; [exact Hw|]. wp_mem. rewrite E. wp_step.
    eapply wp_unlock_slock; [apply devs_upd_dev|done|]. wp_step.
    by rewrite upd_dev_twice, relock_id.
  - fold (dicedev_buffer_read filp DICE_SIZE fault).
    destruct (die_of _ _) eqn:Ed; [destruct fault|];
      (eapply run_eq, wp_read_available; [done..|]; simpl; by rewrite Ed).
Qed.

(** C18: a read is exactly [read_spec]: any size but that of one die is
    refused with -EINVAL; with nothing to read it returns 0 (end of file) when
    the context is gone or idle and sleeps otherwise; with results available
    it returns the die at the read position of the buffer and advances by
    one; past the pages it fails with -EFAULT; it never reads outside the
    buffer and always leaves the lock free. *)
Theorem buffer_read_refines s filp b buf x L count fault :
  readable s filp b buf x L →
  dicedev_buffer_read filp count fault s =
    if count =? DICE_SIZE then read_spec s b buf L fault else Done (- EINVAL, None) s.
Proof.
  intros Hre. destruct (Z.eqb_spec count DICE_SIZE) as [->|Hne]; [by eapply read_one|].
  destruct (re_file _ _ _ _ _ _ Hre) as (f & Hf & Hpd).
  unfold dicedev_buffer_read, get_file, fetch, mbind, M_bind. rewrite Hf. simpl.
  by destruct (Z.eqb_spec count DICE_SIZE).
Qed.

(** A reader that reads [n] dice one after the other. *)
Fixpoint read_dice (n : nat) (filp : ptr) : K (list (option dice)) :=
  match n with
  | O => mret []
  | S n =>
      r ← dicedev_buffer_read filp DICE_SIZE false;
      rs ← read_dice n filp;
      mret (r.2 :: rs)
  end.

Definition buf_skip (n : nat) (buf : dicedev_buffer) : dicedev_buffer :=
  buf <| reader := (reader buf) <| rd_offset := rd_offset (reader buf) + Z.of_nat n |> |>.

Lemma readable_advance s filp b buf x L :
  readable s filp b buf x L → rd_offset (reader buf) < result_count (reader buf) →
  readable (upd_buf b (buf_skip 1 buf) s) filp b (buf_skip 1 buf) x L ∧ buf_advance buf = buf_skip 1 buf.
Proof.
  intros [Hf (ptp & tbl & pp & hp & arr & [Hb Hp Ht Hwf]) Hd Hl [Hr Hr'] Hc] Hlt. split.
  - split; try done; [|split; simpl; lia].
    exists ptp, tbl, pp, hp, arr. split; [apply bufs_upd_buf|done|done|by apply (pt_wf_same s)].
  - unfold buf_advance, buf_skip. rewrite u64_small by lia. done.
Qed.

(** C19: results are delivered in order, each once: reading [n] dice when at
    least [n] unread results were produced and fit the buffer returns the
    dice stored at positions [offset], ..., [offset + n - 1] of the buffer,
    and moves the read position by exactly [n]. *)
Theorem read_dice_in_order n s filp b buf x L :
  readable s filp b buf x L →
  rd_offset (reader buf) + Z.of_nat n ≤ result_count (reader buf) →
  rd_offset (reader buf) + Z.of_nat n ≤ 512 * Z.of_nat (length L) →
  read_dice n filp s =
    Done (die_of (buffer_words s L) <$> seq (Z.to_nat (rd_offset (reader buf))) n)
      (upd_buf b (buf_skip n buf) s).
Proof.
  revert s buf. induction n as [|n IH]; intros s buf Hre Hle HL; simpl.
  { destruct (re_pages _ _ _ _ _ _ Hre) as (? & ? & ? & ? & ? & [Hb _ _ _]).
    rewrite upd_buf_id; [done|]. rewrite Hb. unfold buf_skip. destruct buf as [??????????[]].
    simpl. rewrite Z.add_0_r. done. }
  destruct (readable_advance s filp b buf x L Hre) as [Hre' Eadv]; [lia|].
  assert (Hrd : dicedev_buffer_read filp DICE_SIZE false s =
    Done (DICE_SIZE, die_of (buffer_words s L) (Z.to_nat (rd_offset (reader buf))))
      (upd_buf b (buf_skip 1 buf) s)).
  { rewrite (read_one s filp b buf x L) by done. unfold read_spec. rewrite Eadv.
    destruct (Z.eqb_spec (rd_offset (reader buf)) (result_count (reader buf))); [lia|].
    destruct (re_reader _ _ _ _ _ _ Hre) as [Hr _].
    destruct (re_pages _ _ _ _ _ _ Hre) as (? & ? & ? & ? & ? & [_ _ _ Hwf]).
    pose proof (die_in_page s _ _ _ _ _ (Z.to_nat (rd_offset (reader buf))) Hwf) as Hdie.
    destruct (lookup_lt_is_Some_2 L (Z.to_nat (rd_offset (reader buf)) / 512)) as [q Hq].
    { apply Nat.Div0.div_lt_upper_bound; lia. }
    rewrite Hq in Hdie. destruct Hdie as (? & ? & ? & _ & _ & _ & ->). done. }
  unfold mbind at 1, M_bind. rewrite Hrd. simpl. unfold mbind, M_bind.
  rewrite (IH _ (buf_skip 1 buf)) by (done || simpl; lia).
  change (buffer_words (upd_buf _ _ s) L) with (buffer_words s L). simpl.
  rewrite upd_buf_twice. do 2 f_equal.
  - do 2 f_equal. destruct (re_reader _ _ _ _ _ _ Hre) as [? _]. lia.
  - unfold buf_skip. rec_eq. f_equal. lia.
Qed.

(** ** Writing *)

Definition ctx_more (ctx : dicedev_context) : dicedev_context :=
  ctx <| task_count := u64 (task_count ctx + 1) |>.

(** A buffer file on which a write can be accepted. *)
Record writable (s : state) (filp b : ptr) (buf : dicedev_buffer) (ctx : dicedev_context)
    (x : dicedev_device) : Prop := {
  wr_file : ∃ f, files s !! filp = Some f ∧ private_data f = Some b;
  wr_buf : bufs s !! b = Some buf;
  wr_live : destroyed buf = false;
  wr_ctx : ctxs s !! buf_ctx buf = Some ctx;
  wr_ctx_dev : ctx_dev ctx = buf_dev buf;
  wr_dev : devs s !! buf_dev buf = Some x;
  wr_slock : slock x = false;
}.

(** Changes of memory outside the devices and contexts keep the lock. *)
Lemma wp_locked_ctx d s x c ctx' (Q : unit → state → Prop) :
  devs s !! d = Some x → slock x = false → Q tt (upd_ctx c ctx' s) →
  wp (unlock_slock d) (upd_ctx c ctx' (upd_dev d (x <| slock := true |>) s)) Q.
Proof.
  intros Hd Hl HQ. eapply wp_unlock_slock; [apply devs_upd_dev|done|].
  replace (upd_dev d _ _) with (upd_ctx c ctx' s); [done|].
  unfold upd_dev, upd_ctx. rec_eq. rewrite insert_insert_eq. symmetry. apply insert_id.
  rewrite Hd. destruct x. simpl in *. by subst.
Qed.

Lemma wp_write_begin s filp b buf ctx x (Q : option ptr → state → Prop) :
  writable s filp b buf ctx x →
  Q (Some (buf_ctx buf)) (upd_ctx (buf_ctx buf) (ctx_more ctx) s) →
  wp (write_begin b) s Q.
Proof.
  intros [_ Hb Hl Hc Hcd Hd Hsl] HQ. unfold write_begin. wp_mem. eapply wp_lock_slock; [done..|].
  wp_mem. rewrite Hl. wp_mem. eapply wp_locked_ctx; [done..|]. by wp_step.
Qed.

(** The error path of the writer, reached without a task. *)
Lemma write_err_crash s b buf c ctx x err :
  bufs s !! b = Some buf → ctxs s !! c = Some ctx → devs s !! buf_dev buf = Some x →
  slock x = false → write_err_task b c None err s = Crash BadAccess.
Proof.
  intros Hb Hc Hd Hl. unfold write_err_task. apply crash_after. wp_mem.
  apply crash_after. eapply wp_lock_slock; [done..|]. do 2 (apply crash_after; wp_mem).
  by apply crash_here.
Qed.

(** Memory after an accepted write. *)
Definition write_accepted (s s' : state) (b : ptr) (buf : dicedev_buffer)
    (ctx : dicedev_context) (x : dicedev_device) (cmd t : ptr) (ws : list Z) (count : Z) : Prop :=
  cmds s !! cmd = None ∧ tasks s !! t = None ∧
  cmds s' = <[cmd := ws]> (cmds s) ∧
  tasks s' = <[t := write_task b (buf_ctx buf) cmd count]> (tasks s) ∧
  ctxs s' = <[buf_ctx buf := ctx_more ctx]> (ctxs s) ∧
  devs s' = <[buf_dev buf := dev_enqueue t x]> (devs s) ∧
  bufs s' = bufs s ∧ pts s' = pts s ∧ pgarrs s' = pgarrs s ∧ dmas s' = dmas s ∧
  files s' = files s ∧ fds s' = fds s ∧ releasing s' = releasing s ∧
  dicedev_devices s' = dicedev_devices s ∧ held s' = held s.

(** The two allocations of a write succeed, with addresses [cmd] and [t]. *)
Definition write_granted (s : state) (count : Z) (cmd t : ptr) : Prop :=
  ∃ e e', k_alloc count (live s) (env s) = (Some cmd, e) ∧
    k_alloc sizeof_task ({[cmd]} ∪ live s) e = (Some t, e').

Lemma live_upd_ctx c ctx ctx' s : ctxs s !! c = Some ctx → live (upd_ctx c ctx' s) = live s.
Proof.
  intros Hc. unfold live. simpl. rewrite dom_insert_L.
  assert (c ∈ dom (ctxs s)) by by apply elem_of_dom_2 in Hc. set_solver.
Qed.

Lemma live_new_cmds cmd ws e s :
  live (s <| env := e |> <| cmds := <[cmd := ws]> (cmds s) |>) = {[cmd]} ∪ live s.
Proof. unfold live. simpl. rewrite dom_insert_L. set_solver. Qed.

Section Write.
Context (s : state) (filp b : ptr) (buf : dicedev_buffer) (ctx : dicedev_context)
  (x : dicedev_device) (ws : list Z).
Hypothesis Hw : writable s filp b buf ctx x.
Let count := 4 * Z.of_nat (length ws).
Let s1 := upd_ctx (buf_ctx buf) (ctx_more ctx) s.

Lemma write_whole : (count mod 4 =? 0) = true.
Proof. apply Z.eqb_eq. unfold count. dlia. Qed.

Lemma wp_write_granted `{!KernelLaws} cmd t (Q : Z → state → Prop) :
  write_granted s count cmd t →
  (∀ s', write_accepted s s' b buf ctx x cmd t ws count → Q count s') →
  wp (dicedev_buffer_write filp (Some ws) count) s Q.
Proof.
  intros (e & e' & E1 & E2) HQ. pose proof Hw as [(f & Hf & Hpd) Hb Hl Hc Hcd Hd Hsl].
  assert (El := live_upd_ctx _ _ (ctx_more ctx) _ Hc).
  unfold dicedev_buffer_write. wp_mem. rewrite write_whole. simpl. wp_mem.
  eapply wp_write_begin; [done|]. wp_step. apply wp_kmalloc. intros r e0 E. rewrite El in E.
  change (env (upd_ctx (buf_ctx buf) (ctx_more ctx) s)) with (env s) in E. rewrite E1 in E.
  simplify_eq. wp_steps. rewrite insert_insert_eq. apply wp_kmalloc. intros r e1 E.
  pose proof (live_new_cmds cmd ws e0 (upd_ctx (buf_ctx buf) (ctx_more ctx) s)) as El2.
  rewrite El in El2. unfold update in El2, E. simpl in El2, E. rewrite El2, E2 in E. simplify_eq.
  wp_mem. eapply wp_add_task; [apply ctxs_upd_ctx|simpl; by rewrite Hcd|done|]. wp_step. apply HQ.
  apply k_alloc_fresh, not_live in E1 as (_ & _ & _ & _ & _ & _ & ? & _).
  apply k_alloc_fresh, not_elem_of_union in E2 as [_ (_ & _ & _ & ? & _)%not_live].
  unfold write_accepted. rewrite <-Hcd. by split_and!.
Qed.

Lemma write_not_granted :
  (∀ cmd t, ¬ write_granted s count cmd t) →
  dicedev_buffer_write filp (Some ws) count s = Crash BadAccess.
Proof.
  intros Hno. pose proof Hw as [(f & Hf & Hpd) Hb Hl Hc Hcd Hd Hsl].
  assert (El := live_upd_ctx _ _ (ctx_more ctx) _ Hc).
  unfold dicedev_buffer_write. apply crash_after. wp_mem. rewrite write_whole. simpl.
  apply crash_after. wp_mem. apply crash_after. eapply wp_write_begin; [done|].
  apply crash_after. apply wp_kmalloc. intros r e E. rewrite El in E. destruct r as [cmd|].
  2:{ eapply (write_err_crash _ b buf _ (ctx_more ctx) x); [done|apply ctxs_upd_ctx|done|done]. }
  do 2 (apply crash_after; wp_step). rewrite insert_insert_eq.
  apply crash_after. apply wp_kmalloc. intros r e1 E'.
  pose proof (live_new_cmds cmd ws e (upd_ctx (buf_ctx buf) (ctx_more ctx) s)) as El2.
  rewrite El in El2. unfold update in El2, E'. simpl in El2, E'. rewrite El2 in E'.
  destruct r as [t|]; [by destruct (Hno cmd t); exists e, e1|].
  apply crash_after. unfold kfree_cmds. wp_mem.
  eapply (write_err_crash _ b buf _ (ctx_more ctx) x); [done|apply ctxs_upd_ctx|done|done].
Qed.

End Write.

(** C20: a write of whole words to a buffer of a live context is accepted iff
    its two allocations succeed: the words are copied, a task for them joins
    the end of the work queue, the work thread is woken and the task count of
    the context grows by one. When an allocation fails the error path
    dereferences the task pointer it does not have. *)
Theorem buffer_write_enqueues `{!KernelLaws} s filp b buf ctx x ws count :
  writable s filp b buf ctx x → count = 4 * Z.of_nat (length ws) →
  (∀ cmd t, write_granted s count cmd t →
     ∃ s', dicedev_buffer_write filp (Some ws) count s = Done count s' ∧
       write_accepted s s' b buf ctx x cmd t ws count) ∧
  ((∀ cmd t, ¬ write_granted s count cmd t) →
     dicedev_buffer_write filp (Some ws) count s = Crash BadAccess).
Proof.
  intros Hw ->. split; [|by eapply write_not_granted].
  intros cmd t Hg. assert (Hwp : wp (dicedev_buffer_write filp (Some ws) (4 * Z.of_nat (length ws))) s
    (λ r s', r = 4 * Z.of_nat (length ws) ∧
       write_accepted s s' b buf ctx x cmd t ws (4 * Z.of_nat (length ws))))
    by (eapply wp_write_granted; eauto).
  apply wp_exists in Hwp as (r & s' & Hrun & -> & Hacc). eauto.
Qed.

Lemma write_unaligned s filp f words count :
  files s !! filp = Some f → count mod 4 ≠ 0 →
  dicedev_buffer_write filp words count s = Done (- EINVAL) s.
Proof.
  intros Hf Hne. apply run_eq. unfold dicedev_buffer_write. wp_mem.
  destruct (Z.eqb_spec (count mod 4) 0); [done|]. simpl. by wp_step.
Qed.

Lemma write_destroyed s filp f b buf x words count :
  files s !! filp = Some f → private_data f = Some b → bufs s !! b = Some buf →
  count mod 4 = 0 → destroyed buf = true → devs s !! buf_dev buf = Some x → slock x = false →
  dicedev_buffer_write filp words count s = Done (- EPERM) s.
Proof.
  intros Hf Hpd Hb He Hl Hd Hsl. apply run_eq. unfold dicedev_buffer_write. wp_mem. rewrite He. simpl.
  wp_mem. unfold write_begin. wp_mem. eapply wp_lock_slock; [done..|]. wp_mem. rewrite Hl. wp_step.
  eapply wp_unlock_slock; [apply devs_upd_dev|done|]. wp_steps. by rewrite upd_dev_twice, relock_id.
Qed.

(** C21: the refusals of a write: a size that is not a number of whole words
    gives -EINVAL and a buffer whose context is gone gives -EPERM, in both
    cases with memory unchanged; user memory that cannot be read leads to an
    access through the task pointer that was never set. *)
Theorem buffer_write_refused s filp f b buf words count :
  files s !! filp = Some f → private_data f = Some b → bufs s !! b = Some buf →
  (count mod 4 ≠ 0 → dicedev_buffer_write filp words count s = Done (- EINVAL) s) ∧
  (∀ x, count mod 4 = 0 → destroyed buf = true → devs s !! buf_dev buf = Some x →
     slock x = false → dicedev_buffer_write filp words count s = Done (- EPERM) s) ∧
  (∀ x ctx, count mod 4 = 0 → writable s filp b buf ctx x →
     dicedev_buffer_write filp None count s = Crash BadAccess).
Proof.
  intros Hf Hpd Hb. split_and!; [by eapply write_unaligned|by intros; eapply write_destroyed|].
  intros x ctx He Hw. pose proof Hw as [_ _ Hl Hc Hcd Hd Hsl]. unfold dicedev_buffer_write.
  apply crash_after. wp_mem. rewrite He. simpl. apply crash_after. wp_mem.
  apply crash_after. eapply wp_write_begin; [done|]. apply crash_after. apply wp_kmalloc.
  intros [cmd|] e _; [apply crash_after; wp_step; apply crash_after; unfold kfree_cmds; wp_mem|];
    (eapply (write_err_crash _ b buf _ (ctx_more ctx) x);
      [done|apply ctxs_upd_ctx|done|done]).
Qed.

(** ** Life cycle *)

(** The contents of a freshly initialised buffer. *)
Definition fresh_buffer (buf0 : dicedev_buffer) (c d ptp p : ptr) (al : Z) : dicedev_buffer :=
  mkBuf (Some ptp) d c (Some p) false DICEDEV_DEFAULT_SEED false (u32 al) (usage_count buf0)
    DICEDEV_BUFFER_NO_SLOT (mkReader 0 0).

(** Memory after a successful [dicedev_buffer_init]: a page table, its pages
    and a file with two references were added. *)
Definition buffer_added (s : state) (c b : ptr) (ctx : dicedev_context) (buf0 : dicedev_buffer)
    (size al : Z) (e e' : kenv) (ptp pp : ptr) (hp : Z) (arr : ptr) (acc : list (ptr * Z))
    (p : ptr) : state :=
  (pt_added s ptp (mkPt (mkPage None 0) None 0 0) size e pp hp arr acc)
    <| env := e' |>
    <| bufs := <[b := fresh_buffer buf0 c (ctx_dev ctx) ptp p al]> (bufs s) |>
    <| files := <[p := mkFile FBuffer 2 (Some b)]> (files s) |>.

(** The addresses used are new. *)
Record buffer_fresh (s : state) (size : Z) (ptp pp : ptr) (hp : Z) (arr : ptr)
    (acc : list (ptr * Z)) (p : ptr) : Prop := {
  bf_acc : acc_ok s pp acc;
  bf_len : length acc = Z.to_nat (pages_for size);
  bf_bus : bus_ok hp;
  bf_pp : dmas s !! pp = None;
  bf_arr : pgarrs s !! arr = None;
  bf_ptp : pts s !! ptp = None;
  bf_file : files s !! p = None;
}.

Lemma wp_getfile b s (Q : ptr + Z → state → Prop) :
  (∀ p e, k_getfile (live s) (env s) = (inl p, e) →
     Q (inl p) (s <| env := e |> <| files := <[p := mkFile FBuffer 1 (Some b)]> (files s) |>)) →
  (∀ r e, k_getfile (live s) (env s) = (inr r, e) → Q (inr r) (s <| env := e |>)) →
  wp (anon_inode_getfile b) s Q.
Proof.
  intros HQ1 HQ2. unfold wp, anon_inode_getfile.
  destruct (k_getfile _ _) as [[p|r] e] eqn:E; [by apply HQ1|by apply HQ2].
Qed.

Lemma wp_buffer_init `{!KernelLaws} s c b ctx buf0 size al (Q : Z → state → Prop) :
  bufs s !! b = Some buf0 → ctxs s !! c = Some ctx →
  0 ≤ size ≤ DICEDEV_MAX_BUFFER_SIZE →
  (∀ e e' ptp pp hp arr acc p, buffer_fresh s size ptp pp hp arr acc p →
     Q 0 (buffer_added s c b ctx buf0 size al e e' ptp pp hp arr acc p)) →
  (∀ r e buf, r < 0 → Q r (s <| env := e |> <| bufs := <[b := buf]> (bufs s) |>)) →
  wp (dicedev_buffer_init c b size al) s Q.
Proof.
  intros Hb Hc Hsize HQ1 HQ2. unfold dicedev_buffer_init. apply wp_bind.
  apply wp_kmalloc. intros [ptp|] e0 E0; [|wp_mem; by apply HQ2].
  apply k_alloc_fresh, not_live in E0 as (_ & _ & _ & _ & Hptp & _).
  wp_mem. eapply wp_mono; [apply pt_init_spec; [apply lookup_insert_eq|done]|].
  intros r s' [(-> & e & pp & hp & arr & acc & -> & Hacc & Hlen & Hbus & Hpp & Harr)|
               (-> & e & t' & ->)]; simpl.
  2:{ unfold kfree_pt. wp_mem. rewrite insert_insert_eq, delete_insert_eq, delete_id by done.
      by apply (HQ2 _ e). }
  wp_mem. apply wp_getfile.
  - intros p e' Ef. apply k_getfile_fresh, not_live in Ef as (_ & _ & _ & _ & _ & _ & _ & _ & Hp).
    unfold file_get. wp_mem.
    match goal with |- Q 0 ?st => replace st with
      (buffer_added s c b ctx buf0 size al e e' ptp pp hp arr acc p) end.
    { apply HQ1. split; try done. by eapply acc_ok_dmas; [|exact Hacc]. }
    state_eq; rewrite !insert_insert_eq; by destruct buf0.
  - intros r e' Ef. apply k_getfile_err in Ef. wp_step.
    eapply wp_pt_free; [apply lookup_insert_eq| |].
    { match goal with |- context [pt_added ?st ?q ?t0 ?n ?ee ?a1 ?a2 ?a3 ?a4] =>
        by apply (pt_wf_same (pt_added st q t0 n ee a1 a2 a3 a4)), pt_added_wf end. }
    unfold kfree_pt. wp_mem.
    match goal with |- Q r ?st => replace st with (s <| env := e' |>
      <| bufs := <[b := (fresh_buffer buf0 c (ctx_dev ctx) ptp 1 al) <| buf_file := buf_file buf0 |>]>
                  (bufs s) |>) end.
    { by apply HQ2. }
    destruct Hacc as [_ Hnp Hfr _].
    state_eq.
    + rewrite !insert_insert_eq. by destruct buf0.
    + by rewrite !insert_insert_eq, delete_insert_eq, delete_id.
    + by rewrite delete_insert_eq, delete_id.
    + rewrite del_ins by (intros q Hq; rewrite lookup_insert_ne by (intros ->; done); by apply Hfr).
      by rewrite delete_insert_eq, delete_id.
Qed.

(** Memory after [dicedev_buffer_destroy]. *)
Definition buffer_gone (d b : ptr) (buf : dicedev_buffer) (x : dicedev_device) (ptp pp arr : ptr)
    (L : list (ptr * Z)) (h : hw) (s : state) : state :=
  let fr := negb (binded_slot buf =? DICEDEV_BUFFER_NO_SLOT) in
  (upd_dev d (dev_freed fr (slot_of buf) h x) (upd_buf b (buf_freed fr buf) s))
    <| dmas := delete pp (del L (dmas s)) |> <| pgarrs := delete arr (pgarrs s) |>
    <| pts := delete ptp (pts s) |>.

Lemma wp_buffer_destroy `{!HardwareLaws} s d b buf x ptp tbl pp hp arr L (Q : unit → state → Prop) :
  buf_pages s b buf ptp tbl pp hp arr L → buf_dev buf = d → devs s !! d = Some x →
  slock x = false → feed_lock x = false → slots_ok s d x →
  (∀ h, Q tt (buffer_gone d b buf x ptp pp arr L h s)) →
  wp (dicedev_buffer_destroy b) s Q.
Proof.
  intros [Hb Hp Ht Hwf] Hbd Hd Hl Hf Hok HQ. unfold dicedev_buffer_destroy. wp_mem. rewrite Hbd.
  eapply wp_lock_slock; [done..|]. wp_mem.
  set (fr := negb (binded_slot buf =? DICEDEV_BUFFER_NO_SLOT)).
  assert (Hrest : ∀ h, wp (dicedev_pt_free (buf_pt buf);; ptp ← fetch (λ _, buf_pt buf); kfree_pt ptp)
    (upd_dev d (dev_freed fr (slot_of buf) h x) (upd_buf b (buf_freed fr buf) s)) Q).
  { intros h. apply wp_bind. rewrite Hp. eapply wp_pt_free; [done|by apply (pt_wf_same s)|].
    unfold kfree_pt. wp_mem. apply HQ. }
  apply wp_when; fold fr; intros E; rewrite E in Hrest; simpl in Hrest.
  - apply negb_true_iff, Z.eqb_neq in E.
    destruct (slots_ok_slot_of _ _ _ _ _ Hok Hb Hbd E) as (Hs & Hx & _).
    eapply wp_unbind_slot; [apply devs_upd_dev|done|done|done|by eapply lookup_lt_Some|].
    intros h. apply wp_bind. eapply wp_unlock_slock; [apply devs_upd_dev|done|].
    specialize (Hrest h). unfold upd_dev, upd_buf, dev_io, dev_unbind in *. simpl in *.
    rewrite !insert_insert_eq. destruct x. simpl in *. by subst.
  - wp_step. eapply wp_unlock_slock; [apply devs_upd_dev|done|].
    rewrite upd_dev_twice, relock_id by done.
    specialize (Hrest (bar x)). by rewrite upd_buf_id, upd_dev_id in Hrest.
Qed.

(** C22: [dicedev_buffer_destroy] undoes [dicedev_buffer_init]: after a
    successful initialisation of a newly allocated buffer of any accepted
    size, and its destruction, the page tables, page arrays and coherent pages
    in use are exactly those in use before, and the device is unchanged. *)
Theorem buffer_init_destroy_roundtrip `{!KernelLaws, !HardwareLaws} s0 s' c b ctx buf0 x size al :
  bufs s0 !! b = None → ctxs s0 !! c = Some ctx → devs s0 !! ctx_dev ctx = Some x →
  slock x = false → feed_lock x = false → slots_ok s0 (ctx_dev ctx) x →
  0 ≤ size ≤ DICEDEV_MAX_BUFFER_SIZE →
  dicedev_buffer_init c b size al (upd_buf b buf0 s0) = Done 0 s' →
  ∃ s'', dicedev_buffer_destroy b s' = Done tt s'' ∧
    pts s'' = pts s0 ∧ pgarrs s'' = pgarrs s0 ∧ dmas s'' = dmas s0 ∧ devs s'' = devs s0.
Proof.
  intros Hb Hc Hd Hl Hf Hok Hsize Hrun. set (s := upd_buf b buf0 s0) in *.
  assert (Hwp : wp (dicedev_buffer_init c b size al) s (λ r s', r = 0 →
    ∃ e e' ptp pp hp arr acc p, buffer_fresh s size ptp pp hp arr acc p ∧
      s' = buffer_added s c b ctx buf0 size al e e' ptp pp hp arr acc p)).
  { eapply wp_buffer_init; [apply bufs_upd_buf|done|done| |lia]. intros. do 8 eexists. eauto. }
  unfold wp in Hwp. rewrite Hrun in Hwp.
  destruct (Hwp eq_refl) as (e & e' & ptp & pp & hp & arr & acc & p & Hfr & ->). clear Hwp Hrun.
  destruct Hfr as [Hacc Hlen Hbus Hpp Harr Hptp Hp].
  assert (Hwp : wp (dicedev_buffer_destroy b)
    (buffer_added s c b ctx buf0 size al e e' ptp pp hp arr acc p)
    (λ _ s'', pts s'' = pts s0 ∧ pgarrs s'' = pgarrs s0 ∧ dmas s'' = dmas s0 ∧
       devs s'' = devs s0)).
  { eapply (wp_buffer_destroy _ (ctx_dev ctx) b (fresh_buffer buf0 c (ctx_dev ctx) ptp p al) x);
      [|done|exact Hd|done|done| |].
    - split; [apply lookup_insert_eq|reflexivity|apply lookup_insert_eq|].
      by apply (pt_wf_same (pt_added s ptp (mkPt (mkPage None 0) None 0 0) size e pp hp arr acc)),
        pt_added_wf.
    - eapply (slots_ok_unbound s0 _ _ x x b); [done| |simpl; by rewrite insert_insert_eq|done|done].
      intros i. by eapply slots_ok_new.
    - intros h. simpl. destruct Hacc as [_ Hnp Hf' _].
      rewrite del_ins by (intros q Hq; rewrite lookup_insert_ne by set_solver; by apply Hf').
      rewrite !delete_insert_eq, !delete_id by done. by rewrite insert_id. }
  apply wp_exists in Hwp as ([] & s'' & ? & ?). eauto.
Qed.

End BufferSpec.
