(* ===== verification/IoctlSpec.v ===== *)
(** What the char device does (src/dicedev_base.c): the ioctl handlers and the
    interrupt handler. *)

From S2P Require Import Prelude Cmd Types Utils Slots Pt Task Wt Buffer Base WtSpec BufferSpec.

Section IoctlSpec.
Context `{Hardware, Kernel}.

(** ** DICEDEV_IOCTL_CREATE_SET *)

Definition create_set_valid (cs : dicedev_ioctl_create_set_arg) : Prop :=
  0 ≤ cs_size cs ≤ DICEDEV_MAX_BUFFER_SIZE ∧ cs_allowed cs ≤ DICEDEV_MAX_ALLOWED.

(** What the handler relies on: the context and its device. *)
Record ctx_ready (s : state) (c : ptr) (ctx : dicedev_context) (x : dicedev_device) : Prop := {
  cr_ctx : ctxs s !! c = Some ctx;
  cr_dev : devs s !! ctx_dev ctx = Some x;
  cr_slock : slock x = false;
  cr_feed : feed_lock x = false;
  cr_slots : slots_ok s (ctx_dev ctx) x;
}.

(** Success: a new buffer [b] of the requested size, unbound, owned by the
    context and reachable through [fd] and file [p], which has two
    references. *)
Definition set_created (s s' : state) (c : ptr) (ctx : dicedev_context)
    (cs : dicedev_ioctl_create_set_arg) (fd : Z) : Prop :=
  ∃ b buf ptp tbl pp hp arr L p,
    bufs s !! b = None ∧ bufs s' = <[b := buf]> (bufs s) ∧
    buf_pages s' b buf ptp tbl pp hp arr L ∧ max_size tbl = cs_size cs ∧
    buf_ctx buf = c ∧ buf_dev buf = ctx_dev ctx ∧ destroyed buf = false ∧
    binded_slot buf = DICEDEV_BUFFER_NO_SLOT ∧ allowed buf = u32 (cs_allowed cs) ∧
    seed buf = DICEDEV_DEFAULT_SEED ∧ reader buf = mkReader 0 0 ∧ buf_file buf = Some p ∧
    files s !! p = None ∧ files s' = <[p := mkFile FBuffer 2 (Some b)]> (files s) ∧
    fds s !! fd = None ∧ fds s' = <[fd := p]> (fds s) ∧
    ctxs s' = <[c := ctx <| allocated_buffers := b :: allocated_buffers ctx |>]> (ctxs s) ∧
    devs s' = devs s ∧ tasks s' = tasks s ∧ cmds s' = cmds s ∧ releasing s' = releasing s ∧
    pts s ⊆ pts s' ∧ pts s !! ptp = None ∧ pgarrs s ⊆ pgarrs s' ∧ pgarrs s !! arr = None ∧
    dmas s ⊆ dmas s' ∧ (∀ q, q ∈ pp :: L.*1 → dmas s !! q = None).

(** Nothing but the environment and the files changed. *)
Definition same_but_files (s s' : state) : Prop :=
  devs s' = devs s ∧ ctxs s' = ctxs s ∧ bufs s' = bufs s ∧ tasks s' = tasks s ∧
  pts s' = pts s ∧ pgarrs s' = pgarrs s ∧ cmds s' = cmds s ∧ dmas s' = dmas s ∧ fds s' = fds s ∧
  releasing s' = releasing s.

(** The state in which the failing [dicedev_buffer_get_fd] leaves the files:
    the file of the buffer is still there, and refers to the freed buffer. *)
Definition file_leaked (s s' : state) : Prop :=
  ∃ p b, files s !! p = None ∧ bufs s' !! b = None ∧
    files s' = <[p := mkFile FBuffer 2 (Some b)]> (files s).

Lemma wp_unused_fd `{!KernelLaws} s (Q : Z → state → Prop) :
  (∀ fd e, (0 ≤ fd → fds s !! fd = None) → Q fd (s <| env := e |>)) → wp get_unused_fd s Q.
Proof.
  intros HQ. unfold wp, get_unused_fd. destruct (k_unused_fd _ _) as [fd e] eqn:E. apply HQ.
  intros Hfd. apply not_elem_of_dom. by eapply k_fd_fresh.
Qed.

Lemma wp_kcall c s (Q : Z → state → Prop) :
  (∀ r e, k_call c (env s) = (r, e) → Q r (s <| env := e |>)) → wp (kcall_int c) s Q.
Proof. intros HQ. unfold wp, kcall_int. destruct (k_call _ _) eqn:E. by apply HQ. Qed.

Lemma buffer_added_pages `{!KernelLaws} s c b ctx buf0 size al e e' ptp pp hp arr acc p :
  0 ≤ size ≤ DICEDEV_MAX_BUFFER_SIZE → buffer_fresh s size ptp pp hp arr acc p →
  buf_pages (buffer_added s c b ctx buf0 size al e e' ptp pp hp arr acc p) b
    (fresh_buffer buf0 c (ctx_dev ctx) ptp p al) ptp
    (mkPt (page_of (pp, hp)) (Some arr) (pages_for size) size) pp hp arr acc.
Proof.
  intros Hs [Hacc Hlen Hbus Hpp Harr Hptp Hp].
  split; [apply lookup_insert_eq|reflexivity|apply lookup_insert_eq|].
  by apply (pt_wf_same (pt_added s ptp (mkPt (mkPage None 0) None 0 0) size e pp hp arr acc)),
    pt_added_wf.
Qed.

Lemma wp_create_set `{!KernelLaws, !HardwareLaws} s c ctx x cs (Q : Z → state → Prop) :
  ctx_ready s c ctx x → create_set_valid cs →
  (∀ fd s', 0 ≤ fd → set_created s s' c ctx cs fd → Q fd s') →
  (∀ s', same_but_files s s' → files s' = files s → Q (- ENOMEM) s') →
  (∀ r s', r < 0 → same_but_files s s' → file_leaked s s' → Q r s') →
  wp (dicedev_ioctl_create_set c (Some cs)) s Q.
Proof.
  intros [Hc Hd Hl Hf Hok] [Hsize Hal] HQ1 HQ2 HQ3. unfold dicedev_ioctl_create_set.
  destruct (Z.ltb_spec (cs_size cs) 0); [lia|].
  destruct (Z.ltb_spec DICEDEV_MAX_BUFFER_SIZE (cs_size cs)); [lia|].
  destruct (Z.ltb_spec DICEDEV_MAX_ALLOWED (cs_allowed cs)); [lia|]. simpl. wp_step.
  apply wp_kmalloc. intros [b|] e0 E0; [|wp_step; by apply HQ2].
  apply k_alloc_fresh, not_live in E0 as (_ & _ & Hb & _). wp_mem.
  eapply wp_buffer_init; [apply bufs_upd_buf|done|done|..].
  2:{ intros r e buf Hr. destruct (Z.ltb_spec r 0); [|lia]. unfold kfree_buf. wp_mem.
      apply HQ2; [|done]. split_and!; try done. simpl.
      by rewrite insert_insert_eq, delete_insert_eq, delete_id. }
  intros e e' ptp pp hp arr acc p Hfr. simpl.
  pose proof (buffer_added_pages _ c b ctx zero_buffer (cs_size cs) (cs_allowed cs) e e'
    _ _ _ _ _ _ Hsize Hfr) as Hpg.
  unfold dicedev_buffer_get_fd. wp_step. wp_step. apply wp_unused_fd. intros fd e'' Hunused.
  set (s0 := upd_buf b zero_buffer (s <| env := e0 |>)) in *.
  set (s1 := buffer_added s0 c b ctx zero_buffer (cs_size cs) (cs_allowed cs) e e'
    ptp pp hp arr acc p) in *.
  set (buf := fresh_buffer zero_buffer c (ctx_dev ctx) ptp p (cs_allowed cs)) in *.
  assert (Hpg' : buf_pages (s1 <| env := e'' |>) b buf ptp
    (mkPt (page_of (pp, hp)) (Some arr) (pages_for (cs_size cs)) (cs_size cs)) pp hp arr acc).
  { destruct Hpg as [? ? ? Hwf]. split; [done..|]. by apply (pt_wf_same s1). }
  assert (Hbufs : bufs s1 = <[b := buf]> (bufs s)) by (simpl; by rewrite insert_insert_eq).
  destruct Hfr as [[_ Hnp Hnew _] _ _ Hpp Harr Hptp Hp].
  destruct (Z.ltb_spec fd 0) as [Hneg|Hpos].
  - wp_step. destruct (Z.ltb_spec fd 0); [|lia]. wp_step.
    eapply (wp_buffer_destroy _ (ctx_dev ctx) b buf x); [done|done|done|done|done| |].
    { eapply (slots_ok_unbound s _ _ x x b); [done| |exact Hbufs|done|done].
      intros i. by eapply slots_ok_new. }
    intros h. unfold kfree_buf. wp_mem. apply HQ3; [done|..].
    + assert (Hdel : del acc (ins acc (<[pp := mkDma hp (fill 1024 0 (entry_of <$> acc))]> (dmas s)))
        = <[pp := mkDma hp (fill 1024 0 (entry_of <$> acc))]> (dmas s)).
      { apply del_ins. intros q Hq. rewrite lookup_insert_ne by (intros ->; done). by apply Hnew. }
      split_and!; try done; unfold buf; simpl; [by apply insert_id|..].
      * by rewrite !insert_insert_eq, delete_insert_eq, delete_id.
      * by rewrite delete_insert_eq, delete_id.
      * by rewrite delete_insert_eq, delete_id.
      * by rewrite Hdel, delete_insert_eq, delete_id.
    + exists p, b. split; [done|]. split; [|done]. simpl. by rewrite lookup_delete_eq.
  - wp_mem. destruct (Z.ltb_spec fd 0); [lia|]. wp_mem. apply HQ1; [done|].
    exists b, buf, ptp, (mkPt (page_of (pp, hp)) (Some arr) (pages_for (cs_size cs)) (cs_size cs)).
    exists pp, hp, arr, acc, p.
    split; [done|]. split; [exact Hbufs|]. split.
    { destruct Hpg' as [? ? ? Hwf]. split; [done..|]. by apply (pt_wf_same (s1 <| env := e'' |>)). }
    assert (Hsub : dmas s ⊆ ins acc (<[pp := mkDma hp (fill 1024 0 (entry_of <$> acc))]> (dmas s))).
    { etrans; [apply (insert_subseteq _ pp); done|]. apply ins_subseteq.
      intros q Hq. rewrite lookup_insert_ne by (intros ->; done). by apply Hnew. }
    split_and!; try done.
    + by apply Hunused.
    + simpl. by apply insert_subseteq.
    + simpl. by apply insert_subseteq.
    + intros q [->|Hq]%elem_of_cons; [done|by apply Hnew].
Qed.

Lemma create_set_refused s c cs :
  ¬ create_set_valid cs → dicedev_ioctl_create_set c (Some cs) s = Done (- EINVAL) s.
Proof.
  intros Hinv. unfold dicedev_ioctl_create_set, create_set_valid in *.
  destruct (Z.ltb_spec (cs_size cs) 0), (Z.ltb_spec DICEDEV_MAX_BUFFER_SIZE (cs_size cs)); try done.
  simpl. destruct (Z.ltb_spec DICEDEV_MAX_ALLOWED (cs_allowed cs)); [done|lia].
Qed.

(** C24: creating a set is all or nothing up to the file of the buffer.
    Invalid sizes and masks are refused with -EINVAL and an unreadable argument
    with -EFAULT, with memory unchanged. Otherwise the handler returns either
    a descriptor of a new, unbound, zero-filled buffer of the requested size
    that the context owns, or an error with every allocation undone, except
    that when no descriptor can be had the file stays behind with a pointer
    to the freed buffer. *)
Theorem create_set_all_or_nothing `{!KernelLaws, !HardwareLaws} s c ctx x arg :
  ctx_ready s c ctx x →
  match arg with
  | None => dicedev_ioctl_create_set c arg s = Done (- EFAULT) s
  | Some cs =>
      (¬ create_set_valid cs → dicedev_ioctl_create_set c arg s = Done (- EINVAL) s) ∧
      (create_set_valid cs → ∃ r s', dicedev_ioctl_create_set c arg s = Done r s' ∧
         if decide (0 ≤ r) then set_created s s' c ctx cs r
         else same_but_files s s' ∧ (r = - ENOMEM ∧ files s' = files s ∨ file_leaked s s'))
  end.
Proof.
  intros Hcr. destruct arg as [cs|]; [|done]. split.
  - apply create_set_refused.
  - intros Hval. apply wp_exists. eapply wp_create_set; [done..| | |].
    + intros fd s' Hfd Hc. by rewrite decide_True.
    + intros s' Hs Hf. rewrite decide_False by (unfold ENOMEM; lia). auto.
    + intros r s' Hr Hs Hf. rewrite decide_False by lia. auto.
Qed.


(** ** DICEDEV_IOCTL_RUN *)

(** Descriptor [fd] refers to a file whose private data is [b]. *)
Definition fd_buf (s : state) (fd : Z) (b : ptr) : Prop :=
  ∃ p f, fds s !! fd = Some p ∧ files s !! p = Some f ∧ private_data f = Some b.

Lemma alter_lookup {A} (g : A → A) (p : ptr) (m : gmap ptr A) a : m !! p = Some a → alter g p m = <[p := g a]> m.
Proof.
  intros Hp. apply map_eq. intros q. destruct (decide (p = q)) as [<-|].
  - by rewrite lookup_alter_eq, lookup_insert_eq, Hp.
  - by rewrite lookup_alter_ne, lookup_insert_ne.
Qed.

(** Memory after [fdget]: one more reference if the table is shared. *)
Definition fdgot (fd : Z) (s : state) : state :=
  s <| files := match fds s !! fd with
    | Some p => if k_fd_shared (env s) then alter (λ f, f <| f_count := f_count f + 1 |>) p (files s) else files s
    | None => files s
    end |>.

Lemma fdgot_file fd s p f :
  files s !! p = Some f → ∃ n, files (fdgot fd s) !! p = Some (f <| f_count := n |>) ∧ f_count f ≤ n.
Proof.
  intros Hp. assert (Hid : ∃ n, files s !! p = Some (f <| f_count := n |>) ∧ f_count f ≤ n).
  { exists (f_count f). destruct f. by split. }
  unfold fdgot. simpl. destruct (fds s !! fd) as [q|]; [|done]. destruct (k_fd_shared (env s)); [|done].
  destruct (decide (q = p)) as [->|]; [|by rewrite lookup_alter_ne].
  rewrite lookup_alter_eq, Hp. simpl. eexists. split; [done|lia].
Qed.

Lemma fdgot_buf fd fd' s b : fd_buf s fd b → fd_buf (fdgot fd' s) fd b.
Proof.
  intros (p & f & Hp & Hf & Hpd). destruct (fdgot_file fd' s p f Hf) as (n & Hn & _). by exists p, (f <| f_count := n |>).
Qed.

Lemma wp_fdget s fd p f (Q : option ptr → state → Prop) :
  fds s !! fd = Some p → files s !! p = Some f → Q (Some p) (fdgot fd s) → wp (fdget fd) s Q.
Proof.
  intros Hfd Hp HQ. unfold fdgot in HQ. rewrite Hfd in HQ. unfold fdget. wp_steps. rewrite Hfd.
  destruct (k_fd_shared (env s)); simpl.
  - unfold file_get. wp_mem. unfold upd_file. by rewrite (alter_lookup _ _ _ _ Hp) in HQ.
  - wp_steps. by destruct s.
Qed.

Lemma wp_fd_private s fd b (Q : option ptr → state → Prop) :
  fd_buf s fd b → Q (Some b) (fdgot fd s) → wp (fd_private fd) s Q.
Proof.
  intros (p & f & Hp & Hf & Hpd) HQ. destruct (fdgot_file fd s p f Hf) as (n & Hn & _).
  unfold fd_private. wp_step. eapply wp_fdget; [done..|]. wp_mem. by rewrite Hpd.
Qed.

(** Memory after the two [fdget]s of a run request. *)
Definition run_borrowed (rc : dicedev_ioctl_run_arg) (s : state) : state :=
  fdgot (r_bfd rc) (fdgot (r_cfd rc) s).
Definition run_aligned (rc : dicedev_ioctl_run_arg) : bool :=
  (r_addr rc mod 4 =? 0) && (r_size rc mod 4 =? 0).

(** The command and the output buffer of a request, and what they refer to. *)
Record run_target (s : state) (c : ptr) (rc : dicedev_ioctl_run_arg) (cb db : ptr)
    (cbuf dbuf : dicedev_buffer) (ptp : ptr) (tbl : dicedev_page_table)
    (ctx : dicedev_context) (x : dicedev_device) : Prop := {
  rt_cfd : fd_buf s (r_cfd rc) cb;
  rt_bfd : fd_buf s (r_bfd rc) db;
  rt_cbuf : bufs s !! cb = Some cbuf;
  rt_dbuf : bufs s !! db = Some dbuf;
  rt_pt : buf_pt cbuf = Some ptp;
  rt_tbl : pts s !! ptp = Some tbl;
  rt_ctx : ctxs s !! c = Some ctx;
  rt_dev : devs s !! ctx_dev ctx = Some x;
  rt_same : buf_ctx dbuf = c → buf_dev dbuf = ctx_dev ctx;
  rt_slock : slock x = false;
  rt_addr : 0 ≤ r_addr rc < 2 ^ 32;
  rt_size : 0 ≤ r_size rc < 2 ^ 32;
}.

(** The error a request is refused with, if it is. *)
Definition run_refusal (c : ptr) (rc : dicedev_ioctl_run_arg) (cbuf dbuf : dicedev_buffer)
    (tbl : dicedev_page_table) (ctx : dicedev_context) : option Z :=
  if decide (r_addr rc mod 4 = 0 ∧ r_size rc mod 4 = 0 ∧
             r_addr rc + r_size rc ≤ max_size tbl ∧ buf_ctx cbuf = c ∧ buf_ctx dbuf = c)
  then if ctx_failed ctx then Some EIO else None
  else Some EINVAL.

Definition run_accepted (s s' : state) (c cb db : ptr) (rc : dicedev_ioctl_run_arg)
    (ctx : dicedev_context) (x : dicedev_device) (t : ptr) : Prop :=
  tasks s !! t = None ∧
  tasks s' = <[t := run_task_of c cb db (r_addr rc) (r_size rc)]> (tasks s) ∧
  ctxs s' = <[c := ctx_more ctx]> (ctxs s) ∧
  devs s' = <[ctx_dev ctx := dev_enqueue t x]> (devs s) ∧
  bufs s' = bufs s ∧ pts s' = pts s ∧ pgarrs s' = pgarrs s ∧ cmds s' = cmds s ∧
  dmas s' = dmas s ∧ files s' = files s ∧ fds s' = fds s ∧ releasing s' = releasing s.

Lemma wp_ioctl_run_ok `{!KernelLaws} s c rc cb db cbuf dbuf ptp tbl ctx x (Q : Z → state → Prop) :
  run_target s c rc cb db cbuf dbuf ptp tbl ctx x →
  run_refusal c rc cbuf dbuf tbl ctx = None →
  (∀ t s', run_accepted (run_borrowed rc s) s' c cb db rc ctx x t → Q 0 s') →
  (∀ e, k_alloc sizeof_task (live (run_borrowed rc s)) (env s) = (None, e) →
     Q (- ENOMEM) ((run_borrowed rc s) <| env := e |>)) →
  wp (dicedev_ioctl_run c (Some rc)) s Q.
Proof.
  intros [Hcf Hbf Hcb Hdb Hp Ht Hc Hd Hsame Hl Ha Hs] Href HQ1 HQ2.
  unfold run_refusal in Href. destruct (decide _) as [(Ha4 & Hs4 & Hle & Ec & Ed)|]; [|done].
  destruct (ctx_failed ctx) eqn:Hnf; [done|]. specialize (Hsame Ed).
  unfold dicedev_ioctl_run. rewrite Ha4, Hs4. simpl.
  wp_step. eapply wp_fd_private; [done|]. wp_step. eapply wp_fd_private; [by apply fdgot_buf|].
  fold (run_borrowed rc s). wp_mem.
  rewrite u64_small by lia. destruct (Z.ltb_spec (max_size tbl) (r_addr rc + r_size rc)); [lia|].
  rewrite bool_decide_eq_false_2 by tauto. wp_mem. rewrite bool_decide_eq_false_2 by tauto.
  wp_mem. rewrite Hnf. wp_step. apply wp_kmalloc. intros [t|] e E; [|wp_step; by apply HQ2].
  apply k_alloc_fresh, not_live in E as (_ & _ & _ & Hfresh & _).
  rewrite Hsame. wp_step. eapply wp_lock_slock; [done..|]. wp_mem.
  eapply wp_locked_ctx; [done..|]. wp_mem.
  eapply wp_add_task; [apply ctxs_upd_ctx|done|done|]. wp_step.
  apply (HQ1 t). by split_and!.
Qed.

Lemma ioctl_run_refused s c rc cb db cbuf dbuf ptp tbl ctx x err :
  run_target s c rc cb db cbuf dbuf ptp tbl ctx x →
  run_refusal c rc cbuf dbuf tbl ctx = Some err →
  dicedev_ioctl_run c (Some rc) s = Done (- err) (if run_aligned rc then run_borrowed rc s else s).
Proof.
  intros [Hcf Hbf Hcb Hdb Hp Ht Hc Hd Hsame Hl Ha Hs] Href. apply run_eq.
  unfold run_refusal in Href. unfold dicedev_ioctl_run, run_aligned.
  destruct (Z.eqb_spec (r_addr rc mod 4) 0), (Z.eqb_spec (r_size rc mod 4) 0); simpl;
    try (rewrite decide_False in Href by tauto; simplify_eq; by wp_step).
  wp_step. eapply wp_fd_private; [done|]. wp_step. eapply wp_fd_private; [by apply fdgot_buf|].
  fold (run_borrowed rc s). wp_mem.
  rewrite u64_small by lia. destruct (Z.ltb_spec (max_size tbl) (r_addr rc + r_size rc)).
  { rewrite decide_False in Href by lia. simplify_eq. by wp_step. }
  case_bool_decide; [rewrite decide_False in Href by tauto; simplify_eq; by wp_step|].
  wp_mem.
  case_bool_decide; [rewrite decide_False in Href by tauto; simplify_eq; by wp_step|].
  rewrite decide_True in Href by (split_and!; try done; by apply dec_stable).
  wp_mem. destruct (ctx_failed ctx); simplify_eq. by wp_step.
Qed.

(** C25: the run ioctl accepts a request iff it is word aligned, lies inside
    the command buffer and both buffers belong to the calling context, which
    has not failed; it then queues one task for exactly that range and
    announces it to the context.  Refusals (-EINVAL, or -EIO for a failed
    context) and a failed allocation (-ENOMEM) queue nothing.  A request that is
    not aligned changes nothing at all; every other one, accepted or not,
    leaves behind the references that [fdget] took to the two files: one each
    when the descriptor table is shared, none when it is not. *)
Theorem ioctl_run_spec `{!KernelLaws} s c rc cb db cbuf dbuf ptp tbl ctx x :
  run_target s c rc cb db cbuf dbuf ptp tbl ctx x →
  match run_refusal c rc cbuf dbuf tbl ctx with
  | Some err => dicedev_ioctl_run c (Some rc) s = Done (- err) (if run_aligned rc then run_borrowed rc s else s)
  | None =>
      (∃ s' t, dicedev_ioctl_run c (Some rc) s = Done 0 s' ∧
         run_accepted (run_borrowed rc s) s' c cb db rc ctx x t) ∨
      (∃ e, dicedev_ioctl_run c (Some rc) s = Done (- ENOMEM) ((run_borrowed rc s) <| env := e |>))
  end.
Proof.
  intros Hrt. destruct (run_refusal _ _ _ _ _ _) as [err|] eqn:E; [by eapply ioctl_run_refused|].
  assert (Hwp : wp (dicedev_ioctl_run c (Some rc)) s (λ r s',
    (r = 0 ∧ ∃ t, run_accepted (run_borrowed rc s) s' c cb db rc ctx x t) ∨
    (r = - ENOMEM ∧ ∃ e, s' = (run_borrowed rc s) <| env := e |>))) by (eapply wp_ioctl_run_ok; eauto).
  apply wp_exists in Hwp as (r & s' & Hrun & [(-> & t & ?)|(-> & e & ->)]); [left|right]; eauto.
Qed.

(** [fd_private] of a descriptor that is not open, and of one that is. *)
Lemma fd_private_closed s fd : fds s !! fd = None → fd_private fd s = Crash BadAccess.
Proof.
  intros Hfd. unfold fd_private, fdget, gets, deref, fetch, mbind, M_bind. by rewrite Hfd.
Qed.

Lemma fd_private_open s fd p :
  fds s !! fd = Some p →
  fd_private fd s = match files s !! p with
    | Some f => Done (private_data f) (fdgot fd s)
    | None => Crash BadAccess
    end.
Proof.
  intros Hfd. destruct (files s !! p) as [f|] eqn:Hp.
  - apply run_eq. destruct (fdgot_file fd s p f Hp) as (n & Hn & _). unfold fd_private. wp_step.
    eapply wp_fdget; [done..|]. by wp_mem.
  - unfold fd_private, fdget, file_get, get_file, gets, deref, fetch, mbind, M_bind. rewrite Hfd.
    destruct (k_fd_shared (env s)); simpl; by rewrite Hp.
Qed.

(** C26: the descriptors of an aligned run request are not checked.  If either of
    them is not open, the null file of [fdget] is dereferenced; if the command
    descriptor is one of the char device, its context is taken for a buffer. *)
Theorem ioctl_run_bad_fd s c rc :
  run_aligned rc = true →
  (fds s !! r_cfd rc = None ∨ fds s !! r_bfd rc = None →
     dicedev_ioctl_run c (Some rc) s = Crash BadAccess) ∧
  (∀ p f c' db, fds s !! r_cfd rc = Some p → files s !! p = Some f → f_kind f = FDicedev →
     private_data f = Some c' → bufs s !! c' = None → fd_buf s (r_bfd rc) db →
     dicedev_ioctl_run c (Some rc) s = Crash BadAccess).
Proof.
  unfold run_aligned. intros [Ha Hs]%andb_true_iff. unfold dicedev_ioctl_run. rewrite Ha, Hs. simpl. split.
  - intros Hcl. destruct (fds s !! r_cfd rc) as [p|] eqn:Hc; [|apply crash_here; by apply fd_private_closed].
    destruct Hcl as [|Hb]; [done|]. pose proof (fd_private_open s _ p Hc) as E.
    destruct (files s !! p) as [f|]; [|by apply crash_here].
    unfold mbind at 1, M_bind at 1. rewrite E. apply crash_here. by apply fd_private_closed.
  - intros p f c' db Hc Hp _ Hpd Hbuf Hdb. unfold mbind at 1, M_bind at 1.
    rewrite (fd_private_open s _ p Hc), Hp, Hpd.
    apply crash_after. eapply wp_fd_private; [by apply fdgot_buf|].
    apply crash_here. unfold get_buf, fetch. simpl. by rewrite Hbuf.
Qed.

(** ** The other requests *)

Lemma wait_run s c ctx wc :
  ctxs s !! c = Some ctx →
  dicedev_ioctl_wait c (Some wc) s =
    if w_cnt wc <? task_count ctx then Crash Sleeps
    else Done (if ctx_failed ctx then - EIO else 0) s.
Proof.
  intros Hc. unfold dicedev_ioctl_wait, get_ctx, fetch, mbind, M_bind. rewrite Hc.
  destruct (w_cnt wc <? task_count ctx); simpl; [done|]. rewrite Hc. by destruct (ctx_failed ctx).
Qed.

(** Waiting returns exactly when at most [cnt] tasks of the context are
    left, and then reports whether the context has failed; until then it
    sleeps. It changes nothing. *)
Theorem ioctl_wait_spec s c ctx wc :
  ctxs s !! c = Some ctx →
  dicedev_ioctl_wait c (Some wc) s =
    if w_cnt wc <? task_count ctx then Crash Sleeps
    else Done (if ctx_failed ctx then - EIO else 0) s.
Proof. apply wait_run. Qed.

Definition seed_flag_ok (v : Z) : bool := (v =? 0) || (v =? 1).

Lemma seed_flag_spec v : 0 ≤ v → seed_flag_ok v = bool_decide (v ≤ 1).
Proof.
  intros Hv. unfold seed_flag_ok. case_bool_decide;
    destruct (Z.eqb_spec v 0), (Z.eqb_spec v 1); done || lia.
Qed.

Lemma seed_increment_refused s c si :
  seed_flag_ok (si_enable_increment si) = false →
  dicedev_ioctl_seed_increment c (Some si) s = Done (- EINVAL) s.
Proof.
  unfold seed_flag_ok, dicedev_ioctl_seed_increment. by intros [-> ->]%orb_false_iff.
Qed.

Lemma wp_seed_increment s c ctx x si (Q : Z → state → Prop) :
  ctxs s !! c = Some ctx → devs s !! ctx_dev ctx = Some x → slock x = false →
  seed_flag_ok (si_enable_increment si) = true →
  (∀ h, Q 0 (upd_dev (ctx_dev ctx)
     (dev_io h [(DICEDEV_INCREMENT_SEED, si_enable_increment si)] x) s)) →
  wp (dicedev_ioctl_seed_increment c (Some si)) s Q.
Proof.
  intros Hc Hd Hl Hv HQ. unfold dicedev_ioctl_seed_increment.
  rewrite <-negb_orb. fold (seed_flag_ok (si_enable_increment si)). rewrite Hv. simpl.
  wp_mem. eapply wp_lock_slock; [done..|].
  wp_step. eapply wp_dicedev_iow; [apply devs_upd_dev|]. intros h. wp_step.
  eapply wp_unlock_slock; [apply devs_upd_dev|done|]. wp_step. specialize (HQ h).
  rewrite !upd_dev_twice. rewrite u32_small.
  - destruct x. simpl in *. by subst.
  - apply orb_true_iff in Hv as [->%Z.eqb_eq| ->%Z.eqb_eq]; lia.
Qed.

(** The seed increment request writes 0 or 1, as asked, to the
    INCREMENT_SEED register of the device and nothing else; any other value
    is refused with -EINVAL and touches nothing. *)
Theorem seed_increment_spec s c ctx x si :
  ctxs s !! c = Some ctx → devs s !! ctx_dev ctx = Some x → slock x = false →
  0 ≤ si_enable_increment si < 2 ^ 32 →
  if decide (si_enable_increment si ≤ 1)
  then ∃ h, dicedev_ioctl_seed_increment c (Some si) s =
    Done 0 (upd_dev (ctx_dev ctx)
      (dev_io h [(DICEDEV_INCREMENT_SEED, si_enable_increment si)] x) s)
  else dicedev_ioctl_seed_increment c (Some si) s = Done (- EINVAL) s.
Proof.
  intros Hc Hd Hl [Hr _]. pose proof (seed_flag_spec _ Hr) as Hf. case_decide.
  - rewrite bool_decide_eq_true_2 in Hf by done.
    assert (Hwp : wp (dicedev_ioctl_seed_increment c (Some si)) s (λ r s', r = 0 ∧ ∃ h,
      s' = upd_dev (ctx_dev ctx) (dev_io h [(DICEDEV_INCREMENT_SEED, si_enable_increment si)] x) s))
      by (eapply wp_seed_increment; eauto).
    apply wp_exists in Hwp as (r & s' & Hrun & -> & h & ->). exists h. exact Hrun.
  - apply seed_increment_refused. by rewrite Hf, bool_decide_eq_false_2.
Qed.

(** ** Interrupts *)

(** The enabled pending interrupts of a board. *)
Definition istatus_of (h : hw) : Z * hw :=
  let (i, h1) := ioread32 DICEDEV_INTR h in
  let (en, h2) := ioread32 DICEDEV_INTR_ENABLE h1 in (Z.land i en, h2).

Definition intr_error (ist : Z) : bool :=
  has_bit ist (Z.lor DICEDEV_INTR_CMD_ERROR DICEDEV_INTR_MEM_ERROR).
Definition intr_fence (ist : Z) : bool := has_bit ist DICEDEV_INTR_FENCE_WAIT.

(** The device after a non-zero interrupt status was handled. *)
Definition dev_interrupted (h : hw) (ist : Z) (x : dicedev_device) : dicedev_device :=
  let y := dev_io h [(DICEDEV_INTR, u32 ist)] x in
  if intr_fence ist
  then y <| fence_state := DICEDEV_FENCE_STATE_REACHED |> <| wt_sleeping := false |> else y.

(** The handler acknowledges the fence only if it then counts as reached. *)
Lemma sent_interrupted h ist x : fence_sent x → fence_sent (dev_interrupted h ist x).
Proof.
  intros Hs. unfold dev_interrupted. destruct (intr_fence ist) eqn:E; [done|]. intros Ew%Hs.
  apply fence_due_quiet; [|done]. constructor; [|done]. split; [done|]. intros _. simpl.
  unfold intr_fence, has_bit, u32 in *. rewrite <-Z.land_ones, <-Z.land_assoc by done. exact E.
Qed.

Lemma isr_prefix d s x (Q : bool → state → Prop) :
  devs s !! d = Some x → slock x = false →
  (let (ist, h) := istatus_of (bar x) in
   wp (when (negb (ist =? 0)) (
         dicedev_iow d DICEDEV_INTR ist;;
         when (intr_error ist) (
           x ← get_dev d;
           BUG_ON (bool_decide (running_task x = None));;
           t ← deref (running_task x);
           task ← get_task t;
           dicedev_ctx_fail (task_ctx task));;
         when (intr_fence ist) (
           x ← get_dev d;
           BUG_ON (bool_decide (running_task x = None));;
           put_dev d (x <| fence_state := DICEDEV_FENCE_STATE_REACHED |>);;
           wake_wt d));;
       unlock_slock d;; mret (negb (ist =? 0)))
     (upd_dev d (x <| bar := h |> <| slock := true |>) s) Q) →
  wp (dicedev_isr d) s Q.
Proof.
  intros Hd Hl HQ. unfold dicedev_isr. wp_step. eapply wp_lock_slock; [done..|]. wp_step.
  eapply wp_dicedev_ior; [apply devs_upd_dev|]. intros i h1 E1. simpl in E1. wp_step.
  eapply wp_dicedev_ior; [apply devs_upd_dev|]. intros en h2 E2. simpl in E2.
  unfold istatus_of in HQ. rewrite E1, E2 in HQ.
  rewrite !upd_dev_twice, dev_io_io. unfold dev_io. simpl. rewrite app_nil_r.
  destruct x. exact HQ.
Qed.

Lemma wp_isr_quiet d s x h (Q : bool → state → Prop) :
  devs s !! d = Some x → slock x = false → istatus_of (bar x) = (0, h) →
  Q false (upd_dev d (x <| bar := h |>) s) → wp (dicedev_isr d) s Q.
Proof.
  intros Hd Hl E HQ. eapply isr_prefix; [done..|]. rewrite E. simpl. wp_steps.
  eapply wp_unlock_slock; [apply devs_upd_dev|done|]. wp_step. rewrite upd_dev_twice.
  destruct x. simpl in *. by subst.
Qed.

Lemma wp_isr d s x ist h0 t task ctx (Q : bool → state → Prop) :
  devs s !! d = Some x → slock x = false → istatus_of (bar x) = (ist, h0) → ist ≠ 0 →
  running_task x = Some t → tasks s !! t = Some task → ctxs s !! task_ctx task = Some ctx →
  (∀ h, Q true (upd_dev d (dev_interrupted h ist x)
     (upd_ctx (task_ctx task) (ctx <| ctx_failed := ctx_failed ctx || intr_error ist |>) s))) →
  wp (dicedev_isr d) s Q.
Proof.
  intros Hd Hl E Hne Hr Ht Hc HQ. eapply isr_prefix; [done..|]. rewrite E.
  destruct (Z.eqb_spec ist 0); [done|]. simpl. wp_steps.
  eapply wp_dicedev_iow; [apply devs_upd_dev|]. intros h. specialize (HQ h).
  unfold dev_interrupted in HQ. rewrite upd_dev_twice.
  set (y := dev_io h [(DICEDEV_INTR, u32 ist)] (x <| bar := h0 |> <| slock := true |>)).
  set (ctx' := ctx <| ctx_failed := ctx_failed ctx || intr_error ist |>) in *.
  assert (Hrest : wp (when (intr_fence ist) (
      x ← get_dev d; BUG_ON (bool_decide (running_task x = None));;
      put_dev d (x <| fence_state := DICEDEV_FENCE_STATE_REACHED |>);; wake_wt d))
      (upd_dev d y (upd_ctx (task_ctx task) ctx' s)) (λ _ s', wp (unlock_slock d;; mret true) s' Q)).
  { apply wp_when; intros Ef; rewrite Ef in HQ.
    - unfold wake_wt. unfold_mem. wp_step. eapply wp_fetch; [apply devs_upd_dev|]. wp_step.
      apply wp_BUG_ON; [by rewrite Hr|]. wp_mem.
      eapply wp_unlock_slock; [apply devs_upd_dev|done|]. wp_step. rewrite !upd_dev_twice.
      destruct x. simpl in *. by subst.
    - wp_step. eapply wp_unlock_slock; [apply devs_upd_dev|done|]. wp_step.
      rewrite !upd_dev_twice. destruct x. simpl in *. by subst. }
  apply wp_bind, wp_when; intros Ee; unfold ctx' in Hrest; rewrite Ee in Hrest.
  - unfold dicedev_ctx_fail. unfold_mem. wp_step. eapply wp_fetch; [apply devs_upd_dev|]. wp_step.
    apply wp_BUG_ON; [by rewrite Hr|]. wp_step. eapply wp_fetch; [exact Hr|]. wp_mem.
    rewrite orb_true_r in Hrest. exact Hrest.
  - rewrite orb_false_r, upd_ctx_id in Hrest; [exact Hrest|]. rewrite Hc. by destruct ctx.
Qed.

(** C27: the interrupt handler acknowledges exactly the enabled pending
    interrupts and reports whether there were any. While a task is running, a
    command or memory error fails the context of that task, and a fence marks
    the fence as reached and wakes the work thread; slot errors are
    acknowledged and otherwise ignored. With none pending nothing changes. *)
Theorem isr_spec d s x ist h0 t task ctx :
  devs s !! d = Some x → slock x = false → istatus_of (bar x) = (ist, h0) →
  running_task x = Some t → tasks s !! t = Some task → ctxs s !! task_ctx task = Some ctx →
  if decide (ist = 0) then dicedev_isr d s = Done false (upd_dev d (x <| bar := h0 |>) s)
  else ∃ h, dicedev_isr d s = Done true (upd_dev d (dev_interrupted h ist x)
    (upd_ctx (task_ctx task) (ctx <| ctx_failed := ctx_failed ctx || intr_error ist |>) s)).
Proof.
  intros Hd Hl E Hr Ht Hc. case_decide; subst.
  - apply run_eq. by eapply wp_isr_quiet.
  - assert (Hwp : wp (dicedev_isr d) s (λ r s', r = true ∧ ∃ h, s' = upd_dev d (dev_interrupted h ist x)
      (upd_ctx (task_ctx task) (ctx <| ctx_failed := ctx_failed ctx || intr_error ist |>) s)))
      by (eapply wp_isr; eauto).
    apply wp_exists in Hwp as (r & s' & Hrun & -> & h & ->). eauto.
Qed.

(** A fence, command or memory error interrupt that arrives while no task
    is running stops the kernel: the handler runs into its [BUG_ON] with the
    device lock held. *)
Theorem isr_idle_bug d s x ist h0 :
  devs s !! d = Some x → slock x = false → istatus_of (bar x) = (ist, h0) →
  running_task x = None → intr_error ist || intr_fence ist = true →
  dicedev_isr d s = Crash Bug.
Proof.
  intros Hd Hl E Hr Hb. unfold istatus_of in E. unfold dicedev_isr.
  apply crash_after. eapply wp_lock_slock; [done..|]. apply crash_after.
  eapply wp_dicedev_ior; [apply devs_upd_dev|]. intros i h1 E1. simpl in E1. apply crash_after.
  eapply wp_dicedev_ior; [apply devs_upd_dev|]. intros en h2 E2. simpl in E2.
  rewrite E1, E2 in E. simplify_eq. apply crash_here.
  assert (Hne : Z.land i en ≠ 0) by (intros E0; by rewrite E0 in Hb).
  destruct (Z.eqb_spec (Z.land i en) 0); [done|]. simpl.
  apply crash_after. eapply wp_dicedev_iow; [apply devs_upd_dev|]. intros h. rewrite !upd_dev_twice.
  fold (intr_error (Z.land i en)). fold (intr_fence (Z.land i en)).
  assert (Hbug : ∀ (A : Type) (k : dicedev_device → K A) (z : dicedev_device) (st : state),
    running_task z = None →
    (x ← get_dev d; BUG_ON (bool_decide (running_task x = None));; k x) (upd_dev d z st) = Crash Bug).
  { intros A k z st Hz. apply crash_after. unfold get_dev. eapply wp_fetch; [apply devs_upd_dev|].
    apply crash_here. by rewrite Hz. }
  destruct (intr_error (Z.land i en)) eqn:Ee.
  - apply crash_here. by apply Hbug.
  - simpl in Hb. rewrite Hb. simpl. by apply Hbug.
Qed.

End IoctlSpec.

