(* ===== verification/PciSpec.v ===== *)
(** Bringing devices up and down (src/dicedev_base.c): which kernel resources
    [dicedev_probe], [dicedev_remove], [dicedev_init] and [dicedev_exit] take
    and give back, on every path. *)

From S2P Require Import Prelude Cmd Types Utils Slots Pt Task Wt Buffer Base WtSpec BufferSpec IoctlSpec.

Section PciSpec.
Context `{Hardware, Kernel}.

(** ** Resources *)

(** [h] without resource [r] of owner [o]. *)
Definition without (o : option ptr) (r : kres) (h : list (option ptr * kres)) :
  list (option ptr * kres) := filter (λ q, q ≠ (o, r)) h.

Lemma without_same o r h : (o, r) ∉ h → without o r ((o, r) :: h) = h.
Proof.
  intros Hn. unfold without. rewrite filter_cons_False by auto. apply list_filter_id.
  intros q Hq. intros ->. done.
Qed.

Lemma without_other o r r' h : r ≠ r' → without o r ((o, r') :: h) = (o, r') :: without o r h.
Proof. intros Hne. unfold without. rewrite filter_cons_True by congruence. done. Qed.

Lemma wp_acquire o r s (Q : unit → state → Prop) :
  Q tt (s <| held := (o, r) :: held s |>) → wp (acquire o r) s Q.
Proof. by intros. Qed.

Lemma wp_give_back o r s (Q : unit → state → Prop) :
  (o, r) ∈ held s → Q tt (s <| held := without o r (held s) |>) → wp (give_back o r) s Q.
Proof.
  intros Hin HQ. unfold give_back. wp_step. wp_step. by rewrite bool_decide_eq_true_2.
Qed.

(** Resources of [o], latest first, on top of those held before. *)
Definition holding (o : option ptr) (rs : list kres) (h : list (option ptr * kres)) :
  list (option ptr * kres) := ((λ r, (o, r)) <$> rs) ++ h.

Lemma without_holding o r rs h :
  (∀ r', (o, r') ∉ h) → NoDup rs →
  without o r (holding o rs h) = holding o (filter (λ r', r' ≠ r) rs) h.
Proof.
  intros Hh. induction rs as [|r' rs IH]; intros Hnd.
  - apply list_filter_id. intros q Hq ->. by apply (Hh r).
  - change (holding o (r' :: rs) h) with ((o, r') :: holding o rs h).
    apply NoDup_cons in Hnd as [Hr Hnd]. destruct (decide (r' = r)) as [->|Hne].
    + rewrite without_same, filter_cons_False, list_filter_id; [done|..|by auto|].
      * intros q Hq ->. done.
      * unfold holding. rewrite elem_of_app. intros [Hin|Hin]; [|by apply (Hh r)].
        apply list_elem_of_fmap in Hin as (? & [= ->] & ?). done.
    + rewrite without_other, filter_cons_True, IH by done. done.
Qed.

Lemma wp_give_back_holding o r rs h s (Q : unit → state → Prop) :
  held s = holding o rs h → (∀ r', (o, r') ∉ h) → NoDup rs → r ∈ rs →
  Q tt (s <| held := holding o (filter (λ r', r' ≠ r) rs) h |>) → wp (give_back o r) s Q.
Proof.
  intros Hh Hn Hnd Hr HQ. apply wp_give_back.
  - rewrite Hh. unfold holding. apply elem_of_app. left. apply list_elem_of_fmap. eauto.
  - by rewrite Hh, without_holding.
Qed.

(** ** Probe *)

(** The register writes of a successful probe. *)
Definition probe_log : list (Z * Z) :=
  [ (DICEDEV_INTR, u32 DICEDEV_ALL_INTR); (DICEDEV_INTR_ENABLE, u32 DICEDEV_ACTIVE_INTR);
    (DICEDEV_CMD_FENCE_WAIT, 1); (DICEDEV_CMD_FENCE_LAST, 0); (DICEDEV_ENABLE, 1) ]
  ++ feeds ((λ i, u32 (DICEDEV_USER_CMD_UNBIND_SLOT_HEADER (Z.of_nat i))) <$> seq 0 16).

Lemma wp_probe_unbind `{!HardwareLaws} n (i : nat) d s x (Q : unit → state → Prop) :
  devs s !! d = Some x → feed_lock x = false →
  (∀ h, Q tt (upd_dev d (dev_io h (feeds
     ((λ i, u32 (DICEDEV_USER_CMD_UNBIND_SLOT_HEADER (Z.of_nat i))) <$> seq i n)) x) s)) →
  wp (probe_unbind n (Z.of_nat i) d) s Q.
Proof.
  revert i s x. induction n as [|n IH]; intros i s x Hd Hl HQ; simpl.
  - wp_step. specialize (HQ (bar x)). simpl in HQ. by rewrite dev_io_id, upd_dev_id in HQ.
  - apply wp_bind. eapply wp_feed_cmd; [done..|]. intros h.
    replace (Z.of_nat i + 1) with (Z.of_nat (S i)) by lia.
    eapply IH; [apply devs_upd_dev|done|]. intros h'. rewrite upd_dev_twice, dev_io_io, <-feeds_app.
    apply HQ.
Qed.

(** *** Memory during a probe *)
Section Probe.
Context `{!HardwareLaws, !KernelLaws}.
Variables (s : state) (d : ptr) (i : nat).
Hypothesis d_fresh : devs s !! d = None.
Hypothesis i_free : dicedev_devices s !! i = Some None.
Hypothesis d_unowned : ∀ r, (Some d, r) ∉ held s.

(** Device [d] exists with contents [x] and index [i] and holds [rs]. *)
Definition probing (e : kenv) (x : dicedev_device) (rs : list kres) : state :=
  s <| env := e |> <| devs := <[d := x]> (devs s) |>
    <| dicedev_devices := <[i := Some d]> (dicedev_devices s) |>
    <| held := holding (Some d) rs (held s) |>.
(** Device [d] is gone and still holds [rs]. *)
Definition dropped (e : kenv) (rs : list kres) : state :=
  s <| env := e |> <| held := holding (Some d) rs (held s) |>.

Lemma wp_probing_acquire e x rs r (Q : unit → state → Prop) :
  Q tt (probing e x (r :: rs)) → wp (acquire (Some d) r) (probing e x rs) Q.
Proof. by intros. Qed.

Lemma wp_probing_give_back e x rs r (Q : unit → state → Prop) :
  NoDup rs → r ∈ rs → Q tt (probing e x (filter (λ r', r' ≠ r) rs)) →
  wp (give_back (Some d) r) (probing e x rs) Q.
Proof. intros Hnd Hr HQ. by eapply wp_give_back_holding. Qed.

Lemma wp_probing_kcall c e x rs (Q : Z → state → Prop) :
  (∀ r e', Q r (probing e' x rs)) → wp (kcall_int c) (probing e x rs) Q.
Proof. intros HQ. apply wp_kcall. intros r e' _. apply HQ. Qed.

Lemma probing_upd e x y rs : upd_dev d y (probing e x rs) = probing e y rs.
Proof. state_eq. apply insert_insert_eq. Qed.

Lemma probing_dev e x rs : devs (probing e x rs) !! d = Some x.
Proof. apply lookup_insert_eq. Qed.

Lemma wp_probing_get e x rs (Q : dicedev_device → state → Prop) :
  Q x (probing e x rs) → wp (get_dev d) (probing e x rs) Q.
Proof. intros HQ. eapply wp_fetch; [apply probing_dev|done]. Qed.

Lemma wp_probing_put e x y rs (Q : unit → state → Prop) :
  Q tt (probing e y rs) → wp (put_dev d y) (probing e x rs) Q.
Proof. intros HQ. unfold put_dev. wp_step. by rewrite probing_upd. Qed.

Lemma wp_probing_iow reg val e x rs (Q : unit → state → Prop) :
  (∀ h, Q tt (probing e (dev_io h [(reg, u32 val)] x) rs)) →
  wp (dicedev_iow d reg val) (probing e x rs) Q.
Proof.
  intros HQ. eapply wp_dicedev_iow; [apply probing_dev|]. intros h. by rewrite probing_upd.
Qed.

Lemma wp_probing_drop e x rs (Q : unit → state → Prop) :
  idx x = Z.of_nat i → Q tt (dropped e rs) → wp (drop_device d) (probing e x rs) Q.
Proof.
  intros Hi HQ. unfold drop_device. unfold_mem. wp_step. eapply wp_fetch; [apply probing_dev|].
  wp_steps. rewrite Hi.
  eapply wp_store; [rewrite length_insert; by eapply lookup_lt_Some|]. wp_step. wp_step.
  unfold kfree_dev. wp_mem.
  match goal with |- Q tt ?st => replace st with (dropped e rs); [done|] end.
  state_eq; [by rewrite delete_insert_eq, delete_id|].
  by rewrite list_insert_insert_eq, list_insert_id.
Qed.

(** What the clean-up from [err_request_irq], [err_iomap], ... gives back. *)
Definition pci_resources : list kres := [RIrq; RIomap; RPciRegions; RPciEnabled].

(** Whether there is a work thread. *)
Definition thread_res (thr : bool) : list kres := if thr then [RThread] else [].

Lemma wp_probe_err_cdev_add e x extra thr (Q : unit → state → Prop) :
  extra = thread_res thr ∨ extra = RCdev :: thread_res thr → idx x = Z.of_nat i →
  Q tt (dropped e extra) →
  wp (probe_err_cdev_add d) (probing e x (extra ++ pci_resources)) Q.
Proof.
  intros Hex Hi HQ. unfold probe_err_cdev_add, probe_undo_irq, probe_undo_iomap,
    probe_undo_regions, probe_undo_enable.
  do 2 (apply wp_bind, wp_probing_iow; intros ?).
  do 4 (apply wp_bind, wp_probing_give_back; [destruct Hex, thr; subst; by_dec..|]).
  apply wp_probing_drop; [done|]. by destruct Hex, thr; subst.
Qed.

(** The device of a successful probe. *)
Definition probed_device (h : hw) : dicedev_device :=
  mkDev (Z.of_nat i) true h probe_log false false DICEDEV_FENCE_STATE_NONE false
    (replicate 16 None) 16 true false false false [] None.
(** The same without a work thread. *)
Definition threadless_device (h : hw) : dicedev_device := (probed_device h) <| wt_thread := false |>.

Definition device_resources : list kres := RDeviceNode :: RCdev :: RThread :: pci_resources.

Lemma wp_probe_start e h0 (Q : Z → state → Prop) :
  (∀ e h, Q 0 (probing e (probed_device h) device_resources)) →
  (∀ e h, Q 0 (probing e (threadless_device h) (RDeviceNode :: RCdev :: pci_resources))) →
  (∀ r e thr, r ≠ 0 → Q r (dropped e (thread_res thr))) →
  (∀ e thr, Q 0 (dropped e (RCdev :: thread_res thr))) →
  wp (probe_start d) (probing e ((zero_device h0) <| idx := Z.of_nat i |>) pci_resources) Q.
Proof.
  intros HQ1 HQ2 HQ3 HQ4. unfold probe_start, dicedev_wt_init.
  apply wp_bind, wp_probing_get. apply wp_bind, wp_probing_put.
  apply wp_bind, wp_bind, wp_probing_get. apply wp_bind, wp_probing_put.
  apply wp_bind, wp_probing_kcall. intros err e0. apply wp_bind, wp_probing_get. apply wp_bind, wp_probing_put.
  set (thr := negb (err <? 0)).
  match goal with |- wp _ (probing _ ?y _) _ => assert (Hthr : ∀ P : unit → state → Prop,
    P tt (probing e0 y (thread_res thr ++ pci_resources)) →
    wp (when thr (acquire (Some d) RThread)) (probing e0 y pci_resources) P) by (by destruct thr) end.
  apply Hthr. clear Hthr. do 5 (apply wp_bind, wp_probing_iow; intros ?).
  apply wp_bind. eapply (wp_probe_unbind 16 0); [apply probing_dev|done|]. intros hb.
  rewrite probing_upd, !dev_io_io. apply wp_bind, wp_probing_kcall. intros r e1.
  destruct (Z.eqb_spec r 0) as [->|Hr]; simpl; cycle 1.
  { apply wp_bind. eapply wp_probe_err_cdev_add; [by left|done|]. wp_step. by apply HQ3. }
  apply wp_bind, wp_probing_acquire. apply wp_bind, wp_probing_kcall. intros node e2.
  destruct (Z.ltb_spec node 0).
  - apply wp_bind, wp_probing_get. apply wp_bind, wp_probing_put.
    apply wp_bind. eapply (wp_probe_err_cdev_add _ _ (RCdev :: thread_res thr)); [by right|done|]. wp_step.
    apply HQ4.
  - apply wp_bind, wp_probing_acquire. apply wp_bind, wp_probing_get. apply wp_bind, wp_probing_put.
    wp_step. destruct thr; [apply (HQ1 e2 hb)|apply (HQ2 e2 hb)].
Qed.

Lemma wp_probe_enable e h0 (Q : Z → state → Prop) :
  (∀ e h, Q 0 (probing e (probed_device h) device_resources)) →
  (∀ e h, Q 0 (probing e (threadless_device h) (RDeviceNode :: RCdev :: pci_resources))) →
  (∀ r e thr, r ≠ 0 → Q r (dropped e (thread_res thr))) →
  (∀ e thr, Q 0 (dropped e (RCdev :: thread_res thr))) →
  wp (probe_enable d) (probing e ((zero_device h0) <| idx := Z.of_nat i |>) []) Q.
Proof.
  intros HQ1 HQ2 HQ3 HQ4. unfold probe_enable, probe_undo_iomap, probe_undo_regions,
    probe_undo_enable.
  apply wp_bind, wp_probing_kcall. intros r1 env1.
  destruct (Z.eqb_spec r1 0); simpl; [|apply wp_bind, wp_probing_drop; [done|]; wp_step; by apply (HQ3 _ _ false)].
  apply wp_bind, wp_probing_acquire. apply wp_bind, wp_probing_kcall. intros r2 env2.
  destruct (Z.eqb_spec r2 0); simpl.
  2:{ apply wp_bind, wp_probing_give_back; [by_dec..|].
      apply wp_bind, wp_probing_drop; [done|]. wp_step. by apply (HQ3 _ _ false). }
  apply wp_bind, wp_probing_kcall. intros r3 env3. destruct (Z.eqb_spec r3 0); simpl.
  2:{ apply wp_bind, wp_probing_give_back; [by_dec..|].
      apply wp_bind, wp_probing_drop; [done|]. wp_step. by apply (HQ3 _ _ false). }
  apply wp_bind, wp_probing_acquire. apply wp_bind, wp_probing_kcall. intros r4 env4.
  destruct (Z.eqb_spec r4 0).
  { do 2 (apply wp_bind, wp_probing_give_back; [by_dec..|]).
    apply wp_bind, wp_probing_drop; [done|]. wp_step. by apply (HQ3 _ _ false). }
  apply wp_bind, wp_probing_acquire. apply wp_bind, wp_probing_kcall. intros r5 env5.
  destruct (Z.eqb_spec r5 0); simpl.
  2:{ do 3 (apply wp_bind, wp_probing_give_back; [by_dec..|]).
      apply wp_bind, wp_probing_drop; [done|]. wp_step. by apply (HQ3 _ _ false). }
  apply wp_bind, wp_probing_acquire. by apply wp_probe_start.
Qed.

End Probe.

(** What the module knows of its devices: the table has room for 256 of them,
    the resources held belong to live devices, and so do the buffers. *)
Record module_ok (s : state) : Prop := {
  mo_table : length (dicedev_devices s) = Z.to_nat DICEDEV_MAX_DEVICES;
  mo_held d r : (Some d, r) ∈ held s → is_Some (devs s !! d);
  mo_bufs b buf : bufs s !! b = Some buf → is_Some (devs s !! buf_dev buf);
}.

(** The five ways a probe can end. *)
Inductive probe_end (s s' : state) (r : Z) : Prop :=
  | probe_up d i e h :
      r = 0 → devs s !! d = None → dicedev_devices s !! i = Some None →
      (∀ j, (j < i)%nat → ∃ d', dicedev_devices s !! j = Some (Some d')) →
      s' = probing s d i e (probed_device i h) device_resources →
      slots_ok s' d (probed_device i h) → probe_end s s' r
  | probe_threadless d i e h :
      r = 0 → devs s !! d = None → dicedev_devices s !! i = Some None →
      s' = probing s d i e (threadless_device i h) (RDeviceNode :: RCdev :: pci_resources) → probe_end s s' r
  | probe_clean e : r ≠ 0 → s' = s <| env := e |> → probe_end s s' r
  | probe_thread_left d e : r ≠ 0 → devs s' !! d = None →
      s' = dropped s d e [RThread] → probe_end s s' r
  | probe_zero_left d e thr : r = 0 → devs s' !! d = None →
      s' = dropped s d e (RCdev :: thread_res thr) → probe_end s s' r.

Lemma probed_slots_ok s s' d i h :
  (∀ b buf, bufs s !! b = Some buf → buf_dev buf ≠ d) → bufs s' = bufs s →
  slots_ok s' d (probed_device i h).
Proof.
  intros Hd E. split; simpl; [done|done|..].
  - intros j b Hj. by do 16 (destruct j; [done|]).
  - intros b buf Hb Hbd. rewrite E in Hb. by destruct (Hd b buf Hb).
Qed.

Lemma probe_ends `{!HardwareLaws, !KernelLaws} s h :
  module_ok s → ∃ r s', dicedev_probe h s = Done r s' ∧ probe_end s s' r.
Proof.
  intros [Htab Hheld Hbufs]. apply wp_exists. unfold dicedev_probe. apply wp_bind.
  apply wp_kmalloc. intros [d|] e E; [|wp_step; by eapply probe_clean].
  apply k_alloc_fresh, not_live in E as (Hd & _). wp_mem.
  destruct (first_null_spec (dicedev_devices s) 0) as [[-> _]|(i & -> & Hi & _ & Hj)]; simpl.
  { unfold kfree_dev. wp_mem. eapply (probe_clean _ _ _ e); [done|]. state_eq.
    by rewrite delete_insert_eq, delete_id. }
  rewrite Z.add_0_l. destruct (Z.eqb_spec (Z.of_nat i) (-1)); [lia|]. wp_step.
  eapply wp_store; [by eapply lookup_lt_Some|]. wp_mem.
  match goal with |- wp _ ?st _ => replace st with
    (probing s d i e ((zero_device h) <| idx := Z.of_nat i |>) []); cycle 1 end.
  { state_eq. by rewrite insert_insert_eq. }
  assert (Hun : ∀ r, (Some d, r) ∉ held s).
  { intros r Hin. destruct (Hheld d r Hin). congruence. }
  eapply wp_probe_enable; [done..| | | |].
  - intros e' h'. eapply (probe_up _ _ _ d i e' h'); [done..|].
    eapply (probed_slots_ok s); [|done]. intros b buf Hb <-. destruct (Hbufs b buf Hb). congruence.
  - intros e' h'. by eapply (probe_threadless _ _ _ d i e' h').
  - intros r e' [] Hr; [by eapply (probe_thread_left _ _ _ d e')|by eapply probe_clean].
  - intros e' thr. by eapply (probe_zero_left _ _ _ d e').
Qed.

(** C29: the whole of [dicedev_probe], for every board and whichever of its kernel
    calls fail: it returns, and either (1) returns 0 with the device at the
    lowest free index, all slots free, the interrupts on and the seven kernel
    resources held; or (2) returns an error with every resource given back,
    the index free again and the device freed; or it ends in one of three bad
    states: (3) cdev_add failed, and the work thread of the freed device is
    left running; (4) device_create failed, and the probe reports success (0)
    for a freed device whose char device, and thread if there is one, are left
    behind; (5) kthread_run failed, and the probe reports success for a device
    that has an error pointer for its work thread. *)
Theorem probe_outcomes `{!HardwareLaws, !KernelLaws} s h :
  module_ok s → ∃ r s', dicedev_probe h s = Done r s' ∧ probe_end s s' r.
Proof. apply probe_ends. Qed.

(** ** Remove *)

(** C30: removing an idle device undoes its probe: whatever the device did in
    between, if it has no pending and no running task, [dicedev_remove]
    completes, gives back all seven kernel resources, frees the device and its
    index, and leaves the rest of memory as it was. *)
Theorem remove_idle_gives_back `{!HardwareLaws} s d i e x :
  devs s !! d = None → dicedev_devices s !! i = Some None → (∀ r, (Some d, r) ∉ held s) →
  idx x = Z.of_nat i → dev_node x = true → slock x = false →
  pending_tasks x = [] → running_task x = None →
  dicedev_remove d (probing s d i e x device_resources) = Done tt (s <| env := e |>).
Proof.
  intros Hd Hi Hun Hx Hn Hl Hp Hr. apply run_eq. unfold dicedev_remove.
  apply wp_bind, wp_probing_get. rewrite Hn. simpl.
  do 2 (apply wp_bind, wp_probing_give_back; [done|by_dec..|]).
  apply wp_bind, wp_probing_iow. intros h1. apply wp_bind. unfold kthread_stop.
  apply wp_bind, wp_probing_give_back; [done|by_dec..|].
  apply wp_bind, wp_probing_get. apply wp_bind, wp_probing_put.
  eapply wp_wt_exit_idle; [apply probing_dev|done..|]. apply wp_bind, wp_probing_iow. intros h2.
  do 4 (apply wp_bind, wp_probing_give_back; [done|by_dec..|]).
  apply wp_probing_drop; [done..|]. split; [done|]. by destruct s.
Qed.

(** ** Module entry points *)

(** Loading the module registers the char device region, the class and
    the PCI driver, or returns the error of the step that failed with the
    earlier steps undone; unloading gives all three back. *)
Theorem init_exit_roundtrip s :
  (∀ r, (None, r) ∉ held s) →
  ∃ r s', dicedev_init s = Done r s' ∧
    if decide (r = 0)
    then held s' = holding None [RPciDriver; RClass; RChrdevRegion] (held s) ∧
         ∃ s'', dicedev_exit s' = Done tt s'' ∧ held s'' = held s
    else held s' = held s.
Proof.
  intros Hun. apply wp_exists. unfold dicedev_init. apply wp_bind, wp_kcall. intros r1 env1 _.
  destruct (Z.eqb_spec r1 0) as [->|]; simpl; [|apply wp_ret; by rewrite decide_False].
  apply wp_bind, wp_acquire. apply wp_bind, wp_kcall. intros r2 env2 _.
  destruct (Z.eqb_spec r2 0) as [->|]; simpl.
  2:{ apply wp_bind. eapply (wp_give_back_holding _ _ [RChrdevRegion]); [done|done|by_dec..|].
      apply wp_ret. by rewrite decide_False. }
  apply wp_bind, wp_acquire. apply wp_bind, wp_kcall. intros r3 env3 _.
  destruct (Z.eqb_spec r3 0) as [->|]; simpl.
  2:{ apply wp_bind. eapply (wp_give_back_holding _ _ [RClass; RChrdevRegion]); [done|done|by_dec..|].
      apply wp_bind. eapply (wp_give_back_holding _ _ _); [reflexivity|done|by_dec..|].
      apply wp_ret. by rewrite decide_False. }
  apply wp_bind, wp_acquire. apply wp_ret. rewrite decide_True by done. split; [done|].
  match goal with |- ∃ s'', _ ?st = _ ∧ _ => assert (Hwp : wp dicedev_exit st
    (λ _ s'', held s'' = held s)) end.
  { unfold dicedev_exit. apply wp_bind.
    eapply (wp_give_back_holding _ _ [RPciDriver; RClass; RChrdevRegion]); [done|done|by_dec..|].
    apply wp_bind. eapply (wp_give_back_holding _ _ _); [reflexivity|done|by_dec..|].
    eapply (wp_give_back_holding _ _ _); [reflexivity|done|by_dec..|]. done. }
  apply wp_exists in Hwp as ([] & s'' & ? & ?). eauto.
Qed.

(** ** Suspend and resume *)

(** C31: a suspended device with a work thread does no work: after [dicedev_suspend] interrupts
    and device are off and the work thread, which was woken up, parks before
    it looks at any fence or task; [dicedev_resume] switches both on again
    and restores exactly the event the thread would have seen before. *)
Theorem suspend_parks_resume_continues s d x nt :
  devs s !! d = Some x → wt_thread x = true → slock x = false →
  should_stop x = false → should_park x = false →
  (∀ t, nt = Some t → is_Some (out_slot s t)) →
  ∃ s1 x1 s2 x2 e,
    dicedev_suspend d s = Done 0 s1 ∧ devs s1 !! d = Some x1 ∧ wt_sleeping x1 = false ∧
    mmio x1 = mmio x ++ [(DICEDEV_INTR_ENABLE, 0); (DICEDEV_ENABLE, 0)] ∧
    __wt_get_event (mkWt d nt) s1 = Done WT_PARK s1 ∧
    dicedev_resume d s1 = Done 0 s2 ∧ devs s2 !! d = Some x2 ∧
    mmio x2 = mmio x1 ++ [(DICEDEV_INTR_ENABLE, u32 DICEDEV_ACTIVE_INTR); (DICEDEV_ENABLE, 1)] ∧
    __wt_get_event (mkWt d nt) s = Done e s ∧ __wt_get_event (mkWt d nt) s2 = Done e s2.
Proof.
  intros Hd Hth Hl Hs Hp Hnt.
  assert (Hev : ∀ y st, devs st !! d = Some y → slock y = false → tasks st = tasks s →
    bufs st = bufs s → __wt_get_event (mkWt d nt) st = Done (event_of y (nt ≫= out_slot s)) st).
  { intros y st Hy Hly E1 E2. apply run_eq.
    assert (E : out_slot st = out_slot s) by (unfold out_slot; by rewrite E1, E2).
    eapply wp_get_event; [done|done|by rewrite E|by rewrite E]. }
  assert (Hsus : wp (dicedev_suspend d) s (λ r s1, r = 0 ∧ ∃ h, s1 = upd_dev d
    ((dev_io h [(DICEDEV_INTR_ENABLE, 0); (DICEDEV_ENABLE, 0)] x)
       <| should_park := true |> <| wt_sleeping := false |>) s)).
  { unfold dicedev_suspend. wp_step. eapply wp_dicedev_iow; [done|]. intros h1. unfold follow_thread. wp_mem.
    rewrite Hth. wp_steps. eapply wp_dicedev_iow; [apply devs_upd_dev|]. intros h2. wp_step. split; [done|].
    exists h2. rewrite !upd_dev_twice. unfold dev_io. simpl. by rewrite <-app_assoc. }
  apply wp_exists in Hsus as (r1 & s1 & Hrun1 & -> & h1 & ->).
  set (x1 := (dev_io h1 _ x) <| should_park := true |> <| wt_sleeping := false |>) in *.
  assert (Hres : wp (dicedev_resume d) (upd_dev d x1 s) (λ r s2, r = 0 ∧ ∃ h, s2 = upd_dev d
    ((dev_io h [(DICEDEV_INTR_ENABLE, u32 DICEDEV_ACTIVE_INTR); (DICEDEV_ENABLE, 1)] x1)
       <| should_park := false |>) s)).
  { unfold dicedev_resume, follow_thread. wp_mem.
    rewrite Hth. wp_steps. eapply wp_dicedev_iow; [apply devs_upd_dev|]. intros h2.
    wp_step. eapply wp_dicedev_iow; [apply devs_upd_dev|]. intros h3. wp_step. split; [done|].
    exists h3. rewrite !upd_dev_twice. unfold dev_io. simpl. by rewrite <-app_assoc. }
  apply wp_exists in Hres as (r2 & s2 & Hrun2 & -> & h2 & ->).
  eexists _, x1, _, _, (event_of x (nt ≫= out_slot s)).
  split; [exact Hrun1|]. split; [apply devs_upd_dev|]. split; [done|]. split; [done|]. split.
  { rewrite (Hev x1) by (done || apply devs_upd_dev). unfold event_of. simpl. by rewrite Hs. }
  split; [exact Hrun2|]. split; [apply devs_upd_dev|]. split; [done|]. split; [by apply Hev|].
  erewrite Hev by (done || apply devs_upd_dev). unfold event_of. simpl. by rewrite Hp.
Qed.

End PciSpec.
