(* ===== verification/Lifetime.v ===== *)
(** Lifetimes: who refers to which object.  Files count their references (file
    descriptors, mappings, the list of buffers of a context); a buffer lives
    as long as its file, a context as long as the file of the char device, and
    no two buffers share a page.  The record [life] states this of a memory;
    the lemmas of this file say how opening, creating, mapping, closing and
    releasing preserve it. *)

From S2P Require Import Prelude Cmd Types Utils Slots Pt Task Wt Buffer Base Syscall WtSpec BufferSpec IoctlSpec.

(** ** Views: what lifetimes depend on *)

(** The part of a buffer that concerns its lifetime. *)
Record buf_life := mkLife {
  bl_ctx : ptr; bl_dev : ptr; bl_file : option ptr; bl_pt : option ptr; bl_destroyed : bool }.
Definition life_of (buf : dicedev_buffer) : buf_life :=
  mkLife (buf_ctx buf) (buf_dev buf) (buf_file buf) (buf_pt buf) (destroyed buf).

(** Who holds a reference to a buffer file, apart from a descriptor and the list
    of its context: a mapping, or a read that is asleep on the waitqueue of the
    context ([fault]: whether its [copy_to_user] will fault). *)
Inductive holder := Mapped | Asleep (fault : bool).
#[global] Instance holder_eq_dec : EqDecision holder.
Proof. solve_decision. Defined.
Abbreviation references := (list (ptr * holder)).

(** A page table and the memory it occupies. *)
Record foot := mkFoot {
  fp_pt : ptr; fp_tbl : dicedev_page_table; fp_page : ptr; fp_bus : Z; fp_arr : ptr;
  fp_data : list (ptr * Z) }.
Definition fp_pages (F : foot) : list ptr := fp_page F :: (fp_data F).*1.
Definition foot_disjoint (F G : foot) : Prop :=
  fp_pt F ≠ fp_pt G ∧ fp_arr F ≠ fp_arr G ∧ ∀ q, q ∈ fp_pages F → q ∉ fp_pages G.

Lemma foot_disjoint_sym F G : foot_disjoint F G → foot_disjoint G F.
Proof. intros (? & ? & Hd). split_and!; [done..|]. intros q ? ?. by apply (Hd q). Qed.

Section Views.
Context `{Hardware, Kernel}.

Definition ctx_view (s : state) : gmap ptr (list ptr) := allocated_buffers <$> ctxs s.
Definition buf_view (s : state) : gmap ptr buf_life := life_of <$> bufs s.

Lemma ctx_view_Some s c l :
  ctx_view s !! c = Some l ↔ ∃ ctx, ctxs s !! c = Some ctx ∧ allocated_buffers ctx = l.
Proof. unfold ctx_view. rewrite lookup_fmap, fmap_Some. split; intros (? & ? & ?); eauto. Qed.

Lemma buf_view_Some s b v :
  buf_view s !! b = Some v ↔ ∃ buf, bufs s !! b = Some buf ∧ life_of buf = v.
Proof. unfold buf_view. rewrite lookup_fmap, fmap_Some. split; intros (? & ? & ?); eauto. Qed.

Lemma ctx_view_lookup s c ctx :
  ctxs s !! c = Some ctx → ctx_view s !! c = Some (allocated_buffers ctx).
Proof. intros. apply ctx_view_Some. eauto. Qed.

Lemma buf_view_lookup s b buf : bufs s !! b = Some buf → buf_view s !! b = Some (life_of buf).
Proof. intros. apply buf_view_Some. eauto. Qed.

(** Two memories that agree on everything lifetimes depend on. *)
Record same_life (s s' : state) : Prop := {
  sl_ctx : ctx_view s = ctx_view s';
  sl_buf : buf_view s = buf_view s';
  sl_files : files s = files s';
  sl_fds : fds s = fds s';
  sl_due : releasing s = releasing s';
  sl_pts : pts s = pts s';
  sl_pgarrs : pgarrs s = pgarrs s';
  sl_dmas : dmas s = dmas s';
}.

#[global] Instance same_life_equiv : Equivalence same_life.
Proof.
  split; [by intros s; split|by intros s s' []; split|].
  intros s1 s2 s3 [] []. split; by etrans.
Qed.

(** Buffer [v] has the page table [F]. *)
Definition has_table (s : state) (v : buf_life) (F : foot) : Prop :=
  bl_pt v = Some (fp_pt F) ∧ pts s !! fp_pt F = Some (fp_tbl F) ∧
  pt_wf s (fp_tbl F) (fp_page F) (fp_bus F) (fp_arr F) (fp_data F).

#[global] Instance page_of_inj : Inj (=) (=) page_of.
Proof. intros [p h] [p' h']. unfold page_of. simpl. by intros [= -> ->]. Qed.

Lemma has_table_det s s' v F G :
  pts s = pts s' → pgarrs s = pgarrs s' → has_table s v F → has_table s' v G → F = G.
Proof.
  intros Et Eg (E1 & E2 & [Ep Ea Er _ _ _ _ _ _ _]) (E1' & E2' & [Ep' Ea' Er' _ _ _ _ _ _ _]).
  rewrite <-Et in E2'. rewrite <-Eg in Er'.
  destruct F as [t tbl pp hp arr L], G as [t' tbl' pp' hp' arr' L']. simpl in *.
  rewrite E1 in E1'. injection E1' as <-. rewrite E2 in E2'. injection E2' as <-.
  rewrite Ep in Ep'. apply page_of_inj in Ep'. injection Ep' as <- <-.
  rewrite Ea in Ea'. injection Ea' as <-. rewrite Er in Er'. injection Er' as EL.
  by apply (inj (fmap page_of)) in EL as ->.
Qed.

Lemma has_table_inj s v F G : has_table s v F → has_table s v G → F = G.
Proof. by apply has_table_det. Qed.

Lemma has_table_mono s s' v F :
  pts s ⊆ pts s' → pgarrs s ⊆ pgarrs s' → dmas s ⊆ dmas s' → has_table s v F → has_table s' v F.
Proof.
  intros E1 E2 E3 (? & ? & ?). split_and!; [done|by eapply lookup_weaken|by eapply pt_wf_mono].
Qed.

Lemma has_table_eq s s' v F :
  pts s = pts s' → pgarrs s = pgarrs s' → dmas s = dmas s' → has_table s v F → has_table s' v F.
Proof. intros E1 E2 E3. apply has_table_mono; by rewrite ?E1, ?E2, ?E3. Qed.

Lemma has_table_same s s' v F : same_life s s' → has_table s v F → has_table s' v F.
Proof. intros [_ _ _ _ _ E1 E2 E3]. apply has_table_mono; by rewrite ?E1, ?E2, ?E3. Qed.

(** ** References to files *)

Definition fd_refs (s : state) (p : ptr) : Z :=
  Z.of_nat (size (filter (λ kv, kv.2 = p) (fds s))).
Definition map_refs (m : list ptr) (p : ptr) : Z := Z.of_nat (length (filter (λ q, q = p) m)).
(** The context of a buffer with file [p] still lists the buffer. *)
Definition owned (s : state) (p : ptr) : Prop :=
  ∃ c l b v, ctx_view s !! c = Some l ∧ b ∈ l ∧ buf_view s !! b = Some v ∧ bl_file v = Some p.
(** File [p] is open or its release is due. *)
Definition active (s : state) (p : ptr) : Prop :=
  (∃ fd, fds s !! fd = Some p) ∨ p ∈ releasing s.

Lemma fd_refs_nonneg s p : 0 ≤ fd_refs s p.
Proof. unfold fd_refs. lia. Qed.
Lemma map_refs_nonneg m p : 0 ≤ map_refs m p.
Proof. unfold map_refs. lia. Qed.
Hint Resolve fd_refs_nonneg map_refs_nonneg : core.

Lemma fd_refs_pos s fd p : fds s !! fd = Some p → 1 ≤ fd_refs s p.
Proof.
  intros Hfd. unfold fd_refs.
  assert (size (filter (λ kv, kv.2 = p) (fds s)) ≠ 0%nat); [|lia].
  apply (map_size_ne_0_lookup_2 _ fd). exists p. by apply map_lookup_filter_Some.
Qed.

Lemma fd_refs_delete s s' fd p :
  fds s !! fd = Some p → fds s' = delete fd (fds s) →
  (∀ q, fd_refs s' q ≤ fd_refs s q) ∧ fd_refs s' p + 1 = fd_refs s p.
Proof.
  intros Hfd E. pose proof (fd_refs_pos s fd p Hfd) as Hpos. unfold fd_refs in *. rewrite E. split.
  - intros q. rewrite map_filter_delete. apply inj_le, map_subseteq_size, delete_subseteq.
  - rewrite map_filter_delete, map_size_delete_Some; [lia|].
    exists p. by apply map_lookup_filter_Some.
Qed.

Lemma fd_refs_insert s s' fd p :
  fds s' = <[fd := p]> (fds s) →
  (∀ q, q ≠ p → fd_refs s' q ≤ fd_refs s q) ∧ fd_refs s' p ≤ fd_refs s p + 1.
Proof.
  intros E. unfold fd_refs. rewrite E. split.
  - intros q Hne. rewrite map_filter_insert_False by done.
    apply inj_le, map_subseteq_size, map_filter_subseteq_mono, delete_subseteq.
  - rewrite map_filter_insert_True by done.
    destruct (filter (λ kv, kv.2 = p) (fds s) !! fd) eqn:Hl.
    + rewrite map_size_insert_Some by eauto. lia.
    + rewrite map_size_insert_None by done. lia.
Qed.

Lemma fd_refs_none s p : (∀ fd, fds s !! fd ≠ Some p) → fd_refs s p = 0.
Proof.
  intros Hno. unfold fd_refs. replace (filter _ (fds s)) with (∅ : gmap Z ptr); [done|].
  apply map_eq. intros fd. rewrite lookup_empty. symmetry. apply map_lookup_filter_None. right.
  intros q Hfd Eq. simpl in Eq. subst. by apply (Hno fd).
Qed.

Lemma map_refs_cons p m q : map_refs (p :: m) q = (if decide (p = q) then 1 else 0) + map_refs m q.
Proof.
  unfold map_refs. case_decide.
  - rewrite filter_cons_True by done. simpl. lia.
  - rewrite filter_cons_False by done. lia.
Qed.

Lemma map_refs_app m m' q : map_refs (m ++ m') q = map_refs m q + map_refs m' q.
Proof. unfold map_refs. rewrite filter_app, length_app. lia. Qed.

End Views.

(** ** The lifetime invariant *)

Section Life.
Context `{Hardware, Kernel}.
Variable d : ptr.

(** The object behind a file that is in use. *)
Definition file_ok (s : state) (p : ptr) (f : file) : Prop :=
  match f_kind f with
  | FBuffer => ∃ b v, private_data f = Some b ∧ buf_view s !! b = Some v ∧ bl_file v = Some p
  | FDicedev => ∃ c, private_data f = Some c ∧ is_Some (ctx_view s !! c)
  | FOther => True
  end.

(** Buffers: they belong to the device, have page tables of their own, are
    listed at most once, and a buffer that is not marked as destroyed is
    listed by its context, which is alive. *)
Record bufs_ok (s : state) : Prop := {
  bk_table b v : buf_view s !! b = Some v → bl_dev v = d ∧ ∃ F, has_table s v F;
  bk_disj b b' v v' F F' : buf_view s !! b = Some v → buf_view s !! b' = Some v' → b ≠ b' →
    has_table s v F → has_table s v' F' → foot_disjoint F F';
  bk_owned c l b : ctx_view s !! c = Some l → b ∈ l →
    ∃ v p n, buf_view s !! b = Some v ∧ bl_ctx v = c ∧ bl_file v = Some p ∧
      files s !! p = Some (mkFile FBuffer n (Some b));
  bk_nodup c l : ctx_view s !! c = Some l → NoDup l;
  bk_alive b v : buf_view s !! b = Some v → bl_destroyed v = false →
    ∃ l, ctx_view s !! bl_ctx v = Some l ∧ b ∈ l;
}.

(** Files, with the references [m] of mappings and sleeping reads and the
    contexts [mk] whose release has begun.  The context on whose waitqueue a
    read sleeps is alive. *)
Record files_ok (s : state) (m : references) (mk : list ptr) : Prop := {
  fk_fd fd p : fds s !! fd = Some p → ∃ f, files s !! p = Some f ∧ file_ok s p f;
  fk_map p : p ∈ m.*1 → ∃ f, files s !! p = Some f ∧ f_kind f = FBuffer ∧ file_ok s p f;
  fk_due p : p ∈ releasing s → ∃ f, files s !! p = Some f ∧ f_count f = 0 ∧ file_ok s p f;
  fk_due_nodup : NoDup (releasing s);
  fk_count p f : files s !! p = Some f → fd_refs s p + map_refs m.*1 p ≤ f_count f;
  fk_owned p f : files s !! p = Some f → owned s p → fd_refs s p + map_refs m.*1 p + 1 ≤ f_count f;
  fk_chr p p' f f' c : active s p → active s p' → files s !! p = Some f → files s !! p' = Some f' →
    f_kind f = FDicedev → f_kind f' = FDicedev →
    private_data f = Some c → private_data f' = Some c → p = p';
  fk_open fd p f c b v : fds s !! fd = Some p → files s !! p = Some f → f_kind f = FDicedev →
    private_data f = Some c → buf_view s !! b = Some v → bl_ctx v = c → bl_destroyed v = false;
  fk_marked c : c ∈ mk →
    (∃ p f, p ∈ releasing s ∧ files s !! p = Some f ∧ f_kind f = FDicedev ∧ private_data f = Some c) ∧
    ∀ b v, buf_view s !! b = Some v → bl_ctx v = c → bl_destroyed v = true;
  fk_asleep p fault f b v : (p, Asleep fault) ∈ m → files s !! p = Some f → private_data f = Some b →
    buf_view s !! b = Some v → is_Some (ctx_view s !! bl_ctx v);
}.

Record life (s : state) (m : references) (mk : list ptr) : Prop := {
  lf_bufs : bufs_ok s;
  lf_files : files_ok s m mk;
}.

(** The same buffers, tables and contexts; the files of buffers are kept. *)
Lemma bufs_ok_files s s' :
  ctx_view s = ctx_view s' → buf_view s = buf_view s' → pts s = pts s' → pgarrs s = pgarrs s' →
  dmas s = dmas s' →
  (∀ c l b v p n, ctx_view s !! c = Some l → b ∈ l → buf_view s !! b = Some v → bl_file v = Some p →
     files s !! p = Some (mkFile FBuffer n (Some b)) →
     ∃ n', files s' !! p = Some (mkFile FBuffer n' (Some b))) →
  bufs_ok s → bufs_ok s'.
Proof.
  intros E1 E2 E3 E4 E5 Hfiles [Ht Hd Ho Hn Ha].
  assert (Htab : ∀ v F, has_table s v F ↔ has_table s' v F).
  { intros v F. split; apply has_table_mono; by rewrite ?E3, ?E4, ?E5. }
  split; rewrite <-?E1, <-?E2; try done.
  - intros b v Hb. destruct (Ht b v Hb) as (? & F & ?). split; [done|]. exists F. by apply Htab.
  - intros b b' v v' F F' ? ? ? ? ?. eapply (Hd b b'); try done; by apply Htab.
  - intros c l b Hl Hin. destruct (Ho c l b Hl Hin) as (v & p & n & ? & ? & ? & Hp).
    destruct (Hfiles c l b v p n) as [n' ?]; [done..|]. eauto 10.
Qed.

(** Memories with the same view are interchangeable. *)
Lemma bufs_ok_same s s' : same_life s s' → bufs_ok s → bufs_ok s'.
Proof.
  intros [E1 E2 E3 _ _ E6 E7 E8]. apply bufs_ok_files; try done. rewrite E3. eauto.
Qed.

Lemma files_ok_same s s' m mk : same_life s s' → files_ok s m mk → files_ok s' m mk.
Proof.
  intros [E1 E2 E3 E4 E5 _ _ _] [H1 H2 H3 H4 H5 H6 H7 H8 H9 H10].
  assert (Ef : ∀ p f, file_ok s p f → file_ok s' p f) by (unfold file_ok; by rewrite E1, E2).
  split; unfold active, owned, fd_refs in *; rewrite <-?E1, <-?E2, <-?E3, <-?E4, <-?E5; try done.
  - intros fd p Hp. destruct (H1 fd p Hp) as (f & ? & ?). eauto.
  - intros p Hp. destruct (H2 p Hp) as (f & ? & ? & ?). eauto.
  - intros p Hp. destruct (H3 p Hp) as (f & ? & ? & ?). eauto.
Qed.

#[global] Instance life_proper : Proper (same_life ==> eq ==> eq ==> iff) life.
Proof.
  intros s s' E m ? <- mk ? <-.
  split; intros [Hb Hf]; split; (eapply bufs_ok_same || eapply files_ok_same); eauto; by symmetry.
Qed.

Lemma life_same s s' m mk : same_life s s' → life s m mk → life s' m mk.
Proof. by intros ->. Qed.

(** ** Consequences *)

Lemma life_due_unreferenced s m mk p :
  files_ok s m mk → p ∈ releasing s →
  (∀ fd, fds s !! fd ≠ Some p) ∧ p ∉ m.*1 ∧ ¬ owned s p.
Proof.
  intros Hf Hp. destruct (fk_due _ _ _ Hf p Hp) as (f & Hp' & Hz & _).
  pose proof (fk_count _ _ _ Hf p f Hp') as Hc. pose proof (fd_refs_nonneg s p).
  pose proof (map_refs_nonneg m.*1 p). split_and!.
  - intros fd Hfd%fd_refs_pos. lia.
  - intros [m1 [m2 E]]%list_elem_of_split. rewrite E, map_refs_app, map_refs_cons, decide_True in Hc by done.
    pose proof (map_refs_nonneg m1 p). pose proof (map_refs_nonneg m2 p). lia.
  - intros Ho. pose proof (fk_owned _ _ _ Hf p f Hp' Ho). lia.
Qed.

(** An open char device names a live context with live buffers. *)
Lemma life_open s m mk fd p f :
  life s m mk → fds s !! fd = Some p → files s !! p = Some f → f_kind f = FDicedev →
  ∃ c ctx, private_data f = Some c ∧ ctxs s !! c = Some ctx ∧ c ∉ mk ∧
    (∀ b buf, bufs s !! b = Some buf → buf_ctx buf = c → destroyed buf = false ∧ b ∈ allocated_buffers ctx).
Proof.
  intros [Hb Hf] Hfd Hp Hk. destruct (fk_fd _ _ _ Hf fd p Hfd) as (f' & ? & Hok). simplify_eq.
  unfold file_ok in Hok. rewrite Hk in Hok. destruct Hok as (c & Hpd & l & Hl).
  apply ctx_view_Some in Hl as (ctx & Hc & <-). exists c, ctx. split_and!; [done..| |].
  - intros Hmk. destruct (fk_marked _ _ _ Hf c Hmk) as [(p' & f'' & Hdue & Hp' & Hk' & Hpd') _].
    assert (p = p') as <-.
    { eapply (fk_chr _ _ _ Hf p p' f f'' c); try done; [left; eauto|by right]. }
    destruct (life_due_unreferenced s m mk p Hf Hdue) as (Hno & _ & _). by apply (Hno fd).
  - intros b buf Hbuf Ec. assert (Hbv := buf_view_lookup _ _ _ Hbuf).
    assert (Hd : destroyed buf = false).
    { exact (fk_open _ _ _ Hf fd p f c b (life_of buf) Hfd Hp Hk Hpd Hbv Ec). }
    split; [done|]. destruct (bk_alive _ Hb b _ Hbv Hd) as (l & Hl & Hin). simpl in Hl.
    rewrite Ec, (ctx_view_lookup _ _ _ Hc) in Hl. by simplify_eq.
Qed.

(** A descriptor or a mapping of a buffer file names a live buffer. *)
Lemma file_ok_buf s p f :
  file_ok s p f → f_kind f = FBuffer →
  ∃ b buf, private_data f = Some b ∧ bufs s !! b = Some buf ∧ buf_file buf = Some p.
Proof.
  unfold file_ok. intros Hok Hk. rewrite Hk in Hok. destruct Hok as (b & v & ? & Hv & ?).
  apply buf_view_Some in Hv as (buf & ? & <-). eauto.
Qed.

Lemma life_table s m mk b buf :
  life s m mk → bufs s !! b = Some buf →
  buf_dev buf = d ∧ ∃ F, has_table s (life_of buf) F.
Proof. intros [Hb _] Hbuf. exact (bk_table _ Hb b _ (buf_view_lookup _ _ _ Hbuf)). Qed.

(** ** Changing the reference count of a file *)

Definition set_count (p : ptr) (f : file) (n : Z) (s : state) : state :=
  upd_file p (f <| f_count := n |>) s.

Lemma set_count_lookup p f n s q g :
  files s !! p = Some f → files (set_count p f n s) !! q = Some g →
  ∃ g', files s !! q = Some g' ∧ f_kind g = f_kind g' ∧ private_data g = private_data g' ∧
    (q = p ∧ f_count g = n ∨ q ≠ p ∧ f_count g = f_count g').
Proof.
  intros Hp. simpl. intros [[<- <-]|[Hne Hq]]%lookup_insert_Some.
  - exists f. split_and!; auto.
  - exists g. split_and!; auto.
Qed.

Lemma set_count_lookup_2 p f n s q g :
  files s !! p = Some f → files s !! q = Some g →
  ∃ g', files (set_count p f n s) !! q = Some g' ∧ f_kind g' = f_kind g ∧
    private_data g' = private_data g ∧ f_count g' = if decide (q = p) then n else f_count g.
Proof.
  intros Hp Hq. simpl. case_decide as Hd; subst.
  - rewrite lookup_insert_eq. simplify_eq. by eexists.
  - rewrite lookup_insert_ne by done. eauto.
Qed.

Lemma file_ok_kind s p f g :
  f_kind g = f_kind f → private_data g = private_data f → file_ok s p f → file_ok s p g.
Proof. unfold file_ok. by intros -> ->. Qed.

Lemma bufs_ok_count p f n s : files s !! p = Some f → bufs_ok s → bufs_ok (set_count p f n s).
Proof.
  intros Hp. apply bufs_ok_files; try done. intros c l b v q k _ _ _ _ Hq.
  destruct (set_count_lookup_2 p f n s q _ Hp Hq) as ([kd n' pd] & Hg & Ek & Epd & _).
  simpl in Ek, Epd. subst. eauto.
Qed.

(** A new number of references, not below those there are, and not zero unless
    it was before. *)
Lemma files_ok_count p f n s m mk :
  files s !! p = Some f → files_ok s m mk → 0 < n → p ∉ releasing s →
  fd_refs s p + map_refs m.*1 p ≤ n → (owned s p → fd_refs s p + map_refs m.*1 p + 1 ≤ n) →
  files_ok (set_count p f n s) m mk.
Proof.
  intros Hp [H1 H2 H3 H4 H5 H6 H7 H8 H9 H10] Hn Hdue Hle Hlo.
  assert (Hlk := set_count_lookup p f n s). assert (Hlk2 := set_count_lookup_2 p f n s).
  split.
  - intros fd q Hq. destruct (H1 fd q Hq) as (g & Hg & Hok).
    destruct (Hlk2 q g Hp Hg) as (g' & ? & ? & ? & _). exists g'. split; [done|].
    by eapply file_ok_kind, Hok.
  - intros q Hq. destruct (H2 q Hq) as (g & Hg & Hk & Hok).
    destruct (Hlk2 q g Hp Hg) as (g' & ? & ? & ? & _). exists g'. split; [done|].
    split; [congruence|]. by eapply file_ok_kind, Hok.
  - intros q Hq. destruct (H3 q Hq) as (g & Hg & Hk & Hok).
    destruct (Hlk2 q g Hp Hg) as (g' & ? & ? & ? & Ec). exists g'. split; [done|].
    rewrite decide_False in Ec by (intros ->; done). split; [congruence|]. by eapply file_ok_kind, Hok.
  - done.
  - intros q g Hq. destruct (Hlk q g Hp Hq) as (g' & Hq' & _ & _ & [[-> ->]|[_ ->]]); [done|].
    by apply H5.
  - intros q g Hq Ho. destruct (Hlk q g Hp Hq) as (g' & Hq' & _ & _ & [[-> ->]|[_ ->]]);
      [by apply Hlo|by apply H6].
  - intros q q' g g' c Ha Ha' Hg Hg' Hk Hk' Hc Hc'.
    destruct (Hlk q g Hp Hg) as (g0 & ? & ? & ? & _), (Hlk q' g' Hp Hg') as (g0' & ? & ? & ? & _).
    eapply (H7 q q' g0 g0' c); try done; congruence.
  - intros fd q g c b v Hfd Hg Hk Hc. destruct (Hlk q g Hp Hg) as (g0 & ? & ? & ? & _).
    eapply (H8 fd q g0 c); try done; congruence.
  - intros c Hc. destruct (H9 c Hc) as [(q & g & Hq & Hg & ? & ?) Hall]. split; [|done].
    destruct (Hlk2 q g Hp Hg) as (g' & ? & ? & ? & _). exists q, g'. split_and!; congruence || done.
  - intros q fault g b v Hq Hg Hpd. destruct (Hlk q g Hp Hg) as (g0 & ? & ? & ? & _).
    eapply (H10 q fault g0 b); congruence || done.
Qed.

(** The last reference is gone: the release is due. *)
Lemma files_ok_due p f s m mk :
  files s !! p = Some f → files_ok s m mk → file_ok s p f → p ∉ releasing s →
  fd_refs s p + map_refs m.*1 p ≤ 0 → ¬ owned s p →
  (∀ q g c, active s q → files s !! q = Some g → f_kind g = FDicedev → f_kind f = FDicedev →
     private_data g = Some c → private_data f = Some c → q = p) →
  files_ok (set_count p f 0 s <| releasing := releasing s ++ [p] |>) m mk.
Proof.
  intros Hp [H1 H2 H3 H4 H5 H6 H7 H8 H9 H10] Hpok Hdue Hle Hlo Huniq.
  assert (Hlk := set_count_lookup p f 0 s). assert (Hlk2 := set_count_lookup_2 p f 0 s).
  set (s' := set_count p f 0 s <| releasing := releasing s ++ [p] |>).
  assert (Hact : ∀ q, active s' q → active s q ∨ q = p).
  { intros q [?|Hq]; [left; by left|]. simpl in Hq.
    apply elem_of_app in Hq as [?| ->%list_elem_of_singleton]; [left; by right|by right]. }
  split.
  - intros fd q Hq. destruct (H1 fd q Hq) as (g & Hg & Hok).
    destruct (Hlk2 q g Hp Hg) as (g' & ? & ? & ? & _). exists g'. split; [done|].
    by eapply file_ok_kind, Hok.
  - intros q Hq. destruct (H2 q Hq) as (g & Hg & Hk & Hok).
    destruct (Hlk2 q g Hp Hg) as (g' & ? & ? & ? & _). exists g'. split; [done|].
    split; [congruence|]. by eapply file_ok_kind, Hok.
  - simpl. intros q [Hq| ->%list_elem_of_singleton]%elem_of_app.
    + destruct (H3 q Hq) as (g & Hg & Hk & Hok).
      destruct (Hlk2 q g Hp Hg) as (g' & ? & ? & ? & Ec). exists g'. split; [done|].
      rewrite decide_False in Ec by (intros ->; done). split; [congruence|]. by eapply file_ok_kind, Hok.
    + exists (f <| f_count := 0 |>). rewrite lookup_insert_eq. split_and!; [done..|].
      by eapply file_ok_kind, Hpok.
  - simpl. apply NoDup_app. split; [done|]. split; [|apply NoDup_singleton].
    intros q ? ->%list_elem_of_singleton. done.
  - intros q g Hq. destruct (Hlk q g Hp Hq) as (g' & Hq' & _ & _ & [[-> ->]|[_ ->]]); [done|].
    by apply H5.
  - intros q g Hq Ho. destruct (Hlk q g Hp Hq) as (g' & Hq' & _ & _ & [[-> ->]|[_ ->]]);
      [done|by apply H6].
  - intros q q' g g' c Ha Ha' Hg Hg' Hk Hk' Hc Hc'.
    destruct (Hlk q g Hp Hg) as (g0 & ? & ? & ? & _), (Hlk q' g' Hp Hg') as (g0' & ? & ? & ? & _).
    destruct (Hact q Ha) as [?| ->], (Hact q' Ha') as [?| ->]; simplify_eq.
    + eapply (H7 q q' g0 g0' c); try done; congruence.
    + eapply (Huniq q g0 c); try done; congruence.
    + symmetry. eapply (Huniq q' g0' c); try done; congruence.
    + done.
  - intros fd q g c b v Hfd Hg Hk Hc. destruct (Hlk q g Hp Hg) as (g0 & ? & ? & ? & _).
    eapply (H8 fd q g0 c); try done; congruence.
  - intros c Hc. destruct (H9 c Hc) as [(q & g & Hq & Hg & ? & ?) Hall]. split; [|done].
    destruct (Hlk2 q g Hp Hg) as (g' & ? & ? & ? & _). exists q, g'. simpl.
    split_and!; [apply elem_of_app; by left|done|congruence..].
  - intros q fault g b v Hq Hg Hpd. destruct (Hlk q g Hp Hg) as (g0 & ? & ? & ? & _).
    eapply (H10 q fault g0 b); congruence || done.
Qed.

(** [fput], when the dropped reference is not counted any more. *)
Definition fput_done (p : ptr) (f : file) (s : state) : state :=
  set_count p f (f_count f - 1) s <| releasing :=
    if f_count f =? 1 then releasing s ++ [p] else releasing s |>.

Lemma wp_fput p f s (Q : unit → state → Prop) :
  files s !! p = Some f → Q tt (fput_done p f s) → wp (fput p) s Q.
Proof.
  intros Hp HQ. unfold fput. wp_mem. apply wp_when; intros E; unfold fput_done in HQ; rewrite E in HQ.
  - by wp_step.
  - exact HQ.
Qed.

Lemma life_fput p f s m mk :
  life s m mk → files s !! p = Some f → file_ok s p f →
  fd_refs s p + map_refs m.*1 p + 1 ≤ f_count f →
  (owned s p → fd_refs s p + map_refs m.*1 p + 2 ≤ f_count f) →
  (∀ q g c, active s q → files s !! q = Some g → f_kind g = FDicedev → f_kind f = FDicedev →
     private_data g = Some c → private_data f = Some c → q = p) →
  life (fput_done p f s) m mk.
Proof.
  intros [Hb Hf] Hp Hok Hle Hlo Huniq.
  pose proof (fd_refs_nonneg s p). pose proof (map_refs_nonneg m.*1 p).
  assert (Hdue : p ∉ releasing s).
  { intros Hin. destruct (fk_due _ _ _ Hf p Hin) as (g & ? & ? & _). simplify_eq. lia. }
  split.
  - eapply bufs_ok_files, (bufs_ok_count p f (f_count f - 1) s); try done. simpl. eauto.
  - unfold fput_done. destruct (Z.eqb_spec (f_count f) 1) as [E|E].
    + rewrite E. apply files_ok_due; try done; [lia|]. intros Ho%Hlo. lia.
    + replace (set_count p f (f_count f - 1) s <| releasing := releasing s |>)
        with (set_count p f (f_count f - 1) s) by by destruct s.
      apply files_ok_count; try done; [lia|lia|]. intros Ho%Hlo. lia.
Qed.

(** ** Closing a descriptor *)

Lemma life_del_fd s m mk fd p :
  life s m mk → fds s !! fd = Some p → life (s <| fds := delete fd (fds s) |>) m mk.
Proof.
  intros [Hb [H1 H2 H3 H4 H5 H6 H7 H8 H9 H10]] Hfd. set (s' := s <| fds := delete fd (fds s) |>).
  destruct (fd_refs_delete s s' fd p Hfd eq_refl) as [Hle _].
  assert (Hfds : ∀ fd' q, fds s' !! fd' = Some q → fds s !! fd' = Some q)
    by (intros fd' q; simpl; by intros [_ ?]%lookup_delete_Some).
  assert (Hact : ∀ q, active s' q → active s q).
  { intros q [[fd' Hq]|Hq]; [left|by right]. exists fd'. by apply Hfds. }
  split; [eapply bufs_ok_files, Hb; eauto|]. split; try done.
  - intros fd' q Hq. by apply (H1 fd'), Hfds.
  - intros q f Hq. specialize (Hle q). specialize (H5 q f Hq). lia.
  - intros q f Hq Ho. specialize (Hle q). specialize (H6 q f Hq Ho). lia.
  - intros q q' f f' c Ha Ha'. apply H7; by apply Hact.
  - intros fd' q f c b v Hq. apply (H8 fd'), Hfds, Hq.
Qed.

Lemma life_close_fd s m mk fd p f :
  life s m mk → fds s !! fd = Some p → files s !! p = Some f →
  life (fput_done p f (s <| fds := delete fd (fds s) |>)) m mk.
Proof.
  intros Hlf Hfd Hp. pose proof (life_del_fd s m mk fd p Hlf Hfd) as Hlf'.
  destruct Hlf as [Hb Hf]. set (s' := s <| fds := delete fd (fds s) |>) in *.
  destruct (fd_refs_delete s s' fd p Hfd eq_refl) as [_ Heq].
  destruct (fk_fd _ _ _ Hf fd p Hfd) as (f' & ? & Hok). simplify_eq.
  apply life_fput; try done.
  - pose proof (fk_count _ _ _ Hf p f Hp). lia.
  - intros Ho. pose proof (fk_owned _ _ _ Hf p f Hp Ho). lia.
  - intros q g c Hq Hg Hk Hk' Hc Hc'.
    eapply (fk_chr _ _ _ Hf q p g f c); try done; [|left; eauto].
    destruct Hq as [[fd' Hq]|Hq]; [left|by right]. exists fd'. simpl in Hq.
    by apply lookup_delete_Some in Hq as [_ ?].
Qed.

(** ** Mappings *)

Lemma map_refs_perm (m m' : list ptr) p : m ≡ₚ m' → map_refs m p = map_refs m' p.
Proof. intros E. unfold map_refs. by rewrite E. Qed.

(** [file_get]: the file has at least as many references as are accounted for. *)
Lemma life_get s m mk p f :
  life s m mk → files s !! p = Some f → p ∉ releasing s →
  life (set_count p f (f_count f + 1) s) m mk.
Proof.
  intros [Hb Hf] Hp Hdue. split; [by apply bufs_ok_count|].
  pose proof (fd_refs_nonneg s p) as Hn. pose proof (map_refs_nonneg m.*1 p) as Hn'.
  pose proof (fk_count _ _ _ Hf p f Hp) as Hc.
  apply files_ok_count; try done; [lia|lia|]. intros Ho. pose proof (fk_owned _ _ _ Hf p f Hp Ho). lia.
Qed.

(** [file_get] for a new mapping or for a read that goes to sleep. *)
Lemma life_map s m mk p f h :
  life s m mk → files s !! p = Some f → f_kind f = FBuffer → file_ok s p f → p ∉ releasing s →
  (∀ b v, h ≠ Mapped → private_data f = Some b → buf_view s !! b = Some v →
     is_Some (ctx_view s !! bl_ctx v)) →
  life (set_count p f (f_count f + 1) s) ((p, h) :: m) mk.
Proof.
  intros Hlf Hp Hk Hok Hdue Has. pose proof (life_get s m mk p f Hlf Hp Hdue) as [Hb' Hf'].
  destruct Hlf as [Hb Hf]. pose proof (fk_count _ _ _ Hf p f Hp) as Hc. split; [done|].
  destruct Hf' as [H1 H2 H3 H4 H5 H6 H7 H8 H9 H10]. split; try done; rewrite ?fmap_cons; simpl fst.
  - intros q [->|Hq]%elem_of_cons; [|by apply H2]. exists (f <| f_count := f_count f + 1 |>).
    simpl. rewrite lookup_insert_eq. split_and!; [done..|]. by apply (file_ok_kind _ _ f).
  - intros q g Hq. rewrite map_refs_cons. case_decide as E; [subst|by apply H5].
    simpl in Hq. rewrite lookup_insert_eq in Hq. simplify_eq. simpl. unfold fd_refs in *. simpl in *. lia.
  - intros q g Hq Ho. rewrite map_refs_cons. case_decide as E; [subst|by apply H6].
    simpl in Hq. rewrite lookup_insert_eq in Hq. simplify_eq. simpl.
    pose proof (fk_owned _ _ _ Hf q f Hp Ho). unfold fd_refs in *. simpl in *. lia.
  - intros q fault g b v [[= -> <-]|Hq]%elem_of_cons; [|by eapply H10]. simpl. rewrite lookup_insert_eq.
    intros [= <-]. by apply Has.
Qed.

Lemma life_unmap s m m' mk p f h :
  life s m mk → m ≡ₚ (p, h) :: m' → files s !! p = Some f → life (fput_done p f s) m' mk.
Proof.
  intros [Hb Hf] Hm Hp. assert (Hm1 : m.*1 ≡ₚ p :: m'.*1) by by rewrite Hm.
  assert (Hr : ∀ q, map_refs m.*1 q = (if decide (p = q) then 1 else 0) + map_refs m'.*1 q)
    by (intros q; by rewrite (map_refs_perm _ _ q Hm1), map_refs_cons).
  destruct (fk_map _ _ _ Hf p) as (f' & ? & Hk & Hok); [rewrite Hm1; by left|]. simplify_eq.
  assert (Hf' : files_ok s m' mk).
  { destruct Hf as [H1 H2 H3 H4 H5 H6 H7 H8 H9 H10]. split; try done.
    - intros q Hq. apply H2. rewrite Hm1. by right.
    - intros q g Hq. specialize (H5 q g Hq). specialize (Hr q). case_decide; lia.
    - intros q g Hq Ho. specialize (H6 q g Hq Ho). specialize (Hr q). case_decide; lia.
    - intros q fault g b v Hq. apply (H10 q fault). rewrite Hm. by right. }
  specialize (Hr p). rewrite decide_True in Hr by done.
  apply life_fput; try done.
  - pose proof (fk_count _ _ _ Hf p f Hp). lia.
  - intros Ho. pose proof (fk_owned _ _ _ Hf p f Hp Ho). lia.
  - intros q g c _ _ _ Hk'. congruence.
Qed.

(** Forgetting that the holders of references sleep. *)
Definition settled_refs (m : references) : references := (λ r, (r.1, Mapped)) <$> m.

Lemma settled_refs_fst m : (settled_refs m).*1 = m.*1.
Proof. unfold settled_refs. rewrite <-list_fmap_compose. by apply list_fmap_ext. Qed.

Lemma life_settle s m mk : life s m mk → life s (settled_refs m) mk.
Proof.
  intros [Hb [H1 H2 H3 H4 H5 H6 H7 H8 H9 H10]]. split; [done|]. split; rewrite ?settled_refs_fst; try done.
  intros p fault f b v (r & [=] & _)%list_elem_of_fmap.
Qed.

(** ** New objects *)

(** An address without a file has no references. *)
Lemma life_no_file s m mk p :
  life s m mk → files s !! p = None →
  (∀ fd, fds s !! fd ≠ Some p) ∧ p ∉ m.*1 ∧ p ∉ releasing s ∧ ¬ owned s p ∧
  fd_refs s p = 0 ∧ map_refs m.*1 p = 0.
Proof.
  intros [Hb Hf] Hp.
  assert (Hfd : ∀ fd, fds s !! fd ≠ Some p).
  { intros fd Hfd. destruct (fk_fd _ _ _ Hf fd p Hfd) as (? & ? & _). congruence. }
  assert (Hm : p ∉ m.*1). { intros Hin. destruct (fk_map _ _ _ Hf p Hin) as (? & ? & _). congruence. }
  split_and!; try done.
  - intros Hin. destruct (fk_due _ _ _ Hf p Hin) as (? & ? & _). congruence.
  - intros (c & l & b & v & Hl & Hin & Hv & Ep).
    destruct (bk_owned _ Hb c l b Hl Hin) as (v' & p' & n & ? & _ & ? & ?). simplify_eq.
  - by apply fd_refs_none.
  - unfold map_refs. destruct (filter (λ q, q = p) m.*1) as [|q l] eqn:E; [done|].
    assert (Hq : q ∈ filter (λ q, q = p) m.*1) by (rewrite E; by left).
    by apply list_elem_of_filter in Hq as [-> ?].
Qed.

(** A file nobody refers to yet. *)
Lemma life_new_file s m mk p f :
  life s m mk → files s !! p = None → 0 ≤ f_count f → life (upd_file p f s) m mk.
Proof.
  intros Hlf Hp Hn. destruct (life_no_file s m mk p Hlf Hp) as (Hfd & Hm & Hdue & Ho & Hr & Hr').
  destruct Hlf as [Hb [H1 H2 H3 H4 H5 H6 H7 H8 H9 H10]].
  assert (Hlk : ∀ q g, files s !! q = Some g → files (upd_file p f s) !! q = Some g).
  { intros q g Hq. simpl. rewrite lookup_insert_ne; [done|]. intros ->. congruence. }
  assert (Hlk2 : ∀ q g, files (upd_file p f s) !! q = Some g → q ≠ p → files s !! q = Some g).
  { intros q g. simpl. intros [[<- _]|[_ ?]]%lookup_insert_Some ?; done. }
  assert (Hact : ∀ q, active s q → q ≠ p).
  { intros q [[fd Hq]|Hq] ->; [by apply (Hfd fd)|done]. }
  split; [eapply bufs_ok_files, Hb; eauto|]. split; try done.
  - intros fd q Hq. destruct (H1 fd q Hq) as (g & ? & ?). eauto.
  - intros q Hq. destruct (H2 q Hq) as (g & ? & ? & ?). eauto.
  - intros q Hq. destruct (H3 q Hq) as (g & ? & ? & ?). eauto.
  - intros q g. destruct (decide (q = p)) as [->|Hne].
    + simpl. rewrite lookup_insert_eq. intros [= <-]. unfold fd_refs in *. simpl. lia.
    + intros Hq. by apply H5, Hlk2.
  - intros q g Hq Ho'. destruct (decide (q = p)) as [->|Hne]; [done|]. by apply H6; [apply Hlk2|].
  - intros q q' g g' c Ha Ha' Hg Hg'. eapply H7; [done..| |]; (apply Hlk2; [done|by apply Hact]).
  - intros fd q g c b v Hq Hg. eapply H8; [done|]. apply Hlk2; [done|]. intros ->. by apply (Hfd fd).
  - intros c Hc. destruct (H9 c Hc) as [(q & g & ? & ? & ?) ?]. split; [|done]. exists q, g.
    split_and!; naive_solver.
  - intros q fault g b v Hq Hg. apply (H10 q fault g); [done|]. apply Hlk2; [done|].
    intros ->. apply Hm. exact (list_elem_of_fmap_2 fst _ _ Hq).
Qed.

(** A context without buffers. *)
Lemma life_new_ctx s m mk c ctx :
  life s m mk → ctxs s !! c = None → allocated_buffers ctx = [] → life (upd_ctx c ctx s) m mk.
Proof.
  intros [Hb Hf] Hc Enil.
  assert (Hcv : ctx_view (upd_ctx c ctx s) = <[c := []]> (ctx_view s)).
  { unfold ctx_view. simpl. by rewrite fmap_insert, Enil. }
  assert (Hno : ctx_view s !! c = None) by (unfold ctx_view; by rewrite lookup_fmap, Hc).
  assert (Hlk : ∀ c' l, ctx_view s !! c' = Some l → ctx_view (upd_ctx c ctx s) !! c' = Some l).
  { intros c' l Hl. rewrite Hcv, lookup_insert_ne; [done|congruence]. }
  assert (Hlk2 : ∀ c' l b, ctx_view (upd_ctx c ctx s) !! c' = Some l → b ∈ l → ctx_view s !! c' = Some l).
  { intros c' l b. rewrite Hcv. intros [[<- <-]|[_ ?]]%lookup_insert_Some Hin; [by apply elem_of_nil in Hin|done]. }
  assert (Hfok : ∀ p f, file_ok s p f → file_ok (upd_ctx c ctx s) p f).
  { intros p f. unfold file_ok. destruct (f_kind f); [|done|done].
    intros (c' & ? & l & ?). exists c'. split; [done|]. exists l. by apply Hlk. }
  assert (Hown : ∀ p, owned (upd_ctx c ctx s) p → owned s p).
  { intros p (c' & l & b & v & Hl & Hin & Hv & ?). exists c', l, b, v. split_and!; [|done..]. by eapply Hlk2. }
  split.
  - destruct Hb as [Ht Hd Ho Hn Ha].
    assert (Htab : ∀ v F, has_table (upd_ctx c ctx s) v F ↔ has_table s v F)
      by (intros v F; split; by apply has_table_eq).
    split.
    + intros b v Hv. destruct (Ht b v Hv) as (? & F & ?). split; [done|]. exists F. by apply Htab.
    + intros b b' v v' F F' ? ? ? ?%Htab ?%Htab. by apply (Hd b b' v v').
    + intros c' l b Hl Hin. apply (Ho c' l); [by eapply Hlk2|done].
    + intros c' l. rewrite Hcv. intros [[<- <-]|[_ ?]]%lookup_insert_Some; [constructor|eauto].
    + intros b v Hv Hd'. destruct (Ha b v Hv Hd') as (l & ? & ?). eauto.
  - destruct Hf as [H1 H2 H3 H4 H5 H6 H7 H8 H9 H10]. split; try done.
    + intros fd q Hq. destruct (H1 fd q Hq) as (g & ? & ?). eauto.
    + intros q Hq. destruct (H2 q Hq) as (g & ? & ? & ?). eauto.
    + intros q Hq. destruct (H3 q Hq) as (g & ? & ? & ?). eauto.
    + intros q g Hq Ho. by apply H6, Hown.
    + intros q fault g b v Hq Hg Hpd Hv. destruct (H10 q fault g b v Hq Hg Hpd Hv) as [l Hl]. exists l. by apply Hlk.
Qed.

(** The descriptor of a newly opened char device. *)
Lemma life_install s m mk fd p c :
  life s m mk → files s !! p = Some (mkFile FDicedev 1 (Some c)) → is_Some (ctx_view s !! c) →
  fd_refs s p = 0 → map_refs m.*1 p = 0 → ¬ owned s p →
  (∀ q g, active s q → files s !! q = Some g → f_kind g = FDicedev → private_data g ≠ Some c) →
  (∀ b v, buf_view s !! b = Some v → bl_ctx v ≠ c) →
  life (s <| fds := <[fd := p]> (fds s) |>) m mk.
Proof.
  intros [Hb [H1 H2 H3 H4 H5 H6 H7 H8 H9 H10]] Hp Hc Hr Hr' Ho Hchr Hno.
  set (s' := s <| fds := <[fd := p]> (fds s) |>).
  destruct (fd_refs_insert s s' fd p eq_refl) as [Hle Hle'].
  assert (Hfds : ∀ fd' q, fds s' !! fd' = Some q → q = p ∨ fds s !! fd' = Some q).
  { intros fd' q. simpl. intros [[_ <-]|[_ ?]]%lookup_insert_Some; auto. }
  assert (Hact : ∀ q, active s' q → q = p ∨ active s q).
  { intros q [[fd' Hq]|Hq]; [|right; by right].
    destruct (Hfds fd' q Hq) as [->|?]; [by left|right; left; eauto]. }
  split; [eapply bufs_ok_files, Hb; eauto|]. split; try done.
  - intros fd' q Hq. destruct (Hfds fd' q Hq) as [->|Hq']; [|by eapply H1].
    eexists. split; [exact Hp|]. by exists c.
  - intros q g Hq. change (files s !! q = Some g) in Hq. destruct (decide (q = p)) as [->|Hne].
    + rewrite Hp in Hq. injection Hq as <-. simpl. lia.
    + specialize (Hle q Hne). specialize (H5 q g Hq). lia.
  - intros q g Hq Ho'. destruct (decide (q = p)) as [->|Hne]; [done|].
    specialize (Hle q Hne). specialize (H6 q g Hq Ho'). lia.
  - intros q q' g g' c' Ha Ha' Hg Hg' Hk Hk' Hpd Hpd'.
    change (files s !! q = Some g) in Hg. change (files s !! q' = Some g') in Hg'.
    destruct (Hact q Ha) as [->|Hq], (Hact q' Ha') as [->|Hq']; [done|..].
    + rewrite Hp in Hg. simplify_eq/=. by destruct (Hchr q' g' Hq' Hg' Hk').
    + rewrite Hp in Hg'. simplify_eq/=. by destruct (Hchr q g Hq Hg Hk).
    + by eapply (H7 q q' g g' c').
  - intros fd' q g c' b v Hq Hg Hk Hpd Hv Ec. destruct (Hfds fd' q Hq) as [->|Hq']; [|by eapply H8].
    change (files s !! p = Some g) in Hg. rewrite Hp in Hg. simplify_eq/=. by destruct (Hno b v).
Qed.

(** A new buffer [b] with file [p] and table [F0] for the context [c]. *)
Section Create.
Context (s s' : state) (m : references) (mk : list ptr) (b c p : ptr) (l : list ptr) (v0 : buf_life) (F0 : foot)
  (fd : Z).
Hypothesis Hlf : life s m mk.
Hypothesis Hbv : buf_view s !! b = None.
Hypothesis Ebv : buf_view s' = <[b := v0]> (buf_view s).
Hypothesis Hcv : ctx_view s !! c = Some l.
Hypothesis Ecv : ctx_view s' = <[c := b :: l]> (ctx_view s).
Hypothesis Hv0 : bl_ctx v0 = c ∧ bl_dev v0 = d ∧ bl_file v0 = Some p ∧ bl_destroyed v0 = false.
Hypothesis HF0 : has_table s' v0 F0.
Hypothesis Hpts : pts s ⊆ pts s' ∧ pts s !! fp_pt F0 = None.
Hypothesis Hpgs : pgarrs s ⊆ pgarrs s' ∧ pgarrs s !! fp_arr F0 = None.
Hypothesis Hdma : dmas s ⊆ dmas s' ∧ ∀ q, q ∈ fp_pages F0 → dmas s !! q = None.
Hypothesis Hp : files s !! p = None.
Hypothesis Ef : files s' = <[p := mkFile FBuffer 2 (Some b)]> (files s).
Hypothesis Efd : fds s' = <[fd := p]> (fds s).
Hypothesis Edue : releasing s' = releasing s.
Hypothesis Hmk : c ∉ mk.

Local Lemma create_tables b' v :
  buf_view s !! b' = Some v → ∃ F, has_table s v F ∧ has_table s' v F ∧ foot_disjoint F0 F.
Proof using Hlf Hpts Hpgs Hdma.
  intros Hv. destruct Hlf as [Hb _]. destruct (bk_table _ Hb b' v Hv) as (_ & F & HF). exists F.
  split; [done|]. split; [apply (has_table_mono s); [apply Hpts|apply Hpgs|apply Hdma|done]|].
  destruct HF as (_ & HF & [_ _ HF2 _ _ _ _ _ (mm & HF3 & _) HF4]), Hpts, Hpgs, Hdma as [_ Hfresh].
  split_and!; [congruence..|]. intros q Hq%Hfresh [->|Hin]%elem_of_cons; [congruence|].
  apply list_elem_of_fmap in Hin as (q' & -> & Hin). destruct (HF4 q' Hin) as (? & ? & _). congruence.
Qed.

Local Lemma create_view b' v :
  buf_view s' !! b' = Some v → (b' = b ∧ v = v0) ∨ (b' ≠ b ∧ buf_view s !! b' = Some v).
Proof using Ebv. rewrite Ebv. intros [[<- <-]|[? ?]]%lookup_insert_Some; auto. Qed.

Local Lemma create_view_old b' v : buf_view s !! b' = Some v → buf_view s' !! b' = Some v.
Proof using Hbv Ebv. intros Hv. rewrite Ebv, lookup_insert_ne; [done|congruence]. Qed.

Local Lemma create_list c' l' :
  ctx_view s' !! c' = Some l' → (c' = c ∧ l' = b :: l) ∨ (c' ≠ c ∧ ctx_view s !! c' = Some l').
Proof using Ecv. rewrite Ecv. intros [[<- <-]|[? ?]]%lookup_insert_Some; auto. Qed.

Local Lemma create_file q g : files s !! q = Some g → files s' !! q = Some g.
Proof using Hp Ef. intros Hq. rewrite Ef, lookup_insert_ne; [done|congruence]. Qed.

Local Lemma create_file_inv q g :
  files s' !! q = Some g → (q = p ∧ g = mkFile FBuffer 2 (Some b)) ∨ (q ≠ p ∧ files s !! q = Some g).
Proof using Ef. rewrite Ef. intros [[<- <-]|[? ?]]%lookup_insert_Some; auto. Qed.

Lemma bufs_ok_create : bufs_ok s'.
Proof using All.
  pose proof Hlf as [[Ht Hdj Hown Hnd Hal] _]. destruct Hv0 as (Ec & Ed & Efile & Edes).
  split.
  - intros b' v [[-> ->]|[_ Hv]]%create_view; [split; [done|by exists F0]|].
    destruct (create_tables b' v Hv) as (F & _ & ? & _). split; [by apply (Ht b')|by exists F].
  - intros b1 b2 v1 v2 F1 F2 [[-> ->]|[? Hv1]]%create_view [[-> ->]|[? Hv2]]%create_view Hne HF1 HF2;
      [done|..].
    + rewrite (has_table_inj _ _ _ _ HF1 HF0). destruct (create_tables b2 v2 Hv2) as (F & ? & HF & ?).
      by rewrite (has_table_inj _ _ _ _ HF2 HF).
    + rewrite (has_table_inj _ _ _ _ HF2 HF0). destruct (create_tables b1 v1 Hv1) as (F & ? & HF & ?).
      rewrite (has_table_inj _ _ _ _ HF1 HF). by apply foot_disjoint_sym.
    + destruct (create_tables b1 v1 Hv1) as (G1 & ? & HG1 & _), (create_tables b2 v2 Hv2) as (G2 & ? & HG2 & _).
      rewrite (has_table_inj _ _ _ _ HF1 HG1), (has_table_inj _ _ _ _ HF2 HG2).
      by eapply (Hdj b1 b2 v1 v2).
  - intros c' l' b' Hl Hin. assert (Hcase : (c' = c ∧ b' = b) ∨ ∃ l0, ctx_view s !! c' = Some l0 ∧ b' ∈ l0).
    { apply create_list in Hl as [[-> ->]|[_ Hl]]; [|right; eauto].
      apply elem_of_cons in Hin as [->|Hin]; [by left|right; eauto]. }
    destruct Hcase as [[-> ->]|(l0 & Hl0 & Hin0)].
    + exists v0, p, 2. by rewrite Ebv, lookup_insert_eq, Ef, lookup_insert_eq.
    + destruct (Hown c' l0 b' Hl0 Hin0) as (v & q & n & ? & ? & ? & ?). exists v, q, n.
      split_and!; eauto using create_view_old, create_file.
  - intros c' l' [[-> ->]|[_ Hl]]%create_list; [|by eapply Hnd].
    constructor; [|by eapply Hnd]. intros Hin.
    destruct (Hown c _ b Hcv Hin) as (v & ? & ? & ? & _). congruence.
  - intros b' v [[-> ->]|[_ Hv]]%create_view Hdes'.
    + exists (b :: l). rewrite Ec, Ecv, lookup_insert_eq. split; [done|by left].
    + destruct (Hal b' v Hv Hdes') as (l' & Hl & Hin). rewrite Ecv.
      destruct (decide (c = bl_ctx v)) as [Eq|Hne]; [|exists l'; by rewrite lookup_insert_ne by done].
      exists (b :: l). rewrite <-Eq, lookup_insert_eq. split; [done|].
      rewrite <-Eq, Hcv in Hl. simplify_eq. by right.
Qed.

Local Lemma create_file_ok q g : file_ok s q g → file_ok s' q g.
Proof using Hbv Ebv Ecv.
  unfold file_ok. destruct (f_kind g); [| |done].
  - intros (c' & ? & Hc'). exists c'. split; [done|]. rewrite Ecv, lookup_insert_is_Some'. by right.
  - intros (b' & v & ? & ? & ?). exists b', v. split_and!; eauto using create_view_old.
Qed.

Local Lemma create_owned q : q ≠ p → owned s' q → owned s q.
Proof using Hcv Ecv Ebv Hv0.
  intros Hne (c' & l' & b' & v & Hl & Hin & Hv & Efile).
  destruct (create_view b' v Hv) as [[-> ->]|[Hneb Hv']]; [destruct Hv0 as (_ & _ & ? & _); congruence|].
  destruct (create_list c' l' Hl) as [[-> ->]|[_ Hl']]; [|by exists c', l', b', v].
  apply elem_of_cons in Hin as [->|Hin]; [done|]. by exists c, l, b', v.
Qed.

Lemma files_ok_create : files_ok s' m mk.
Proof using All.
  destruct (life_no_file s m mk p Hlf Hp) as (Hfd & Hm & Hdue & Ho & Hr & Hr').
  pose proof Hlf as [_ [H1 H2 H3 H4 H5 H6 H7 H8 H9 H10]]. destruct Hv0 as (Ec & Ed & Efile & Edes).
  destruct (fd_refs_insert s s' fd p Efd) as [Hle Hle'].
  assert (Hfds : ∀ fd' q, fds s' !! fd' = Some q → q = p ∨ fds s !! fd' = Some q).
  { intros fd' q. rewrite Efd. intros [[_ <-]|[_ ?]]%lookup_insert_Some; auto. }
  assert (Hact : ∀ q, active s' q → q = p ∨ active s q).
  { unfold active. rewrite Edue. intros q [[fd' Hq]|Hq]; [|right; by right].
    destruct (Hfds fd' q Hq) as [->|?]; [by left|right; left; eauto]. }
  assert (Hpok : file_ok s' p (mkFile FBuffer 2 (Some b))).
  { exists b, v0. by rewrite Ebv, lookup_insert_eq. }
  split; try (rewrite Edue; done).
  - intros fd' q Hq. destruct (Hfds fd' q Hq) as [->|Hq'].
    + exists (mkFile FBuffer 2 (Some b)). by rewrite Ef, lookup_insert_eq.
    + destruct (H1 fd' q Hq') as (g & ? & ?). exists g. split_and!; eauto using create_file, create_file_ok.
  - intros q Hq. destruct (H2 q Hq) as (g & ? & ? & ?). exists g. split_and!; eauto using create_file, create_file_ok.
  - intros q Hq. rewrite Edue in Hq. destruct (H3 q Hq) as (g & ? & ? & ?).
    exists g. split_and!; eauto using create_file, create_file_ok.
  - intros q g [[-> ->]|[Hne Hq]]%create_file_inv; simpl; [lia|].
    specialize (Hle q Hne). specialize (H5 q g Hq). lia.
  - intros q g [[-> ->]|[Hne Hq]]%create_file_inv Ho'; simpl; [lia|].
    specialize (Hle q Hne). specialize (H6 q g Hq (create_owned q Hne Ho')). lia.
  - intros q q' g g' c' Ha Ha' [[-> ->]|[? Hg]]%create_file_inv [[-> ->]|[? Hg']]%create_file_inv Hk Hk';
      [done..|]. destruct (Hact q Ha), (Hact q' Ha'); try done. by apply (H7 q q' g g').
  - intros fd' q g c' b' v Hq [[-> ->]|[? Hg]]%create_file_inv Hk Hpd [[-> ->]|[? Hv]]%create_view; try done.
    destruct (Hfds fd' q Hq) as [->|?]; [done|]. by eapply (H8 fd' q g c').
  - intros c' Hc'. rewrite Edue. destruct (H9 c' Hc') as [(q & g & ? & ? & ? & ?) Hall]. split.
    + exists q, g. split_and!; eauto using create_file.
    + intros b' v [[-> ->]|[? Hv]]%create_view Ec'; [congruence|by eapply Hall].
  - intros q fault g b' v Hq [[-> ->]|[Hne Hg]]%create_file_inv Hpd [[-> ->]|[Hnb Hv]]%create_view;
      rewrite Ecv, lookup_insert_is_Some'; auto; right.
    + simplify_eq/=.
    + by eapply H10.
Qed.

End Create.

Lemma life_create s s' m mk c ctx cs fd :
  life s m mk → ctxs s !! c = Some ctx → ctx_dev ctx = d → c ∉ mk →
  set_created s s' c ctx cs fd → life s' m mk.
Proof.
  intros Hlf Hc Hdev Hmk (b & buf & ptp & tbl & pp & hp & arr & L & p & Hb & Eb & [_ Hpt Htbl Hwf] & _ &
    Ec & Ed & Hdes & _ & _ & _ & _ & Efile & Hp & Ef & _ & Efd & Ectx & _ & _ & _ & Edue & Ept & Hptp & Epg &
    Harr & Edma & Hfresh).
  set (v0 := mkLife c d (Some p) (Some ptp) false). set (F0 := mkFoot ptp tbl pp hp arr L).
  assert (Ebv : buf_view s' = <[b := v0]> (buf_view s)).
  { unfold buf_view. rewrite Eb, fmap_insert. f_equal. unfold life_of, v0. congruence. }
  assert (Ecv : ctx_view s' = <[c := b :: allocated_buffers ctx]> (ctx_view s)).
  { unfold ctx_view. by rewrite Ectx, fmap_insert. }
  assert (Hbv : buf_view s !! b = None) by (unfold buf_view; by rewrite lookup_fmap, Hb).
  pose proof (ctx_view_lookup s c ctx Hc) as Hcv.
  split; [eapply (bufs_ok_create s s' m mk b c p _ v0 F0)|
          eapply (files_ok_create s s' m mk b c p _ v0 F0)]; done.
Qed.

(** ** Releasing a context *)

(** Its buffers are marked as destroyed. *)
Definition mark (l : list ptr) (b : ptr) (v : buf_life) : buf_life :=
  if decide (b ∈ l) then mkLife (bl_ctx v) (bl_dev v) (bl_file v) (bl_pt v) true else v.

Lemma mark_same l b v :
  bl_ctx (mark l b v) = bl_ctx v ∧ bl_dev (mark l b v) = bl_dev v ∧
  bl_file (mark l b v) = bl_file v ∧ bl_pt (mark l b v) = bl_pt v.
Proof. unfold mark. by case_decide. Qed.

Lemma mark_alive l b v : bl_destroyed (mark l b v) = false → b ∉ l ∧ bl_destroyed v = false.
Proof. unfold mark. by case_decide. Qed.

Lemma mark_true l b v : bl_destroyed v = true → bl_destroyed (mark l b v) = true.
Proof. unfold mark. by case_decide. Qed.

Section Mark.
Context (s s' : state) (m : references) (mk : list ptr) (c p : ptr) (l : list ptr) (f : file).
Hypothesis Hlf : life s m mk.
Hypothesis Hp : files s !! p = Some f ∧ f_kind f = FDicedev ∧ private_data f = Some c.
Hypothesis Hdue : p ∈ releasing s.
Hypothesis Hcv : ctx_view s !! c = Some l.
Hypothesis Hview : ∀ b, buf_view s' !! b = mark l b <$> buf_view s !! b.
Hypothesis Hsame : ctx_view s' = ctx_view s ∧ files s' = files s ∧ fds s' = fds s ∧
  releasing s' = releasing s ∧ pts s' = pts s ∧ pgarrs s' = pgarrs s ∧ dmas s' = dmas s.

Local Lemma mark_inv b v' :
  buf_view s' !! b = Some v' → ∃ v, buf_view s !! b = Some v ∧ v' = mark l b v.
Proof using Hview. rewrite Hview. intros (v & -> & ?)%fmap_Some. eauto. Qed.

Local Lemma mark_table b v F : has_table s' (mark l b v) F ↔ has_table s v F.
Proof using Hsame.
  destruct Hsame as (_ & _ & _ & _ & E1 & E2 & E3). unfold has_table.
  rewrite (proj2 (proj2 (proj2 (mark_same l b v)))).
  split; intros (? & ? & ?); (split_and!; [done|congruence|]);
    [by apply (pt_wf_same s')|by apply (pt_wf_same s)].
Qed.

Lemma bufs_ok_mark : bufs_ok s'.
Proof using Hlf Hview Hsame.
  pose proof Hlf as [[Ht Hdj Hown Hnd Hal] _]. pose proof Hsame as (Ec & Ef & _).
  split; rewrite ?Ec, ?Ef.
  - intros b v' (v & Hv & ->)%mark_inv. destruct (Ht b v Hv) as (? & F & HF).
    split; [unfold mark; by case_decide|]. exists F. by apply mark_table.
  - intros b1 b2 v1 v2 F1 F2 (w1 & ? & ->)%mark_inv (w2 & ? & ->)%mark_inv Hne ?%mark_table ?%mark_table.
    by apply (Hdj b1 b2 w1 w2).
  - intros c' l' b Hl Hin. destruct (Hown c' l' b Hl Hin) as (v & q & n & Hv & ? & ? & ?).
    exists (mark l b v), q, n. destruct (mark_same l b v) as (-> & _ & -> & _).
    by rewrite Hview, Hv.
  - done.
  - intros b v' (v & Hv & ->)%mark_inv [_ Hd]%mark_alive.
    destruct (mark_same l b v) as (-> & _). by apply Hal.
Qed.

Lemma files_ok_mark : files_ok s' m (c :: mk).
Proof using All.
  pose proof Hlf as [[Ht Hdj Hown Hnd Hal] Hfk]. pose proof Hfk as [H1 H2 H3 H4 H5 H6 H7 H8 H9 H10].
  destruct Hp as (Hpf & Hk & Hpd). pose proof Hsame as (Ec & Ef & Efd & Er & _).
  assert (Hfok : ∀ q g, file_ok s q g → file_ok s' q g).
  { intros q g. unfold file_ok. rewrite Ec. destruct (f_kind g); [done| |done].
    intros (b & v & ? & Hv & ?). exists b, (mark l b v). rewrite Hview, Hv.
    by destruct (mark_same l b v) as (_ & _ & -> & _). }
  assert (How : ∀ q, owned s' q → owned s q).
  { intros q (c' & l' & b & v' & Hl & Hin & (v & Hv & ->)%mark_inv & Efl).
    destruct (mark_same l b v) as (_ & _ & E & _). exists c', l', b, v. rewrite Ec in Hl. by rewrite <-E. }
  destruct (life_due_unreferenced s m mk p Hfk Hdue) as (Hno & _ & _).
  split; unfold active, fd_refs in *; rewrite ?Ef, ?Efd, ?Er; try done.
  - intros fd q Hq. destruct (H1 fd q Hq) as (g & ? & ?). eauto.
  - intros q Hq. destruct (H2 q Hq) as (g & ? & ? & ?). eauto.
  - intros q Hq. destruct (H3 q Hq) as (g & ? & ? & ?). eauto.
  - intros q g Hq Ho. by apply H6, How.
  - intros fd q g c' b v' Hq Hg Hkg Hpg (v & Hv & ->)%mark_inv.
    destruct (mark_same l b v) as (-> & _). intros Eb. unfold mark. case_decide as Hin; [|by eapply H8].
    destruct (Hown c l b Hcv Hin) as (v0 & ? & ? & Hv0 & Ec0 & _). simplify_eq.
    assert (q = p) as ->; [|by destruct (Hno fd)].
    eapply (H7 q p g f (bl_ctx v)); try done; [left; eauto|by right].
  - intros c' [->|Hc']%elem_of_cons.
    + split; [by exists p, f|]. intros b v' (v & Hv & ->)%mark_inv.
      destruct (mark_same l b v) as (-> & _). intros Eb.
      destruct (bl_destroyed v) eqn:Ed; [by apply mark_true|].
      destruct (Hal b v Hv Ed) as (l' & Hl' & Hin). rewrite Eb, Hcv in Hl'. simplify_eq.
      unfold mark. by rewrite decide_True.
    + destruct (H9 c' Hc') as [? Hall]. split; [done|]. intros b v' (v & Hv & ->)%mark_inv.
      destruct (mark_same l b v) as (-> & _). intros Eb. apply mark_true. by eapply Hall.
  - intros q fault g b v' Hq Hg Hpg (v & Hv & ->)%mark_inv. destruct (mark_same l b v) as (-> & _).
    rewrite Ec. by eapply H10.
Qed.

Lemma life_mark : life s' m (c :: mk).
Proof using All. split; [apply bufs_ok_mark|apply files_ok_mark]. Qed.

End Mark.

(** The head of the list of a context under release is dropped. *)
Section Drop.
Context (s : state) (m : references) (mk : list ptr) (c b : ptr) (l : list ptr) (ctx : dicedev_context).
Hypothesis Hlf : life s m mk.
Hypothesis Hmk : c ∈ mk.
Hypothesis Hc : ctxs s !! c = Some ctx.
Hypothesis Hl : allocated_buffers ctx = b :: l.

Let s' := upd_ctx c (ctx <| allocated_buffers := l |>) s.

Local Lemma drop_view : ctx_view s' = <[c := l]> (ctx_view s).
Proof using Type. unfold ctx_view. simpl. by rewrite fmap_insert. Qed.

Local Lemma drop_list c' l' b' :
  ctx_view s' !! c' = Some l' → b' ∈ l' → ∃ l0, ctx_view s !! c' = Some l0 ∧ b' ∈ l0.
Proof using Hc Hl.
  rewrite drop_view. intros [[<- <-]|[_ ?]]%lookup_insert_Some Hin; [|eauto].
  exists (b :: l). split; [|by right]. apply ctx_view_Some. eauto.
Qed.

Local Lemma drop_owned q : owned s' q → owned s q.
Proof using Hc Hl.
  intros (c' & l' & b' & v & Hl' & Hin & ? & ?).
  destruct (drop_list c' l' b' Hl' Hin) as (l0 & ? & ?). by exists c', l0, b', v.
Qed.

Local Lemma drop_file_ok q g : file_ok s q g → file_ok s' q g.
Proof using Type.
  unfold file_ok. rewrite drop_view. destruct (f_kind g); [|done|done].
  intros (c' & ? & ?). exists c'. split; [done|]. rewrite lookup_insert_is_Some'. by right.
Qed.

Lemma life_drop : life s' m mk.
Proof using Hlf Hmk Hc Hl.
  destruct Hlf as [[Ht Hdj Hown Hnd Hal] [H1 H2 H3 H4 H5 H6 H7 H8 H9 H10]].
  assert (Htab : ∀ v F, has_table s' v F ↔ has_table s v F)
    by (intros v F; split; by apply has_table_eq).
  assert (Hcv : ctx_view s !! c = Some (b :: l)) by (apply ctx_view_Some; eauto).
  split; split; try done.
  - intros b' v Hv. destruct (Ht b' v Hv) as (? & F & ?). split; [done|]. exists F. by apply Htab.
  - intros b1 b2 v1 v2 F1 F2 ? ? ? ?%Htab ?%Htab. by apply (Hdj b1 b2 v1 v2).
  - intros c' l' b' Hl' Hin. destruct (drop_list c' l' b' Hl' Hin) as (l0 & ? & ?). by eapply Hown.
  - intros c' l'. rewrite drop_view. intros [[<- <-]|[_ ?]]%lookup_insert_Some; [|eauto].
    apply (Hnd c) in Hcv. by apply NoDup_cons in Hcv as [_ ?].
  - intros b' v Hv Hd. destruct (Hal b' v Hv Hd) as (l' & Hl' & Hin).
    rewrite drop_view. destruct (decide (c = bl_ctx v)) as [Ec|Hne].
    + destruct (H9 c Hmk) as [_ Hall]. rewrite (Hall b' v Hv) in Hd; done.
    + exists l'. by rewrite lookup_insert_ne.
  - intros fd q Hq. destruct (H1 fd q Hq) as (g & ? & ?). eauto using drop_file_ok.
  - intros q Hq. destruct (H2 q Hq) as (g & ? & ? & ?). eauto using drop_file_ok.
  - intros q Hq. destruct (H3 q Hq) as (g & ? & ? & ?). eauto using drop_file_ok.
  - intros q g Hq Ho. by apply H6, drop_owned.
  - intros q fault g b' v Hq Hg Hpd Hv. rewrite drop_view, lookup_insert_is_Some'. right. by eapply H10.
Qed.

(** Its file is put. *)
Lemma life_drop_fput p n :
  files s !! p = Some (mkFile FBuffer n (Some b)) → (∃ v, buf_view s !! b = Some v ∧ bl_file v = Some p) →
  life (fput_done p (mkFile FBuffer n (Some b)) s') m mk.
Proof using Hlf Hmk Hc Hl.
  intros Hp (v & Hv & Ev). pose proof Hlf as [Hb Hf].
  assert (Hcv : ctx_view s !! c = Some (b :: l)) by (apply ctx_view_Some; eauto).
  assert (Hno : ¬ owned s' p).
  { intros (c' & l' & b' & v' & Hl' & Hin & Hv' & Efl).
    destruct (drop_list c' l' b' Hl' Hin) as (l0 & Hl0 & Hin0). rewrite drop_view in Hl'.
    destruct (bk_owned _ Hb c' l0 b' Hl0 Hin0) as (w & q & k & ? & Ec' & ? & Hq).
    change (buf_view s !! b' = Some v') in Hv'. simplify_eq.
    destruct (bk_owned _ Hb c (b :: l) b Hcv) as (w & q & k' & ? & Ec & _); [by left|]. simplify_eq.
    rewrite lookup_insert_eq in Hl'. simplify_eq.
    pose proof (bk_nodup _ Hb _ _ Hcv) as [? _]%NoDup_cons. done. }
  apply life_fput; [apply life_drop|done| | |done|done].
  - exists b, v. done.
  - apply (fk_owned _ _ _ Hf p _ Hp). by exists c, (b :: l), b, v; split_and!; [|left|..].
Qed.

End Drop.

(** The context itself and the file of the char device. *)
Lemma life_free_ctx s s' m mk c p f :
  life s m mk → c ∈ mk → ctx_view s !! c = Some [] → p ∈ releasing s →
  files s !! p = Some f → f_kind f = FDicedev → private_data f = Some c →
  ctx_view s' = delete c (ctx_view s) → buf_view s' = buf_view s → files s' = delete p (files s) →
  fds s' = fds s → releasing s' = filter (λ q, q ≠ p) (releasing s) →
  pts s' = pts s → pgarrs s' = pgarrs s → dmas s' = dmas s →
  (∀ q fault g b v, (q, Asleep fault) ∈ m → files s !! q = Some g → private_data g = Some b →
     buf_view s !! b = Some v → bl_ctx v ≠ c) →
  life s' m (filter (λ c', c' ≠ c) mk).
Proof.
  intros [Hb Hf] Hmk Hcv Hdue Hp Hk Hpd Ec Eb Ef Efd Er E1 E2 E3 Hawake.
  destruct (life_due_unreferenced s m mk p Hf Hdue) as (Hnofd & Hnomap & _).
  destruct Hb as [Ht Hdj Hown Hnd Hal]. destruct Hf as [H1 H2 H3 H4 H5 H6 H7 H8 H9 H10].
  assert (Htab : ∀ v F, has_table s' v F ↔ has_table s v F)
    by (intros v F; split; by apply has_table_eq).
  assert (Hfile : ∀ q g, q ≠ p → files s !! q = Some g → files s' !! q = Some g)
    by (intros q g ? ?; rewrite Ef; by rewrite lookup_delete_ne).
  assert (Hfile' : ∀ q g, files s' !! q = Some g → q ≠ p ∧ files s !! q = Some g)
    by (intros q g; rewrite Ef; intros [? ?]%lookup_delete_Some; auto).
  assert (Hact : ∀ q, active s' q → active s q).
  { unfold active. rewrite Er, Efd. intros q [?|Hq]; [by left|right].
    by apply list_elem_of_filter in Hq as [_ ?]. }
  assert (Hfok : ∀ q g, active s q ∨ q ∈ m.*1 → q ≠ p → files s !! q = Some g → file_ok s q g → file_ok s' q g).
  { intros q g Ha Hne Hg. unfold file_ok. rewrite Eb, Ec. destruct (f_kind g) eqn:Hkg; [|done|done].
    intros (c' & Hpg & Hc'). exists c'. split; [done|]. rewrite lookup_delete_ne; [done|].
    intros <-. apply Hne. destruct Ha as [Ha|Hin]; [by eapply (H7 q p g f c); eauto; right|].
    destruct (H2 q Hin) as (? & ? & ? & _). congruence. }
  assert (Hdel : ∀ c' l, ctx_view s' !! c' = Some l → c' ≠ c ∧ ctx_view s !! c' = Some l)
    by (intros c' l; rewrite Ec; intros [? ?]%lookup_delete_Some; auto).
  destruct (H9 c Hmk) as [_ Hall].
  split; split; unfold fd_refs in *; rewrite ?Eb, ?Efd, ?Er; try done.
  - intros b v Hv. destruct (Ht b v Hv) as (? & F & ?). split; [done|]. exists F. by apply Htab.
  - intros b1 b2 v1 v2 F1 F2 ? ? ? ?%Htab ?%Htab. by apply (Hdj b1 b2 v1 v2).
  - intros c' l b [Hne Hl]%Hdel Hin. destruct (Hown c' l b Hl Hin) as (v & q & n & ? & ? & ? & Hq).
    exists v, q, n. split_and!; try done. apply Hfile; [|done]. intros ->. simplify_eq.
  - intros c' l [_ Hl]%Hdel. by eapply Hnd.
  - intros b v Hv Hd. destruct (Hal b v Hv Hd) as (l & Hl & Hin). exists l. split; [|done].
    rewrite Ec, lookup_delete_ne; [done|]. intros ->. by rewrite (Hall b v Hv) in Hd.
  - intros fd q Hq. assert (q ≠ p) by (intros ->; by apply (Hnofd fd)).
    destruct (H1 fd q Hq) as (g & ? & ?). exists g. split; [by apply Hfile|].
    apply Hfok; try done. left. left. eauto.
  - intros q Hq. assert (q ≠ p) by (by intros ->).
    destruct (H2 q Hq) as (g & ? & ? & ?). exists g. split; [by apply Hfile|]. split; [done|].
    apply Hfok; try done. by right.
  - intros q [Hne Hq]%list_elem_of_filter. destruct (H3 q Hq) as (g & ? & ? & ?).
    exists g. split; [by apply Hfile|]. split; [done|]. apply Hfok; try done. left. by right.
  - by apply NoDup_filter.
  - intros q g [_ Hq]%Hfile'. by apply H5.
  - intros q g [_ Hq]%Hfile' (c' & l & b & v & [_ ?]%Hdel & ? & ? & ?). apply H6; [done|].
    exists c', l, b, v. rewrite Eb in *. done.
  - intros q q' g g' c' Ha Ha' [_ Hg]%Hfile' [_ Hg']%Hfile'. by apply H7; [apply Hact..| |].
  - intros fd q g c' b v Hq [_ Hg]%Hfile'. by eapply H8.
  - intros c' [Hne Hc']%list_elem_of_filter. destruct (H9 c' Hc') as [(q & g & ? & ? & ? & ?) ?].
    split; [|done]. assert (q ≠ p) by (intros ->; congruence).
    exists q, g. split_and!; [by apply list_elem_of_filter|by apply Hfile|done..].
  - intros q fault g b v Hq [_ Hg]%Hfile' Hpg Hv. pose proof (Hawake q fault g b v Hq Hg Hpg Hv).
    rewrite Ec, lookup_delete_ne by done. by eapply H10.
Qed.

(** ** Releasing a buffer *)

Section Release.
Context (s s' : state) (m : references) (mk : list ptr) (b p : ptr) (f : file) (v : buf_life) (F : foot).
Hypothesis Hlf : life s m mk.
Hypothesis Hdue : p ∈ releasing s.
Hypothesis Hp : files s !! p = Some f ∧ f_kind f = FBuffer ∧ private_data f = Some b.
Hypothesis Hv : buf_view s !! b = Some v ∧ bl_file v = Some p.
Hypothesis HF : has_table s v F.
Hypothesis Eb : buf_view s' = delete b (buf_view s).
Hypothesis Ec : ctx_view s' = ctx_view s.
Hypothesis Ef : files s' = delete p (files s).
Hypothesis Efd : fds s' = fds s.
Hypothesis Er : releasing s' = filter (λ q, q ≠ p) (releasing s).
Hypothesis Ept : pts s' = delete (fp_pt F) (pts s).
Hypothesis Epg : pgarrs s' = delete (fp_arr F) (pgarrs s).
Hypothesis Edma : ∀ q, q ∉ fp_pages F → dmas s' !! q = dmas s !! q.

Local Lemma release_table w G : foot_disjoint F G → has_table s w G → has_table s' w G.
Proof using Ept Epg Edma.
  intros (Hd1 & Hd2 & Hd3) (? & ? & [? ? Ha ? ? ? ? ? (mm & Hm & Hr) Hpg]).
  assert (Hd : ∀ q, q ∈ fp_pages G → dmas s' !! q = dmas s !! q).
  { intros q Hq. apply Edma. intros ?. by apply (Hd3 q). }
  split_and!; [done|by rewrite Ept, lookup_delete_ne|]. split; try done.
  - by rewrite Epg, lookup_delete_ne.
  - exists mm. rewrite Hd by by left. done.
  - intros q Hq. rewrite Hd; [by apply Hpg|]. right. apply list_elem_of_fmap. eauto.
Qed.

Local Lemma release_view b' w : buf_view s' !! b' = Some w ↔ b' ≠ b ∧ buf_view s !! b' = Some w.
Proof using Eb. rewrite Eb, lookup_delete_Some. split; intros [? ?]; auto. Qed.

Local Lemma release_old b' w :
  b' ≠ b → buf_view s !! b' = Some w → ∃ G, has_table s w G ∧ has_table s' w G.
Proof using Hlf Hv HF Ept Epg Edma.
  intros Hne Hw. destruct Hlf as [Hb _], Hv as [Hv' _]. destruct (bk_table _ Hb b' w Hw) as (_ & G & HG).
  exists G. split; [done|]. apply release_table; [|done].
  by apply (bk_disj _ Hb b b' v w).
Qed.

Local Lemma release_unlisted c l : ctx_view s !! c = Some l → b ∉ l.
Proof using Hlf Hdue Hv.
  intros Hl Hin. destruct Hlf as [_ Hf], (life_due_unreferenced s m mk p Hf Hdue) as (_ & _ & Ho).
  apply Ho. by exists c, l, b, v.
Qed.

Lemma bufs_ok_release : bufs_ok s'.
Proof using All.
  pose proof Hlf as [[Ht Hdj Hown Hnd Hal] _]. split; rewrite ?Ec.
  - intros b' w [Hne Hw]%release_view. destruct (release_old b' w Hne Hw) as (G & _ & ?).
    split; [by apply (Ht b')|by exists G].
  - intros b1 b2 w1 w2 G1 G2 [? Hw1]%release_view [? Hw2]%release_view Hne HG1 HG2.
    destruct (release_old b1 w1) as (K1 & ? & HK1), (release_old b2 w2) as (K2 & ? & HK2); try done.
    rewrite (has_table_inj _ _ _ _ HG1 HK1), (has_table_inj _ _ _ _ HG2 HK2).
    by apply (Hdj b1 b2 w1 w2).
  - intros c l b' Hl Hin. destruct (Hown c l b' Hl Hin) as (w & q & n & Hw & ? & ? & Hq).
    exists w, q, n. rewrite release_view, Ef, lookup_delete_ne.
    + split_and!; try done. intros ->. by eapply release_unlisted.
    + intros Eq. assert (Eb' : b' = b).
      { destruct Hp as (Hpf & _ & Hpd). rewrite Eq, Hq in Hpf. injection Hpf as <-. simpl in Hpd. congruence. }
      apply (release_unlisted c l Hl). by rewrite <-Eb'.
  - done.
  - intros b' w [Hne Hw]%release_view Hd. by apply Hal.
Qed.

Lemma files_ok_release : files_ok s' m mk.
Proof using All.
  pose proof Hlf as [Hb Hf]. destruct (life_due_unreferenced s m mk p Hf Hdue) as (Hnofd & Hnomap & _).
  destruct Hf as [H1 H2 H3 H4 H5 H6 H7 H8 H9 H10].
  assert (Hfile : ∀ q g, q ≠ p → files s !! q = Some g → files s' !! q = Some g)
    by (intros q g ? ?; rewrite Ef; by rewrite lookup_delete_ne).
  assert (Hfile' : ∀ q g, files s' !! q = Some g → q ≠ p ∧ files s !! q = Some g)
    by (intros q g; rewrite Ef; intros [? ?]%lookup_delete_Some; auto).
  assert (Hact : ∀ q, active s' q → active s q).
  { unfold active. rewrite Er, Efd. intros q [?|Hq]; [by left|right].
    by apply list_elem_of_filter in Hq as [_ ?]. }
  assert (Hfok : ∀ q g, q ≠ p → file_ok s q g → file_ok s' q g).
  { intros q g Hne. unfold file_ok. rewrite Ec. destruct (f_kind g); [done| |done].
    intros (b' & w & ? & Hw & Ew). exists b', w. split_and!; try done. apply release_view.
    split; [|done]. intros ->. destruct Hv as [Hv' Ev]. congruence. }
  split; unfold fd_refs in *; rewrite ?Efd, ?Er; try done.
  - intros fd q Hq. assert (q ≠ p) by (intros ->; by apply (Hnofd fd)).
    destruct (H1 fd q Hq) as (g & ? & ?). eauto.
  - intros q Hq. assert (q ≠ p) by (by intros ->). destruct (H2 q Hq) as (g & ? & ? & ?). eauto 6.
  - intros q [Hne Hq]%list_elem_of_filter. destruct (H3 q Hq) as (g & ? & ? & ?). eauto 6.
  - by apply NoDup_filter.
  - intros q g [_ Hq]%Hfile'. by apply H5.
  - intros q g [_ Hq]%Hfile' (c' & l & b' & w & Hl & ? & [_ ?]%release_view & ?). apply H6; [done|].
    rewrite Ec in Hl. by exists c', l, b', w.
  - intros q q' g g' c' Ha Ha' [_ Hg]%Hfile' [_ Hg']%Hfile'. by apply H7; [apply Hact..| |].
  - intros fd q g c' b' w Hq [_ Hg]%Hfile' Hk Hpd [_ Hw]%release_view. by eapply H8.
  - intros c' Hc'. destruct (H9 c' Hc') as [(q & g & ? & ? & ? & ?) Hall].
    split; [|intros b' w [_ Hw]%release_view; by apply (Hall b')].
    assert (q ≠ p) by (intros ->; destruct Hp as (? & ? & ?); congruence).
    exists q, g. split_and!; [by apply list_elem_of_filter|by apply Hfile|done..].
  - intros q fault g b' w Hq [_ Hg]%Hfile' Hpg [_ Hw]%release_view. rewrite Ec. by eapply H10.
Qed.

(** The buffers that contexts list are not concerned. *)
Lemma release_keeps c l b' w G :
  ctx_view s !! c = Some l → b' ∈ l → buf_view s !! b' = Some w → has_table s w G →
  buf_view s' !! b' = Some w ∧ has_table s' w G.
Proof using All.
  intros Hl Hin Hw HG. assert (Hne : b' ≠ b).
  { intros E. apply (release_unlisted c l Hl). by rewrite <-E. }
  destruct (release_old b' w Hne Hw) as (K & HK & HK'). rewrite (has_table_inj _ _ _ _ HG HK).
  split; [by apply release_view|done].
Qed.

Lemma life_release : life s' m mk.
Proof using All. split; [apply bufs_ok_release|apply files_ok_release]. Qed.

End Release.

(** ** A store to a data page *)

(** A data page of a buffer is no page of a page table. *)
Lemma data_not_table s b b' v w F G q :
  bufs_ok s → buf_view s !! b = Some v → has_table s v F → q ∈ (fp_data F).*1 →
  buf_view s !! b' = Some w → has_table s w G → q ≠ fp_page G.
Proof.
  intros Hbk Hv HF Hq Hw HG. destruct (decide (b' = b)) as [->|Hneb].
  - simplify_eq. rewrite <-(has_table_inj _ _ _ _ HF HG). intros ->.
    destruct HF as (_ & _ & HF). apply ptw_nodup, NoDup_cons in HF as [? _]. done.
  - destruct (bk_disj _ Hbk b b' v w F G) as (_ & _ & Hd); try done. intros ->.
    apply (Hd (fp_page G)); [by right|by left].
Qed.

Lemma table_store s b v F q mq mq' :
  bufs_ok s → buf_view s !! b = Some v → has_table s v F → q ∈ (fp_data F).*1 →
  dmas s !! q = Some mq → dp_handle mq' = dp_handle mq → length (dp_words mq') = length (dp_words mq) →
  ∀ b' w G, buf_view s !! b' = Some w → has_table s w G → has_table (upd_dma q mq' s) w G.
Proof.
  intros Hbk Hv HF Hq Hm Eh El b' w G Hw HG.
  assert (Hne : q ≠ fp_page G) by by eapply (data_not_table s b b').
  destruct HG as (? & ? & [? ? ? ? ? ? ? ? (mm & Hmm & Hr) Hpg]). split_and!; [done..|].
  split; try done; simpl.
  - exists mm. by rewrite lookup_insert_ne.
  - intros q' Hq'. destruct (Hpg q' Hq') as (m' & Hm' & Eh' & El').
    destruct (decide (q = q'.1)) as [Eq|]; [|exists m'; by rewrite lookup_insert_ne].
    exists mq'. rewrite Eq, lookup_insert_eq. rewrite Eq in Hm. simplify_eq. split_and!; congruence.
Qed.

Lemma life_store s m mk b v F q mq mq' :
  life s m mk → buf_view s !! b = Some v → has_table s v F → q ∈ (fp_data F).*1 →
  dmas s !! q = Some mq → dp_handle mq' = dp_handle mq → length (dp_words mq') = length (dp_words mq) →
  life (upd_dma q mq' s) m mk.
Proof.
  intros [Hbk Hf] Hv HF Hq Hm Eh El.
  pose proof (table_store s b v F q mq mq' Hbk Hv HF Hq Hm Eh El) as Htab.
  destruct Hbk as [Ht Hdj Hown Hnd Hal].
  assert (Hinv : ∀ b' w G, buf_view s !! b' = Some w → has_table (upd_dma q mq' s) w G → has_table s w G).
  { intros b' w G Hw HG. destruct (Ht b' w Hw) as (_ & K & HK).
    by rewrite (has_table_inj _ _ _ _ HG (Htab _ _ _ Hw HK)). }
  split; [|by destruct Hf; split]. split; try done.
  - intros b' w Hw. destruct (Ht b' w Hw) as (? & G & ?). eauto 6.
  - intros b1 b2 v1 v2 F1 F2 Hv1 Hv2 ? HF1 HF2. apply (Hdj b1 b2 v1 v2); try done; by eapply Hinv.
Qed.

End Life.
