(* ===== verification/Invariant.v ===== *)
(** The driver's global invariant: how the device, its work queue, the slot
    table, the contexts, the buffers and the files of a running system fit
    together, and how the changes of memory made by the work thread and by
    the system calls preserve it. *)

From S2P Require Import Prelude Cmd Types Utils Slots Pt Task Wt Buffer Base Syscall WtSpec BufferSpec IoctlSpec Lifetime.

Section Invariant.
Context `{Hardware, Kernel}.
Variable d : ptr.

(** ** Counting the tasks of a context *)

Definition ctx_of (s : state) (t : ptr) : option ptr := task_ctx <$> tasks s !! t.
Definition count (s : state) (c : ptr) (q : list ptr) : Z :=
  Z.of_nat (length (filter (λ t, ctx_of s t = Some c) q)).

Lemma count_nonneg s c q : 0 ≤ count s c q.
Proof. unfold count. lia. Qed.

Lemma count_app s c q q' : count s c (q ++ q') = count s c q + count s c q'.
Proof. unfold count. rewrite filter_app, length_app. lia. Qed.

Lemma count_cons s c t q :
  count s c (t :: q) = (if decide (ctx_of s t = Some c) then 1 else 0) + count s c q.
Proof.
  unfold count. case_decide.
  - rewrite filter_cons_True by done. simpl. lia.
  - rewrite filter_cons_False by done. lia.
Qed.

Lemma count_ext s s' c q :
  (∀ t, t ∈ q → ctx_of s' t = ctx_of s t) → count s' c q = count s c q.
Proof.
  induction q as [|t q IH]; intros E; [done|]. rewrite !count_cons.
  rewrite IH by (intros; apply E; by right). by rewrite E by by left.
Qed.

Lemma count_zero s c q : (∀ t, t ∈ q → ctx_of s t ≠ Some c) → count s c q = 0.
Proof.
  induction q as [|t q IH]; intros Hq; [done|]. rewrite count_cons.
  rewrite decide_False by (apply Hq; by left). apply IH. intros; apply Hq; by right.
Qed.

Lemma count_zero_inv s c q t : count s c q = 0 → t ∈ q → ctx_of s t ≠ Some c.
Proof.
  induction q as [|t' q IH]; [by intros _ ?%elem_of_nil|]. rewrite count_cons.
  pose proof (count_nonneg s c q). intros Hz [->|Hin]%elem_of_cons Ht.
  - rewrite decide_True in Hz by done. lia.
  - apply IH; [|done..]. case_decide; lia.
Qed.

(** ** The invariant *)

(** A queued task: its context is alive and lists its output buffer and its
    command buffer; its commands are in memory. *)
Record task_ok (s : state) (task : dicedev_task) : Prop := {
  tk_ctx : ∃ l, ctx_view s !! task_ctx task = Some l ∧ buff_out task ∈ l ∧
    ∀ r, body task = DICEDEV_TASK_TYPE_RUN r → cBuff r ∈ l;
  tk_res : 0 ≤ task_results task < 2 ^ 64;
  tk_data : match body task with
    | DICEDEV_TASK_TYPE_WRITE w => ∃ ws, cmds s !! tw_cmd w = Some ws ∧
        cmd_size w = 4 * Z.of_nat (length ws) ∧ cmd_size w < 2 ^ 64
    | DICEDEV_TASK_TYPE_RUN r => ∃ v F, buf_view s !! cBuff r = Some v ∧ has_table s v F ∧
        0 ≤ tr_offset r ∧ tr_offset r mod 4 = 0 ∧ 0 ≤ tr_size r ∧ tr_size r mod 4 = 0 ∧
        tr_offset r + tr_size r ≤ max_size (fp_tbl F)
    end;
}.

(** A context: its task count is the number of its tasks in the queue [q]. *)
Record ctx_ok (s : state) (q : list ptr) (c : ptr) (ctx : dicedev_context) : Prop := {
  co_dev : ctx_dev ctx = d;
  co_count : task_count ctx = count s c q;
  co_bound : task_count ctx < 2 ^ 64;
}.

(** The work queue: [q] holds every task once. *)
Record queue_ok (s : state) (q : list ptr) : Prop := {
  qo_nodup : NoDup q;
  qo_queue t : t ∈ q ↔ is_Some (tasks s !! t);
  qo_task t task : tasks s !! t = Some task → task_ok s task;
  qo_ctx c ctx : ctxs s !! c = Some ctx → ctx_ok s q c ctx;
}.

(** The device and its slot table. *)
Record dev_ok (s : state) (x : dicedev_device) : Prop := {
  do_dev : devs s !! d = Some x;
  do_slock : slock x = false;
  do_feed : feed_lock x = false;
  do_slots : slots_ok s d x;
}.

Definition readers_ok (s : state) : Prop :=
  ∀ b buf, bufs s !! b = Some buf → reader_ok (reader buf).

(** Memory, given the device [x], the tasks [q] in its care, the mappings [m]
    and the contexts [mk] under release. *)
Record mem_inv (s : state) (x : dicedev_device) (q : list ptr) (m : references) (mk : list ptr) : Prop := {
  mi_dev : dev_ok s x;
  mi_queue : queue_ok s q;
  mi_life : life d s m mk;
  mi_readers : readers_ok s;
}.

(** The tasks in the care of the device: the running one, the one the work
    thread holds, the pending ones; oldest first. *)
Definition in_flight (x : dicedev_device) (nt : option ptr) : list ptr :=
  option_list (running_task x) ++ option_list nt ++ pending_tasks x.

(** The state of the driver and of the work thread: a task is running iff a
    fence is outstanding, and the device is in service. *)
Record inv (s : state) (x : dicedev_device) (nt : option ptr) (m : references) (mk : list ptr) : Prop := {
  inv_mem : mem_inv s x (in_flight x nt) m mk;
  inv_fence : fence_state x = DICEDEV_FENCE_STATE_NONE ↔ running_task x = None;
  inv_service : in_service x = true;
}.

(** ** Changes that lifetimes do not see *)

Lemma same_life_ctx s c ctx ctx' :
  ctxs s !! c = Some ctx → allocated_buffers ctx' = allocated_buffers ctx →
  same_life s (upd_ctx c ctx' s).
Proof.
  intros Hc E. split; try done. unfold ctx_view. simpl. rewrite fmap_insert. symmetry.
  apply insert_id. by rewrite lookup_fmap, Hc, E.
Qed.

Lemma same_life_buf s b buf buf' :
  bufs s !! b = Some buf → life_of buf' = life_of buf → same_life s (upd_buf b buf' s).
Proof.
  intros Hb E. split; try done. unfold buf_view. simpl. rewrite fmap_insert. symmetry.
  apply insert_id. by rewrite lookup_fmap, Hb, E.
Qed.

Lemma same_life_dev s y : same_life s (upd_dev d y s).
Proof. by split. Qed.
Lemma same_life_task s t task : same_life s (upd_task t task s).
Proof. by split. Qed.
Hint Resolve same_life_dev same_life_task : core.

Lemma same_life_destroyed s t task ctx buf x h :
  ctxs s !! task_ctx task = Some ctx → bufs s !! buff_out task = Some buf →
  same_life s (destroyed_task t d task ctx buf x h s).
Proof.
  intros Hctx Hbuf. etrans; [eapply (same_life_ctx s _ ctx (ctx_done ctx)); done|].
  etrans; [eapply (same_life_buf _ (buff_out task) buf); [done|]|by split].
  by destruct (frees_slot task ctx buf).
Qed.

(** ** Keeping the objects of a context *)

(** [s'] still has what context [c] and its buffers had in [s], and the
    command arrays. *)
Definition keeps (s s' : state) (c : ptr) : Prop :=
  cmds s ⊆ cmds s' ∧
  ∀ l, ctx_view s !! c = Some l → ∃ l', ctx_view s' !! c = Some l' ∧
    ∀ b, b ∈ l → b ∈ l' ∧ ∀ v F, buf_view s !! b = Some v → has_table s v F →
      ∃ v', buf_view s' !! b = Some v' ∧ has_table s' v' F.

Lemma keeps_views s s' c :
  ctx_view s' = ctx_view s → buf_view s' = buf_view s → pts s' = pts s → pgarrs s' = pgarrs s →
  dmas s' = dmas s → cmds s ⊆ cmds s' → keeps s s' c.
Proof.
  intros E1 E2 E3 E4 E5 Hc. split; [done|]. intros l Hl. exists l. rewrite E1, E2.
  split; [done|]. intros b Hb. split; [done|]. intros v F Hv HF. exists v. split; [done|].
  by apply (has_table_eq s).
Qed.

Lemma keeps_same s s' c : same_life s s' → cmds s ⊆ cmds s' → keeps s s' c.
Proof. intros []. by apply keeps_views. Qed.

Lemma task_ok_keep s s' task : keeps s s' (task_ctx task) → task_ok s task → task_ok s' task.
Proof.
  intros [Hc Hk] [(l & Hl & Hin & Hcb) Hr Hd]. destruct (Hk l Hl) as (l' & Hl' & Hb). split; [|done|].
  - exists l'. split_and!; [done|by apply Hb|]. intros r Er. by apply Hb, Hcb.
  - destruct (body task) as [w|r] eqn:Eb.
    + destruct Hd as (ws & ? & ? & ?). exists ws. split_and!; try done. by eapply lookup_weaken.
    + destruct Hd as (v & F & Hv & HF & ?). destruct (Hb (cBuff r)) as [_ Hbb]; [by apply Hcb|].
      destruct (Hbb v F Hv HF) as (v' & ? & ?). by exists v', F.
Qed.

(** The queue when tasks stay and contexts stay or are new. *)
Lemma queue_ok_keep s s' q :
  queue_ok s q → tasks s' = tasks s →
  (∀ t task, tasks s !! t = Some task → keeps s s' (task_ctx task)) →
  (∀ c ctx', ctxs s' !! c = Some ctx' →
     (∃ ctx, ctxs s !! c = Some ctx ∧ ctx_dev ctx' = ctx_dev ctx ∧ task_count ctx' = task_count ctx) ∨
     (ctxs s !! c = None ∧ ctx_dev ctx' = d ∧ task_count ctx' = 0)) →
  queue_ok s' q.
Proof.
  intros [Hnd Hq Ht Hc] Et Hk Hctx.
  assert (Hco : ∀ t, ctx_of s' t = ctx_of s t) by (intros t; unfold ctx_of; by rewrite Et).
  split; rewrite ?Et; try done.
  - intros t task Htask. eapply task_ok_keep; [by eapply Hk|by eapply Ht].
  - intros c ctx' Hc'.
    destruct (Hctx c ctx' Hc') as [(ctx & Hcc & E1 & E2)|(Hcc & E1 & E2)].
    + destruct (Hc c ctx Hcc) as [? Hcnt ?]. split; [congruence|rewrite E2|lia].
      rewrite Hcnt. symmetry. by apply count_ext.
    + split; [done|rewrite E2|lia]. symmetry. apply count_zero. intros t Hin. rewrite Hco.
      apply Hq in Hin as [task Htask]. unfold ctx_of. rewrite Htask. simpl. intros [= <-].
      destruct (Ht t task Htask) as [(l & Hl & _) _ _]. apply ctx_view_Some in Hl as (ctx & ? & _).
      congruence.
Qed.

(** ** Elementary changes *)

(** A change of memory that keeps the tasks, the contexts up to [failed], and
    everything lifetimes depend on. *)
Lemma mem_inv_same s s' x y q m mk :
  mem_inv s x q m mk → same_life s s' → cmds s ⊆ cmds s' → tasks s' = tasks s →
  (∀ c ctx', ctxs s' !! c = Some ctx' → ∃ ctx, ctxs s !! c = Some ctx ∧
     ctx_dev ctx' = ctx_dev ctx ∧ task_count ctx' = task_count ctx) →
  dev_ok s' y → readers_ok s' → mem_inv s' y q m mk.
Proof.
  intros [Hd Hq Hl Hr] E Ec Et Hctx Hd' Hr'. split; try done.
  - apply (queue_ok_keep s); try done; [|by left; apply Hctx].
    intros t task _. by apply keeps_same.
  - by apply (life_same d s).
Qed.

(** Any change of the device that leaves slots and locks alone. *)
Lemma mem_inv_dev s x y q m mk :
  mem_inv s x q m mk → same_table x y → slock y = false → feed_lock y = false →
  mem_inv (upd_dev d y s) y q m mk.
Proof.
  intros Hmi Ey Hl Hf. eapply (mem_inv_same s _ x); try done; [eauto| |by destruct Hmi].
  destruct Hmi as [[_ _ _ Hok] _ _ _].
  split; try done; [apply devs_upd_dev|by apply (slots_ok_same s _ d x)].
Qed.

(** The failure of a context. *)
Lemma mem_inv_ctx_fail s x q m mk c ctx b :
  mem_inv s x q m mk → ctxs s !! c = Some ctx →
  mem_inv (upd_ctx c (ctx <| ctx_failed := b |>) s) x q m mk.
Proof.
  intros Hmi Hc. eapply (mem_inv_same s _ x); try done.
  - by eapply same_life_ctx.
  - intros c' ctx'. simpl. intros [[<- <-]|[_ ?]]%lookup_insert_Some; eauto.
  - destruct Hmi as [[? ? ? ?] _ _ _]. split; try done. by apply (slots_ok_same s _ d x).
  - by destruct Hmi.
Qed.

(** A change of a buffer that keeps its lifetime, together with a device that
    agrees on the slots. *)
Lemma mem_inv_buf s x y q m mk b buf buf' :
  mem_inv s x q m mk → bufs s !! b = Some buf → slock y = false → feed_lock y = false →
  life_of buf' = life_of buf → reader_ok (reader buf') → slots_ok (upd_buf b buf' s) d y →
  mem_inv (upd_dev d y (upd_buf b buf' s)) y q m mk.
Proof.
  intros Hmi Hb Hly Hfy E Hr Hok. eapply (mem_inv_same s _ x); try done.
  - etrans; [by eapply same_life_buf|done].
  - eauto.
  - split; [apply devs_upd_dev|done..|]. by apply (slots_ok_same (upd_buf b buf' s) _ d y).
  - intros b' buf''. simpl. intros [[<- <-]|[_ ?]]%lookup_insert_Some; [done|].
    by eapply (mi_readers _ _ _ _ _ Hmi).
Qed.

(** A change of a buffer that the device does not see. *)
Lemma mem_inv_buf_only s x q m mk b buf buf' :
  mem_inv s x q m mk → bufs s !! b = Some buf → life_of buf' = life_of buf →
  binded_slot buf' = binded_slot buf → reader_ok (reader buf') →
  mem_inv (upd_buf b buf' s) x q m mk.
Proof.
  intros Hmi Hb E Es Hr. pose proof Hmi as [[Hd Hsl Hfl Hok] _ _ _].
  rewrite <-(upd_dev_id d x (upd_buf b buf' s)) by done.
  eapply mem_inv_buf; try done. eapply slots_ok_same; [|done|exact Hok]. symmetry.
  eapply same_slots_upd_buf; [done| |done]. by injection E.
Qed.

(** A change of the results of a queued task. *)
Lemma mem_inv_task s x q m mk t task task' :
  mem_inv s x q m mk → tasks s !! t = Some task → task_ctx task' = task_ctx task →
  task_ok s task' → mem_inv (upd_task t task' s) x q m mk.
Proof.
  intros [[Hd Hsl Hfl Hok] [Hnd Hq Ht Hc] Hlf Hr] Htask E1 Hok'.
  assert (Hctx : ∀ t', ctx_of (upd_task t task' s) t' = ctx_of s t').
  { intros t'. unfold ctx_of. simpl. destruct (decide (t' = t)) as [->|].
    - by rewrite lookup_insert_eq, Htask; simpl; rewrite E1.
    - by rewrite lookup_insert_ne. }
  split; [|split; try done|by apply (life_same d s)|done].
  - split; try done. by apply (slots_ok_same s _ d x).
  - intros t'. rewrite Hq. simpl. rewrite lookup_insert_is_Some'. split; [by right|].
    intros [<-|?]; [by eexists|done].
  - intros t' task''. simpl. intros [[<- <-]|[Hne Ht']]%lookup_insert_Some;
      (eapply (task_ok_keep s); [by apply keeps_same|]); eauto.
  - intros c ctx Hctx'. destruct (Hc c ctx Hctx') as [? Hcnt ?]. split; try done.
    rewrite Hcnt. symmetry. by apply count_ext.
Qed.

(** ** Queueing and finishing tasks *)

(** A new task for context [c]. *)
Lemma mem_inv_enqueue s s' x y q m mk t task c ctx :
  mem_inv s x q m mk → tasks s !! t = None → task_ok s' task → task_ctx task = c →
  ctxs s !! c = Some ctx → task_count ctx + 1 < 2 ^ 64 →
  same_table x y → slock y = false → feed_lock y = false →
  devs s' !! d = Some y → tasks s' = <[t := task]> (tasks s) →
  ctxs s' = <[c := ctx_more ctx]> (ctxs s) → bufs s' = bufs s → same_life s s' → cmds s ⊆ cmds s' →
  mem_inv s' y (q ++ [t]) m mk.
Proof.
  intros [[Hd Hsl Hfl Hok] [Hnd Hq Ht Hc] Hlf Hr] Hnew Htask Ec Hctx Hlt Ey Hly Hfy Ed Et Ectx Eb Elf Ecm.
  assert (Hnq : t ∉ q) by (rewrite Hq, Hnew; intros [? [=]]).
  assert (Hold : ∀ c', count s' c' q = count s c' q).
  { intros c'. apply count_ext. intros t' Ht'. unfold ctx_of. rewrite Et.
    rewrite lookup_insert_ne; [done|by intros ->]. }
  assert (Hone : ∀ c', count s' c' [t] = if decide (c = c') then 1 else 0).
  { assert (E : ctx_of s' t = Some c).
    { unfold ctx_of. rewrite Et, lookup_insert_eq. simpl. by rewrite Ec. }
    intros c'. rewrite count_cons. change (count s' c' []) with 0.
    repeat case_decide; congruence || lia. }
  split; [|split|by apply (life_same d s)|unfold readers_ok; by rewrite Eb].
  - split; try done. apply (slots_ok_same s _ d x); try done. unfold same_slots, slot_view. by rewrite Eb.
  - apply NoDup_app. split; [done|]. split; [|apply NoDup_singleton].
    intros t' ? ->%list_elem_of_singleton. done.
  - intros t'. rewrite elem_of_app, list_elem_of_singleton, Hq, Et.
    rewrite lookup_insert_is_Some'. split; [intros [?| ->]; tauto|intros [<-|?]; tauto].
  - intros t' task'. rewrite Et. intros [[<- <-]|[Hne Ht']]%lookup_insert_Some; [done|].
    eapply task_ok_keep; [by apply keeps_same|]. eauto.
  - intros c' ctx'. rewrite Ectx. intros [[<- <-]|[Hne Hc']]%lookup_insert_Some.
    + destruct (Hc c ctx Hctx) as [? Hcnt ?]. pose proof (count_nonneg s c q).
      split; simpl; [done|..]; rewrite u64_small by lia; [|lia].
      rewrite count_app, Hold, Hone, decide_True by done. lia.
    + destruct (Hc c' ctx' Hc') as [? Hcnt ?]. split; try done.
      rewrite count_app, Hold, Hone, decide_False by done. lia.
Qed.

(** Every queued task can be finished. *)
Lemma mem_inv_finishable s x q m mk t :
  mem_inv s x q m mk → t ∈ q → ∃ task ctx buf, finishable s t d task ctx buf x.
Proof.
  intros [[Hd Hsl Hfl Hok] [Hnd Hq Ht Hc] [Hb _] Hr] [task Htask]%Hq.
  destruct (Ht t task Htask) as [(l & Hl & Hin & _) _ _].
  destruct (bk_owned _ _ Hb _ _ _ Hl Hin) as (v & p & n & Hv & _).
  destruct (bk_table _ _ Hb _ _ Hv) as [Hdev _].
  apply ctx_view_Some in Hl as (ctx & Hctx & _). apply buf_view_Some in Hv as (buf & Hbuf & <-).
  destruct (Hc _ ctx Hctx) as [? _ _]. exists task, ctx, buf. by split.
Qed.

(** Memory once task [t] is accounted for and freed. *)
Definition accounted (t : ptr) (task : dicedev_task) (ctx : dicedev_context) (buf : dicedev_buffer)
    (s : state) : state :=
  (upd_buf (buff_out task) (buf_publish (task_results task) buf)
    (upd_ctx (task_ctx task) (ctx_done ctx) s)) <| tasks := delete t (tasks s) |>.

Lemma mem_inv_account s x q1 t q2 m mk task ctx buf :
  mem_inv s x (q1 ++ t :: q2) m mk → tasks s !! t = Some task →
  ctxs s !! task_ctx task = Some ctx → bufs s !! buff_out task = Some buf →
  mem_inv (accounted t task ctx buf s) x (q1 ++ q2) m mk.
Proof.
  intros [[Hd Hsl Hfl Hok] [Hnd Hq Ht Hc] Hlf Hr] Htask Hctx Hbuf.
  set (s' := accounted t task ctx buf s) in *.
  apply NoDup_app in Hnd as (Hnd1 & Hdis & Hnd2). apply NoDup_cons in Hnd2 as [Hn2 Hnd2].
  assert (Hn1 : t ∉ q1) by (intros Hin; apply (Hdis t Hin); by left).
  assert (Hdel : ∀ t', t' ∈ q1 ++ q2 → t' ≠ t) by (intros t' Hin ->; apply elem_of_app in Hin; tauto).
  assert (Hsame : same_life s s').
  { etrans; [eapply (same_life_ctx s _ ctx (ctx_done ctx)); done|].
    etrans; [by eapply (same_life_buf _ (buff_out task) buf (buf_publish (task_results task) buf))|by split]. }
  assert (Hold : ∀ c, count s' c (q1 ++ q2) = count s c (q1 ++ q2)).
  { intros c. apply count_ext. intros t' Hin. unfold ctx_of, s'. simpl.
    rewrite lookup_delete_ne; [done|]. intros <-. by apply (Hdel t). }
  assert (Hsum : ∀ c, count s c (q1 ++ t :: q2) =
    (if decide (task_ctx task = c) then 1 else 0) + count s c (q1 ++ q2)).
  { intros c. rewrite !count_app, count_cons.
    assert (E : ctx_of s t = Some (task_ctx task)) by (unfold ctx_of; by rewrite Htask).
    rewrite E. repeat case_decide; congruence || lia. }
  split; [|split|by apply (life_same d s)|].
  - split; try done. eapply slots_ok_same; [|done|exact Hok].
    symmetry. by eapply (same_slots_upd_buf s (buff_out task) buf).
  - apply NoDup_app. split; [done|]. split; [|done]. intros t' H1 H2. apply (Hdis t' H1). by right.
  - intros t'. simpl. rewrite lookup_delete_is_Some, <-Hq.
    rewrite !elem_of_app, elem_of_cons. split; [|intros [? [?|[->|?]]]; tauto].
    intros Hin. split; [|tauto]. intros <-. by apply (Hdel t); [apply elem_of_app|].
  - intros t' task'. simpl. intros [_ Ht']%lookup_delete_Some.
    eapply (task_ok_keep s); [by apply keeps_same|]. eauto.
  - intros c ctx'. simpl. intros [[<- <-]|[Hne Hc']]%lookup_insert_Some.
    + destruct (Hc _ ctx Hctx) as [? Hcnt ?]. rewrite Hsum, decide_True in Hcnt by done.
      pose proof (count_nonneg s (task_ctx task) (q1 ++ q2)).
      split; simpl; [done|..]; rewrite u64_small by lia; [|lia]. rewrite Hold. lia.
    + destruct (Hc c ctx' Hc') as [? Hcnt ?]. rewrite Hsum, decide_False in Hcnt by done.
      split; try done. rewrite Hold. lia.
  - intros b buf'. simpl. intros [[<- <-]|[Hne Hb']]%lookup_insert_Some; [|by eapply Hr].
    destruct (Hr _ _ Hbuf) as [? _]. split; simpl; [done|apply u64_range].
Qed.

(** The first section of [__task_destroy]. *)
Lemma mem_inv_unslot s x q m mk t task ctx buf h :
  let fr := frees_slot task ctx buf in
  mem_inv s x q m mk → finishable s t d task ctx buf x →
  mem_inv (upd_dev d (dev_freed fr (slot_of buf) h x) (upd_buf (buff_out task) (buf_freed fr buf) s))
    (dev_freed fr (slot_of buf) h x) q m mk.
Proof.
  intros fr Hmi [_ _ _ Hb Hbd Hd Hl Hf Hok]. pose proof (mi_readers _ _ _ _ _ Hmi _ _ Hb) as Hr.
  destruct fr eqn:Efr; simpl; [|by rewrite upd_buf_id, upd_dev_id].
  apply andb_prop in Efr as [Hbound%negb_true_iff%Z.eqb_neq _].
  destruct (slots_ok_slot_of _ _ _ _ _ Hok Hb Hbd Hbound) as (Hs & Hx & _).
  eapply (mem_inv_buf s x); try done. by eapply (slots_ok_unbind s _ d x).
Qed.

Lemma mem_inv_destroy s x q1 t q2 m mk task ctx buf h :
  mem_inv s x (q1 ++ t :: q2) m mk → finishable s t d task ctx buf x →
  mem_inv (destroyed_task t d task ctx buf x h s)
    (dev_freed (frees_slot task ctx buf) (slot_of buf) h x) (q1 ++ q2) m mk.
Proof.
  intros Hmi Hfi. pose proof (mem_inv_unslot _ _ _ _ _ _ _ _ _ h Hmi Hfi) as Hmi1.
  destruct Hfi as [Ht Hc _ Hb _ _ _ _ _].
  pose proof (mem_inv_account _ _ _ _ _ _ _ task ctx (buf_freed (frees_slot task ctx buf) buf)
    Hmi1 Ht Hc (bufs_upd_buf _ _ _)) as Hmi2.
  unfold accounted in Hmi2. unfold destroyed_task. cbn [tasks upd_dev upd_buf update] in *.
  unfold upd_dev, upd_buf, upd_ctx in *. simpl in *. by rewrite insert_insert_eq in Hmi2.
Qed.

End Invariant.
