(* ===== verification/Thread.v ===== *)
(** One iteration of the work thread under the global invariant: it always
    completes, preserves the invariant, and does one of six things. *)

From S2P Require Import Prelude Cmd Types Utils Slots Pt Task Stream Wt Buffer Base Syscall WtSpec BufferSpec IoctlSpec Lifetime Invariant.

(** A command stream that does not end inside a GET_DIE command (before a
    command that is refused anyway). *)
Fixpoint framed (ws : list Z) : bool :=
  match ws with
  | [] => true
  | c0 :: ws =>
      let ty := Z.land c0 DICEDEV_CMD_TYPE_MASK in
      if (ty =? DICEDEV_USER_CMD_TYPE_NOP) || (ty =? DICEDEV_USER_CMD_TYPE_NEW_SET) then framed ws
      else if ty =? DICEDEV_USER_CMD_TYPE_GET_DIE
      then match ws with [] => false | _ :: ws => framed ws end
      else true
  end.

Lemma framed_translate slot al ws : framed ws = true → is_Some (translate slot al ws).
Proof.
  induction ws as [ws IH] using (induction_ltof1 _ length). unfold ltof in IH.
  destruct ws as [|c0 ws]; [by eexists|]. cbn [framed translate]. intros Hf.
  destruct (_ =? DICEDEV_USER_CMD_TYPE_NOP); simpl in Hf; [apply IH; [simpl; lia|done]|].
  destruct (Z.eqb_spec (Z.land c0 DICEDEV_CMD_TYPE_MASK) DICEDEV_USER_CMD_TYPE_NEW_SET) as [E|E].
  - rewrite E. simpl. destruct (_ =? 0); [|by eexists]. apply fmap_is_Some, IH; [simpl; lia|done].
  - destruct (_ =? DICEDEV_USER_CMD_TYPE_GET_DIE); [|by eexists].
    destruct ws as [|c1 ws]; [done|]. destruct (get_die_ok _ _ _); [|by eexists].
    apply fmap_is_Some, IH; [simpl; lia|done].
Qed.

(** Every command of the stream is one the work thread accepts for a buffer
    that allows the dice [al]. *)
Fixpoint legal (al : Z) (ws : list Z) : bool :=
  match ws with
  | [] => true
  | c0 :: ws =>
      let ty := Z.land c0 DICEDEV_CMD_TYPE_MASK in
      if ty =? DICEDEV_USER_CMD_TYPE_NOP then legal al ws
      else if ty =? DICEDEV_USER_CMD_TYPE_GET_DIE then
        match ws with [] => true | c1 :: ws => get_die_ok al c0 c1 && legal al ws end
      else if ty =? DICEDEV_USER_CMD_TYPE_NEW_SET then (Z.land c0 NEW_SET_SLOT_MASK =? 0) && legal al ws
      else false
  end.

(** Whether a translation meets a refused command does not depend on the slot. *)
Lemma translate_legal slot al ws r : translate slot al ws = Some r → tr_ok r = legal al ws.
Proof.
  revert r. induction ws as [ws IH] using (induction_ltof1 _ length). unfold ltof in IH.
  intros r. destruct ws as [|c0 ws]; cbn [translate legal]; [by intros [= <-]|].
  destruct (_ =? DICEDEV_USER_CMD_TYPE_NOP); [apply IH; simpl; lia|].
  destruct (_ =? DICEDEV_USER_CMD_TYPE_GET_DIE).
  - destruct ws as [|c1 ws]; [done|]. destruct (get_die_ok _ _ _); [|by intros [= <-]].
    intros (r' & Hr & ->)%fmap_Some. simpl. by apply IH; [simpl; lia|].
  - destruct (_ =? DICEDEV_USER_CMD_TYPE_NEW_SET); [|by intros [= <-]].
    destruct (_ =? 0); [|by intros [= <-]].
    intros (r' & Hr & ->)%fmap_Some. simpl. by apply IH; [simpl; lia|].
Qed.

Section Thread.
Context `{Hardware, Kernel, !HardwareLaws}.
Variables (d : ptr) (m : references) (mk : list ptr).

(** The commands of task [t] are framed; a run has a non-empty range. *)
Definition well_framed (s : state) (t : ptr) : Prop :=
  ∀ task, tasks s !! t = Some task →
    (∀ r, body task = DICEDEV_TASK_TYPE_RUN r → 0 < tr_size r) ∧
    ∀ ws, task_words s task ws → framed ws = true.

(** The words of a queued task are in memory. *)
Lemma task_ok_words s task :
  task_ok s task → (∀ r, body task = DICEDEV_TASK_TYPE_RUN r → 0 < tr_size r) →
  ∃ ws, task_words s task ws.
Proof.
  intros [_ _ Hd] Hpos. unfold task_words. destruct (body task) as [w|r].
  - destruct Hd as (ws & ? & ? & ?). by exists ws.
  - destruct Hd as (v & F & Hv & (Hp & Ht & Hwf) & ? & ? & ? & ? & ?).
    apply buf_view_Some in Hv as (cbuf & Hcb & <-). eexists.
    exists cbuf, (fp_pt F), (fp_tbl F), (fp_page F), (fp_bus F), (fp_arr F), (fp_data F).
    split_and!; try done. by apply Hpos.
Qed.

(** A task that was run keeps its commands and its buffers. *)
Lemma task_ok_ran s task b' n :
  task_ok s task → same_source (body task) b' →
  task_ok s (task <| body := b' |> <| task_results := u64 n |>).
Proof.
  intros [(l & Hl & Hin & Hc) Hr Hd] Hs. split; simpl; [|apply u64_range|].
  - exists l. split_and!; [done..|]. intros r ->. destruct (body task) as [w0|r0]; [done|].
    destruct Hs as (-> & _). by apply Hc.
  - destruct (body task) as [w0|r0], b' as [w1|r1]; try done; simpl in Hs.
    + by destruct Hs as [-> ->].
    + by destruct Hs as (-> & -> & ->).
Qed.

(** What one iteration does, from device [x] and held task [nt]. *)
Inductive wt_effect (s s' : state) (x x' : dicedev_device) (nt nt' : option ptr) : Prop :=
  | eff_sleep :
      event_of x (nt ≫= out_slot s) = WT_NO_EVENT →
      x' = x <| wt_sleeping := true |> → s' = upd_dev d x' s → nt' = nt →
      wt_effect s s' x x' nt nt'
  | eff_next t rest :
      nt = None → nt' = Some t → pending_tasks x = t :: rest → x' = dev_dequeue rest x →
      s' = upd_dev d x' s → wt_effect s s' x x' nt nt'
  | eff_drop t rest task ctx buf h :
      nt = None → nt' = None → pending_tasks x = t :: rest →
      tasks s !! t = Some task → ctxs s !! task_ctx task = Some ctx → bufs s !! buff_out task = Some buf →
      ctx_failed ctx = true →
      x' = dev_freed (frees_slot task ctx buf) (slot_of buf) h (dev_dequeue rest x) →
      s' = destroyed_task t d task ctx buf (dev_dequeue rest x) h (upd_dev d (dev_dequeue rest x) s) →
      wt_effect s s' x x' nt nt'
  | eff_bind t task buf slot h l :
      nt = Some t → nt' = nt → tasks s !! t = Some task → bufs s !! buff_out task = Some buf →
      fence_state x = DICEDEV_FENCE_STATE_NONE → binded_slot buf = DICEDEV_BUFFER_NO_SLOT →
      x' = dev_io h l (dev_bind slot (buff_out task) x) →
      s' = upd_dev d x' (upd_buf (buff_out task) (buf_reset (buf_bind slot buf)) s) →
      wt_effect s s' x x' nt nt'
  | eff_run t task ctx buf ws h b' r :
      nt = Some t → nt' = None → running_task x = None → fence_state x = DICEDEV_FENCE_STATE_NONE →
      tasks s !! t = Some task → ctxs s !! task_ctx task = Some ctx →
      bufs s !! buff_out task = Some buf → binded_slot buf ≠ DICEDEV_BUFFER_NO_SLOT →
      task_words s task ws → translate (binded_slot buf) (allowed buf) ws = Some r →
      x' = dev_io h (feeds (concat (tr_fed r)) ++ fence_log)
             (x <| fence_state := DICEDEV_FENCE_STATE_WAITING |> <| running_task := Some t |>) →
      s' = task_sent t task ctx x h b' r s → wt_effect s s' x x' nt nt'
  | eff_finish t task ctx buf h :
      nt' = nt → running_task x = Some t → fence_state x = DICEDEV_FENCE_STATE_REACHED →
      tasks s !! t = Some task → ctxs s !! task_ctx task = Some ctx → bufs s !! buff_out task = Some buf →
      x' = (dev_freed (frees_slot task ctx buf) (slot_of buf) h x)
             <| fence_state := DICEDEV_FENCE_STATE_NONE |> <| running_task := None |> →
      s' = upd_dev d x' (destroyed_task t d task ctx buf x h s) →
      wt_effect s s' x x' nt nt'.

(** The thread waits for a fence only after it has sent it. *)
Lemma effect_sent s s' x x' nt nt' : wt_effect s s' x x' nt nt' → fence_sent x → fence_sent x'.
Proof.
  intros [_ -> _ _|t rest _ _ _ -> _|t rest task ctx buf h _ _ _ _ _ _ _ -> _|
    t task buf slot h l _ _ _ _ Ef _ -> _|t task ctx buf ws h b' r _ _ _ _ _ _ _ _ _ _ -> _|
    t task ctx buf h _ _ _ _ _ _ -> _] Hs; try done.
  - intros E. apply fence_due_freed, Hs. by destruct (frees_slot task ctx buf).
  - intros E. simpl in E. congruence.
  - intros _. apply fence_due_sent.
Qed.

(** The task the thread holds has an output buffer. *)
Lemma inv_out_slot s x nt t :
  inv d s x nt m mk → nt = Some t → is_Some (out_slot s t).
Proof.
  intros [Hmi _ _] ->.
  destruct (mem_inv_finishable d s x _ m mk t Hmi) as (task & ctx & buf & [Ht _ _ Hb _ _ _ _ _]).
  { unfold in_flight. apply elem_of_app. right. by left. }
  unfold out_slot. rewrite Ht. simpl. by rewrite Hb.
Qed.

Lemma wp_iter_next s x nt (Q : option wt_state → state → Prop) :
  inv d s x nt m mk → nt = None → pending_tasks x ≠ [] →
  (∀ s' x' nt', inv d s' x' nt' m mk → wt_effect s s' x x' nt nt' → Q (Some (mkWt d nt')) s') →
  wp (t ← wt_get_next d; mret (Some (mkWt d t))) s Q.
Proof.
  intros [Hmi Hfe Hfa] -> Hp HQ. destruct (pending_tasks x) as [|t rest] eqn:Ep; [done|].
  assert (Hq : in_flight x None = option_list (running_task x) ++ t :: rest)
    by (unfold in_flight; by rewrite Ep). rewrite Hq in Hmi.
  destruct (mem_inv_finishable d s x _ m mk t Hmi) as (task & ctx & buf & Hfi); [apply elem_of_app; right; by left|].
  apply wp_bind. eapply wp_wt_get_next; [done|done|..].
  - intros _. wp_step. eapply (HQ _ (dev_dequeue rest x)); [split; [|done..]|].
    + by eapply (mem_inv_dev d s x); try done; apply Hmi.
    + by eapply eff_next.
  - intros h Hfailed. wp_step. set (y := dev_dequeue rest x).
    assert (Hmi' : mem_inv d (upd_dev d y s) y (option_list (running_task x) ++ t :: rest) m mk).
    { by eapply (mem_inv_dev d s x); try done; apply Hmi. }
    assert (Hfi' : finishable (upd_dev d y s) t d task ctx buf y).
    { destruct Hfi. split; try done; [apply devs_upd_dev|by apply (slots_ok_same s _ d x)]. }
    pose proof (mem_inv_destroy d _ y _ t rest m mk task ctx buf h Hmi' Hfi') as Hmi2.
    destruct (dev_freed_same (frees_slot task ctx buf) (slot_of buf) h y) as (E1 & E2 & E3 & E4).
    eapply (HQ _ (dev_freed (frees_slot task ctx buf) (slot_of buf) h y)).
    + split; [|by rewrite E1, E3|by rewrite E4].
      unfold in_flight. rewrite E1, E2. exact Hmi2.
    + by eapply (eff_drop _ _ _ _ _ _ t rest task ctx buf h); try done; destruct Hfi.
Qed.

Lemma in_flight_next x t : t ∈ in_flight x (Some t).
Proof. unfold in_flight. apply elem_of_app. right. by left. Qed.

Lemma wp_iter_bind s x t task buf (Q : option wt_state → state → Prop) :
  inv d s x (Some t) m mk → tasks s !! t = Some task → bufs s !! buff_out task = Some buf →
  fence_state x = DICEDEV_FENCE_STATE_NONE →
  binded_slot buf = DICEDEV_BUFFER_NO_SLOT → 0 < free_slots x →
  (∀ s' x' nt', inv d s' x' nt' m mk → wt_effect s s' x x' (Some t) nt' → Q (Some (mkWt d nt')) s') →
  wp (t ← deref (Some t); wt_bind d t;; mret (Some (mkWt d (Some t)))) s Q.
Proof.
  intros [Hmi Hfe Hfa] Ht Hb Hnone Hno Hfree HQ. wp_mem.
  destruct (life_table d _ _ _ _ _ (mi_life _ _ _ _ _ _ Hmi) Hb) as [Hbd (F & Hp & Hpt & _)].
  eapply wp_wt_bind; [apply Hmi..|done|done|done|done|done|]. intros slot h Hs Hj. wp_step.
  set (y := dev_io h (feeds (bind_words slot buf (fp_tbl F))) (dev_bind slot (buff_out task) x)).
  eapply (HQ _ y); [split; [|done..]|by eapply eff_bind].
  apply (mem_inv_buf d s x y _ _ _ _ buf); try done; [apply Hmi..|].
  eapply (slots_ok_bind s _ d x); [apply Hmi|done..].
Qed.

Lemma wp_iter_run s x t (Q : option wt_state → state → Prop) :
  inv d s x (Some t) m mk → fence_state x = DICEDEV_FENCE_STATE_NONE →
  out_slot s t ≠ Some DICEDEV_BUFFER_NO_SLOT → well_framed s t →
  (∀ s' x' nt', inv d s' x' nt' m mk → wt_effect s s' x x' (Some t) nt' → Q (Some (mkWt d nt')) s') →
  wp (t ← deref (Some t); wt_run d t;; mret (Some (mkWt d None))) s Q.
Proof.
  intros [Hmi Hfe Hfa] Hnone Hslot Hwf HQ. unfold deref. wp_steps.
  destruct (mem_inv_finishable d s x _ m mk t Hmi) as (task & ctx & buf & Hfi); [apply in_flight_next|].
  destruct Hfi as [Ht Hc Hcd Hb Hbd Hd Hl Hf Hok]. destruct (Hwf task Ht) as [Hpos Hall].
  pose proof (qo_task _ _ _ (mi_queue _ _ _ _ _ _ Hmi) t task Ht) as Htok.
  destruct (task_ok_words s task Htok Hpos) as [ws Hw]. pose proof (Hall ws Hw) as Hfr.
  assert (Hbound : binded_slot buf ≠ DICEDEV_BUFFER_NO_SLOT).
  { intros E. apply Hslot. unfold out_slot. rewrite Ht. simpl. by rewrite Hb, <-E. }
  destruct (framed_translate (binded_slot buf) (allowed buf) ws Hfr) as [r Hr].
  pose proof (tk_res _ _ Htok) as Hres.
  assert (Hrun : running_task x = None) by by apply Hfe.
  assert (Hra : runnable s t task ctx x buf). { by split; rewrite ?Hcd. }
  rewrite <-Hcd. eapply wp_wt_run; [exact Hra|done|done|done|]. intros h b' Hsrc. wp_step.
  set (y := dev_io h (feeds (concat (tr_fed r)) ++ fence_log)
    (x <| fence_state := DICEDEV_FENCE_STATE_WAITING |> <| running_task := Some t |>)).
  rewrite Hcd. eapply (HQ _ y); [split; [|done..]|].
  - assert (Hq : in_flight y None = in_flight x (Some t)).
    { unfold in_flight. simpl. by rewrite Hrun. }
    rewrite Hq. unfold task_sent. rewrite Hcd. fold y.
    apply (mem_inv_dev d _ x); [|done..].
    eapply (mem_inv_task d _ x _ m mk t task); [by apply mem_inv_ctx_fail|exact Ht|done|].
    eapply (task_ok_keep s); [|by apply task_ok_ran].
    apply keeps_same; [by eapply same_life_ctx|done].
  - by eapply (eff_run _ _ _ _ _ _ t task ctx buf ws h b' r).
Qed.

Lemma wp_iter_finish s x nt (Q : option wt_state → state → Prop) :
  inv d s x nt m mk → fence_state x = DICEDEV_FENCE_STATE_REACHED →
  (∀ s' x' nt', inv d s' x' nt' m mk → wt_effect s s' x x' nt nt' → Q (Some (mkWt d nt')) s') →
  wp (wt_finish d;; mret (Some (mkWt d nt))) s Q.
Proof.
  intros [Hmi Hfe Hfa] Hre HQ.
  destruct (running_task x) as [t|] eqn:Hrun; [|by rewrite (proj2 Hfe eq_refl) in Hre].
  assert (Hq : in_flight x nt = [] ++ t :: option_list nt ++ pending_tasks x)
    by (unfold in_flight; by rewrite Hrun). rewrite Hq in Hmi.
  destruct (mem_inv_finishable d s x _ m mk t Hmi) as (task & ctx & buf & Hfi); [by left|].
  apply wp_bind. eapply wp_wt_finish; [done..|]. intros h h'. wp_step.
  set (z := dev_freed (frees_slot task ctx buf) (slot_of buf) h x).
  pose proof (mem_inv_destroy d s x [] t _ m mk task ctx buf h Hmi Hfi) as Hmi2. fold z in Hmi2.
  destruct (dev_freed_same (frees_slot task ctx buf) (slot_of buf) h x) as (E1 & E2 & E3 & E4).
  fold z in E1, E2, E3, E4.
  assert (Ey : dev_idle h' z = z <| fence_state := DICEDEV_FENCE_STATE_NONE |> <| running_task := None |>).
  { unfold dev_idle. unfold z. rewrite dev_failed_freed. by apply in_service_true in Hfa as [_ ->]. }
  rewrite Ey. eapply (HQ _ (z <| fence_state := DICEDEV_FENCE_STATE_NONE |> <| running_task := None |>)).
  - split; [|done|by rewrite <-Hfa, <-E4].
    unfold in_flight. simpl. rewrite E2. eapply mem_inv_dev; [exact Hmi2|done|by apply Hmi2..].
  - by eapply (eff_finish _ _ _ _ _ _ t task ctx buf h); try done; destruct Hfi.
Qed.

(** One whole iteration, while the thread is neither stopped nor parked. *)
Lemma wp_wt_iter s x nt (Q : option wt_state → state → Prop) :
  inv d s x nt m mk → should_stop x = false → should_park x = false →
  (∀ t, nt = Some t → fence_state x = DICEDEV_FENCE_STATE_NONE →
     out_slot s t ≠ Some DICEDEV_BUFFER_NO_SLOT → well_framed s t) →
  (∀ s' x' nt', inv d s' x' nt' m mk → wt_effect s s' x x' nt nt' → Q (Some (mkWt d nt')) s') →
  wp (wt_iter (mkWt d nt)) s Q.
Proof.
  intros Hinv Hs Hp Hframed HQ. pose proof Hinv as [Hmi Hfe Hfa].
  pose proof (do_dev _ _ _ (mi_dev _ _ _ _ _ _ Hmi)) as Hd. unfold wt_iter. simpl. wp_mem. rewrite Hs. wp_step.
  eapply wp_get_event; [done|apply Hmi|intros t' ?; by eapply inv_out_slot|].
  assert (Hsleep : event_of x (nt ≫= out_slot s) = WT_NO_EVENT →
    wp (x ← get_dev d; put_dev d (x <| wt_sleeping := true |>);; mret (Some (mkWt d nt))) s Q).
  { intros He. wp_mem. eapply (HQ _ (x <| wt_sleeping := true |>)); [split; [|done..]|by apply eff_sleep].
    eapply mem_inv_dev; [exact Hmi|done|by apply Hmi..]. }
  unfold event_of in Hsleep |- *. rewrite Hs, Hp in Hsleep |- *.
  destruct nt as [t|]; simpl in Hsleep |- *.
  - destruct (inv_out_slot s x (Some t) t Hinv eq_refl) as [slot Eo].
    rewrite Eo in Hsleep |- *.
    destruct (fence_state x) eqn:Ef; [|by apply Hsleep|by eapply wp_iter_finish].
    destruct (Z.eqb_spec slot DICEDEV_BUFFER_NO_SLOT) as [Hno|Hne].
    + destruct (Z.ltb_spec 0 (free_slots x)); [|by apply Hsleep].
      unfold out_slot in Eo. destruct (tasks s !! t) as [task|] eqn:Ht; [|done]. simpl in Eo.
      destruct (bufs s !! buff_out task) as [buf|] eqn:Hb; [|done]. simplify_eq/=.
      by eapply wp_iter_bind.
    + eapply wp_iter_run; try done; [by rewrite Eo; intros [= ->]|].
      apply Hframed; [done|done|by rewrite Eo; intros [= ->]].
  - destruct (fence_state x) eqn:Ef; [| |by eapply wp_iter_finish];
      (destruct (pending_tasks x) eqn:Ep; [by apply Hsleep|]);
      (eapply wp_iter_next; [done|done|by rewrite Ep|done]).
Qed.

End Thread.
