(* ===== verification/Core.v ===== *)
(** The part of the global invariant that system calls depend on: memory and
    the work queue, for any tasks [h] in the hands of the work thread, whatever
    the thread has stored in the device about them; and what a system call
    leaves alone of the things the thread relies on in the middle of its work. *)

From S2P Require Import Prelude Cmd Types Utils Slots Pt Task Stream Wt Buffer Base Syscall WtSpec BufferSpec IoctlSpec Lifetime Invariant Thread.

Section Core.
Context `{Hardware, Kernel}.
Variable d : ptr.

Implicit Types (s : state) (x : dicedev_device) (nt : option ptr) (h : list ptr) (m : references) (mk : list ptr).

(** ** The invariant without the thread's variables *)

Record core s x h m mk : Prop := {
  core_mem : mem_inv d s x (h ++ pending_tasks x) m mk;
  core_service : in_service x = true;
}.

(** The tasks in the hands of the thread, between two iterations. *)
Definition hand x nt : list ptr := option_list (running_task x) ++ option_list nt.

Lemma hand_in_flight x nt : hand x nt ++ pending_tasks x = in_flight x nt.
Proof. unfold hand, in_flight. by rewrite <-app_assoc. Qed.

Lemma inv_core s x nt m mk (Hi : inv d s x nt m mk) : core s x (hand x nt) m mk.
Proof. destruct Hi as [Hmi _ Hfa]. split; [by rewrite hand_in_flight|done]. Qed.

(** ** Frames *)

(** What the thread relies on: its marks in the device, the pending tasks, the
    free slots, and, for every task, its commands, the tables of the buffers
    of its context and the slot of its output buffer. *)
Record frame s x s' x' : Prop := {
  fm_running : running_task x' = running_task x;
  fm_fence : fence_state x' = fence_state x;
  fm_awake : wt_sleeping x = false → wt_sleeping x' = false;
  fm_pending : pending_tasks x `prefix_of` pending_tasks x';
  fm_free : free_slots x ≤ free_slots x';
  fm_task t task : tasks s !! t = Some task → tasks s' !! t = Some task ∧ keeps s s' (task_ctx task);
  fm_slot t : is_Some (tasks s !! t) → out_slot s' t = out_slot s t;
  fm_due : fence_due (mmio x) → fence_due (mmio x');
}.

Lemma keeps_refl s c : keeps s s c.
Proof. by apply keeps_same. Qed.

Lemma keeps_trans s1 s2 s3 c : keeps s1 s2 c → keeps s2 s3 c → keeps s1 s3 c.
Proof.
  intros [Hc1 H1] [Hc2 H2]. split; [by etrans|]. intros l Hl. destruct (H1 l Hl) as (l2 & Hl2 & Hb1).
  destruct (H2 l2 Hl2) as (l3 & Hl3 & Hb2). exists l3. split; [done|]. intros b Hb.
  destruct (Hb1 b Hb) as [Hb' Ht1]. destruct (Hb2 b Hb') as [Hb'' Ht2]. split; [done|].
  intros v F Hv HF. destruct (Ht1 v F Hv HF) as (v2 & ? & ?). eauto.
Qed.

Lemma frame_refl s x : frame s x s x.
Proof. split; try done. intros t task Ht. split; [done|apply keeps_refl]. Qed.

Lemma frame_trans s1 x1 s2 x2 s3 x3 : frame s1 x1 s2 x2 → frame s2 x2 s3 x3 → frame s1 x1 s3 x3.
Proof.
  intros [A1 A2 A3 A4 A5 A6 A7 A8] [B1 B2 B3 B4 B5 B6 B7 B8]. split; try congruence; try lia; [auto|by etrans|..|auto].
  - intros t task Ht. destruct (A6 t task Ht) as [Ht2 K2]. destruct (B6 t task Ht2) as [Ht3 K3].
    split; [done|by eapply keeps_trans].
  - intros t [task Ht]. destruct (A6 t task Ht) as [Ht2 _]. rewrite B7 by eauto. by apply A7.
Qed.

(** The invariant, from its core and a frame. *)
Lemma inv_framed s x nt m mk s' x' m' mk' :
  inv d s x nt m mk → core s' x' (hand x nt) m' mk' → frame s x s' x' → inv d s' x' nt m' mk'.
Proof.
  intros [_ Hfe _] [Hmi Hfa] [Er Ef _ _ _ _ _ _]. split; [|by rewrite Er, Ef|done].
  rewrite <-hand_in_flight. unfold hand in *. by rewrite Er.
Qed.

(** A frame keeps the fence on the wire. *)
Lemma sent_framed s x s' x' : frame s x s' x' → fence_sent x → fence_sent x'.
Proof. intros Hf Hs E. apply (fm_due _ _ _ _ Hf), Hs. by rewrite <-(fm_fence _ _ _ _ Hf). Qed.

(** ** Elementary changes *)

(** Memory [s'] has the core and frames [s]. *)
Definition goes s x h m mk s' : Prop := ∃ x', core s' x' h m mk ∧ frame s x s' x'.

Lemma goes_refl s x h m mk : core s x h m mk → goes s x h m mk s.
Proof. intros Hc. exists x. split; [done|apply frame_refl]. Qed.

Lemma goes_trans s x s1 x1 h' m' mk' s2 :
  frame s x s1 x1 → goes s1 x1 h' m' mk' s2 → goes s x h' m' mk' s2.
Proof. intros Hf (x2 & ? & ?). exists x2. split; [done|by eapply frame_trans]. Qed.

(** A change of the device outside of the slots and the queue. *)
Lemma core_dev s x y h m mk :
  core s x h m mk → same_table x y → slock y = false → feed_lock y = false →
  pending_tasks y = pending_tasks x → in_service y = in_service x → core (upd_dev d y s) y h m mk.
Proof. intros [Hmi Hfa] Et Hl Hf Ep Efl. split; [|congruence]. rewrite Ep. by eapply mem_inv_dev. Qed.

Lemma frame_dev s x y :
  same_table x y → pending_tasks y = pending_tasks x → running_task y = running_task x →
  fence_state y = fence_state x → (wt_sleeping x = false → wt_sleeping y = false) →
  (fence_due (mmio x) → fence_due (mmio y)) →
  frame s x (upd_dev d y s) y.
Proof.
  intros [_ Et] Ep Er Ef Hw Hdue. split; try done; [by rewrite Ep|by rewrite Et|].
  intros t task Ht. split; [done|]. by apply keeps_same.
Qed.

(** Lifetimes change, the work queue does not. *)
Lemma core_life s s' x h m m' mk mk' :
  core s x h m mk → devs s' = devs s → tasks s' = tasks s → slots_ok s' d x → readers_ok s' →
  life d s' m' mk' →
  (∀ t task, tasks s !! t = Some task → keeps s s' (task_ctx task)) →
  (∀ c ctx', ctxs s' !! c = Some ctx' →
     (∃ ctx, ctxs s !! c = Some ctx ∧ ctx_dev ctx' = ctx_dev ctx ∧ task_count ctx' = task_count ctx) ∨
     (ctxs s !! c = None ∧ ctx_dev ctx' = d ∧ task_count ctx' = 0)) →
  core s' x h m' mk'.
Proof.
  intros [[[Hd Hl Hf Hok] Hq Hlf Hr] Hfa] Ed Et Hok' Hr' Hlf' Hk Hc. split; [|done].
  split; [split; [congruence|done..]|by eapply (queue_ok_keep d s)|done|done].
Qed.

Lemma frame_life s s' x :
  tasks s' = tasks s → (∀ t task, tasks s !! t = Some task → keeps s s' (task_ctx task)) →
  (∀ t task, tasks s !! t = Some task →
     binded_slot <$> bufs s' !! buff_out task = binded_slot <$> bufs s !! buff_out task) →
  frame s x s' x.
Proof.
  intros Et Hk Hs. split; try done.
  - intros t task Ht. rewrite Et. split; [done|by eapply Hk].
  - intros t [task Ht]. unfold out_slot. rewrite Et, Ht. simpl. specialize (Hs t task Ht).
    destruct (bufs s' !! buff_out task), (bufs s !! buff_out task); simplify_eq/=; congruence.
Qed.

Lemma goes_life s s' x h m m' mk mk' :
  core s x h m mk → devs s' = devs s → tasks s' = tasks s → slots_ok s' d x → readers_ok s' →
  life d s' m' mk' →
  (∀ t task, tasks s !! t = Some task → keeps s s' (task_ctx task)) →
  (∀ c ctx', ctxs s' !! c = Some ctx' →
     (∃ ctx, ctxs s !! c = Some ctx ∧ ctx_dev ctx' = ctx_dev ctx ∧ task_count ctx' = task_count ctx) ∨
     (ctxs s !! c = None ∧ ctx_dev ctx' = d ∧ task_count ctx' = 0)) →
  (∀ t task, tasks s !! t = Some task →
     binded_slot <$> bufs s' !! buff_out task = binded_slot <$> bufs s !! buff_out task) →
  goes s x h m' mk' s'.
Proof. intros. exists x. split; [by eapply core_life|by apply frame_life]. Qed.

(** The locks are free. *)
Lemma core_locks s x h m mk :
  core s x h m mk → devs s !! d = Some x ∧ slock x = false ∧ feed_lock x = false.
Proof. intros [[[? ? ? ?] _ _ _] _]. done. Qed.

(** The work thread exists. *)
Lemma core_thread s x h m mk : core s x h m mk → wt_thread x = true.
Proof. intros [_ Hs]. by apply in_service_true in Hs as [? _]. Qed.

(** The output buffer of a task belongs to its context. *)
Lemma core_task s x h m mk t task :
  core s x h m mk → tasks s !! t = Some task → task_ok s task.
Proof. intros [[_ Hq _ _] _] Ht. by apply (qo_task _ _ _ Hq t). Qed.

(** A routine for which the core and a frame are known. *)
Lemma safe_framed {A} (op : K A) s x nt m mk (m' : A → references) mk' :
  inv d s x nt m mk → fence_sent x →
  safe op s (λ r s', goes s x (hand x nt) (m' r) mk' s') →
  safe op s (λ r s', ∃ x', inv d s' x' nt (m' r) mk' ∧ fence_sent x').
Proof.
  intros Hi Hse Hs. eapply safe_mono; [exact Hs|]. intros r s' (x' & Hc & Hf). exists x'.
  split; [by eapply inv_framed|by eapply sent_framed].
Qed.

End Core.

Coercion inv_core : inv >-> core.

(** Register writes that do not concern the fence. *)
Ltac keeps_due :=
  intros ?; simpl; repeat (apply fence_due_quiet; [repeat (constructor; [by split|]); constructor|]); done.

(** The premises of a lemma about the core where the invariant holds. *)
Ltac by_core := first [by eapply inv_core | done].
