(* ===== verification/Calls.v ===== *)
(** The system calls, the interrupt handler and the power management callbacks
    under the global invariant: each returns or sleeps, and preserves the
    invariant, from every state in which it holds. *)

From S2P Require Import Prelude Cmd Types Utils Slots Pt Task Stream Wt Buffer Base Syscall WtSpec BufferSpec IoctlSpec Lifetime Invariant Thread Core.

Section Calls.
Context `{Hardware, Kernel}.
Variable d : ptr.
Context `{!HardwareLaws, !KernelLaws}.

Implicit Types (s : state) (x : dicedev_device) (nt : option ptr) (hq : list ptr) (m : references) (mk : list ptr).

(** The core of the invariant holds after the call, which frames the thread. *)
Abbreviation went s x hq m mk := (λ _ s', goes d s x hq m mk s').

Lemma inv_dev_only s x y nt m mk :
  inv d s x nt m mk → same_table x y → slock y = false → feed_lock y = false →
  pending_tasks y = pending_tasks x → running_task y = running_task x →
  fence_state y = fence_state x ∨ running_task x ≠ None ∧ fence_state y ≠ DICEDEV_FENCE_STATE_NONE →
  in_service y = in_service x → inv d (upd_dev d y s) y nt m mk.
Proof.
  intros [Hmi Hfe Hfa] Et Hl Hf Ep Er Ef Efl. split.
  - unfold in_flight. rewrite Ep, Er. by eapply (mem_inv_dev d s x).
  - rewrite Er. destruct Ef as [->|[? ?]]; [done|]. tauto.
  - by rewrite Efl.
Qed.

Lemma inv_locks s x nt m mk :
  inv d s x nt m mk → devs s !! d = Some x ∧ slock x = false ∧ feed_lock x = false.
Proof. intros [[[? ? ? ?] _ _ _] _ _]. done. Qed.

Ltac dev_only := eapply inv_dev_only; [eassumption|try done..]; by left.
Ltac dev_goes := eexists; split; [by eapply core_dev|by apply frame_dev; try done; keeps_due].

(** *** The board, interrupts, suspend and resume *)

Lemma inv_board s x nt m mk h : inv d s x nt m mk → inv d (upd_dev d (x <| bar := h |>) s) (x <| bar := h |>) nt m mk.
Proof. intros Hi. destruct (inv_locks _ _ _ _ _ Hi) as (_ & ? & ?). dev_only. Qed.

(** Without an error only the device changes. *)
Lemma wp_isr_benign s x ist h0 (Q : bool → state → Prop) :
  devs s !! d = Some x → slock x = false → istatus_of (bar x) = (ist, h0) → ist ≠ 0 →
  intr_error ist = false → (intr_fence ist = true → running_task x ≠ None) →
  (∀ h, Q true (upd_dev d (dev_interrupted h ist x) s)) → wp (dicedev_isr d) s Q.
Proof.
  intros Hd Hl E Hne Ee Hrun HQ. eapply isr_prefix; [done..|]. rewrite E, Ee.
  destruct (Z.eqb_spec ist 0); [done|]. simpl. wp_steps.
  eapply wp_dicedev_iow; [apply devs_upd_dev|]. intros h. specialize (HQ h).
  unfold dev_interrupted in HQ. rewrite !upd_dev_twice. wp_steps. apply wp_when; intros Ef; rewrite Ef in HQ.
  - unfold wake_wt. unfold_mem. wp_step. eapply wp_fetch; [apply devs_upd_dev|]. wp_step.
    apply wp_BUG_ON; [by apply bool_decide_eq_false_2, Hrun|]. wp_mem.
    eapply wp_unlock_slock; [apply devs_upd_dev|done|]. wp_step. rewrite !upd_dev_twice.
    destruct x. simpl in *. by subst.
  - wp_step. eapply wp_unlock_slock; [apply devs_upd_dev|done|]. wp_step. rewrite !upd_dev_twice.
    destruct x. simpl in *. by subst.
Qed.

Lemma isr_safe s x nt m mk :
  inv d s x nt m mk →
  (∀ ist h, istatus_of (bar x) = (ist, h) → intr_error ist || intr_fence ist = true →
     running_task x ≠ None) →
  fence_sent x →
  safe (dicedev_isr d) s (λ _ s', ∃ x', inv d s' x' nt m mk ∧ fence_sent x').
Proof.
  intros Hi Hboard Hse. pose proof Hi as [Hmi Hfe Hfa]. destruct (inv_locks _ _ _ _ _ Hi) as (Hd & Hl & Hf).
  apply wp_safe. destruct (istatus_of (bar x)) as [ist h0] eqn:E.
  destruct (decide (ist = 0)) as [->|Hne].
  { eapply wp_isr_quiet; [done..|]. eexists. split; [by apply inv_board|exact Hse]. }
  destruct (running_task x) as [t|] eqn:Er.
  - destruct (mem_inv_finishable d s x _ m mk t Hmi) as (task & ctx & buf & [Ht Hc _ _ _ _ _ _ _]).
    { unfold in_flight. rewrite Er. by left. }
    eapply (wp_isr d s x ist h0 t task ctx); try done. intros h. exists (dev_interrupted h ist x).
    split; [|by apply sent_interrupted].
    eapply (inv_dev_only _ x); unfold dev_interrupted.
    + split; [by apply mem_inv_ctx_fail|by rewrite Er|done].
    + by destruct (intr_fence ist).
    + by destruct (intr_fence ist).
    + by destruct (intr_fence ist).
    + by destruct (intr_fence ist).
    + by destruct (intr_fence ist).
    + destruct (intr_fence ist); [right; by rewrite Er|by left].
    + by destruct (intr_fence ist).
  - destruct (intr_error ist || intr_fence ist) eqn:Eb; [by destruct (Hboard ist h0)|].
    apply orb_false_iff in Eb as [Ee Eb].
    eapply wp_isr_benign; [done..|by rewrite Eb|]. intros h. exists (dev_interrupted h ist x).
    split; [|by apply sent_interrupted]. unfold dev_interrupted. rewrite Eb. dev_only.
Qed.

Lemma suspend_safe s x hq m mk : core d s x hq m mk → safe (dicedev_suspend d) s (went s x hq m mk).
Proof.
  intros Hi. destruct (core_locks _ _ _ _ _ _ Hi) as (Hd & Hl & Hf). apply wp_safe. unfold dicedev_suspend.
  wp_step. eapply wp_dicedev_iow; [done|]. intros h. unfold_mem. wp_step.
  eapply wp_fetch; [apply devs_upd_dev|]. unfold follow_thread. simpl. rewrite (core_thread _ _ _ _ _ _ Hi). wp_steps.
  eapply wp_dicedev_iow; [apply devs_upd_dev|]. intros h'. wp_step.
  rewrite !upd_dev_twice. dev_goes.
Qed.

Lemma resume_safe s x hq m mk : core d s x hq m mk → safe (dicedev_resume d) s (went s x hq m mk).
Proof.
  intros Hi. destruct (core_locks _ _ _ _ _ _ Hi) as (Hd & Hl & Hf). apply wp_safe. unfold dicedev_resume.
  unfold_mem. wp_step. eapply wp_fetch; [done|]. unfold follow_thread. rewrite (core_thread _ _ _ _ _ _ Hi). wp_steps.
  eapply wp_dicedev_iow; [apply devs_upd_dev|]. intros h. wp_step.
  eapply wp_dicedev_iow; [apply devs_upd_dev|]. intros h'. wp_step.
  rewrite !upd_dev_twice. dev_goes.
Qed.

(** *** Opening the char device *)

Definition new_ctx : dicedev_context := mkCtx d false 0 [].

(** The system after a successful open. *)
Definition opened (s : state) (e : kenv) (c p : ptr) (fd : Z) : state :=
  (upd_file p (mkFile FDicedev 1 (Some c)) (upd_ctx c new_ctx s))
    <| env := e |> <| fds := <[fd := p]> (fds s) |>.

Lemma wp_sys_open s (Q : Z → state → Prop) :
  (∀ fd e c p, 0 ≤ fd → fds s !! fd = None → ctxs s !! c = None → files s !! p = None →
     Q fd (opened s e c p fd)) →
  (∀ r e, r < 0 → Q r (s <| env := e |>)) →
  (∀ r e c, r < 0 → ctxs s !! c = None → Q r ((upd_ctx c new_ctx s) <| env := e |>)) →
  wp (sys_open d) s Q.
Proof.
  intros HQ1 HQ2 HQ3. unfold sys_open. wp_step. apply wp_unused_fd. intros fd e0 Hunused.
  destruct (Z.ltb_spec fd 0); [wp_step; by apply HQ2|]. wp_step.
  unfold wp, vfs_new_file. destruct (k_getfile _ _) as [[p|r] e1] eqn:Ef; [|by eapply HQ2, k_getfile_err].
  apply k_getfile_fresh, not_live in Ef as (_ & _ & _ & _ & _ & _ & _ & _ & Hp).
  change (wp (r ← dicedev_open d p; if r =? 0 then modify (λ s, s <| fds := <[fd := p]> (fds s) |>);; mret fd
    else vfs_drop_file p;; mret r) (s <| env := e1 |> <| files := <[p := mkFile FDicedev 1 None]> (files s) |>) Q).
  wp_step. unfold dicedev_open. wp_step. apply wp_kmalloc. intros [c|] e2 Ec.
  - apply k_alloc_fresh, not_live in Ec as (_ & Hc & _). wp_mem. apply wp_kcall. intros r e3 Er%k_nonseekable. simpl.
    destruct (Z.eqb_spec r 0).
    + wp_steps. match goal with |- Q _ ?st => replace st with (opened s e3 c p fd) end; [by apply HQ1; auto|].
      state_eq. by rewrite insert_insert_eq.
    + unfold vfs_drop_file. wp_mem.
      match goal with |- Q _ ?st => replace st with ((upd_ctx c new_ctx s) <| env := e3 |>) end; [by apply HQ3; [lia|]|].
      state_eq. by rewrite insert_insert_eq, delete_insert_eq, delete_id.
  - wp_step. destruct (Z.eqb_spec (- ENOMEM) 0); [done|]. unfold vfs_drop_file. wp_mem.
    match goal with |- Q _ ?st => replace st with (s <| env := e2 |>) end; [by apply HQ2|].
    state_eq. by rewrite delete_insert_eq, delete_id.
Qed.

(** Nothing the invariant depends on changes. *)
Lemma goes_env s x hq m mk e : core d s x hq m mk → goes d s x hq m mk (s <| env := e |>).
Proof.
  intros Hi. pose proof Hi as [[[Hd Hl Hf Hok] Hq Hlf Hr] Hfa].
  eapply (goes_life d s); try done; [by apply (slots_ok_same s _ d x)|by apply (life_same d s)|..].
  - intros t task _. by apply keeps_same.
  - eauto.
Qed.

Lemma goes_new_ctx s x hq m mk c :
  core d s x hq m mk → ctxs s !! c = None → 
  core d (upd_ctx c new_ctx s) x hq m mk ∧ frame s x (upd_ctx c new_ctx s) x.
Proof.
  intros Hi Hc. pose proof Hi as [[[Hd Hl Hf Hok] Hq Hlf Hr] Hfa].
  assert (Hk : ∀ t task, tasks s !! t = Some task → keeps s (upd_ctx c new_ctx s) (task_ctx task)).
  { intros t task _. split; [done|]. intros l Hl'. exists l. split.
    + unfold ctx_view. simpl. rewrite fmap_insert, lookup_insert_ne; [done|].
      intros ->. apply ctx_view_Some in Hl' as (? & ? & _). congruence.
    + intros b Hb. split; [done|]. intros v F Hv HF. exists v. split; [done|]. by apply (has_table_eq s). }
  split; [|by apply frame_life].
  eapply (core_life d s); try done; [by apply (slots_ok_same s _ d x)|by apply life_new_ctx|].
  intros c' ctx'. simpl. intros [[<- <-]|[? ?]]%lookup_insert_Some; eauto.
Qed.

Lemma open_safe s x hq m mk :
  core d s x hq m mk →
  (∀ r s' c, sys_open d s = Done r s' → ctxs s !! c = None → is_Some (ctxs s' !! c) →
     ∀ b buf, bufs s !! b = Some buf → buf_ctx buf ≠ c) →
  safe (sys_open d) s (went s x hq m mk).
Proof.
  intros Hi Hnew. apply wp_safe.
  assert (Hwp : wp (sys_open d) s (λ r s', sys_open d s = Done r s' → goes d s x hq m mk s')).
  2:{ apply wp_exists in Hwp as (r & s' & Hrun & Hwp). eapply wp_done; eauto. }
  apply wp_sys_open.
  - intros fd e c p Hfd _ Hc Hp Hrun. specialize (Hnew fd _ c Hrun Hc).
    destruct (goes_new_ctx _ _ _ _ _ c Hi Hc) as [Hi1 Hfr]. set (s1 := upd_ctx c new_ctx s) in *.
    eapply (goes_trans d s x s1 x); [done|].
    pose proof Hi1 as [[[Hd1 Hl1 Hf1 Hok1] Hq1 Hlf1 Hr1] _].
    destruct (life_no_file d s1 m mk p Hlf1 Hp) as (_ & _ & _ & Ho & Hr & Hr').
    pose proof (life_new_file d s1 m mk p (mkFile FDicedev 1 (Some c)) Hlf1 Hp ltac:(done)) as Hlf2.
    eapply (goes_life d s1); try done.
    + by apply (slots_ok_same s1 _ d x).
    + eapply (life_same d); [|eapply (life_install d _ m mk fd p c Hlf2)]; [by split|..].
      * simpl. by rewrite lookup_insert_eq.
      * exists []. unfold ctx_view. simpl. by rewrite fmap_insert, lookup_insert_eq.
      * done.
      * done.
      * done.
      * intros q g Ha. simpl. intros [[<- <-]|[Hne Hg]]%lookup_insert_Some Hk Hpd.
        { destruct (life_no_file d s1 m mk p Hlf1 Hp) as (Hfd1 & _ & Hdue & _).
          destruct Ha as [[fd' Ha]|Ha]; [by apply (Hfd1 fd')|done]. }
        pose proof Hi as [[_ _ [_ Hfk] _] _].
        assert (Hg' : file_ok s q g).
        { destruct Ha as [[fd' Ha]|Ha].
          - destruct (fk_fd _ _ _ Hfk fd' q Ha) as (g' & Hg' & ?).
            change (files s !! q = Some g) in Hg. congruence.
          - destruct (fk_due _ _ _ Hfk q Ha) as (g' & Hg' & _ & ?).
            change (files s !! q = Some g) in Hg. congruence. }
        unfold file_ok in Hg'. rewrite Hk in Hg'. destruct Hg' as (c' & Hpd' & l & Hl).
        apply ctx_view_Some in Hl as (ctx & ? & _). congruence.
      * intros b v (buf & Hb & <-)%buf_view_Some. apply (Hnew) with (b := b); [|done].
        simpl. rewrite lookup_insert_eq. by eexists.
    + intros t task _. by apply keeps_views.
    + eauto.
  - intros r e _ _. by apply goes_env.
  - intros r e c _ Hc _. destruct (goes_new_ctx _ _ _ _ _ c Hi Hc) as [Hi1 Hfr].
    eapply goes_trans; [done|by apply goes_env].
Qed.

(** *** Requests on the char device *)

(** A descriptor that is open on the char device, and its context. *)
Definition chr_open (s : state) (fd : Z) (c : ptr) : Prop :=
  ∃ p f, fds s !! fd = Some p ∧ files s !! p = Some f ∧ f_kind f = FDicedev ∧
    private_data f = Some c.

Lemma chr_open_ctx s x hq m mk fd c :
  core d s x hq m mk → chr_open s fd c →
  ∃ ctx, ctxs s !! c = Some ctx ∧ ctx_dev ctx = d ∧ c ∉ mk ∧
    ∀ b buf, bufs s !! b = Some buf → buf_ctx buf = c → b ∈ allocated_buffers ctx.
Proof.
  intros [[_ Hq Hlf _] _] (p & f & Hfd & Hp & Hk & Hpd).
  destruct (life_open d s m mk fd p f Hlf Hfd Hp Hk) as (c' & ctx & Hpd' & Hc & Hmk & Hb). simplify_eq.
  exists ctx. split_and!; [done|by apply (qo_ctx _ _ _ Hq c)|done|]. intros b buf ? ?. by eapply Hb.
Qed.

Lemma goes_same_but_files s s' x hq m mk :
  core d s x hq m mk → same_but_files s s' → life d s' m mk → goes d s x hq m mk s'.
Proof.
  intros Hi (E1 & E2 & E3 & E4 & E5 & E6 & E7 & E8 & E9 & E10) Hlf'.
  pose proof Hi as [[[Hd Hl Hf Hok] Hq Hlf Hr] Hfa]. eapply (goes_life d s); try done.
  - apply (slots_ok_same s _ d x); try done. unfold same_slots, slot_view. by rewrite E3.
  - unfold readers_ok. by rewrite E3.
  - intros t task _. apply keeps_views; try done; [unfold ctx_view; by rewrite E2|
      unfold buf_view; by rewrite E3|by rewrite E7].
  - rewrite E2. eauto.
  - by rewrite E3.
Qed.

Lemma same_but_files_life s s' : same_but_files s s' → files s' = files s → same_life s s'.
Proof.
  intros (E1 & E2 & E3 & E4 & E5 & E6 & E7 & E8 & E9 & E10) Ef.
  split; try done; unfold ctx_view, buf_view; by rewrite ?E2, ?E3.
Qed.

Lemma goes_set_created s s' x hq m mk c ctx cs fd :
  core d s x hq m mk → ctxs s !! c = Some ctx → ctx_dev ctx = d → c ∉ mk →
  set_created s s' c ctx cs fd → goes d s x hq m mk s'.
Proof.
  intros Hi Hc Hcd Hmk Hsc. pose proof Hi as [[[Hd Hl Hf Hok] Hq Hlf Hr] Hfa].
  pose proof (life_create d s s' m mk c ctx cs fd Hlf Hc Hcd Hmk Hsc) as Hlf'.
  destruct Hsc as (b & buf & ptp & tbl & pp & hp & arr & L & p & Hb & Eb & Hbp & _ &
    Ec & Ed & Hdes & Hno & _ & _ & Erd & Efile & Hp & Ef & _ & Efd & Ectx & Edv & Et & Ecm & Edue & Ept & _ &
    Epg & _ & Edma & _).
  eapply (goes_life d s); try done.
  - eapply (slots_ok_unbound s _ d x x b); try done. intros i. by eapply slots_ok_new.
  - intros b' buf'. rewrite Eb. intros [[<- <-]|[_ ?]]%lookup_insert_Some; [by rewrite Erd|by eapply Hr].
  - intros t task _. split; [by rewrite Ecm|]. intros l Hl'.
    assert (Hkeep : ∀ b' v F, buf_view s !! b' = Some v → has_table s v F →
      ∃ v', buf_view s' !! b' = Some v' ∧ has_table s' v' F).
    { intros b' v F Hv HF. exists v. split; [|by eapply has_table_mono].
      apply buf_view_Some in Hv as (buf' & Hb' & <-). apply buf_view_lookup. rewrite Eb, lookup_insert_ne; [done|].
      congruence. }
    apply ctx_view_Some in Hl' as (ctx0 & Hc0 & <-). destruct (decide (task_ctx task = c)) as [E|Hne].
    + exists (b :: allocated_buffers ctx). rewrite E in *. simplify_eq. split.
      * apply ctx_view_Some. rewrite Ectx, lookup_insert_eq. eauto.
      * intros b' Hb'. split; [by right|eauto].
    + exists (allocated_buffers ctx0). split; [|eauto].
      apply ctx_view_Some. rewrite Ectx, lookup_insert_ne by done. eauto.
  - intros c' ctx'. rewrite Ectx. intros [[<- <-]|[_ ?]]%lookup_insert_Some; left; eauto.
  - intros t task Ht. destruct (core_task d _ _ _ _ _ t task Hi Ht) as [(l & Hl' & Hin & _) _ _].
    destruct Hlf as [Hbk _]. destruct (bk_owned _ _ Hbk _ _ _ Hl' Hin) as (v & _ & _ & Hv & _).
    apply buf_view_Some in Hv as (buf' & Hb' & _). rewrite Eb, lookup_insert_ne; [done|]. congruence.
Qed.

Lemma create_set_safe s x hq m mk fd c arg :
  core d s x hq m mk → chr_open s fd c → safe (dicedev_ioctl_create_set c arg) s (went s x hq m mk).
Proof.
  intros Hi Ho. destruct (chr_open_ctx _ _ _ _ _ _ _ Hi Ho) as (ctx & Hc & Hcd & Hmk & _).
  pose proof Hi as [[[Hd Hl Hf Hok] Hq Hlf Hr] Hfa].
  destruct arg as [cs|]; [|by eapply safe_done; [done|apply goes_refl]].
  destruct (decide (0 ≤ cs_size cs ≤ DICEDEV_MAX_BUFFER_SIZE ∧ cs_allowed cs ≤ DICEDEV_MAX_ALLOWED)) as [Hv|Hv].
  2:{ eapply safe_done; [by apply create_set_refused|by apply goes_refl]. }
  apply wp_safe. eapply (wp_create_set s c ctx x cs); [by split; rewrite ?Hcd|done|..].
  - intros fd' s' _ Hs. by eapply goes_set_created.
  - intros s' Hs Ef. eapply goes_same_but_files; [done..|].
    eapply life_same; [by apply same_but_files_life|done].
  - intros r s' _ Hs (p & b & Hp & _ & Ef). eapply goes_same_but_files; [done..|].
    eapply life_same; [|by apply (life_new_file d s m mk p (mkFile FBuffer 2 (Some b)))].
    destruct Hs as (E1 & E2 & E3 & E4 & E5 & E6 & E7 & E8 & E9 & E10).
    split; try done; unfold ctx_view, buf_view; simpl; by rewrite ?E2, ?E3.
Qed.

(** A new task: the queue grows at its end. *)
Lemma goes_enqueue s s' x hq m mk t task ctx :
  core d s x hq m mk → tasks s !! t = None → task_ok s' task →
  ctxs s !! task_ctx task = Some ctx → task_count ctx + 1 < 2 ^ 64 →
  devs s' = <[d := dev_enqueue t x]> (devs s) → tasks s' = <[t := task]> (tasks s) →
  ctxs s' = <[task_ctx task := ctx_more ctx]> (ctxs s) → bufs s' = bufs s → same_life s s' →
  cmds s ⊆ cmds s' →
  core d s' (dev_enqueue t x) hq m mk ∧ frame s x s' (dev_enqueue t x).
Proof.
  intros [Hmi Hfa] Hnew Hok Hc Hlt Ed Et Ec Eb Elf Ecm. split.
  - split; [|done]. simpl. rewrite app_assoc.
    eapply (mem_inv_enqueue d s s' x); try done; [apply Hmi..|]. by rewrite Ed, lookup_insert_eq.
  - assert (Hne : ∀ t', is_Some (tasks s !! t') → tasks s' !! t' = tasks s !! t').
    { intros t' [task' Ht']. rewrite Et, lookup_insert_ne; [done|congruence]. }
    split; try done; simpl; [by apply prefix_app_r|..].
    + intros t' task' Ht'. rewrite Hne by eauto. split; [done|]. by apply keeps_same.
    + intros t' Ht'. unfold out_slot. by rewrite Hne, Eb.
Qed.

(** The descriptors of a request name buffer files. *)
Definition fd_is_buffer (s : state) (fd : Z) : Prop :=
  ∃ p f, fds s !! fd = Some p ∧ files s !! p = Some f ∧ f_kind f = FBuffer.

Lemma fd_is_buffer_buf s x hq m mk fd :
  core d s x hq m mk → fd_is_buffer s fd → ∃ b buf F, fd_buf s fd b ∧ bufs s !! b = Some buf ∧
    buf_dev buf = d ∧ has_table s (life_of buf) F.
Proof.
  intros [[_ _ Hlf _] _] (p & f & Hfd & Hp & Hk). pose proof Hlf as [_ Hfk].
  destruct (fk_fd _ _ _ Hfk fd p Hfd) as (f' & ? & Hok). simplify_eq.
  destruct (file_ok_buf s p f Hok Hk) as (b & buf & Hpd & Hb & _).
  destruct (life_table d s m mk b buf Hlf Hb) as (? & F & ?). exists b, buf, F.
  split_and!; try done. by exists p, f.
Qed.

(** Only files, descriptors and due releases change. *)
Lemma framed_files s s' x hq m m' mk :
  core d s x hq m mk → devs s' = devs s → tasks s' = tasks s → ctxs s' = ctxs s → bufs s' = bufs s →
  pts s' = pts s → pgarrs s' = pgarrs s → dmas s' = dmas s → cmds s' = cmds s →
  life d s' m' mk → core d s' x hq m' mk ∧ frame s x s' x.
Proof.
  intros Hi E1 E2 E3 E4 E5 E6 E7 E8 Hlf'. pose proof Hi as [[[Hd Hl Hf Hok] Hq Hlf Hr] Hfa].
  assert (Hk : ∀ t task, tasks s !! t = Some task → keeps s s' (task_ctx task)).
  { intros t task _. apply keeps_views; try done; [unfold ctx_view; by rewrite E3|
      unfold buf_view; by rewrite E4|by rewrite E8]. }
  split; [eapply (core_life d s); try done|apply frame_life; try done; by rewrite E4].
  - apply (slots_ok_same s _ d x); try done. unfold same_slots, slot_view. by rewrite E4.
  - unfold readers_ok. by rewrite E4.
  - rewrite E3. eauto.
Qed.

Lemma goes_files s s' x hq m m' mk :
  core d s x hq m mk → devs s' = devs s → tasks s' = tasks s → ctxs s' = ctxs s → bufs s' = bufs s →
  pts s' = pts s → pgarrs s' = pgarrs s → dmas s' = dmas s → cmds s' = cmds s →
  life d s' m' mk → goes d s x hq m' mk s'.
Proof. intros. exists x. by eapply (framed_files s s' x hq m m' mk). Qed.

(** An open file is not about to be released. *)
Lemma open_not_due s m mk fd p : life d s m mk → fds s !! fd = Some p → p ∉ releasing s.
Proof. intros [_ Hfk] Hfd Hdue. destruct (life_due_unreferenced s m mk p Hfk Hdue) as (Hno & _). by apply (Hno fd). Qed.

(** [fdget], whose reference nobody puts. *)
Lemma framed_fdgot s x hq m mk fd :
  core d s x hq m mk → core d (fdgot fd s) x hq m mk ∧ frame s x (fdgot fd s) x.
Proof.
  intros Hi. apply (framed_files s _ x hq m m mk); try done. pose proof Hi as [[_ _ Hlf _] _].
  unfold fdgot. destruct (fds s !! fd) as [p|] eqn:Hfd; [|by apply (life_same d s)].
  destruct (k_fd_shared (env s)); [|by apply (life_same d s)].
  destruct (fk_fd _ _ _ (lf_files _ _ _ _ Hlf) fd p Hfd) as (f & Hp & _).
  rewrite (alter_lookup _ _ _ _ Hp). apply life_get; try done. by eapply open_not_due.
Qed.

Lemma framed_run_borrowed s x hq m mk rc :
  core d s x hq m mk → core d (run_borrowed rc s) x hq m mk ∧ frame s x (run_borrowed rc s) x.
Proof.
  intros Hi. destruct (framed_fdgot s x hq m mk (r_cfd rc) Hi) as [Hi1 Hf1].
  destruct (framed_fdgot _ x hq m mk (r_bfd rc) Hi1) as [Hi2 Hf2]. split; [done|by eapply frame_trans].
Qed.

(** What the model of the run request relies on: its descriptors name buffers
    and the task count does not overflow. *)
Definition run_request_ok (s : state) (c : ptr) (rc : dicedev_ioctl_run_arg) : Prop :=
  fd_is_buffer s (r_cfd rc) ∧ fd_is_buffer s (r_bfd rc) ∧
  0 ≤ r_addr rc < 2 ^ 32 ∧ 0 ≤ r_size rc < 2 ^ 32 ∧
  ∀ ctx, ctxs s !! c = Some ctx → task_count ctx + 1 < 2 ^ 64.

Lemma run_safe s x hq m mk fd c arg :
  core d s x hq m mk → chr_open s fd c → (∀ rc, arg = Some rc → run_request_ok s c rc) →
  safe (dicedev_ioctl_run c arg) s (went s x hq m mk).
Proof.
  intros Hi Ho Hreq. destruct (chr_open_ctx _ _ _ _ _ _ _ Hi Ho) as (ctx & Hc & Hcd & Hmk & Hall).
  destruct arg as [rc|]; [|by eapply safe_done; [done|apply goes_refl]].
  destruct (Hreq rc eq_refl) as (Hcf & Hbf & Ha & Hs & Hcnt).
  destruct (fd_is_buffer_buf _ _ _ _ _ _ Hi Hcf) as (cb & cbuf & F & Hcb & Hcbuf & Hcd' & HF).
  destruct (fd_is_buffer_buf _ _ _ _ _ _ Hi Hbf) as (db & dbuf & G & Hdb & Hdbuf & Hdd & _).
  pose proof HF as (Hp & Ht & Hwf). destruct (core_locks _ _ _ _ _ _ Hi) as (Hd & Hl & _).
  assert (Hrt : run_target s c rc cb db cbuf dbuf (fp_pt F) (fp_tbl F) ctx x)
    by (split; rewrite ?Hcd; done).
  destruct (run_refusal c rc cbuf dbuf (fp_tbl F) ctx) as [err|] eqn:Er.
  { eapply safe_done; [by eapply ioctl_run_refused|]. destruct (run_aligned rc); [|by apply goes_refl].
    eexists. by eapply framed_run_borrowed. }
  destruct (framed_run_borrowed s x hq m mk rc Hi) as [Hi1 Hf1].
  apply wp_safe. eapply wp_ioctl_run_ok; [done..| |].
  2:{ intros e _. eapply goes_trans; [done|]. by apply goes_env. }
  set (s1 := run_borrowed rc s) in *.
  intros t s' (Hnew & Et & Ec & Ed & Eb & Ept & Epg & Ecm & Edm & Ef & Efd & Erl).
  unfold run_refusal in Er. destruct (decide _) as [(Ha4 & Hs4 & Hle & Ecb & Edb)|]; [|done].
  assert (Elf : same_life s1 s').
  { etrans; [by apply (same_life_ctx s1 c ctx (ctx_more ctx))|].
    split; try done; unfold ctx_view, buf_view; simpl; by rewrite ?Ec, ?Eb. }
  eapply goes_trans; [done|].
  exists (dev_enqueue t x). apply (goes_enqueue s1 s' x hq m mk t (run_task_of c cb db (r_addr rc) (r_size rc)) ctx); try done;
    [|by apply Hcnt|by rewrite <-Hcd|by rewrite Ecm].
  split; [|done|].
  - exists (allocated_buffers ctx). rewrite <-(sl_ctx _ _ Elf). split_and!.
    + by apply ctx_view_lookup.
    + by eapply Hall.
    + simpl. intros r [= <-]. by eapply Hall.
  - exists (life_of cbuf), F. rewrite <-(sl_buf _ _ Elf). simpl. split_and!; try done; try lia.
    + by apply buf_view_lookup.
    + eapply has_table_same; [done|]. by eapply (has_table_eq s).
Qed.

Lemma wait_safe s x hq m mk fd c arg :
  core d s x hq m mk → chr_open s fd c → safe (dicedev_ioctl_wait c arg) s (went s x hq m mk).
Proof.
  intros Hi Ho. destruct (chr_open_ctx _ _ _ _ _ _ _ Hi Ho) as (ctx & Hc & _).
  destruct arg as [wc|]; [|by eapply safe_done; [done|apply goes_refl]].
  pose proof (wait_run s c ctx wc Hc) as E. destruct (w_cnt wc <? task_count ctx).
  - by apply safe_sleeps.
  - eapply safe_done; [exact E|by apply goes_refl].
Qed.

Lemma seed_increment_safe s x hq m mk fd c arg :
  core d s x hq m mk → chr_open s fd c → safe (dicedev_ioctl_seed_increment c arg) s (went s x hq m mk).
Proof.
  intros Hi Ho. destruct (chr_open_ctx _ _ _ _ _ _ _ Hi Ho) as (ctx & Hc & Hcd & _).
  destruct arg as [si|]; [|by eapply safe_done; [done|apply goes_refl]].
  destruct (core_locks _ _ _ _ _ _ Hi) as (Hd & Hl & Hf).
  destruct (seed_flag_ok (si_enable_increment si)) eqn:E.
  - apply wp_safe. eapply (wp_seed_increment s c ctx x); rewrite ?Hcd; try done.
    intros h. dev_goes.
  - eapply safe_done; [by apply seed_increment_refused|by apply goes_refl].
Qed.

(** *** Requests on buffer files *)

(** File [p] is the file of a live buffer [b]. *)
Lemma buffer_file s x hq m mk p f :
  core d s x hq m mk → files s !! p = Some f → f_kind f = FBuffer → file_ok s p f →
  ∃ b buf F, private_data f = Some b ∧ bufs s !! b = Some buf ∧ buf_dev buf = d ∧
    has_table s (life_of buf) F ∧
    (destroyed buf = false → ∃ ctx, ctxs s !! buf_ctx buf = Some ctx ∧ ctx_dev ctx = d ∧
       b ∈ allocated_buffers ctx).
Proof.
  intros [[_ Hq Hlf _] _] Hp Hk Hok. destruct (file_ok_buf s p f Hok Hk) as (b & buf & Hpd & Hb & _).
  destruct (life_table d s m mk b buf Hlf Hb) as (? & F & ?). exists b, buf, F. split_and!; try done.
  intros Hd. destruct Hlf as [Hbk _]. destruct (bk_alive _ _ Hbk b (life_of buf)) as (l & Hl & Hin);
    [by apply buf_view_lookup|done|]. apply ctx_view_Some in Hl as (ctx & Hc & <-).
  exists ctx. split_and!; try done. by apply (qo_ctx _ _ _ Hq _ _ Hc).
Qed.

Lemma goes_buf_only s x hq m mk b buf buf' :
  core d s x hq m mk → bufs s !! b = Some buf → life_of buf' = life_of buf →
  binded_slot buf' = binded_slot buf → reader_ok (reader buf') → goes d s x hq m mk (upd_buf b buf' s).
Proof.
  intros [Hmi Hfa] Hb El Es Hr. exists x. split; [split; [by eapply mem_inv_buf_only|done]|].
  apply frame_life; [done|..].
  - intros t task _. apply keeps_same; [by eapply same_life_buf|done].
  - intros t task _. simpl. destruct (decide (b = buff_out task)) as [<-|]; [|by rewrite lookup_insert_ne].
    rewrite lookup_insert_eq, Hb. simpl. by rewrite Es.
Qed.

Lemma inv_buf_only s x nt m mk b buf buf' :
  inv d s x nt m mk → bufs s !! b = Some buf → life_of buf' = life_of buf →
  binded_slot buf' = binded_slot buf → reader_ok (reader buf') → inv d (upd_buf b buf' s) x nt m mk.
Proof. intros [Hmi Hfe Hfa] ? ? ? ?. split; [by eapply mem_inv_buf_only|done|done]. Qed.

Lemma buffer_ioctl_safe s x hq m mk p f cmd arg :
  core d s x hq m mk → files s !! p = Some f → f_kind f = FBuffer → file_ok s p f →
  safe (dicedev_buffer_ioctl p cmd arg) s (went s x hq m mk).
Proof.
  intros Hi Hp Hk Hok. destruct (buffer_file _ _ _ _ _ _ _ Hi Hp Hk Hok) as (b & buf & F & Hpd & Hb & _).
  apply wp_safe. unfold dicedev_buffer_ioctl. wp_mem. rewrite Hpd.
  destruct (cmd =? DICEDEV_BUFFER_IOCTL_SEED); [|wp_step; by apply goes_refl].
  destruct arg as [a|]; [|wp_step; by apply goes_refl]. wp_mem.
  pose proof Hi as [[_ _ _ Hr] _]. eapply goes_buf_only; try done. exact (Hr b buf Hb).
Qed.

(** What [read_one] relies on. *)
Lemma buffer_readable s x hq m mk p f :
  core d s x hq m mk → files s !! p = Some f → f_kind f = FBuffer → file_ok s p f →
  ∃ b buf F, private_data f = Some b ∧ bufs s !! b = Some buf ∧ readable s p b buf x (fp_data F).
Proof.
  intros Hi Hp Hk Hok.
  destruct (buffer_file _ _ _ _ _ _ _ Hi Hp Hk Hok) as (b & buf & F & Hpd & Hb & Hbd & (Ht1 & Ht2 & Ht3) & Hc).
  pose proof Hi as [[[Hd Hl Hf Hok'] _ _ Hr] _]. exists b, buf, F. split_and!; try done.
  split; [by exists f| |by rewrite Hbd|done|by eapply Hr|].
  - exists (fp_pt F), (fp_tbl F), (fp_page F), (fp_bus F), (fp_arr F). by split.
  - intros Hdes. destruct (Hc Hdes) as (ctx & ? & _). by exists ctx.
Qed.

Lemma read_safe s x hq m mk p f count fault :
  core d s x hq m mk → files s !! p = Some f → f_kind f = FBuffer → file_ok s p f →
  safe (dicedev_buffer_read p count fault) s (went s x hq m mk).
Proof.
  intros Hi Hp Hk Hok. destruct (buffer_readable _ _ _ _ _ _ _ Hi Hp Hk Hok) as (b & buf & F & Hpd & Hb & Hre).
  pose proof Hi as [[_ _ _ Hr] _].
  destruct (decide (count = DICE_SIZE)) as [->|Hne].
  2:{ eapply (safe_done _ _ (- EINVAL, None) s); [|by apply goes_refl].
      unfold dicedev_buffer_read, get_file, fetch, mbind, M_bind. rewrite Hp.
      by destruct (Z.eqb_spec count DICE_SIZE). }
  assert (Hadv : goes d s x hq m mk (upd_buf b (buf_advance buf) s)).
  { eapply goes_buf_only; try done. split; [apply u64_range|apply (Hr b buf Hb)]. }
  unfold safe. rewrite (read_one s p b buf x (fp_data F)) by done. unfold read_spec.
  destruct (_ =? _); [by destruct (read_sleeps s buf); [|apply goes_refl]|].
  by destruct (die_of _ _); [destruct fault|].
Qed.

(** A read that sleeps does so on the waitqueue of a context that is alive. *)
Lemma read_sleeps_alive s x hq m mk p f count fault b v :
  core d s x hq m mk → files s !! p = Some f → f_kind f = FBuffer → file_ok s p f →
  dicedev_buffer_read p count fault s = Crash Sleeps → private_data f = Some b →
  buf_view s !! b = Some v → is_Some (ctx_view s !! bl_ctx v).
Proof.
  intros Hi Hp Hk Hok Hrun Hpd (buf & Hb & <-)%buf_view_Some.
  destruct (buffer_readable _ _ _ _ _ _ _ Hi Hp Hk Hok) as (b' & buf' & F & ? & ? & Hre). simplify_eq.
  destruct (decide (count = DICE_SIZE)) as [->|Hne].
  2:{ unfold dicedev_buffer_read, get_file, fetch, mbind, M_bind in Hrun. rewrite Hp in Hrun.
      by destruct (Z.eqb_spec count DICE_SIZE). }
  rewrite (read_one s p b buf x (fp_data F)) in Hrun by done. unfold read_spec, read_sleeps in Hrun. simpl.
  destruct (ctxs s !! buf_ctx buf) as [ctx|] eqn:Hc; [apply ctx_view_lookup in Hc; by eexists|].
  by repeat case_match.
Qed.

(** A reader that is woken up finds its waitqueue. *)
Lemma read_resume_safe s x hq m mk p fault :
  core d s x hq m mk → (p, Asleep fault) ∈ m → safe (buffer_read_resume p fault) s (went s x hq m mk).
Proof.
  intros Hi Hin. pose proof Hi as [[_ _ [_ Hfk] _] _].
  destruct (fk_map _ _ _ Hfk p) as (f & Hp & Hk & Hok); [exact (list_elem_of_fmap_2 fst _ _ Hin)|].
  destruct (buffer_readable _ _ _ _ _ _ _ Hi Hp Hk Hok) as (b & buf & F & Hpd & Hb & _).
  destruct (fk_asleep _ _ _ Hfk p fault f b (life_of buf)) as [l (ctx & Hc & _)%ctx_view_Some];
    [done..|by apply buf_view_lookup|]. simpl in Hc.
  unfold buffer_read_resume. apply safe_bind. eapply safe_done; [unfold get_file, fetch; by rewrite Hp|].
  apply safe_bind. eapply safe_done; [unfold deref; by rewrite Hpd|].
  apply safe_bind. eapply safe_done; [unfold get_buf, fetch; by rewrite Hb|].
  apply safe_bind. eapply safe_done; [unfold get_ctx, fetch; by rewrite Hc|]. by eapply read_safe.
Qed.

(** What the model of write relies on: the user buffer is readable, memory is
    granted and the task count does not overflow. *)
Definition write_request_ok (s : state) (words : option (list Z)) (count : Z) : Prop :=
  (count mod 4 = 0 → ∃ ws cmd t, words = Some ws ∧ count = 4 * Z.of_nat (length ws) ∧
     count < 2 ^ 64 ∧ write_granted s count cmd t) ∧
  ∀ c ctx, ctxs s !! c = Some ctx → task_count ctx + 1 < 2 ^ 64.

Lemma goes_write_accepted s s' x hq m mk b buf ctx cmd t ws :
  core d s x hq m mk → bufs s !! b = Some buf → buf_dev buf = d → ctxs s !! buf_ctx buf = Some ctx →
  b ∈ allocated_buffers ctx → task_count ctx + 1 < 2 ^ 64 → 4 * Z.of_nat (length ws) < 2 ^ 64 →
  write_accepted s s' b buf ctx x cmd t ws (4 * Z.of_nat (length ws)) →
  core d s' (dev_enqueue t x) hq m mk ∧ frame s x s' (dev_enqueue t x) ∧ same_life s s'.
Proof.
  intros Hi Hb Hbd Hc Hin Hcnt Hlt (Hcmd & Hnew & Ecm & Et & Ec & Ed & Eb & Ept & Epg & Edm & Ef & Efd & Erl & _).
  assert (Elf : same_life s s').
  { etrans; [by apply (same_life_ctx s (buf_ctx buf) ctx (ctx_more ctx))|].
    split; try done; unfold ctx_view, buf_view; simpl; by rewrite ?Ec, ?Eb. }
  cut (core d s' (dev_enqueue t x) hq m mk ∧ frame s x s' (dev_enqueue t x)); [naive_solver|].
  apply (goes_enqueue s s' x hq m mk t (write_task b (buf_ctx buf) cmd (4 * Z.of_nat (length ws))) ctx);
    try done; [|by rewrite Ed, Hbd|rewrite Ecm; by apply insert_subseteq].
  split; [|done|].
  - exists (allocated_buffers ctx). rewrite <-(sl_ctx _ _ Elf). split_and!; [|done|done].
    by apply ctx_view_lookup.
  - exists ws. simpl. by rewrite Ecm, lookup_insert_eq.
Qed.

Lemma write_accepted_inv s s' x nt m mk b buf ctx cmd t ws :
  inv d s x nt m mk → bufs s !! b = Some buf → buf_dev buf = d → ctxs s !! buf_ctx buf = Some ctx →
  b ∈ allocated_buffers ctx → task_count ctx + 1 < 2 ^ 64 → 4 * Z.of_nat (length ws) < 2 ^ 64 →
  write_accepted s s' b buf ctx x cmd t ws (4 * Z.of_nat (length ws)) →
  inv d s' (dev_enqueue t x) nt m mk ∧ same_life s s'.
Proof.
  intros Hi Hb Hbd Hc Hin Hcnt Hlt Hacc.
  destruct (goes_write_accepted s s' x _ m mk b buf ctx cmd t ws (inv_core _ _ _ _ _ _ Hi))
    as (? & ? & ?); try done. split; [by eapply inv_framed|done].
Qed.

Lemma write_safe s x hq m mk p f words count :
  core d s x hq m mk → files s !! p = Some f → f_kind f = FBuffer → file_ok s p f →
  write_request_ok s words count → safe (dicedev_buffer_write p words count) s (went s x hq m mk).
Proof.
  intros Hi Hp Hk Hok [Hreq Hcnt].
  destruct (buffer_file _ _ _ _ _ _ _ Hi Hp Hk Hok) as (b & buf & F & Hpd & Hb & Hbd & _ & Hctx).
  destruct (core_locks _ _ _ _ _ _ Hi) as (Hd & Hl & _).
  destruct (decide (count mod 4 = 0)) as [H4|H4].
  2:{ eapply safe_done; [by eapply write_unaligned|by apply goes_refl]. }
  destruct (destroyed buf) eqn:Hdes.
  { eapply safe_done; [eapply (write_destroyed s p f b buf x); rewrite ?Hbd; done|by apply goes_refl]. }
  destruct (Hreq H4) as (ws & cmd & t & -> & -> & Hlt & Hg).
  destruct (Hctx eq_refl) as (ctx & Hc & Hcd & Hin).
  assert (Hw : writable s p b buf ctx x) by (split; rewrite ?Hbd; try done; by exists f).
  apply wp_safe. eapply wp_write_granted; [done..|]. intros s' Hacc. exists (dev_enqueue t x).
  destruct (goes_write_accepted s s' x hq m mk b buf ctx cmd t ws) as (? & ? & _); try done. by eapply Hcnt.
Qed.

(** *** Mapping, storing, closing *)

Lemma wp_file_get p f s (Q : unit → state → Prop) :
  files s !! p = Some f → Q tt (set_count p f (f_count f + 1) s) → wp (file_get p) s Q.
Proof. intros Hp HQ. unfold file_get. by wp_mem. Qed.

(** The reference of a new mapping, if there is one. *)
Definition new_mapping (o : option ptr) : references := option_list ((λ p, (p, Mapped)) <$> o).

Lemma mmap_safe s x hq m mk fd :
  core d s x hq m mk →
  safe (sys_mmap fd) s (λ r s', goes d s x hq (new_mapping r.2 ++ m) mk s').
Proof.
  intros Hi. apply wp_safe. pose proof Hi as [[_ _ Hlf _] _]. pose proof Hlf as [_ Hfk].
  unfold sys_mmap, dispatch, fd_file. wp_steps. destruct (fds s !! fd) as [p|] eqn:Hfd; [|wp_step; by apply goes_refl].
  destruct (fk_fd _ _ _ Hfk fd p Hfd) as (f & Hp & Hok). unfold_mem. wp_steps.
  destruct (f_kind f) eqn:Hk; simpl; [by wp_step; apply goes_refl| |by wp_step; apply goes_refl].
  destruct (buffer_file _ _ _ _ _ _ _ Hi Hp Hk Hok) as (b & buf & F & Hpd & _).
  unfold dicedev_buffer_mmap. wp_mem. rewrite Hpd. wp_steps. eapply wp_file_get; [done|]. wp_step.
  eapply (goes_files s); try done. apply life_map; try done. by eapply open_not_due.
Qed.

Lemma put_safe s x hq m m' mk p h :
  core d s x hq m mk → m ≡ₚ (p, h) :: m' → safe (fput p) s (went s x hq m' mk).
Proof.
  intros Hi Hm. apply wp_safe. pose proof Hi as [[_ _ Hlf _] _]. pose proof Hlf as [_ Hfk].
  destruct (fk_map _ _ _ Hfk p) as (f & Hp & _); [by rewrite Hm; left|].
  eapply wp_fput; [done|]. eapply (goes_files s); try done. by eapply life_unmap.
Qed.

Lemma close_safe s x hq m mk fd : core d s x hq m mk → safe (sys_close fd) s (went s x hq m mk).
Proof.
  intros Hi. apply wp_safe. pose proof Hi as [[_ _ Hlf _] _]. pose proof Hlf as [_ Hfk].
  unfold sys_close, fd_file. wp_steps. destruct (fds s !! fd) as [p|] eqn:Hfd; [|wp_step; by apply goes_refl].
  destruct (fk_fd _ _ _ Hfk fd p Hfd) as (f & Hp & Hok). wp_steps. eapply wp_fput; [done|]. wp_step.
  eapply (goes_files s); try done. by eapply life_close_fd.
Qed.

(** A reader goes to sleep: its call keeps a reference to the file. *)
Lemma asleep_safe s x hq m mk fd p f fault :
  core d s x hq m mk → fds s !! fd = Some p → files s !! p = Some f → f_kind f = FBuffer →
  (∀ b v, private_data f = Some b → buf_view s !! b = Some v → is_Some (ctx_view s !! bl_ctx v)) →
  safe (file_get p) s (went s x hq ((p, Asleep fault) :: m) mk).
Proof.
  intros Hi Hfd Hp Hk Has. apply wp_safe. pose proof Hi as [[_ _ Hlf _] _]. pose proof Hlf as [_ Hfk].
  destruct (fk_fd _ _ _ Hfk fd p Hfd) as (f' & ? & Hok). simplify_eq.
  eapply wp_file_get; [done|]. eapply (goes_files s); try done. apply life_map; try done; [by eapply open_not_due|].
  intros b v _. apply Has.
Qed.

(** A store through a mapping changes one word of one data page. *)
Lemma wp_user_store s x hq m mk p f b buf F i v :
  core d s x hq m mk → files s !! p = Some f → private_data f = Some b → bufs s !! b = Some buf →
  has_table s (life_of buf) F → 0 ≤ i →
  wp (user_store p i v) s (λ ok s', if ok
    then ∃ q mq, fp_data F !! Z.to_nat (i / 1024) = Some q ∧ dmas s !! q.1 = Some mq ∧
      s' = upd_dma q.1 (mq <| dp_words := <[Z.to_nat (i mod 1024) := u32 v]> (dp_words mq) |>) s
    else fp_data F !! Z.to_nat (i / 1024) = None ∧ s' = s).
Proof.
  intros Hi Hp Hpd Hb (HF1 & HF2 & Hwf) Hi0. unfold user_store. wp_mem.
  assert (Hbp : buf_pages s b buf (fp_pt F) (fp_tbl F) (fp_page F) (fp_bus F) (fp_arr F) (fp_data F)) by by split.
  pose proof (fault_page _ _ _ _ _ _ _ _ _ (i / 1024) Hbp ltac:(dlia)) as Hft.
  destruct (fp_data F !! Z.to_nat (i / 1024)) as [q|] eqn:Eq;
    (eapply wp_done; [exact Hft|]); simpl; [|by wp_step].
  destruct (ptw_page _ _ _ _ _ _ Hwf q) as (mq & Hm & _ & Hlen); [by eapply list_elem_of_lookup_2|].
  wp_mem. replace (i mod 1024) with (Z.of_nat (Z.to_nat (i mod 1024))) by dlia.
  eapply wp_store; [rewrite Hlen; dlia|]. wp_mem. exists q, mq. by rewrite Nat2Z.id.
Qed.

(** Writing words of a data page of a buffer. *)
Lemma goes_page_store s x hq m mk b buf F q mq ws :
  core d s x hq m mk → bufs s !! b = Some buf → has_table s (life_of buf) F → q ∈ (fp_data F).*1 →
  dmas s !! q = Some mq → length ws = length (dp_words mq) →
  core d (upd_dma q (mq <| dp_words := ws |>) s) x hq m mk ∧
  frame s x (upd_dma q (mq <| dp_words := ws |>) s) x.
Proof.
  intros Hi Hb HF Hq Hm El. pose proof Hi as [[[Hd Hl Hf Hok'] Hqu Hlf Hr] _].
  set (mq' := mq <| dp_words := _ |>). apply buf_view_lookup in Hb.
  assert (Hk : ∀ t task, tasks s !! t = Some task → keeps s (upd_dma q mq' s) (task_ctx task)).
  { intros t task Ht. split; [done|]. intros l Hl'. exists l. split; [done|].
    intros b' Hb'. split; [done|]. intros w G Hw HG. exists w. split; [done|].
    by eapply (table_store d s b (life_of buf) F q mq mq'); try done; apply Hlf. }
  split; [|by apply frame_life]. eapply (core_life d s); try done.
  - by apply (slots_ok_same s _ d x).
  - by eapply (life_store d s m mk b (life_of buf) F q mq mq').
  - eauto.
Qed.

Lemma inv_page_store s x nt m mk b buf F q mq ws :
  inv d s x nt m mk → bufs s !! b = Some buf → has_table s (life_of buf) F → q ∈ (fp_data F).*1 →
  dmas s !! q = Some mq → length ws = length (dp_words mq) →
  inv d (upd_dma q (mq <| dp_words := ws |>) s) x nt m mk.
Proof.
  intros Hi Hb HF Hq Hm El.
  destruct (goes_page_store s x _ m mk b buf F q mq ws (inv_core _ _ _ _ _ _ Hi)) as [? ?]; try done.
  by eapply inv_framed.
Qed.

Lemma store_safe s x hq m mk p i v :
  core d s x hq m mk → p ∈ m.*1 → 0 ≤ i → safe (user_store p i v) s (went s x hq m mk).
Proof.
  intros Hi Hpm Hi0. apply wp_safe. pose proof Hi as [[_ _ [_ Hfk] _] _].
  destruct (fk_map _ _ _ Hfk p Hpm) as (f & Hp & Hk & Hok).
  destruct (buffer_file _ _ _ _ _ _ _ Hi Hp Hk Hok) as (b & buf & F & Hpd & Hb & _ & HF & _).
  eapply wp_mono; [by eapply (wp_user_store s x hq m mk p f b buf F)|]. intros ok s' Hpost.
  destruct ok; [|destruct Hpost as [_ ->]; by apply goes_refl]. destruct Hpost as (q & mq & Hqd & Hm & ->).
  apply list_elem_of_lookup_2, (list_elem_of_fmap_2 fst) in Hqd.
  exists x. eapply goes_page_store; try done. apply length_insert.
Qed.

(** The pages of a buffer, through its page table. *)
Definition pages_of (s : state) (buf : dicedev_buffer) : option (list dicedev_page) :=
  ptp ← buf_pt buf; tbl ← pts s !! ptp; arr ← pages tbl; pgarrs s !! arr.

(** Page [q] is among the first [k] pages of buffer [b]. *)
Definition page_of_buf (k : nat) (s : state) (b q : ptr) : Prop :=
  ∃ buf l i pg, bufs s !! b = Some buf ∧ pages_of s buf = Some l ∧ l !! i = Some pg ∧ (i < k)%nat ∧
    page pg = Some q.

(** A page the board may write: the page table bound to some slot names it. *)
Definition board_page (s : state) (x : dicedev_device) (q : ptr) : Prop :=
  ∃ n b, buff_slots x !! n = Some (Some b) ∧ page_of_buf 1024 s b q.

Lemma pages_of_table s buf F : has_table s (life_of buf) F → pages_of s buf = Some (page_of <$> fp_data F).
Proof.
  intros (Hp & Ht & [_ Ha Hl _ _ _ _ _ _ _]). unfold pages_of. change (buf_pt buf = Some (fp_pt F)) in Hp.
  rewrite Hp. simpl. rewrite Ht. simpl. rewrite Ha. done.
Qed.

Lemma board_page_table s x hq m mk q :
  core d s x hq m mk → board_page s x q → ∃ b buf F mq,
    bufs s !! b = Some buf ∧ has_table s (life_of buf) F ∧ q ∈ (fp_data F).*1 ∧
    dmas s !! q = Some mq ∧ length (dp_words mq) = 1024%nat.
Proof.
  intros Hi (n & b & _ & buf & l & k & pg & Hb & Hl & Hpg & _ & Eq).
  pose proof Hi as [[_ _ Hlf _] _]. destruct (life_table d _ _ _ b buf Hlf Hb) as [_ [F HF]].
  rewrite (pages_of_table _ _ _ HF) in Hl. injection Hl as <-.
  apply list_elem_of_lookup_2, list_elem_of_fmap in Hpg as ([q' h] & -> & Hin). simpl in Eq. injection Eq as ->.
  pose proof HF as (_ & _ & Hwf). destruct (ptw_page _ _ _ _ _ _ Hwf _ Hin) as (mq & Hm & _ & Hlen).
  exists b, buf, F, mq. split_and!; try done. exact (list_elem_of_fmap_2 fst _ _ Hin).
Qed.

(** A store of the board to a page in memory. *)
Lemma wp_board_store_page s q i v mq (Q : unit → state → Prop) :
  dmas s !! q = Some mq → length (dp_words mq) = 1024%nat → 0 ≤ i < 1024 →
  Q tt (upd_dma q (mq <| dp_words := <[Z.to_nat i := u32 v]> (dp_words mq) |>) s) →
  wp (board_store q i v) s Q.
Proof.
  intros Hm Hlen Hi HQ. unfold board_store. wp_mem. replace i with (Z.of_nat (Z.to_nat i)) by lia.
  eapply wp_store; [rewrite Hlen; lia|]. wp_mem. exact HQ.
Qed.

Lemma wp_board_store s x nt m mk q i v :
  inv d s x nt m mk → board_page s x q → 0 ≤ i < 1024 →
  wp (board_store q i v) s (λ _ s', inv d s' x nt m mk ∧ ∃ mq, s' = upd_dma q mq s).
Proof.
  intros Hi Hq Hi0. destruct (board_page_table _ _ _ _ _ _ Hi Hq) as (b & buf & F & mq & Hb & HF & Hin & Hm & Hlen).
  eapply wp_board_store_page; [done..|]. split; [|by eexists].
  eapply inv_page_store; try done. apply length_insert.
Qed.

Lemma board_store_safe s x hq m mk q i v :
  core d s x hq m mk → board_page s x q → 0 ≤ i < 1024 → safe (board_store q i v) s (went s x hq m mk).
Proof.
  intros Hi Hq Hi0. destruct (board_page_table _ _ _ _ _ _ Hi Hq) as (b & buf & F & mq & Hb & HF & Hin & Hm & Hlen).
  apply wp_safe. eapply wp_board_store_page; [done..|]. exists x. eapply goes_page_store; try done. apply length_insert.
Qed.

End Calls.
