(* ===== verification/Release.v ===== *)
(** Teardown under the global invariant: the release of a buffer file and the
    two halves of the release of the char device (marking the buffers, and,
    once no task of the context is left, closing them and freeing the
    context). *)

From S2P Require Import Prelude Cmd Types Utils Slots Pt Task Wt Buffer Base Syscall WtSpec BufferSpec IoctlSpec Lifetime Invariant Thread Core Calls.

Section Release.
Context `{Hardware, Kernel}.
Variable d : ptr.
Context `{!HardwareLaws, !KernelLaws}.

Abbreviation went s x hq m mk := (λ _ s', goes d s x hq m mk s').

(** ** Giving the slot of a buffer back *)

Definition bound (buf : dicedev_buffer) : bool := negb (binded_slot buf =? DICEDEV_BUFFER_NO_SLOT).

Definition slot_freed (b : ptr) (buf : dicedev_buffer) (x : dicedev_device) (h : hw) (s : state) : state :=
  upd_dev d (dev_freed (bound buf) (slot_of buf) h x) (upd_buf b (buf_freed (bound buf) buf) s).

Lemma slot_freed_core s x hq m mk b buf h :
  core d s x hq m mk → bufs s !! b = Some buf →
  core d (slot_freed b buf x h s) (dev_freed (bound buf) (slot_of buf) h x) hq m mk ∧
  binded_slot (buf_freed (bound buf) buf) = DICEDEV_BUFFER_NO_SLOT.
Proof.
  intros Hi Hb. pose proof Hi as [Hmi Hfa]. pose proof Hmi as [[Hd Hl Hf Hok] Hq Hlf Hr].
  destruct (life_table d s m mk b buf Hlf Hb) as [Hbd _].
  unfold slot_freed, bound. destruct (Z.eqb_spec (binded_slot buf) DICEDEV_BUFFER_NO_SLOT) as [E|E]; simpl.
  - split; [|done]. by rewrite upd_buf_id, upd_dev_id.
  - destruct (slots_ok_slot_of _ _ _ _ _ Hok Hb Hbd E) as (Hs & Hx & _).
    split; [|done]. split; [|done].
    eapply (mem_inv_buf d s x); try done; [exact (Hr b buf Hb)|]. by eapply (slots_ok_unbind s _ d x).
Qed.

Lemma free_slots_freed s x fr slot h :
  slots_ok s d x → free_slots x ≤ free_slots (dev_freed fr slot h x).
Proof.
  intros Hok. unfold dev_freed. destruct fr; simpl; [|done]. rewrite (so_free _ _ _ Hok).
  pose proof (count_null_bound (buff_slots x)) as Hb. rewrite (so_length _ _ _ Hok) in Hb.
  change (Z.to_nat DICEDEV_NUM_SLOTS) with 16%nat in Hb. rewrite u64_small; lia.
Qed.

(** The tasks in the queue do not notice, unless it is their output buffer. *)
Lemma slot_freed_frame s x b buf h :
  slots_ok s d x → bufs s !! b = Some buf → (∀ t task, tasks s !! t = Some task → buff_out task ≠ b) →
  frame s x (slot_freed b buf x h s) (dev_freed (bound buf) (slot_of buf) h x).
Proof.
  intros Hok Hb Hne. destruct (dev_freed_same (bound buf) (slot_of buf) h x) as (E1 & E2 & E3 & _).
  split; try done; [by destruct (bound buf)|by rewrite E2|by eapply free_slots_freed|..].
  - intros t task Ht. split; [done|]. apply keeps_same; [|done].
    etrans; [by eapply (same_life_buf s b buf (buf_freed (bound buf) buf)); [|destruct (bound buf)]|done].
  - intros t [task Ht]. unfold out_slot. simpl. rewrite Ht. simpl.
    by rewrite lookup_insert_ne by (intros ?; by eapply Hne).
  - apply fence_due_freed.
Qed.

Lemma wp_free_slot {A} s x b buf (k : dicedev_buffer → K A) (Q : A → state → Prop) :
  devs s !! d = Some x → slock x = false → feed_lock x = false → slots_ok s d x →
  bufs s !! b = Some buf → buf_dev buf = d →
  (∀ h, wp (k buf) (slot_freed b buf x h s) Q) →
  wp (lock_slock d;; buf ← get_buf b; when (bound buf) (unbind_slot d b);; unlock_slock d;; k buf) s Q.
Proof.
  intros Hd Hl Hf Hok Hb Hbd HQ. wp_step. eapply wp_lock_slock; [done..|]. wp_mem.
  unfold slot_freed in HQ. apply wp_when; intros E; rewrite E in HQ; simpl in HQ.
  - apply negb_true_iff, Z.eqb_neq in E.
    destruct (slots_ok_slot_of _ _ _ _ _ Hok Hb Hbd E) as (Hs & Hx & _).
    eapply wp_unbind_slot; [apply devs_upd_dev|done|done|done|by eapply lookup_lt_Some|].
    intros h. wp_step. eapply wp_unlock_slock; [apply devs_upd_dev|done|].
    specialize (HQ h). unfold upd_dev, upd_buf, dev_io, dev_unbind in *. simpl in *.
    rewrite !insert_insert_eq. destruct x. simpl in *. by subst.
  - wp_step. eapply wp_unlock_slock; [apply devs_upd_dev|done|].
    rewrite upd_dev_twice, relock_id by done.
    specialize (HQ (bar x)). by rewrite upd_buf_id, upd_dev_id in HQ.
Qed.

(** ** Releasing a buffer file *)

Lemma buffer_release_safe s x hq m mk p f :
  core d s x hq m mk → p ∈ releasing s → files s !! p = Some f → f_kind f = FBuffer →
  safe (dicedev_buffer_release p;; vfs_released p) s (went s x hq m mk).
Proof.
  intros Hi Hdue Hp Hk. pose proof Hi as [[[Hd Hl Hf Hok] Hq Hlf Hr] Hfa]. pose proof Hlf as [Hbk Hfk].
  destruct (fk_due _ _ _ Hfk p Hdue) as (f' & ? & _ & Hfok). simplify_eq.
  destruct (file_ok_buf s p f Hfok Hk) as (b & buf & Hpd & Hb & Hbf).
  destruct (life_table d s m mk b buf Hlf Hb) as (Hbd & F & HF). pose proof HF as (HF1 & HF2 & HF3).
  apply wp_safe. unfold dicedev_buffer_release. wp_mem.
  eapply (wp_buffer_destroy s d b buf x); [by split|done|done|done|done|done|]. intros h.
  unfold kfree_buf, vfs_released, vfs_drop_file. wp_mem. fold (bound buf).
  destruct (slot_freed_core s x hq m mk b buf h Hi Hb) as [Hi1 Hno].
  set (y := dev_freed (bound buf) (slot_of buf) h x) in *.
  match goal with |- goes _ _ _ _ _ _ ?st => set (s' := st) end.
  assert (Edel : bufs s' = delete b (bufs s)) by (simpl; by rewrite delete_insert_eq).
  assert (Ebv : buf_view s' = delete b (buf_view s)) by (unfold buf_view; by rewrite Edel, fmap_delete).
  assert (Edm : ∀ q, q ∉ fp_pages F → dmas s' !! q = dmas s !! q).
  { intros q [? ?]%not_elem_of_cons. simpl. by rewrite lookup_delete_ne, lookup_del_ne. }
  assert (Hv : buf_view s !! b = Some (life_of buf) ∧ bl_file (life_of buf) = Some p)
    by (split; [by apply buf_view_lookup|done]).
  pose proof Hi1 as [[[Hd1 Hl1 Hf1 Hok1] _ _ _] Hfa1].
  assert (Hkeep : ∀ t task, tasks s !! t = Some task → keeps s s' (task_ctx task)).
  { intros t task _. split; [done|]. intros l Hl'. exists l. split; [done|].
    intros b' Hin. split; [done|]. intros w G Hw HG. exists w.
    by eapply (release_keeps d s s' m mk b p f (life_of buf) F). }
  assert (Hout : ∀ t task, tasks s !! t = Some task → buff_out task ≠ b).
  { intros t task Ht E. destruct (core_task d _ _ _ _ _ t task Hi Ht) as [(l & Hl' & Hin & _) _ _].
    destruct (Hkeep t task Ht) as [_ Hkp]. destruct (Hkp l Hl') as (l' & _ & Hkp').
    destruct (Hkp' _ Hin) as [_ Hkb]. rewrite E in Hkb.
    destruct (Hkb (life_of buf) F) as (v' & Hv' & _); [by apply buf_view_lookup|done|].
    rewrite Ebv, lookup_delete_eq in Hv'. done. }
  exists y. split.
  2:{ destruct (dev_freed_same (bound buf) (slot_of buf) h x) as (E1 & E2 & E3 & _).
      split; try done; [unfold y; by destruct (bound buf)|unfold y; by rewrite E2|
        by eapply free_slots_freed|intros t task Ht; by eauto| |apply fence_due_freed].
      intros t [task Ht]. unfold out_slot. change (tasks s') with (tasks s). rewrite Edel, Ht. simpl.
      rewrite lookup_delete_ne; [done|]. intros E. by apply (Hout t task Ht). }
  split; [|done]. split.
  - split; [exact Hd1|done|done|]. eapply (slots_ok_delete (slot_freed b buf x h s)); try done.
    intros i. eapply (slots_ok_absent _ d y b (buf_freed (bound buf) buf)); [done|apply bufs_upd_buf|done].
  - eapply (queue_ok_keep d s); try done.
    + unfold y. destruct (bound buf); exact Hq.
    + eauto.
  - by eapply (life_release d s s' m mk b p f (life_of buf) F).
  - intros b' buf'. rewrite Edel. intros [_ ?]%lookup_delete_Some. by eapply Hr.
Qed.

(** ** Releasing the char device: marking the buffers *)

Definition mark_bufs (l : list ptr) (B : gmap ptr dicedev_buffer) : gmap ptr dicedev_buffer :=
  map_imap (λ b buf, Some (if decide (b ∈ l) then buf <| destroyed := true |> else buf)) B.

Lemma lookup_mark_bufs l B b :
  mark_bufs l B !! b = (λ buf, if decide (b ∈ l) then buf <| destroyed := true |> else buf) <$> B !! b.
Proof. unfold mark_bufs. rewrite map_lookup_imap. by destruct (B !! b). Qed.

Lemma wp_mark_destroyed l s (Q : unit → state → Prop) :
  (∀ b, b ∈ l → is_Some (bufs s !! b)) → Q tt (s <| bufs := mark_bufs l (bufs s) |>) →
  wp (mark_destroyed l) s Q.
Proof.
  revert s. induction l as [|b l IH]; intros s Hl HQ; simpl.
  - wp_step. replace (mark_bufs [] (bufs s)) with (bufs s) in HQ; [by destruct s|].
    apply map_eq. intros b. rewrite lookup_mark_bufs. by destruct (bufs s !! b).
  - destruct (Hl b) as [buf Hb]; [by left|]. wp_mem. apply IH.
    + intros b' Hb'. simpl. apply lookup_insert_is_Some'. right. apply Hl. by right.
    + simpl. replace (mark_bufs l (<[b := buf <| destroyed := true |>]> (bufs s)))
        with (mark_bufs (b :: l) (bufs s)); [exact HQ|].
      apply map_eq. intros b'. rewrite !lookup_mark_bufs. destruct (decide (b' = b)) as [->|Hne].
      * rewrite lookup_insert_eq, Hb. simpl. rewrite decide_True by by left. by case_decide.
      * rewrite lookup_insert_ne by done. destruct (bufs s !! b'); [|done]. simpl. f_equal.
        apply decide_ext. rewrite elem_of_cons. tauto.
Qed.

Lemma release_mark_safe s x hq m mk p f c :
  core d s x hq m mk → p ∈ releasing s → files s !! p = Some f → f_kind f = FDicedev →
  private_data f = Some c → safe (release_mark c) s (went s x hq m (c :: mk)).
Proof.
  intros Hi Hdue Hp Hk Hpd. pose proof Hi as [[[Hd Hl Hf Hok] Hq Hlf Hr] Hfa]. pose proof Hlf as [Hbk Hfk].
  destruct (fk_due _ _ _ Hfk p Hdue) as (f' & ? & _ & Hfok). simplify_eq.
  unfold file_ok in Hfok. rewrite Hk in Hfok. destruct Hfok as (c' & ? & l & Hcv). simplify_eq.
  pose proof Hcv as (ctx & Hc & El)%ctx_view_Some.
  destruct (qo_ctx _ _ _ Hq c ctx Hc) as [Hcd _ _].
  apply wp_safe. unfold release_mark. wp_mem. rewrite Hcd, El. eapply wp_lock_slock; [done..|]. wp_step.
  apply wp_mark_destroyed.
  { intros b Hin. destruct (bk_owned _ _ Hbk c l b Hcv Hin) as (v & _ & _ & Hv & _).
    apply buf_view_Some in Hv as (buf & ? & _). by exists buf. }
  eapply wp_unlock_slock; [apply devs_upd_dev|done|].
  set (s' := s <| bufs := mark_bufs l (bufs s) |>).
  match goal with |- goes _ _ _ _ _ _ ?st => replace st with s' end.
  2:{ state_eq. rewrite insert_insert_eq, insert_id; [done|]. rewrite Hd. destruct x. simpl in *. by subst. }
  assert (Hview : ∀ b, buf_view s' !! b = mark l b <$> buf_view s !! b).
  { intros b. unfold buf_view. simpl. rewrite !lookup_fmap, lookup_mark_bufs.
    destruct (bufs s !! b) as [buf|]; [|done]. simpl. unfold mark. by case_decide. }
  eapply (goes_life d s s' x hq m m mk); try done.
  - eapply slots_ok_same; [|done|exact Hok]. unfold same_slots, slot_view. apply map_eq. intros b. simpl.
    rewrite !lookup_fmap, lookup_mark_bufs. destruct (bufs s !! b); [|done]. simpl. by case_decide.
  - intros b buf. simpl. rewrite lookup_mark_bufs. intros (buf0 & Hb & ->)%fmap_Some.
    case_decide; exact (Hr b buf0 Hb).
  - by eapply (life_mark d s s' m mk c p l f).
  - intros t task _. split; [done|]. intros l' Hl'. exists l'. split; [done|].
    intros b Hin. split; [done|]. intros v F Hv HF. exists (mark l b v). rewrite Hview, Hv. split; [done|].
    destruct HF as (? & ? & ?), (mark_same l b v) as (_ & _ & _ & E).
    split_and!; [by rewrite E|done|by apply (pt_wf_same s)].
  - eauto.
  - intros t task _. simpl. rewrite lookup_mark_bufs. destruct (bufs s !! _); [|done]. simpl. by case_decide.
Qed.

(** ** Releasing the char device: closing the buffers and freeing the context *)

Definition buffer_closed (c b : ptr) (bs : list ptr) (buf : dicedev_buffer) (ctx : dicedev_context)
    (x : dicedev_device) (h : hw) (p : ptr) (f : file) (s : state) : state :=
  fput_done p f (upd_ctx c (ctx <| allocated_buffers := bs |>) (slot_freed b buf x h s)).

(** The tasks of other contexts keep what they need. *)
Lemma keeps_other s s' c c' ctx' :
  c' ≠ c → ctx_view s' = <[c := ctx']> (ctx_view s) ∨ ctx_view s' = delete c (ctx_view s) →
  buf_view s' = buf_view s → pts s' = pts s → pgarrs s' = pgarrs s → dmas s' = dmas s →
  cmds s' = cmds s → keeps s s' c'.
Proof.
  intros Hne Ec Eb E1 E2 E3 E4. split; [by rewrite E4|]. intros l Hl. exists l. split.
  - destruct Ec as [->| ->]; [by rewrite lookup_insert_ne|by rewrite lookup_delete_ne].
  - intros b Hin. split; [done|]. intros v F Hv HF. exists v. rewrite Eb. split; [done|].
    by apply (has_table_eq s).
Qed.

Lemma no_tasks s q c ctx t task :
  queue_ok d s q → ctxs s !! c = Some ctx → task_count ctx = 0 → tasks s !! t = Some task →
  task_ctx task ≠ c.
Proof.
  intros Hq Hc Hz Ht E. destruct (qo_ctx _ _ _ Hq c ctx Hc) as [_ Hcnt _]. rewrite Hz in Hcnt.
  eapply (count_zero_inv s c q t); [done|by apply (qo_queue _ _ _ Hq)|].
  unfold ctx_of. rewrite Ht. simpl. by rewrite E.
Qed.

(** The context [c] under release, the file of its char device, no task left,
    the buffers [bs] still to be closed. *)
Record closing (s : state) (mk : list ptr) (c p : ptr) (f : file) (bs : list ptr) : Prop := {
  cl_mk : c ∈ mk;
  cl_ctx : ∃ ctx, ctxs s !! c = Some ctx ∧ allocated_buffers ctx = bs ∧ task_count ctx = 0;
  cl_due : p ∈ releasing s;
  cl_file : files s !! p = Some f ∧ f_kind f = FDicedev ∧ private_data f = Some c;
}.

(** The same buffers behind the same files. *)
Definition same_targets (s s' : state) : Prop :=
  buf_view s' = buf_view s ∧ ∀ q, private_data <$> files s' !! q = private_data <$> files s !! q.

Lemma same_targets_trans s1 s2 s3 : same_targets s1 s2 → same_targets s2 s3 → same_targets s1 s3.
Proof. intros [E1 E2] [E3 E4]. split; [congruence|]. intros q. by rewrite E4. Qed.

(** No read is asleep on the waitqueue of context [c]. *)
Definition no_reader (s : state) (m : references) (c : ptr) : Prop :=
  ∀ q fault g b buf, (q, Asleep fault) ∈ m → files s !! q = Some g → private_data g = Some b →
    bufs s !! b = Some buf → buf_ctx buf ≠ c.

Lemma no_reader_same s s' m c : same_targets s s' → no_reader s m c → no_reader s' m c.
Proof.
  intros [E1 E2] Hno q fault g b buf Hin Hg Hpd Hb. specialize (E2 q). rewrite Hg in E2. simpl in E2.
  symmetry in E2. apply fmap_Some in E2 as (g' & Hg' & E). apply buf_view_lookup in Hb. rewrite E1 in Hb.
  apply buf_view_Some in Hb as (buf' & Hb' & E'). injection E' as <- _ _ _ _.
  eapply (Hno q fault g' b); congruence || done.
Qed.

(** Memory after one iteration. *)
Lemma wp_close_buffer_state s x hq m mk c ctx b bs (Q : unit → state → Prop) :
  core d s x hq m mk → ctxs s !! c = Some ctx → allocated_buffers ctx = b :: bs →
  (∀ buf q n h, bufs s !! b = Some buf → buf_file buf = Some q →
     files s !! q = Some (mkFile FBuffer n (Some b)) →
     Q tt (fput_done q (mkFile FBuffer n (Some b))
       (upd_ctx c (ctx <| allocated_buffers := bs |>) (slot_freed b buf x h s)))) →
  wp (close_buffer d c b bs) s Q.
Proof.
  intros Hi Hc El HQ. pose proof Hi as [[[Hd Hl Hf Hok] _ Hlf _] _]. pose proof Hlf as [Hbk _].
  destruct (bk_owned _ _ Hbk c (b :: bs) b) as (v & q & n & Hv & _ & Efl & Hpq);
    [apply ctx_view_Some; eauto|by left|].
  apply buf_view_Some in Hv as (buf & Hb & <-). destruct (life_table d s m mk b buf Hlf Hb) as [Hbd _].
  unfold close_buffer. eapply (wp_free_slot s x b buf); try done. intros h. wp_mem.
  eapply wp_fput; [exact Hpq|]. by apply HQ.
Qed.

Lemma wp_close_buffer s x hq m mk c p f b bs :
  core d s x hq m mk → closing s mk c p f (b :: bs) →
  wp (close_buffer d c b bs) s (λ _ s', (∃ x', core d s' x' hq m mk ∧ frame s x s' x') ∧
    closing s' mk c p f bs ∧ same_targets s s').
Proof.
  intros Hi [Hmk (ctx & Hc & El & Hz) Hdue (Hp & Hk & Hpd)].
  eapply (wp_close_buffer_state s x hq m mk c ctx); [done..|]. intros buf q n h Hb Efl Hpq.
  destruct (slot_freed_core s x hq m mk b buf h Hi Hb) as [Hi1 _].
  pose proof Hi as [[[_ _ _ Hok] Hq Hlf _] _]. pose proof Hlf as [Hbk _].
  assert (Hne : ∀ t task, tasks s !! t = Some task → task_ctx task ≠ c) by (intros; by eapply no_tasks).
  assert (Hout : ∀ t task, tasks s !! t = Some task → buff_out task ≠ b).
  { intros t task Ht Eb. destruct (core_task d _ _ _ _ _ t task Hi Ht) as [(l & Hl & Hin & _) _ _].
    destruct (bk_owned _ _ Hbk _ _ _ Hl Hin) as (v & _ & _ & Hv & Ev & _).
    destruct (bk_owned _ _ Hbk c (b :: bs) b) as (v' & _ & _ & Hv' & Ev' & _); [apply ctx_view_Some; eauto|by left|].
    apply (Hne t task Ht). rewrite Eb in Hv. congruence. }
  pose proof (slot_freed_frame s x b buf h Hok Hb Hout) as Hfr1.
  set (s1 := slot_freed b buf x h s) in *. set (y := dev_freed (bound buf) (slot_of buf) h x) in *.
  pose proof Hi1 as [[[Hd1 Hl1 Hf1 Hok1] Hq1 Hlf1 Hr1] _].
  assert (Hc1 : ctxs s1 !! c = Some ctx) by done. set (s2 := fput_done q _ _).
  assert (Hkeep : ∀ t task, tasks s1 !! t = Some task → keeps s1 s2 (task_ctx task)).
  { intros t task Ht. eapply (keeps_other s1 s2 c _ bs); try done; [by eapply Hne|left].
    unfold ctx_view. simpl. by rewrite fmap_insert. }
  split_and!; [exists y; split| |].
  - eapply (core_life d s1 s2 y); try done.
    + by apply (slots_ok_same s1 _ d y).
    + eapply (life_drop_fput d s1 m mk c b bs ctx); try done.
      exists (life_of (buf_freed (bound buf) buf)). split; [apply buf_view_lookup, bufs_upd_buf|].
      by destruct (bound buf).
    + intros c' ctx'. simpl. intros [[<- <-]|[_ ?]]%lookup_insert_Some; eauto.
  - eapply frame_trans; [done|]. by apply frame_life.
  - split; [done| | |].
    + eexists. simpl. by rewrite lookup_insert_eq.
    + simpl. destruct (n =? 1); [|done]. apply elem_of_app. by left.
    + simpl. split; [|done]. rewrite lookup_insert_ne; [done|]. intros ->. by simplify_eq.
  - split.
    + unfold buf_view. simpl. rewrite fmap_insert. apply insert_id. rewrite lookup_fmap, Hb. simpl.
      by destruct (bound buf).
    + intros q'. simpl. destruct (decide (q' = q)) as [->|]; [by rewrite lookup_insert_eq, Hpq|].
      by rewrite lookup_insert_ne.
Qed.

(** C17: a slot that comes free can go unnoticed.  The work thread sleeps
    because the next task needs a slot and all 16 are taken; releasing a
    context gives one back, which is the event the thread waits for, but
    nobody wakes it up: the thread sleeps on with an event to handle until
    some other request or interrupt arrives. *)
Theorem close_buffer_lost_wakeup s x t m mk c p f b bs buf :
  inv d s x (Some t) m mk → closing s mk c p f (b :: bs) → bufs s !! b = Some buf →
  binded_slot buf ≠ DICEDEV_BUFFER_NO_SLOT → out_slot s t = Some DICEDEV_BUFFER_NO_SLOT →
  should_stop x = false → should_park x = false → fence_state x = DICEDEV_FENCE_STATE_NONE →
  free_slots x = 0 → wt_sleeping x = true →
  event_of x (out_slot s t) = WT_NO_EVENT ∧
  ∃ s' x', close_buffer d c b bs s = Done tt s' ∧ devs s' !! d = Some x' ∧
    free_slots x' = 1 ∧ event_of x' (out_slot s' t) = WT_EVENT_TASK_BIND_SLOT ∧
    wt_sleeping x' = true.
Proof.
  intros Hi [_ (ctx & Hc & El & _) _ _] Hb Hbound Ho Hs Hp Hfe Hfree Hw.
  split; [unfold event_of; by rewrite Hs, Hp, Hfe, Ho, Hfree|].
  assert (Eb : bound buf = true) by by apply negb_true_iff, Z.eqb_neq.
  assert (Hwp : wp (close_buffer d c b bs) s (λ r s', r = tt ∧ ∃ x', devs s' !! d = Some x' ∧
    free_slots x' = 1 ∧ event_of x' (out_slot s' t) = WT_EVENT_TASK_BIND_SLOT ∧ wt_sleeping x' = true)).
  { eapply (wp_close_buffer_state s x _ m mk c ctx); [exact (inv_core _ _ _ _ _ _ Hi)|done..|]. intros buf' q n h Hb' _ _. simplify_eq.
    split; [done|]. eexists. split; [apply devs_upd_dev|]. unfold slot_freed, dev_freed. rewrite Eb. simpl.
    rewrite Hfree. split_and!; [done| |done]. unfold event_of. simpl. rewrite Hs, Hp, Hfe, Hfree. simpl.
    unfold out_slot in *. simpl. destruct (tasks s !! t) as [task|]; [|done]. simpl in *.
    destruct (decide (b = buff_out task)) as [->|Hnb]; [by rewrite lookup_insert_eq|].
    rewrite lookup_insert_ne by done. destruct (bufs s !! buff_out task) as [buf'|]; [|done].
    simpl in *. by injection Ho as ->. }
  apply wp_exists in Hwp as ([] & s' & Hrun & _ & x' & Hx). by exists s', x'.
Qed.

Lemma wp_close_buffers hq m mk c p f bs : ∀ s x,
  core d s x hq m mk → closing s mk c p f bs →
  wp (close_buffers d c bs) s (λ _ s', (∃ x', core d s' x' hq m mk ∧ frame s x s' x') ∧
    closing s' mk c p f [] ∧ same_targets s s').
Proof.
  induction bs as [|b bs IH]; intros s x Hi Hcl; simpl.
  { wp_step. split_and!; [exists x; split; [done|apply frame_refl]|done|done]. }
  wp_step. eapply wp_mono; [by eapply wp_close_buffer|]. intros _ s' ((x' & Hi' & Hf) & Hcl' & Hs).
  eapply wp_mono; [by eapply IH|]. intros _ s2 ((x2 & ? & ?) & ? & ?).
  split_and!; [exists x2; split; [done|by eapply frame_trans]|done|by eapply same_targets_trans].
Qed.

(** The context is freed and the file of the char device is gone. *)
Lemma goes_free_ctx s x hq m mk c p f :
  core d s x hq m mk → closing s mk c p f [] → no_reader s m c →
  goes d s x hq m (filter (λ c', c' ≠ c) mk) (s <| ctxs := delete c (ctxs s) |> <| releasing := filter (λ q, q ≠ p) (releasing s) |>
           <| files := delete p (files s) |>).
Proof.
  intros Hi [Hmk (ctx & Hc & El & Hz) Hdue (Hp & Hk & Hpd)] Hno.
  pose proof Hi as [[[Hd Hl Hf Hok] Hq Hlf Hr] _].
  set (s' := s <| ctxs := _ |> <| releasing := _ |> <| files := _ |>).
  assert (Ecv : ctx_view s' = delete c (ctx_view s)) by (unfold ctx_view; simpl; by rewrite fmap_delete).
  eapply (goes_life d s s' x); try done.
  - by apply (slots_ok_same s _ d x).
  - eapply (life_free_ctx d s s' m mk c p f); try done; [apply ctx_view_Some; eauto|].
    intros q fault g b v Hin Hg Hpg (buf & Hb & <-)%buf_view_Some. by eapply Hno.
  - intros t task Ht. eapply (keeps_other s s' c _ []); try done; [by eapply no_tasks|by right].
  - intros c' ctx'. simpl. intros [_ ?]%lookup_delete_Some. eauto.
Qed.

(** The rest of the release of an idle context. *)
Lemma wp_release_finish s x hq m mk p f c ctx :
  core d s x hq m mk → p ∈ releasing s → files s !! p = Some f → f_kind f = FDicedev →
  private_data f = Some c → c ∈ mk → ctxs s !! c = Some ctx → task_count ctx = 0 → no_reader s m c →
  wp (release_finish c;; vfs_released p) s (λ _ s',
    goes d s x hq m (filter (λ c', c' ≠ c) mk) s' ∧ ctxs s' !! c = None ∧ buf_view s' = buf_view s ∧
    ∀ q, q ≠ p → private_data <$> files s' !! q = private_data <$> files s !! q).
Proof.
  intros Hi Hdue Hp Hk Hpd Hmk Hc Hz Hno. pose proof Hi as [[_ Hq _ _] _].
  destruct (qo_ctx _ _ _ Hq c ctx Hc) as [Hcd _ _].
  unfold release_finish, release_close. wp_mem. rewrite Hz. simpl. wp_mem. rewrite Hcd.
  eapply wp_mono; [by eapply (wp_close_buffers hq m mk c p f (allocated_buffers ctx)); [|split; eauto]|].
  intros _ s' ((x' & Hi' & Hfr) & Hcl & Hs). pose proof Hcl as [_ (ctx' & Hc' & _) _ (Hp' & _)].
  unfold kfree_ctx, vfs_released, vfs_drop_file. wp_mem. pose proof Hs as [Eb Ef]. split_and!.
  - eapply goes_trans; [done|]. eapply goes_free_ctx; [done..|]. by eapply no_reader_same.
  - simpl. by rewrite lookup_delete_eq.
  - exact Eb.
  - intros q Hne. simpl. by rewrite lookup_delete_ne.
Qed.

(** The release sleeps while a task of the context is left. *)
Lemma release_finish_safe s x hq m mk p f c :
  core d s x hq m mk → p ∈ releasing s → files s !! p = Some f → f_kind f = FDicedev →
  private_data f = Some c → c ∈ mk → no_reader s m c →
  safe (release_finish c;; vfs_released p) s (went s x hq m (filter (λ c', c' ≠ c) mk)).
Proof.
  intros Hi Hdue Hp Hk Hpd Hmk Hno. pose proof Hi as [[_ _ [_ Hfk] _] _].
  destruct (fk_due _ _ _ Hfk p Hdue) as (f' & ? & _ & Hfok). simplify_eq.
  unfold file_ok in Hfok. rewrite Hk in Hfok. destruct Hfok as (c' & ? & l & Hcv). simplify_eq.
  apply ctx_view_Some in Hcv as (ctx & Hc & _). destruct (decide (task_count ctx = 0)) as [Hz|Hz].
  - apply wp_safe. eapply wp_mono; [by eapply (wp_release_finish s x hq m mk p f c ctx)|]. by intros _ s' [? _].
  - apply safe_sleeps. unfold release_finish, get_ctx, fetch, mbind, M_bind. rewrite Hc.
    by destruct (Z.eqb_spec (task_count ctx) 0).
Qed.

End Release.
