(* ===== verification/System.v ===== *)
(** The running system: one device, its work thread, its board, and any number
    of processes that issue system calls.  A configuration is the memory of
    the driver plus what the kernel keeps outside of it; the actions are the
    entry points of the driver and the steps of its environment, in any order.
    Every configuration that such actions reach satisfies the global
    invariant, and no action ends in a fault. *)

From S2P Require Import Prelude Cmd Types Utils Slots Pt Task Stream Wt Buffer Base Syscall WtSpec BufferSpec IoctlSpec PciSpec Lifetime Invariant Thread Core Calls Release.

Section System.
Context `{Hardware, Kernel}.
Variable d : ptr.

(** ** Configurations and actions *)

(** [wt_next] is the local variable [next_task] of the work thread; [refs] has
    one entry for every mapping of a buffer file and for every read that
    sleeps; [marked] lists the contexts whose release waits for their last
    task. *)
Record config := mkConfig {
  mem : state;
  wt_next : option ptr;
  refs : references;
  marked : list ptr }.
#[global] Instance eta_config : Eta config :=
  λ σ, mkConfig (mem σ) (wt_next σ) (refs σ) (marked σ).

Inductive action :=
  | AThread                               (** an iteration of the work thread *)
  | ABoard (h : hw)                       (** the board works on *)
  | ADma (q : ptr) (i v : Z)              (** and stores a result *)
  | AIrq                                  (** the interrupt handler *)
  | ASuspend | AResume
  | AOpen
  | AIoctl (fd cmd : Z) (arg : ioctl_arg)
  | ARead (fd count : Z) (fault : bool)   (** returns or goes to sleep *)
  | AWake (p : ptr) (fault : bool)        (** a sleeping read of file [p] goes on *)
  | AWrite (fd : Z) (words : option (list Z)) (count : Z)
  | AMmap (fd : Z)
  | AMunmap (p : ptr)
  | AStore (p : ptr) (i v : Z)            (** a store to a mapping of file [p] *)
  | AClose (fd : Z)
  | AReleaseBuffer (p : ptr)              (** the release of a buffer file *)
  | AReleaseMark (p : ptr)                (** of the char device: first loop, *)
  | AReleaseFinish (p : ptr).             (** and from the wait on *)

Definition lift {A} (m : K A) : M config A := λ σ,
  match m (mem σ) with
  | Done a s => Done a (σ <| mem := s |>)
  | Crash e => Crash e
  end.

(** The context of the char device file [p]. *)
Definition file_ctx (p : ptr) : K ptr := f ← get_file p; deref (private_data f).

(** The work thread sleeps until it is woken up or stopped, then goes through
    its loop once. *)
Definition thread_turn (nt : option ptr) : K (option wt_state) :=
  x ← get_dev d;
  wait_until (negb (wt_sleeping x) || should_stop x);;
  wt_iter (mkWt d nt).

(** A read that has to wait keeps the file of its descriptor while it sleeps. *)
Definition fall_asleep (fd : Z) (fault : bool) : M config unit :=
  p ← lift (o ← fd_file fd; p ← deref o; file_get p;; mret p);
  modify (λ σ, σ <| refs := (p, Asleep fault) :: refs σ |>).

(** What to do when an operation would sleep. *)
Definition or_sleep {A} (m : M config A) (k : M config unit) : M config unit := λ σ,
  match m σ with
  | Done _ σ' => Done tt σ'
  | Crash Sleeps => k σ
  | Crash e => Crash e
  end.

Definition act (a : action) : M config unit :=
  match a with
  | AThread =>
      nt ← gets wt_next;
      r ← lift (thread_turn nt);
      modify (λ σ, match r with Some w => σ <| wt_next := next_task w |> | None => σ end)
  | ABoard h => lift (x ← get_dev d; put_dev d (x <| bar := h |>))
  | ADma q i v => lift (board_store q i v);; mret tt
  | AIrq => lift (dicedev_isr d);; mret tt
  | ASuspend => lift (dicedev_suspend d);; mret tt
  | AResume => lift (dicedev_resume d);; mret tt
  | AOpen => lift (sys_open d);; mret tt
  | AIoctl fd cmd arg => lift (sys_ioctl fd cmd arg);; mret tt
  | ARead fd count fault => or_sleep (lift (sys_read fd count fault)) (fall_asleep fd fault)
  | AWake p fault =>
      lift (buffer_read_resume p fault;; fput p);;
      modify (λ σ, σ <| refs := remove_one (p, Asleep fault) (refs σ) |>)
  | AWrite fd words count => lift (sys_write fd words count);; mret tt
  | AMmap fd =>
      r ← lift (sys_mmap fd);
      modify (λ σ, σ <| refs := new_mapping r.2 ++ refs σ |>)
  | AMunmap p =>
      lift (fput p);;
      modify (λ σ, σ <| refs := remove_one (p, Mapped) (refs σ) |>)
  | AStore p i v => lift (user_store p i v);; mret tt
  | AClose fd => lift (sys_close fd);; mret tt
  | AReleaseBuffer p => lift (dicedev_buffer_release p;; vfs_released p);; mret tt
  | AReleaseMark p =>
      c ← lift (file_ctx p);
      lift (release_mark c);;
      modify (λ σ, σ <| marked := c :: marked σ |>)
  | AReleaseFinish p =>
      c ← lift (file_ctx p);
      lift (release_finish c;; vfs_released p);;
      modify (λ σ, σ <| marked := filter (λ c', c' ≠ c) (marked σ) |>)
  end.

(** File [p] is of kind [k] and its last reference is gone. *)
Definition due (s : state) (p : ptr) (k : file_kind) (P : ptr → Prop) : Prop :=
  p ∈ releasing s ∧ ∃ f c, files s !! p = Some f ∧ f_kind f = k ∧ private_data f = Some c ∧ P c.

(** When an action may be taken, given the configuration.

    - The work thread runs a task only if its commands are complete (a
      truncated last command makes the driver read past the end of the task).
    - The board writes to the pages of the sets that are bound to its slots.
    - The board signals a fence or an error only while a task is running (the
      handler dereferences the running task).
    - A new context is not put where a context lived that some buffer still
      names.
    - A run request names buffer files, and no context has 2^64 - 1 tasks.
    - A write finds its user buffer and memory for its task.
    - The release of a context does not free it while a read is asleep on its
      waitqueue (the reader would go on with a freed waitqueue).
    - Mappings, sleeping reads and releases are what the kernel says they
      are. *)
Definition permitted (a : action) (σ : config) : Prop :=
  let s := mem σ in
  match a with
  | AThread => ∀ x t, devs s !! d = Some x → wt_next σ = Some t →
      fence_state x = DICEDEV_FENCE_STATE_NONE →
      out_slot s t ≠ Some DICEDEV_BUFFER_NO_SLOT → well_framed s t
  | ADma q i _ => (∃ x, devs s !! d = Some x ∧ board_page s x q) ∧ 0 ≤ i < 1024
  | AIrq => ∀ x ist h, devs s !! d = Some x → istatus_of (bar x) = (ist, h) →
      intr_error ist || intr_fence ist = true → running_task x ≠ None
  | AOpen => ∀ r s' c, sys_open d s = Done r s' → ctxs s !! c = None → is_Some (ctxs s' !! c) →
      ∀ b buf, bufs s !! b = Some buf → buf_ctx buf ≠ c
  | AIoctl fd cmd arg => ∀ c rc, chr_open s fd c → cmd = DICEDEV_IOCTL_RUN →
      ua_run (ia_dev arg) = Some rc → run_request_ok s c rc
  | AWrite fd words count => write_request_ok s words count
  | AWake p fault => (p, Asleep fault) ∈ refs σ
  | AMunmap p => (p, Mapped) ∈ refs σ
  | AStore p i v => (p, Mapped) ∈ refs σ ∧ 0 ≤ i
  | AReleaseBuffer p => due s p FBuffer (λ _, True)
  | AReleaseMark p => due s p FDicedev (λ c, c ∉ marked σ)
  | AReleaseFinish p => due s p FDicedev (λ c, c ∈ marked σ ∧ no_reader s (refs σ) c)
  | _ => True
  end.

Definition step (σ σ' : config) : Prop := ∃ a, permitted a σ ∧ act a σ = Done tt σ'.

Definition sys_inv (σ : config) : Prop :=
  ∃ x, inv d (mem σ) x (wt_next σ) (refs σ) (marked σ) ∧ fence_sent x.

(** ** Every action is safe *)

Section Safe.
Context `{!HardwareLaws, !KernelLaws}.

Lemma safe_lift {A} (m : K A) σ (Q : A → config → Prop) :
  safe m (mem σ) (λ a s, Q a (σ <| mem := s |>)) → safe (lift m) σ Q.
Proof. unfold safe, lift. by destruct (m (mem σ)). Qed.

(** After an action of the environment, the core holds for the mappings and
    the releases that are current then, and the thread is framed. *)
Definition env_post (σ : config) (x : dicedev_device) (hq : list ptr) (σ' : config) : Prop :=
  wt_next σ' = wt_next σ ∧ goes d (mem σ) x hq (refs σ') (marked σ') (mem σ').

(** A call that changes nothing but memory. *)
Lemma safe_call {A} (m : K A) σ x hq :
  safe m (mem σ) (λ _ s, goes d (mem σ) x hq (refs σ) (marked σ) s) →
  safe (lift m;; mret tt) σ (λ _ σ', env_post σ x hq σ').
Proof.
  intros Hm. apply safe_bind, safe_lift. eapply safe_mono; [exact Hm|].
  intros a s Hi. by eapply safe_done.
Qed.

(** Dispatch through a descriptor: it is not open, has no such operation, or
    belongs to the char device, a buffer or another driver. *)
Lemma safe_dispatch {A B} fd (op : file_operations → option B) (ebadf enoop : A)
    (call : B → ptr → K A) s x hq m mk (Q : A → state → Prop) :
  core d s x hq m mk → Q ebadf s → Q enoop s →
  (∀ p f g, fds s !! fd = Some p → files s !! p = Some f → file_ok s p f →
     fops_of (f_kind f) ≫= op = Some g → safe (call g p) s Q) →
  safe (dispatch fd op ebadf enoop call) s Q.
Proof.
  intros Hi Hq1 Hq2 Hcall. pose proof Hi as [[_ _ [_ Hfk] _] _].
  unfold dispatch, fd_file. apply safe_bind. eapply safe_done; [done|].
  destruct (fds s !! fd) as [p|] eqn:Hfd; [|by eapply safe_done].
  destruct (fk_fd _ _ _ Hfk fd p Hfd) as (f & Hp & Hok).
  apply safe_bind. eapply safe_done; [unfold get_file, fetch; by rewrite Hp|].
  destruct (fops_of (f_kind f) ≫= op) as [g|] eqn:Eg; [by eapply Hcall|by eapply safe_done].
Qed.

Lemma ioctl_safe s x hq m mk fd cmd arg :
  core d s x hq m mk →
  (∀ c rc, chr_open s fd c → cmd = DICEDEV_IOCTL_RUN → ua_run (ia_dev arg) = Some rc →
     run_request_ok s c rc) →
  safe (sys_ioctl fd cmd arg) s (λ _ s', goes d s x hq m mk s').
Proof.
  intros Hi Hreq. eapply safe_dispatch; [done|by apply goes_refl..|]. intros p f g Hfd Hp Hok.
  destruct (f_kind f) eqn:Hk; simpl; [| |done]; intros [= <-]; [|by eapply buffer_ioctl_safe].
  pose proof Hok as Hok'. unfold file_ok in Hok'. rewrite Hk in Hok'. destruct Hok' as (c & Hpd & _).
  assert (Ho : chr_open s fd c) by by exists p, f.
  unfold dicedev_ioctl. apply safe_bind. eapply safe_done; [unfold get_file, fetch; by rewrite Hp|].
  apply safe_bind. eapply safe_done; [unfold deref; by rewrite Hpd|].
  destruct (cmd =? _); [by eapply create_set_safe|].
  destruct (Z.eqb_spec cmd DICEDEV_IOCTL_RUN); [by eapply run_safe; [..|eauto]|].
  destruct (cmd =? _); [by eapply wait_safe|].
  destruct (cmd =? _); [by eapply seed_increment_safe|by eapply safe_done; [done|by apply goes_refl]].
Qed.

Lemma sys_read_safe s x hq m mk fd count fault :
  core d s x hq m mk → safe (sys_read fd count fault) s (λ _ s', goes d s x hq m mk s').
Proof.
  intros Hi. eapply safe_dispatch; [done|by apply goes_refl..|]. intros p f g Hfd Hp Hok.
  destruct (f_kind f) eqn:Hk; simpl; [done| |done]. intros [= <-]. by eapply read_safe.
Qed.

(** A read returns, or its reader goes to sleep on the waitqueue of a context
    that is alive. *)
Lemma read_action_safe σ x hq fd count fault :
  core d (mem σ) x hq (refs σ) (marked σ) →
  safe (act (ARead fd count fault)) σ (λ _ σ', env_post σ x hq σ').
Proof.
  intros Hi. pose proof (sys_read_safe _ _ _ _ _ fd count fault Hi) as Hs. unfold act, safe, or_sleep, lift in *.
  destruct (sys_read fd count fault (mem σ)) as [r s|[]] eqn:E; try done.
  pose proof Hi as [[_ _ [_ Hfk] _] _].
  unfold sys_read, dispatch, fd_file, gets, mbind, M_bind in E.
  destruct (fds (mem σ) !! fd) as [p|] eqn:Hfd; [|done].
  destruct (fk_fd _ _ _ Hfk fd p Hfd) as (f & Hp & Hok). unfold get_file at 1, fetch in E. rewrite Hp in E.
  destruct (f_kind f) eqn:Hk; simpl in E; [done| |done].
  change (safe (fall_asleep fd fault) σ (λ _ σ', env_post σ x hq σ')). unfold fall_asleep.
  apply safe_bind, safe_lift. unfold fd_file. apply safe_bind. eapply safe_done; [done|]. rewrite Hfd.
  apply safe_bind. eapply safe_done; [done|]. apply safe_bind.
  eapply safe_mono; [eapply (asleep_safe d (mem σ) x hq _ _ fd p f fault); try done|].
  - intros b v. by eapply read_sleeps_alive.
  - intros u s' Hg. eapply safe_done; [done|]. by eapply safe_done.
Qed.

Lemma sys_write_safe s x hq m mk fd words count :
  core d s x hq m mk → write_request_ok s words count →
  safe (sys_write fd words count) s (λ _ s', goes d s x hq m mk s').
Proof.
  intros Hi Hreq. eapply safe_dispatch; [done|by apply goes_refl..|]. intros p f g Hfd Hp Hok.
  destruct (f_kind f) eqn:Hk; simpl; [done| |done]. intros [= <-]. by eapply write_safe.
Qed.

Lemma thread_safe s x nt m mk :
  inv d s x nt m mk → fence_sent x →
  (∀ t, nt = Some t → fence_state x = DICEDEV_FENCE_STATE_NONE →
     out_slot s t ≠ Some DICEDEV_BUFFER_NO_SLOT → well_framed s t) →
  safe (thread_turn nt) s (λ r s', ∃ x', fence_sent x' ∧ match r with
    | Some w => inv d s' x' (next_task w) m mk
    | None => inv d s' x' nt m mk end).
Proof.
  intros Hi Hse Hf. destruct (inv_locks _ _ _ _ _ _ Hi) as (Hd & Hl & _). unfold thread_turn.
  apply safe_bind. eapply safe_done; [unfold get_dev, fetch; by rewrite Hd|].
  apply safe_bind. destruct (negb (wt_sleeping x) || should_stop x); [|by apply safe_sleeps].
  eapply safe_done; [done|]. destruct (should_stop x) eqn:Hs.
  { eapply (safe_done _ _ None s); [|by exists x].
    unfold wt_iter, get_dev, fetch, mbind, M_bind. simpl. by rewrite Hd, Hs. }
  destruct (should_park x) eqn:Hp.
  - apply safe_sleeps. unfold wt_iter, get_dev, fetch, mbind, M_bind. simpl. rewrite Hd, Hs.
    assert (E : __wt_get_event (mkWt d nt) s = Done WT_PARK s).
    { apply run_eq. eapply wp_get_event; [done..|intros t ?; by eapply inv_out_slot|].
      unfold event_of. by rewrite Hs, Hp. }
    by rewrite E.
  - apply wp_safe. eapply wp_wt_iter; [done..|]. intros s' x' nt' Hi' He. exists x'.
    split; [by eapply effect_sent|done].
Qed.

Lemma file_ctx_safe s p (P : ptr → Prop) k (Q : ptr → state → Prop) :
  due s p k P → (∀ c, P c → (∃ f, files s !! p = Some f ∧ f_kind f = k ∧ private_data f = Some c) → Q c s) →
  safe (file_ctx p) s Q.
Proof.
  intros (_ & f & c & Hp & Hk & Hpd & HP) HQ. eapply safe_done; [|apply (HQ c HP); eauto].
  unfold file_ctx, get_file, fetch, deref, mbind, M_bind. by rewrite Hp, Hpd.
Qed.

(** Every action but those of the thread and of the interrupt handler, whatever
    the thread has in hand. *)
Lemma env_safe σ a x hq :
  core d (mem σ) x hq (refs σ) (marked σ) → permitted a σ → a ≠ AThread → a ≠ AIrq →
  safe (act a) σ (λ _ σ', env_post σ x hq σ').
Proof.
  intros Hi Hp Hnt Hni. destruct (core_locks _ _ _ _ _ _ Hi) as (Hd & Hl & Hf).
  destruct a; simpl in Hp; try done; unfold act; try apply safe_call.
  - apply safe_lift, wp_safe. wp_mem. split; [done|]. eexists. split; [by eapply core_dev|by apply frame_dev].
  - destruct Hp as [(y & Hy & Hq) Hi0]. simplify_eq. by eapply board_store_safe.
  - by eapply suspend_safe.
  - by eapply resume_safe.
  - by eapply open_safe.
  - by eapply ioctl_safe.
  - by eapply read_action_safe.
  - apply safe_bind, safe_lift, safe_bind. eapply safe_mono; [by eapply read_resume_safe|].
    intros r s (x1 & Hi1 & Hf1).
    eapply safe_mono; [by eapply put_safe; [|apply remove_one_Permutation]|].
    intros r' s' Hg. eapply safe_done; [done|]. split; [done|]. by eapply goes_trans.
  - by eapply sys_write_safe.
  - apply safe_bind, safe_lift. eapply safe_mono; [by eapply mmap_safe|].
    intros r s Hg. by eapply safe_done.
  - apply safe_bind, safe_lift. eapply safe_mono; [eapply put_safe; [done|by apply remove_one_Permutation]|].
    intros r s Hg. by eapply safe_done.
  - destruct Hp as [Hin ?]. eapply store_safe; [done|exact (list_elem_of_fmap_2 fst _ _ Hin)|done].
  - by eapply close_safe.
  - destruct Hp as (Hdue & f & c & Hf' & Hk & _). by eapply buffer_release_safe.
  - apply safe_bind, safe_lift. pose proof Hp as [Hdue _]. eapply file_ctx_safe; [exact Hp|].
    intros c _ (f & Hf' & Hk & Hpd). apply safe_bind, safe_lift.
    eapply safe_mono; [by eapply release_mark_safe|]. intros r s Hg. by eapply safe_done.
  - apply safe_bind, safe_lift. pose proof Hp as [Hdue _]. eapply file_ctx_safe; [exact Hp|].
    intros c [Hc Hno] (f & Hf' & Hk & Hpd). apply safe_bind, safe_lift.
    eapply safe_mono; [by eapply release_finish_safe|]. intros r s Hg. by eapply safe_done.
Qed.

Lemma act_safe σ a : sys_inv σ → permitted a σ → safe (act a) σ (λ _ σ', sys_inv σ').
Proof.
  intros (x & Hi & Hse) Hp. destruct (inv_locks _ _ _ _ _ _ Hi) as (Hd & _).
  assert (a = AThread ∨ a = AIrq ∨ a ≠ AThread ∧ a ≠ AIrq) as [->|[->|[? ?]]]
    by (destruct a; (by left) || (by right; left) || (by right; right)).
  - unfold act. apply safe_bind. eapply safe_done; [done|]. apply safe_bind, safe_lift.
    eapply safe_mono; [apply (thread_safe _ x); [done|done|eauto]|].
    intros [w|] s (x' & ? & Hi'); (eapply safe_done; [done|by exists x']).
  - unfold act. apply safe_bind, safe_lift. eapply safe_mono; [eapply isr_safe; [done|eauto|done]|].
    intros r s (x' & Hi' & ?). eapply safe_done; [done|by exists x'].
  - eapply safe_mono; [eapply (env_safe σ a x _ (inv_core _ _ _ _ _ _ Hi)); done|].
    intros _ σ' (En & x' & Hc & Hf). exists x'. rewrite En.
    split; [by eapply inv_framed|by eapply sent_framed].
Qed.

(** ** Reachable configurations *)

(** Nothing of the driver's is in memory but its module data. *)
Record vacant (s : state) : Prop := {
  va_ctxs : ctxs s = ∅; va_bufs : bufs s = ∅; va_tasks : tasks s = ∅;
  va_files : files s = ∅; va_fds : fds s = ∅; va_due : releasing s = [] }.

(** The system starts when the probe has set up the device and its work
    thread. *)
Inductive booted : config → Prop :=
  | booted_intro s h r s' :
      module_ok s → vacant s → devs s !! d = None → dicedev_probe h s = Done r s' →
      (∃ x, devs s' !! d = Some x ∧ wt_thread x = true) → booted (mkConfig s' None [] []).

Definition reachable (σ : config) : Prop := ∃ σ0, booted σ0 ∧ rtc step σ0 σ.

Lemma vacant_life s : vacant s → life d s [] [].
Proof.
  intros [E1 E2 E3 E4 E5 E6].
  split; split; unfold active, owned, fd_refs, ctx_view, buf_view; rewrite ?E1, ?E2, ?E4, ?E5, ?E6;
    try done; try (by intros * ?%elem_of_nil); try constructor.
Qed.

(** The device is idle then. *)
Lemma booted_idle σ :
  booted σ → ∃ x, inv d (mem σ) x (wt_next σ) (refs σ) (marked σ) ∧
    fence_state x = DICEDEV_FENCE_STATE_NONE ∧ wt_next σ = None.
Proof.
  intros [s h r s' Hm Hv Hd Hrun (x & Hx & Hth)].
  destruct (probe_ends s h Hm) as (r' & s'' & Hrun' & Hend). rewrite Hrun in Hrun'. simplify_eq.
  destruct Hend as [d' i e h' _ Hd' Hi _ -> Hok|d' i e h' _ Hd' Hi ->|e _ ->|d' e _ _ ->|d' e thr _ _ ->];
    [| |simpl in Hx; congruence..]; cycle 1.
  { simpl in Hx. apply lookup_insert_Some in Hx as [[_ <-]|[_ Hx]]; [done|congruence]. }
  destruct (decide (d' = d)) as [->|Hne]; [|simpl in Hx; rewrite lookup_insert_ne in Hx by done; congruence].
  exists (probed_device i h'). pose proof (vacant_life s Hv) as Hlf. destruct Hv as [E1 E2 E3 E4 E5 E6].
  split; [|done]. split; [|done|done]. split; simpl.
  - split; [by apply lookup_insert_eq|done..].
  - split; simpl; rewrite ?E1, ?E3; [constructor| |done..]. intros t. split; [by intros ?%elem_of_nil|by intros []].
  - by apply (life_same d s).
  - intros b buf. simpl. by rewrite E2.
Qed.

Lemma booted_inv σ : booted σ → sys_inv σ.
Proof.
  intros Hb. destruct (booted_idle σ Hb) as (x & Hi & Ef & _). exists x. split; [done|].
  intros E. congruence.
Qed.

Lemma reachable_inv σ : reachable σ → sys_inv σ.
Proof.
  intros (σ0 & Hb & Hr). apply booted_inv in Hb. induction Hr as [|σ1 σ2 σ3 (a & Hp & Ha) _ IH]; [done|].
  apply IH. pose proof (act_safe σ1 a Hb Hp) as Hs. unfold safe in Hs. by rewrite Ha in Hs.
Qed.

(** C1: no permitted action faults.  From a probe that set up the device and
    its work thread on, whatever the interleaving of system calls on any number
    of files, reads that go to sleep and are woken up, mappings, page faults,
    releases, interrupts, suspends and iterations of the work thread, the next
    action either completes and leads to a configuration that satisfies the
    driver's invariant, or sleeps: it never hits a BUG_ON, dereferences a null
    or freed object, frees twice, indexes out of range, or takes a lock it
    holds.  The actions excluded are those of [permitted]: where the driver
    relies on something that it does not check, a truncated command stream, an
    interrupt without a task, or a release that frees the waitqueue of a
    sleeping reader ([sleeping_reader_freed]) among them. *)
Theorem reachable_safe σ a :
  reachable σ → permitted a σ →
  act a σ = Crash Sleeps ∨ ∃ σ', act a σ = Done tt σ' ∧ sys_inv σ'.
Proof.
  intros Hr Hp. pose proof (act_safe σ a (reachable_inv σ Hr) Hp) as Hs. unfold safe in Hs.
  destruct (act a σ) as [[] σ'|[]]; try done; eauto.
Qed.

(** *** No dangling pointers *)

(** The object behind a file, by the kind of the file. *)
Definition target_ok (s : state) (p : ptr) (f : file) : Prop :=
  match f_kind f with
  | FDicedev => ∃ c, private_data f = Some c ∧ is_Some (ctxs s !! c)
  | FBuffer => ∃ b buf, private_data f = Some b ∧ bufs s !! b = Some buf ∧ buf_file buf = Some p
  | FOther => True
  end.

Record well_typed (σ : config) : Prop := {
  ty_fd fd p : fds (mem σ) !! fd = Some p → ∃ f, files (mem σ) !! p = Some f ∧ target_ok (mem σ) p f;
  ty_ref p h : (p, h) ∈ refs σ → ∃ f b buf, files (mem σ) !! p = Some f ∧ f_kind f = FBuffer ∧
    private_data f = Some b ∧ bufs (mem σ) !! b = Some buf ∧ buf_file buf = Some p ∧
    (h ≠ Mapped → is_Some (ctxs (mem σ) !! buf_ctx buf));
  ty_due p : p ∈ releasing (mem σ) → ∃ f, files (mem σ) !! p = Some f ∧ target_ok (mem σ) p f;
  ty_ctx c ctx : ctxs (mem σ) !! c = Some ctx → ctx_dev ctx = d;
  ty_list c ctx b : ctxs (mem σ) !! c = Some ctx → b ∈ allocated_buffers ctx →
    ∃ buf p f, bufs (mem σ) !! b = Some buf ∧ buf_ctx buf = c ∧ buf_file buf = Some p ∧
      files (mem σ) !! p = Some f ∧ f_kind f = FBuffer ∧ private_data f = Some b;
  ty_buf b buf : bufs (mem σ) !! b = Some buf → buf_dev buf = d ∧ (∃ F, has_table (mem σ) (life_of buf) F) ∧
    (destroyed buf = false → ∃ ctx, ctxs (mem σ) !! buf_ctx buf = Some ctx ∧ b ∈ allocated_buffers ctx);
  ty_task t task : tasks (mem σ) !! t = Some task →
    is_Some (ctxs (mem σ) !! task_ctx task) ∧ is_Some (bufs (mem σ) !! buff_out task) ∧
    match body task with
    | DICEDEV_TASK_TYPE_RUN r => is_Some (bufs (mem σ) !! cBuff r)
    | DICEDEV_TASK_TYPE_WRITE w => is_Some (cmds (mem σ) !! tw_cmd w)
    end;
  ty_dev : ∃ x, devs (mem σ) !! d = Some x ∧
    (∀ i b, buff_slots x !! i = Some (Some b) → is_Some (bufs (mem σ) !! b)) ∧
    (∀ t, t ∈ in_flight x (wt_next σ) → is_Some (tasks (mem σ) !! t));
}.

Lemma file_ok_target s p f : file_ok s p f → target_ok s p f.
Proof.
  unfold file_ok, target_ok. destruct (f_kind f); [| |done].
  - intros (c & ? & l & (ctx & ? & _)%ctx_view_Some). eauto.
  - intros (b & v & ? & (buf & ? & <-)%buf_view_Some & ?). eauto.
Qed.

(** C6: memory stays well typed.  In every reachable configuration each
    pointer the driver, the work thread or the kernel may follow leads to a
    live object of the right kind: descriptors, mappings, sleeping reads and
    due releases to files and from there to contexts and buffers, contexts to
    their device, to their buffers and back, a buffer that is not marked as
    destroyed or on which a read sleeps to its context, every buffer to its
    device and a complete page table, tasks to their context, buffers and
    commands, slots to buffers, the queue to tasks. *)
Theorem reachable_well_typed σ : reachable σ → well_typed σ.
Proof.
  intros (x & [[[Hd _ _ Hok] Hq Hlf _] _ _] & _)%reachable_inv. pose proof Hlf as [Hbk Hfk]. split.
  - intros fd p (f & ? & ?%file_ok_target)%(fk_fd _ _ _ Hfk). eauto.
  - intros p h Hin. destruct (fk_map _ _ _ Hfk p (list_elem_of_fmap_2 fst _ _ Hin)) as (f & Hp & Hk & Hfok).
    destruct (file_ok_buf _ _ _ Hfok Hk) as (b & buf & Hpd & Hb & ?). exists f, b, buf. split_and!; try done.
    destruct h as [|fault]; [done|]. intros _.
    destruct (fk_asleep _ _ _ Hfk p fault f b (life_of buf)) as [l (ctx & ? & _)%ctx_view_Some];
      [done..|by apply buf_view_lookup|by eexists].
  - intros p (f & ? & ? & ?%file_ok_target)%(fk_due _ _ _ Hfk). eauto.
  - intros c ctx Hc. by apply (qo_ctx _ _ _ Hq c ctx Hc).
  - intros c ctx b Hc%ctx_view_lookup Hin. destruct (bk_owned _ _ Hbk _ _ b Hc Hin) as (v & p & n & Hv & ? & ? & ?).
    apply buf_view_Some in Hv as (buf & ? & <-). eauto 10.
  - intros b buf Hb. destruct (life_table d _ _ _ b buf Hlf Hb) as [? ?]. split_and!; try done. intros Hdes.
    destruct (bk_alive _ _ Hbk b (life_of buf)) as (l & (ctx & ? & <-)%ctx_view_Some & ?);
      [by apply buf_view_lookup|done|eauto].
  - intros t task Ht. destruct (qo_task _ _ _ Hq t task Ht) as [(l & Hl & Hin & Hr) _ Hdata].
    destruct (bk_owned _ _ Hbk _ _ _ Hl Hin) as (v & p & n & Hv & _).
    apply ctx_view_Some in Hl as (? & ? & _). apply buf_view_Some in Hv as (? & ? & _).
    split_and!; [by eexists..|]. destruct (body task) as [w|r].
    + destruct Hdata as (ws & ? & _). by eexists.
    + destruct Hdata as (w & F & Hw & _). apply buf_view_Some in Hw as (? & ? & _). by eexists.
  - exists x. split_and!; [done| |intros t; apply (qo_queue _ _ _ Hq)].
    intros i b Hi. destruct (so_entry _ _ _ Hok i b Hi) as (buf & ? & _). by eexists.
Qed.

(** The invariant does not mind if sleeping reads are taken for mappings. *)
Lemma core_settle s x hq m mk : core d s x hq m mk → core d s x hq (settled_refs m) mk.
Proof. intros [[? ? Hlf ?] ?]. split; [|done]. split; try done. by apply life_settle. Qed.

(** C9: a sleeping reader outlives its waitqueue.  A read that is asleep holds
    the file of its buffer but not the context on whose waitqueue it sleeps.
    When the context is idle, nothing keeps the release of the char device from
    freeing it, and the reader that is woken up then follows the freed
    context. *)
Theorem sleeping_reader_freed σ p f c ctx q fault g b buf :
  reachable σ → p ∈ releasing (mem σ) → files (mem σ) !! p = Some f → f_kind f = FDicedev →
  private_data f = Some c → c ∈ marked σ → ctxs (mem σ) !! c = Some ctx → task_count ctx = 0 →
  (q, Asleep fault) ∈ refs σ → files (mem σ) !! q = Some g → private_data g = Some b →
  bufs (mem σ) !! b = Some buf → buf_ctx buf = c →
  ∃ σ', act (AReleaseFinish p) σ = Done tt σ' ∧ act (AWake q fault) σ' = Crash BadAccess.
Proof.
  intros (x & Hi & _)%reachable_inv Hdue Hp Hk Hpd Hmk Hc Hz Hin Hq Hg Hb Ec.
  pose proof (core_settle _ _ _ _ _ (inv_core _ _ _ _ _ _ Hi)) as Hcore.
  pose proof (wp_release_finish d (mem σ) x _ _ _ p f c ctx Hcore Hdue Hp Hk Hpd Hmk Hc Hz) as Hwp.
  apply wp_exists in Hwp as (u & s' & Hrun & _ & Hgone & Hbv & Hfiles).
  2:{ intros ? ? ? ? ? (r & [=] & _)%list_elem_of_fmap. }
  eexists. split.
  { unfold act, lift, file_ctx, get_file, deref, fetch, mbind, M_bind in *. rewrite Hp, Hpd. simpl.
    by rewrite Hrun. }
  assert (Hne : q ≠ p).
  { pose proof Hi as [[_ _ [_ Hfk] _] _ _]. intros ->.
    destruct (life_due_unreferenced _ _ _ p Hfk Hdue) as (_ & Hno & _). apply Hno.
    exact (list_elem_of_fmap_2 fst _ _ Hin). }
  pose proof (Hfiles q Hne) as E. rewrite Hq in E. simpl in E. apply fmap_Some in E as (g' & Hg' & Epd).
  apply buf_view_lookup in Hb. rewrite <-Hbv in Hb. apply buf_view_Some in Hb as (buf' & Hb' & E').
  injection E' as Ectx _ _ _ _.
  unfold act, lift, buffer_read_resume, get_file, get_buf, get_ctx, deref, fetch, mbind, M_bind. simpl.
  rewrite Hg', <-Epd, Hg, Hb', Ectx, Ec, Hgone. done.
Qed.

(** *** Isolation *)

(** C7: mappings are confined.  In every reachable configuration a user store
    to word [i] of a mapping either raises SIGBUS and changes nothing (the
    word lies past the buffer) or changes exactly word [i] of the buffer that
    is mapped; the pages of every other buffer, and the pages from which the
    board reads the page tables, stay as they are. *)
Theorem mapping_store_confined σ p i v :
  reachable σ → (p, Mapped) ∈ refs σ → 0 ≤ i →
  ∃ f b buf F ok s', files (mem σ) !! p = Some f ∧ private_data f = Some b ∧
    bufs (mem σ) !! b = Some buf ∧ has_table (mem σ) (life_of buf) F ∧
    user_store p i v (mem σ) = Done ok s' ∧
    (if ok then i / 1024 < Z.of_nat (length (fp_data F)) ∧
               buffer_words s' (fp_data F) = <[Z.to_nat i := u32 v]> (buffer_words (mem σ) (fp_data F))
     else Z.of_nat (length (fp_data F)) ≤ i / 1024 ∧ s' = mem σ) ∧
    ∀ b' buf' G, bufs (mem σ) !! b' = Some buf' → has_table (mem σ) (life_of buf') G →
      dmas s' !! fp_page G = dmas (mem σ) !! fp_page G ∧
      (b' ≠ b → ∀ q, q ∈ fp_pages G → dmas s' !! q = dmas (mem σ) !! q).
Proof.
  intros (x & Hi & _)%reachable_inv Hpm%(list_elem_of_fmap_2 fst) Hi0.
  pose proof Hi as [[_ _ Hlf _] _ _]. pose proof Hlf as [Hbk Hfk].
  destruct (fk_map _ _ _ Hfk p Hpm) as (f & Hp & Hk & Hok).
  destruct (buffer_file _ _ _ _ _ _ _ _ Hi Hp Hk Hok) as (b & buf & F & Hpd & Hb & _ & HF & _).
  pose proof (wp_user_store _ _ _ _ _ _ _ _ _ _ _ i v Hi Hp Hpd Hb HF Hi0) as Hwp.
  apply wp_exists in Hwp as (ok & s' & Hrun & Hpost). exists f, b, buf, F, ok, s'.
  destruct ok; cycle 1.
  { destruct Hpost as [Hnone%lookup_ge_None ->]. split_and!; try done. dlia. }
  destruct Hpost as (q & mq & Hq & Hm & ->). split_and!; try done.
  - apply lookup_lt_Some in Hq. dlia.
  - eapply buffer_words_store; try done. apply HF.
  - intros b' buf' G Hb'%buf_view_lookup HG. apply buf_view_lookup in Hb. simpl.
    apply list_elem_of_lookup_2, (list_elem_of_fmap_2 fst) in Hq. split.
    + rewrite lookup_insert_ne; [done|]. intros E. by eapply (data_not_table d _ b b').
    + intros Hne q' Hq'. rewrite lookup_insert_ne; [done|]. intros <-.
      destruct (bk_disj _ _ Hbk b b' _ _ F G Hb Hb') as (_ & _ & Hdis); [done..|].
      apply (Hdis q.1); [by right|done].
Qed.

(** C12: accounting.  In every reachable configuration the task count of a
    context, which wait and release wait on, is the number of its tasks that
    are pending, held by the work thread or running; the queue holds every
    task once; and a fence is outstanding iff a task is running. *)
Theorem reachable_accounting σ x :
  reachable σ → devs (mem σ) !! d = Some x →
  (∀ c ctx, ctxs (mem σ) !! c = Some ctx → task_count ctx = count (mem σ) c (in_flight x (wt_next σ))) ∧
  NoDup (in_flight x (wt_next σ)) ∧
  (∀ t, t ∈ in_flight x (wt_next σ) ↔ is_Some (tasks (mem σ) !! t)) ∧
  (fence_state x = DICEDEV_FENCE_STATE_NONE ↔ running_task x = None) ∧
  slock x = false ∧ feed_lock x = false.
Proof.
  intros (y & [[[Hy ? ? _] [Hnd Hq _ Hc] _ _] Hfe _] & _)%reachable_inv Hd. rewrite Hd in Hy. injection Hy as <-.
  split_and!; try done. intros c ctx Hctx. by destruct (Hc c ctx Hctx).
Qed.

End Safe.
End System.
