(* ===== verification/Preempt.v ===== *)
(** The loop of [dicedev_wt_fn] (src/dicedev_wt.c) in small steps.  Between two
    steps no lock is held, and an interrupt or the board may come in between;
    each step is one access to shared memory, one critical section, or one
    turn of the translation loop.  Without interruptions the steps do what the
    whole iterations of Wt.v do, faults included. *)

From stdpp Require Import relations.
From S2P Require Import Prelude Cmd Types Utils Slots Pt Task Partial Stream Wt Buffer Base Syscall WtSpec BufferSpec IoctlSpec PciSpec Lifetime Invariant Thread Core Calls Release System.

Section Preempt.
Context `{Hardware, Kernel, HLaws : !HardwareLaws}.
Variable d : ptr.

(** The local variables of [__wt_run_task] that do not change. *)
Record run_frame := mkFrame { fr_task : ptr; fr_ctx : ptr; fr_dev : ptr; fr_out : ptr }.

(** Why a task is destroyed: its context failed while it was queued, or it is
    finished. *)
Inductive reason := Drop | Finish.

(** Where the thread is, with its live variables; [nt] is [next_task]. *)
Inductive pc :=
  | Top (nt : option ptr)                         (** condition of the loop *)
  | Chosen (e : wt_event) (nt : option ptr)       (** entering a case of the switch *)
  | Taken (t : ptr)                               (** the task is unlinked *)
  | Destroying (w : reason) (t : ptr) (nt : option ptr)  (** entering [__task_destroy] *)
  | Unslotted (w : reason) (t : ptr) (nt : option ptr)   (** first section left *)
  | Accounted (w : reason) (t : ptr) (nt : option ptr)   (** second section left *)
  | Freed (nt : option ptr)                       (** finished task freed *)
  | Unfenced (nt : option ptr)                    (** [fence_state] reset *)
  | Marked (t : ptr)                              (** [fence_state] is WAITING *)
  | Begun (f : run_frame) (bytes_left : Z)        (** [running_task] is set *)
  | Running (f : run_frame) (bytes_left : Z)      (** condition of the translation loop *)
  | Refused (f : run_frame)                       (** at [err_ctx_fail] *)
  | Sent                                          (** [__wt_run_task] has returned *)
  | Left (nt : option ptr).                       (** out of the loop *)

(** One turn of the loop of [__wt_run_task]: the new [bytes_left], or [None]
    for the jump to [err_ctx_fail]. *)
Definition run_loop_turn (f : run_frame) (bytes_left : Z) : K (option Z) :=
  let t := fr_task f in
  cmd0 ← dicedev_task_get_next_word t;
  let ty := Z.land cmd0 DICEDEV_CMD_TYPE_MASK in
  if ty =? DICEDEV_USER_CMD_TYPE_NOP then mret (Some (u64 (bytes_left - 4)))
  else if ty =? DICEDEV_USER_CMD_TYPE_GET_DIE then
    if bytes_left <? 4 then mret None
    else
      cmd1 ← dicedev_task_get_next_word t;
      if negb (Z.land cmd0 GET_DIE_SLOT_MASK =? 0) then mret None
      else
        buf ← get_buf (fr_out f);
        if negb (Z.land cmd1 (u32 (Z.lnot (allowed buf))) =? 0) then mret None
        else
          let res_count := u64 (Z.land cmd0 GET_DIE_NUM_MASK * numbers_of_bits_set cmd1) in
          task ← get_task t;
          put_task t (task <| task_results :=
            u64 (task_results task + Z.land cmd0 GET_DIE_NUM_MASK) |>);;
          feed_cmd (fr_dev f) [ u32 (Z.lor cmd0 (Z.shiftl (binded_slot buf) 24)); cmd1 ];;
          mret (Some (u64 (bytes_left - 8)))
  else if ty =? DICEDEV_USER_CMD_TYPE_NEW_SET then
    if negb (Z.land cmd0 NEW_SET_SLOT_MASK =? 0) then mret None
    else
      buf ← get_buf (fr_out f);
      feed_cmd (fr_dev f) [ u32 (Z.lor cmd0 (Z.shiftl (binded_slot buf) 4)) ];;
      mret (Some (u64 (bytes_left - 4)))
  else mret None.

(** The cases of the switch, up to the first point at which an interrupt can
    come in. [wait_event_interruptible] evaluates its condition again before
    the thread sleeps. *)
Definition case_step (e : wt_event) (nt : option ptr) : K pc :=
  match e with
  | WT_STOP => mret (Top nt)
  | WT_PARK => wait_until false;; mret (Top nt)
  | WT_NO_EVENT =>
      e ← __wt_get_event (mkWt d nt);
      when (bool_decide (e = WT_NO_EVENT))
        (x ← get_dev d; put_dev d (x <| wt_sleeping := true |>));;
      mret (Top nt)
  | WT_EVENT_TASK_GET_NEXT =>
      lock_slock d;;
      x ← get_dev d;
      match pending_tasks x with
      | [] => crash BadAccess
      | t :: rest =>
          put_dev d (x <| pending_tasks := rest |>);; unlock_slock d;; mret (Taken t)
      end
  | WT_EVENT_TASK_BIND_SLOT => t ← deref nt; wt_bind d t;; mret (Top nt)
  | WT_EVENT_TASK_RUN =>
      t ← deref nt;
      x ← get_dev d;
      put_dev d (x <| fence_state := DICEDEV_FENCE_STATE_WAITING |>);;
      mret (Marked t)
  | WT_EVENT_TASK_FINISH =>
      x ← get_dev d;
      BUG_ON (bool_decide (running_task x = None));;
      t ← deref (running_task x);
      mret (Destroying Finish t nt)
  end.

Definition wt_step (p : pc) : K pc :=
  match p with
  | Top nt =>
      x ← get_dev d;
      wait_until (negb (wt_sleeping x) || should_stop x);;
      if should_stop x then mret (Left nt)
      else e ← __wt_get_event (mkWt d nt); mret (Chosen e nt)
  | Chosen e nt => case_step e nt
  | Taken t =>
      task ← get_task t;
      ctx ← get_ctx (task_ctx task);
      mret (if ctx_failed ctx then Destroying Drop t None else Top (Some t))
  | Destroying w t nt =>
      task ← get_task t;
      ctx ← get_ctx (task_ctx task);
      task_release_slot (ctx_dev ctx) t;;
      mret (Unslotted w t nt)
  | Unslotted w t nt => task_account t;; mret (Accounted w t nt)
  | Accounted w t nt =>
      kfree_task t;;
      mret (match w with Drop => Top nt | Finish => Freed nt end)
  | Freed nt =>
      x ← get_dev d;
      when (dev_failed x) (
        restart_device d;;
        x ← get_dev d;
        put_dev d (x <| dev_failed := false |>));;
      x ← get_dev d;
      put_dev d (x <| fence_state := DICEDEV_FENCE_STATE_NONE |>);;
      mret (Unfenced nt)
  | Unfenced nt =>
      x ← get_dev d;
      put_dev d (x <| running_task := None |>);;
      mret (Top nt)
  | Marked t =>
      task ← get_task t;
      ctx ← get_ctx (task_ctx task);
      x ← get_dev (ctx_dev ctx);
      put_dev (ctx_dev ctx) (x <| running_task := Some t |>);;
      mret (Begun (mkFrame t (task_ctx task) (ctx_dev ctx) (buff_out task)) (task_bytes (body task)))
  | Begun f bytes_left =>
      buf ← get_buf (fr_out f);
      BUG_ON (binded_slot buf =? DICEDEV_BUFFER_NO_SLOT);;
      dicedev_task_init_it (fr_task f);;
      mret (Running f bytes_left)
  | Running f bytes_left =>
      if bytes_left =? 0 then mret Sent
      else
        r ← run_loop_turn f bytes_left;
        mret (match r with Some n => Running f n | None => Refused f end)
  | Refused f =>
      c ← get_ctx (fr_ctx f);
      put_ctx (fr_ctx f) (c <| ctx_failed := true |>);;
      mret Sent
  | Sent => wt_send_fence d;; mret (Top None)
  | Left nt => mret (Left nt)
  end.

(** ** Uninterrupted steps *)

Definition thread_step (c c' : pc * state) : Prop := wt_step c.1 c.2 = Done c'.1 c'.2.

(** The thread at [p] in memory [s] gets to the outcome [o]: it reaches the
    point and the memory of [o], or meets the fault of [o]. *)
Definition attains (o : outcome state pc) (p : pc) (s : state) : Prop :=
  match o with
  | Done p' s' => rtc thread_step (p, s) (p', s')
  | Crash e => ∃ p' s', rtc thread_step (p, s) (p', s') ∧ wt_step p' s' = Crash e
  end.

Lemma attains_here p s : attains (Done p s) p s.
Proof. apply rtc_refl. Qed.

Lemma attains_crash e p s : wt_step p s = Crash e → attains (Crash e) p s.
Proof. intros E. exists p, s. split; [apply rtc_refl|done]. Qed.

Lemma attains_step o p s p' s' : wt_step p s = Done p' s' → attains o p' s' → attains o p s.
Proof.
  intros E. assert (Hs : thread_step (p, s) (p', s')) by done.
  destruct o as [q u|e]; simpl; [intros; by eapply rtc_l|].
  intros (q & u & ? & ?). exists q, u. split; [by eapply rtc_l|done].
Qed.

(** The step at [p] is the first part [m] of a routine [m ≫= k]; its rest is
    attained from the next point. *)
Lemma attains_bind {A} (m : K A) (k : A → K pc) (q : A → pc) p s :
  wt_step p s = (a ← m; mret (q a)) s → (∀ a s', m s = Done a s' → attains (k a s') (q a) s') →
  attains ((m ≫= k) s) p s.
Proof.
  unfold mbind, M_bind. intros E Hk. destruct (m s) as [a s'|e] eqn:Em.
  - eapply attains_step; [exact E|by apply Hk].
  - by apply attains_crash.
Qed.

Lemma attains_eq o o' p s : o = o' → attains o' p s → attains o p s.
Proof. by intros ->. Qed.

Lemma bind_assoc {S A B C} (m : M S A) (f : A → M S B) (g : B → M S C) s :
  ((m ≫= f) ≫= g) s = (m ≫= λ a, f a ≫= g) s.
Proof. unfold mbind, M_bind. by destruct (m s). Qed.

Lemma bind_ext {S A B} (m : M S A) (f g : A → M S B) s :
  (∀ a s', m s = Done a s' → f a s' = g a s') → (m ≫= f) s = (m ≫= g) s.
Proof. unfold mbind, M_bind. destruct (m s) as [a s'|e]; intros E; [by apply E|done]. Qed.

Lemma bind_ret {S A B} (a : A) (f : A → M S B) s : (mret a ≫= f) s = f a s.
Proof. done. Qed.

(** Equality of routines up to the grouping of their parts. *)
Ltac by_assoc := repeat (rewrite ?bind_assoc, ?bind_ret; first [done | apply bind_ext; intros ? ? _]).

(** *** Destroying a task *)

Definition after_destroy (w : reason) (nt : option ptr) : pc :=
  match w with Drop => Top nt | Finish => Freed nt end.

Lemma attains_destroy w t nt (k : K pc) s :
  (∀ s', attains (k s') (after_destroy w nt) s') →
  attains ((__task_destroy t;; k) s) (Destroying w t nt) s.
Proof.
  intros Hk.
  eapply attains_eq; [|apply (attains_bind
    (task ← get_task t; ctx ← get_ctx (task_ctx task); task_release_slot (ctx_dev ctx) t)
    (λ _, task_account t;; kfree_task t;; k) (λ _, Unslotted w t nt))].
  - unfold __task_destroy. by_assoc.
  - simpl. by_assoc.
  - intros _ s1 _. apply (attains_bind _ _ (λ _, Accounted w t nt)); [done|]. intros _ s2 _.
    apply (attains_bind _ _ (λ _, after_destroy w nt)); [by destruct w|]. intros _ s3 _. apply Hk.
Qed.

(** *** The translation loop *)

Lemma run_loop_unfold fuel f bytes_left s :
  wt_run_loop (S fuel) (fr_task f) (fr_dev f) (fr_out f) bytes_left s =
    if bytes_left =? 0 then Done true s
    else (r ← run_loop_turn f bytes_left; match r with
      | Some n => wt_run_loop fuel (fr_task f) (fr_dev f) (fr_out f) n
      | None => mret false end) s.
Proof.
  cbn [wt_run_loop]. destruct (bytes_left =? 0); [done|]. unfold run_loop_turn. rewrite bind_assoc.
  apply bind_ext. intros cmd0 s1 _. destruct (_ =? DICEDEV_USER_CMD_TYPE_NOP); [done|].
  destruct (_ =? DICEDEV_USER_CMD_TYPE_GET_DIE).
  - destruct (bytes_left <? 4); [done|]. rewrite bind_assoc. apply bind_ext. intros cmd1 s2 _.
    destruct (negb _); [done|]. rewrite bind_assoc. apply bind_ext. intros buf s3 _.
    destruct (negb _); [done|]. by_assoc.
  - destruct (_ =? DICEDEV_USER_CMD_TYPE_NEW_SET); [|done]. destruct (negb _); [done|].
    by_assoc.
Qed.

(** [__wt_run_task] after its loop. *)
Definition run_loop_end (f : run_frame) (ok : bool) : K unit :=
  if ok then mret tt
  else c ← get_ctx (fr_ctx f); put_ctx (fr_ctx f) (c <| ctx_failed := true |>).

Lemma attains_loop fuel f bytes_left (k : K pc) s :
  wt_run_loop fuel (fr_task f) (fr_dev f) (fr_out f) bytes_left s ≠ Crash LoopExhausted →
  (∀ s', attains (k s') Sent s') →
  attains ((ok ← wt_run_loop fuel (fr_task f) (fr_dev f) (fr_out f) bytes_left;
            run_loop_end f ok;; k) s) (Running f bytes_left) s.
Proof.
  intros Hne Hk. revert bytes_left s Hne. induction fuel as [|fuel IH]; intros bytes_left s Hne; [done|].
  rewrite run_loop_unfold in Hne. unfold mbind at 1, M_bind at 1. rewrite run_loop_unfold.
  destruct (bytes_left =? 0) eqn:E0.
  { eapply attains_step; [simpl; by rewrite E0|]. apply Hk. }
  eapply attains_eq; [|apply (attains_bind (run_loop_turn f bytes_left)
    (λ r, ok ← match r with
      | Some n => wt_run_loop fuel (fr_task f) (fr_dev f) (fr_out f) n
      | None => mret false end; run_loop_end f ok;; k)
    (λ r, match r with Some n => Running f n | None => Refused f end))].
  - unfold mbind at 1 3, M_bind at 1 3. unfold mbind, M_bind.
    by destruct (run_loop_turn f bytes_left s) as [[n|] s'|e].
  - simpl. by rewrite E0.
  - intros [n|] s' E1; [apply IH|].
    { unfold mbind at 1, M_bind at 1 in Hne. by rewrite E1 in Hne. }
    change (attains ((run_loop_end f false;; k) s') (Refused f) s').
    apply (attains_bind _ _ (λ _, Sent)); [simpl; by rewrite bind_assoc|]. intros _ s'' _. apply Hk.
Qed.

(** *** Whole iterations *)

(** Looking for an event changes nothing. *)
Lemma get_event_same w s e s' : __wt_get_event w s = Done e s' → s' = s.
Proof.
  intros Hrun. unfold __wt_get_event in Hrun. set (D := wt_dev w) in *.
  unfold mbind at 1, M_bind at 1, get_dev at 1, fetch at 1 in Hrun.
  destruct (devs s !! D) as [x|] eqn:Hd; [|done].
  destruct (should_stop x); [by injection Hrun|]. destruct (should_park x); [by injection Hrun|].
  destruct (bool_decide (_ = _)); [by injection Hrun|].
  destruct (next_task w) as [t|]; [|by injection Hrun].
  destruct (bool_decide (_ ≠ _)); [by injection Hrun|].
  unfold lock_slock, unlock_slock, get_task, get_buf, get_dev, put_dev, mbind, M_bind, fetch, modify in Hrun.
  rewrite Hd in Hrun. destruct (slock x) eqn:Hl; [done|]. set (s1 := upd_dev D _ s) in Hrun.
  change (tasks s1) with (tasks s) in Hrun.
  assert (Hd1 : devs s1 !! D = Some (x <| slock := true |>)) by apply devs_upd_dev.
  destruct (tasks s !! t) as [task|]; [|done].
  cbn beta iota in Hrun. change (bufs s1) with (bufs s) in Hrun. destruct (bufs s !! buff_out task) as [buf|]; [|done].
  destruct (_ =? _); cbn beta iota in Hrun; rewrite Hd1 in Hrun; simpl in Hrun;
    rewrite ?lookup_insert_eq in Hrun; simpl in Hrun;
    injection Hrun as _ <-; unfold s1; rewrite upd_dev_twice; apply upd_dev_id; rewrite Hd; destruct x; simpl in *; by subst.
Qed.

(** The point a whole turn of the thread ends at. *)
Definition turn_end (nt : option ptr) (r : option wt_state) : pc :=
  match r with Some w => Top (next_task w) | None => Left nt end.

(** The command arrays of the write tasks are allocated, and no array has more
    entries than a [size_t] can count. *)
Definition arrays_alive (s : state) : Prop := arrays_small s ∧ ∀ t task w,
  tasks s !! t = Some task → body task = DICEDEV_TASK_TYPE_WRITE w → is_Some (cmds s !! tw_cmd w).

Lemma arrays_alive_same s s' :
  tasks s' = tasks s → cmds s' = cmds s → pgarrs s' = pgarrs s → arrays_alive s → arrays_alive s'.
Proof. unfold arrays_alive, arrays_small. by intros -> -> ->. Qed.

(** The fuel of the translation loop is defined once the iterator is. *)
Lemma task_fuel_defined t s s' :
  arrays_alive s → dicedev_task_init_it t s = Done tt s' → ∃ n, task_fuel t s' = Done n s'.
Proof.
  intros Ha Hi. unfold dicedev_task_init_it, cbuff_page, get_task, get_buf, deref, get_pt, get_pgarr,
    index, put_task, modify, fetch, mbind, M_bind in Hi.
  unfold task_fuel, get_task, get_buf, get_cmds, deref, get_pt, get_pgarr, fetch, mbind, M_bind.
  destruct (tasks s !! t) as [task|] eqn:Ht; [|done].
  destruct (body task) as [w|r] eqn:Eb.
  - injection Hi as <-. rewrite tasks_upd_task. simpl.
    destruct (proj2 Ha t task w Ht Eb) as [l El]. rewrite El. by eexists.
  - destruct (bufs s !! cBuff r) as [buf|] eqn:Hb; [|done].
    destruct (buf_pt buf) as [ptp|] eqn:Hp; [|done].
    destruct (pts s !! ptp) as [tbl|] eqn:Hpt; [|done].
    destruct (pages tbl) as [arr|] eqn:Hpg; [|done].
    destruct (pgarrs s !! arr) as [a|] eqn:Harr; [|done].
    destruct (0 <=? _); [|done]. destruct (a !! _) as [pg|]; [|done].
    injection Hi as <-. rewrite tasks_upd_task. simpl. rewrite Hb, Hp. simpl. rewrite Hpt, Hpg. simpl. rewrite Harr. by eexists.
Qed.

Lemma attains_begun f bytes_left (k : K pc) s :
  arrays_alive s → (∀ s', attains (k s') Sent s') →
  attains ((buf ← get_buf (fr_out f);
            BUG_ON (binded_slot buf =? DICEDEV_BUFFER_NO_SLOT);;
            dicedev_task_init_it (fr_task f);;
            fuel ← task_fuel (fr_task f);
            ok ← wt_run_loop fuel (fr_task f) (fr_dev f) (fr_out f) bytes_left;
            run_loop_end f ok;; k) s) (Begun f bytes_left) s.
Proof.
  intros Ha Hk.
  eapply attains_eq; [|apply (attains_bind
    (buf ← get_buf (fr_out f); BUG_ON (binded_slot buf =? DICEDEV_BUFFER_NO_SLOT);;
     dicedev_task_init_it (fr_task f))
    (λ _, fuel ← task_fuel (fr_task f);
          ok ← wt_run_loop fuel (fr_task f) (fr_dev f) (fr_out f) bytes_left;
          run_loop_end f ok;; k) (λ _, Running f bytes_left))].
  - by_assoc.
  - simpl. by_assoc.
  - intros [] s1 Hi. unfold get_buf, fetch, mbind, M_bind, BUG_ON in Hi.
    destruct (bufs s !! fr_out f) as [buf|]; [|done]. destruct (_ =? _); [done|].
    destruct (task_fuel_defined _ _ _ Ha Hi) as [n Hn].
    unfold mbind at 1, M_bind at 1. rewrite Hn. apply attains_loop; [|done].
    assert (Hp : ∃ k, words_ahead s1 (fr_task f) k ∧ k < Z.of_nat n).
    { apply (pwp_done _ _ s _ n s1 (init_it_ahead (fr_task f) s (proj1 Ha))). unfold mbind, M_bind. change (dicedev_task_init_it (fr_task f) s = Done tt s1) in Hi. by rewrite Hi. }
    destruct Hp as (k0 & Hw & Hlt). intros Hc. by apply (pwp_crash _ _ _ _ _ (run_loop_ends n _ (fr_dev f) (fr_out f) s1 bytes_left k0 Hw Hlt) Hc).
Qed.

Lemma attains_run t s :
  arrays_alive s →
  attains ((wt_run d t;; mret (Top None)) s) (Chosen WT_EVENT_TASK_RUN (Some t)) s.
Proof.
  intros Ha. eapply attains_eq; [|apply (attains_bind
    (x ← get_dev d; put_dev d (x <| fence_state := DICEDEV_FENCE_STATE_WAITING |>))
    (λ _, __wt_run_task t;; wt_send_fence d;; mret (Top None)) (λ _, Marked t))].
  { unfold wt_run. by_assoc. }
  { simpl. unfold deref. by rewrite bind_assoc. }
  intros [] s1 H1. assert (Ha1 : arrays_alive s1).
  { unfold get_dev, fetch, put_dev, modify, mbind, M_bind in H1.
    destruct (devs s !! d); [|done]. injection H1 as <-. by eapply arrays_alive_same. }
  eapply attains_eq; [|apply (attains_bind
    (task ← get_task t; ctx ← get_ctx (task_ctx task); x ← get_dev (ctx_dev ctx);
     put_dev (ctx_dev ctx) (x <| running_task := Some t |>);;
     mret (mkFrame t (task_ctx task) (ctx_dev ctx) (buff_out task), task_bytes (body task)))
    (λ fb, buf ← get_buf (fr_out fb.1);
            BUG_ON (binded_slot buf =? DICEDEV_BUFFER_NO_SLOT);;
            dicedev_task_init_it (fr_task fb.1);;
            fuel ← task_fuel (fr_task fb.1);
            ok ← wt_run_loop fuel (fr_task fb.1) (fr_dev fb.1) (fr_out fb.1) fb.2;
            run_loop_end fb.1 ok;; wt_send_fence d;; mret (Top None)) (λ fb, Begun fb.1 fb.2))].
  - unfold __wt_run_task. by_assoc.
  - simpl. by_assoc.
  - intros [f n] s2 H2. apply attains_begun.
    + unfold get_task, get_ctx, get_dev, fetch, put_dev, modify, mbind, M_bind in H2.
      destruct (tasks s1 !! t) as [task|]; [|done]. destruct (ctxs s1 !! _) as [ctx|]; [|done].
      destruct (devs s1 !! _); [|done]. injection H2 as _ _ <-. by eapply arrays_alive_same.
    + intros s3. apply (attains_bind _ _ (λ _, Top None)); [done|]. intros _ s4 _. apply attains_here.
Qed.

Lemma attains_next nt s :
  attains ((t ← wt_get_next d; mret (Top t)) s) (Chosen WT_EVENT_TASK_GET_NEXT nt) s.
Proof.
  eapply attains_eq; [|apply (attains_bind
    (lock_slock d;; x ← get_dev d; match pending_tasks x with
      | [] => crash BadAccess
      | t :: rest => put_dev d (x <| pending_tasks := rest |>);; unlock_slock d;; mret t end)
    (λ t, task ← get_task t; ctx ← get_ctx (task_ctx task);
      if ctx_failed ctx then __task_destroy t;; mret (Top None) else mret (Top (Some t)))
    (λ t, Taken t))].
  - unfold wt_get_next. rewrite !bind_assoc. apply bind_ext. intros _ s1 _. rewrite !bind_assoc.
    apply bind_ext. intros x s2 _. destruct (pending_tasks x) as [|t rest]; [done|].
    by_assoc. destruct (ctx_failed _); by_assoc.
  - simpl. rewrite !bind_assoc. apply bind_ext. intros _ s1 _. rewrite !bind_assoc. apply bind_ext.
    intros x s2 _. destruct (pending_tasks x) as [|t rest]; [done|]. by_assoc.
  - intros t s1 _. eapply attains_eq; [|apply (attains_bind
      (task ← get_task t; ctx ← get_ctx (task_ctx task); mret (ctx_failed ctx))
      (λ b : bool, if b then __task_destroy t;; mret (Top None) else mret (Top (Some t)))
      (λ b : bool, if b then Destroying Drop t None else Top (Some t)))].
    + by_assoc.
    + simpl. by_assoc.
    + intros [] s2 _; [|apply attains_here]. apply attains_destroy. intros s3. apply attains_here.
Qed.

Lemma attains_finish nt s :
  attains ((wt_finish d;; mret (Top nt)) s) (Chosen WT_EVENT_TASK_FINISH nt) s.
Proof.
  set (fin := x ← get_dev d;
    when (dev_failed x) (restart_device d;; x ← get_dev d; put_dev d (x <| dev_failed := false |>));;
    x ← get_dev d;
    put_dev d (x <| fence_state := DICEDEV_FENCE_STATE_NONE |> <| running_task := None |>)).
  eapply attains_eq; [|apply (attains_bind
    (x ← get_dev d; BUG_ON (bool_decide (running_task x = None));; deref (running_task x))
    (λ t, __task_destroy t;; fin;; mret (Top nt)) (λ t, Destroying Finish t nt))].
  - unfold wt_finish. by_assoc.
  - simpl. by_assoc.
  - intros t s1 _. apply attains_destroy. intros s2. unfold fin.
    eapply attains_eq; [|apply (attains_bind
      (x ← get_dev d;
       when (dev_failed x) (restart_device d;; x ← get_dev d; put_dev d (x <| dev_failed := false |>));;
       x ← get_dev d; put_dev d (x <| fence_state := DICEDEV_FENCE_STATE_NONE |>))
      (λ _, x ← get_dev d; put_dev d (x <| running_task := None |>);; mret (Top nt)) (λ _, Unfenced nt))].
    + rewrite !bind_assoc. apply bind_ext. intros x s3 _. rewrite !bind_assoc. apply bind_ext. intros _ s4 _.
      unfold get_dev, put_dev, fetch, modify, mbind, M_bind. destruct (devs s4 !! d); [|done].
      rewrite devs_upd_dev. by rewrite upd_dev_twice.
    + simpl. by_assoc.
    + intros _ s3 _. eapply attains_eq; [|apply (attains_bind
        (x ← get_dev d; put_dev d (x <| running_task := None |>)) (λ _, mret (Top nt)) (λ _, Top nt))].
      * by rewrite bind_assoc.
      * simpl. by rewrite bind_assoc.
      * intros _ s4 _. apply attains_here.
Qed.

(** The part of a turn in front of the switch. *)
Definition turn_event (nt : option ptr) : K (option wt_event) :=
  x ← get_dev d;
  wait_until (negb (wt_sleeping x) || should_stop x);;
  if should_stop x then mret None else e ← __wt_get_event (mkWt d nt); mret (Some e).

(** The cases of the switch. *)
Definition turn_case (nt : option ptr) (e : wt_event) : K pc :=
  match e with
  | WT_STOP => mret (Top nt)
  | WT_PARK => wait_until false;; mret (Top nt)
  | WT_NO_EVENT => x ← get_dev d; put_dev d (x <| wt_sleeping := true |>);; mret (Top nt)
  | WT_EVENT_TASK_GET_NEXT => t ← wt_get_next d; mret (Top t)
  | WT_EVENT_TASK_BIND_SLOT => t ← deref nt; wt_bind d t;; mret (Top nt)
  | WT_EVENT_TASK_RUN => t ← deref nt; wt_run d t;; mret (Top None)
  | WT_EVENT_TASK_FINISH => wt_finish d;; mret (Top nt)
  end.

Lemma thread_turn_split nt s :
  (r ← thread_turn d nt; mret (turn_end nt r)) s =
  (oe ← turn_event nt; match oe with Some e => turn_case nt e | None => mret (Left nt) end) s.
Proof.
  unfold thread_turn, turn_event, wt_iter, get_dev, fetch, mbind, M_bind, mret, M_ret. simpl.
  destruct (devs s !! d) as [x|] eqn:Hd; [|done].
  destruct (negb (wt_sleeping x) || should_stop x); [|done]. simpl. unfold mret, M_ret. rewrite Hd.
  destruct (should_stop x); [done|].
  destruct (__wt_get_event (mkWt d nt) s) as [e s1|]; [|done]. destruct e; simpl; try done;
    unfold mbind, M_bind.
  - unfold get_dev, fetch. by destruct (devs s1 !! d).
  - by destruct (wt_get_next d s1).
  - destruct (deref nt s1) as [t s2|]; [|done]. by destruct (wt_bind d t s2).
  - destruct (deref nt s1) as [t s2|]; [|done]. by destruct (wt_run d t s2).
  - by destruct (wt_finish d s1).
Qed.

Lemma attains_case nt e s :
  arrays_alive s → __wt_get_event (mkWt d nt) s = Done e s →
  attains (turn_case nt e s) (Chosen e nt) s.
Proof.
  intros Ha He. destruct e; cbn [turn_case].
  - eapply attains_eq; [|apply (attains_bind (x ← get_dev d; put_dev d (x <| wt_sleeping := true |>))
      (λ _, mret (Top nt)) (λ _, Top nt))]; [by_assoc| |intros; apply attains_here].
    simpl. unfold mbind at 1, M_bind at 1. by rewrite He.
  - apply attains_next.
  - eapply attains_eq; [|apply (attains_bind (t ← deref nt; wt_bind d t) (λ _, mret (Top nt)) (λ _, Top nt))];
      [by_assoc|simpl; by_assoc|intros; apply attains_here].
  - destruct nt as [t|]; [by apply attains_run|by apply attains_crash].
  - apply attains_finish.
  - by apply attains_crash.
  - apply attains_step with (Top nt) s; [done|apply attains_here].
Qed.

(** The small steps of the thread, one after the other, are an iteration of
    the loop as Wt.v has it: while the command arrays are allocated they reach,
    from the same memory, the same end of the turn with the same memory, or
    meet the same fault.  The fault that stands for an exhausted loop is not
    among them, because the fuel of Wt.v is enough. *)
Theorem thread_turn_refines nt s :
  arrays_alive s → attains ((r ← thread_turn d nt; mret (turn_end nt r)) s) (Top nt) s.
Proof.
  intros Ha. eapply attains_eq; [apply thread_turn_split|].
  apply (attains_bind _ _ (λ oe, match oe with Some e => Chosen e nt | None => Left nt end)).
  - unfold turn_event. simpl. rewrite !bind_assoc. apply bind_ext. intros x s1 _. rewrite !bind_assoc.
    apply bind_ext. intros _ s2 _. destruct (should_stop x); by_assoc.
  - intros [e|] s1 He; [|apply attains_here]. unfold turn_event, get_dev, fetch, mbind, M_bind in He.
    destruct (devs s !! d) as [x|]; [|done]. destruct (negb _ || _); [|done]. simpl in He.
    destruct (should_stop x); [done|]. destruct (__wt_get_event _ s) as [e' s2|] eqn:E; [|done].
    injection He as -> <-. pose proof (get_event_same _ _ _ _ E) as ->. by apply attains_case.
Qed.

End Preempt.
