(* ===== verification/Issued.v ===== *)
(** What reaches the board: whatever words a process submits, complete
    commands or not, the work thread feeds the board nothing for them but
    commands that are restricted to the slot and the allowed dice of the
    output buffer.  The rules are those of partial correctness: a turn of the
    translation loop may also read past the end of the commands, and the turns
    before it have fed their commands then. *)

From stdpp Require Import relations.
From S2P Require Import Prelude Cmd Types Utils Slots Pt Task Partial Stream Wt Buffer Base Syscall WtSpec BufferSpec IoctlSpec PciSpec Lifetime Invariant Thread Core Calls Release System Preempt.

Section Issued.
Context `{Hardware, Kernel, !HardwareLaws}.
Variable d : ptr.

(** Any fault may end the routine. *)
Abbreviation any := (λ _ : fault, True).

(** ** One turn of the translation loop *)

(** Fetching a word moves the iterator of the task and nothing else. *)
Lemma next_word_same t s :
  pwp any (dicedev_task_get_next_word t) s (λ _ s', devs s' = devs s ∧ bufs s' = bufs s).
Proof.
  unfold dicedev_task_get_next_word, get_task, get_cmds, get_dma, deref, index, put_task. do 2 pwp_step.
  destruct (body a); repeat pwp_step; [done|].
  destruct (_ =? _); unfold cbuff_page, get_buf, get_pt, get_pgarr, deref, index; by repeat pwp_step.
Qed.

Lemma feed_cmd_log D ws s x :
  devs s !! D = Some x → pwp any (feed_cmd D ws) s (λ _ s', ∃ h, s' = upd_dev D (dev_io h (feeds ws) x) s).
Proof.
  intros Hd. destruct (feed_lock x) eqn:Hl.
  - unfold pwp, feed_cmd, lock_feed, get_dev, fetch, mbind, M_bind. by rewrite Hd, Hl.
  - apply pwp_wp. eapply wp_feed_cmd; [done..|]. by eexists.
Qed.

Lemma feeds_u32 ws : feeds (u32 <$> ws) = feeds ws.
Proof.
  unfold feeds. rewrite <-list_fmap_compose. apply list_fmap_ext. intros i w _. simpl.
  by rewrite u32_small by apply u32_range.
Qed.

(** What a turn may feed: nothing, or one command for the slot and the dice of
    the output buffer. *)
Definition turn_feeds (buf : dicedev_buffer) (c : list Z) : Prop :=
  c = [] ∨ issued (binded_slot buf) (allowed buf) c.

(** Memory after a turn. *)
Definition turn_post (f : run_frame) (buf : dicedev_buffer) (x : dicedev_device) (s : state) : Prop :=
  bufs s !! fr_out f = Some buf ∧
  ∃ h c, turn_feeds buf c ∧ devs s !! fr_dev f = Some (dev_io h (feeds c) x).

Lemma turn_quiet f buf x s :
  bufs s !! fr_out f = Some buf → devs s !! fr_dev f = Some x → turn_post f buf x s.
Proof.
  intros Hb Hd. split; [done|]. exists (bar x), []. split; [by left|]. rewrite Hd. unfold dev_io. simpl.
  rewrite app_nil_r. by destruct x.
Qed.

Lemma turn_issues f n s buf x :
  bufs s !! fr_out f = Some buf → devs s !! fr_dev f = Some x → 0 ≤ binded_slot buf < 16 →
  pwp any (run_loop_turn f n) s (λ _ s', turn_post f buf x s').
Proof.
  intros Hb Hd Hs. unfold run_loop_turn. pwp_step. eapply pwp_mono; [apply next_word_same|].
  intros c0 s1 [Ed1 Eb1]. rewrite <-Ed1 in Hd. rewrite <-Eb1 in Hb. rewrite cmd_type_land.
  destruct (_ =? DICEDEV_USER_CMD_TYPE_NOP); [by pwp_step; apply turn_quiet|].
  destruct (Z.eqb_spec (cmd_type c0) DICEDEV_USER_CMD_TYPE_GET_DIE) as [Et|_].
  - destruct (n <? 4); [by pwp_step; apply turn_quiet|]. pwp_step. eapply pwp_mono; [apply next_word_same|].
    intros c1 s2 [Ed2 Eb2]. rewrite <-Ed2 in Hd. rewrite <-Eb2 in Hb.
    destruct (Z.eqb_spec (Z.land c0 GET_DIE_SLOT_MASK) 0) as [Hm|]; simpl; [|by pwp_step; apply turn_quiet].
    unfold get_buf. do 2 pwp_step. simplify_eq.
    destruct (Z.eqb_spec (Z.land c1 (u32 (Z.lnot (allowed buf)))) 0) as [Ha|]; simpl; [|by pwp_step; apply turn_quiet].
    unfold get_task, put_task. do 4 pwp_step. pwp_step. eapply pwp_mono; [by eapply (feed_cmd_log _ _ _ x)|].
    intros [] s3 [h ->]. pwp_step. split; [done|]. exists h. eexists.
    split; [right; exact (issued_die _ _ _ _ Hs Et Hm Ha)|]. rewrite devs_upd_dev. do 2 f_equal.
    unfold feeds. simpl. by rewrite (u32_small (u32 c1)) by apply u32_range.
  - destruct (Z.eqb_spec (cmd_type c0) DICEDEV_USER_CMD_TYPE_NEW_SET) as [Et|_]; [|by pwp_step; apply turn_quiet].
    destruct (Z.eqb_spec (Z.land c0 NEW_SET_SLOT_MASK) 0) as [Hm|]; simpl; [|by pwp_step; apply turn_quiet].
    unfold get_buf. do 2 pwp_step. simplify_eq. pwp_step. eapply pwp_mono; [by eapply (feed_cmd_log _ _ _ x)|].
    intros [] s3 [h ->]. pwp_step. split; [done|]. exists h. eexists.
    split; [right; exact (issued_set _ (allowed buf) _ Hs Et Hm)|]. by rewrite devs_upd_dev.
Qed.

(** ** The whole loop *)

Lemma loop_issues fuel f buf : ∀ n s x,
  bufs s !! fr_out f = Some buf → devs s !! fr_dev f = Some x → 0 ≤ binded_slot buf < 16 →
  pwp any (wt_run_loop fuel (fr_task f) (fr_dev f) (fr_out f) n) s (λ _ s',
    ∃ h cs, Forall (issued (binded_slot buf) (allowed buf)) cs ∧
      devs s' !! fr_dev f = Some (dev_io h (feeds (concat cs)) x)).
Proof.
  induction fuel as [|fuel IH]; intros n s x Hb Hd Hs; [done|].
  assert (Hnil : ∃ h cs, Forall (issued (binded_slot buf) (allowed buf)) cs ∧
    devs s !! fr_dev f = Some (dev_io h (feeds (concat cs)) x)).
  { destruct (turn_quiet f buf x s Hb Hd) as (_ & h & c & _ & E). exists (bar x), []. split; [done|].
    rewrite Hd. unfold dev_io. simpl. rewrite app_nil_r. by destruct x. }
  unfold pwp. rewrite run_loop_unfold. destruct (n =? 0); [done|].
  apply pwp_bind. eapply pwp_mono; [by apply turn_issues|]. intros o s1 (Hb1 & h1 & c & Hc & Hd1).
  assert (Hcs : ∀ cs, Forall (issued (binded_slot buf) (allowed buf)) cs →
    ∃ cs', concat cs' = c ++ concat cs ∧ Forall (issued (binded_slot buf) (allowed buf)) cs').
  { intros cs Hcs. destruct Hc as [->|Hc]; [by exists cs|]. exists (c :: cs). split; [done|by constructor]. }
  destruct o as [n'|].
  - eapply pwp_mono; [by eapply IH|]. intros ok s2 (h2 & cs & Hi & Hd2). destruct (Hcs cs Hi) as (cs' & E & Hi').
    exists h2, cs'. split; [done|]. rewrite Hd2, dev_io_io, E, feeds_app. done.
  - pwp_step. destruct (Hcs []) as (cs' & E & Hi'); [done|]. exists h1, cs'. split; [done|].
    rewrite Hd1, E. simpl. by rewrite app_nil_r.
Qed.

(** C5: whatever words a process submits, complete commands or not, every
    command the work thread feeds to the board for them is a GET_DIE
    restricted to the dice the buffer allows or a NEW_SET, and its slot field
    is the buffer's slot, except that the user can set the lowest bit of it.
    This holds of every turn of the translation loop in any memory, so also of
    the turns that come before one which reads past the end of the commands or
    is interrupted; and of the log of the whole loop whenever it returns. *)
Theorem loop_issued f s buf x :
  bufs s !! fr_out f = Some buf → devs s !! fr_dev f = Some x → 0 ≤ binded_slot buf < 16 →
  (∀ n p' s', wt_step d (Running f n) s = Done p' s' →
     ∃ h c, (c = [] ∨ issued (binded_slot buf) (allowed buf) c) ∧
       devs s' !! fr_dev f = Some (dev_io h (feeds c) x)) ∧
  (∀ fuel n ok s', wt_run_loop fuel (fr_task f) (fr_dev f) (fr_out f) n s = Done ok s' →
     ∃ h cs, Forall (issued (binded_slot buf) (allowed buf)) cs ∧
       devs s' !! fr_dev f = Some (dev_io h (feeds (concat cs)) x)).
Proof.
  intros Hb Hd Hs. split.
  - intros n p' s'. cbn [wt_step]. destruct (n =? 0); [intros [= _ <-]; by apply (turn_quiet f buf x s)|].
    intros Hrun. eapply (pwp_done _ _ s (λ _ s', ∃ h c, turn_feeds buf c ∧ devs s' !! fr_dev f = Some (dev_io h (feeds c) x))), Hrun.
    apply pwp_bind. eapply pwp_mono; [by apply turn_issues|]. intros o s1 [_ Hp]. exact Hp.
  - intros fuel n ok s' Hrun. by eapply (pwp_done _ _ s _ ok s' (loop_issues fuel f buf n s x Hb Hd Hs)).
Qed.

End Issued.
