(* ===== verification/PreemptSpec.v ===== *)
(** The work thread under interruption: the interrupt handler and the stores of
    the board may come in between any two steps of the thread (Preempt.v).  No
    step then faults and the global invariant is back at the end of every
    turn, as long as interrupts keep to the running task; and what an error
    interrupt does at the two points where the running task is gone already. *)

From stdpp Require Import relations.
From S2P Require Import Prelude Cmd Types Utils Slots Pt Task Partial Stream Wt Buffer Base Syscall WtSpec BufferSpec IoctlSpec PciSpec Lifetime Invariant Thread Core Calls Release System Preempt.

Section PreemptSpec.
Context `{Hardware, Kernel}.
Variable d : ptr.
Context `{!HardwareLaws, !KernelLaws}.
Variables (m : references) (mk : list ptr).

(** ** The invariant of the thread at each point *)

(** The task in the thread's hands: [next_task], or a task that is in no list
    at the moment. *)
Definition held_at (p : pc) : option ptr :=
  match p with
  | Top nt | Chosen _ nt | Unfenced nt | Freed nt | Left nt => nt
  | Taken t | Destroying Drop t _ | Unslotted Drop t _ => Some t
  | Destroying Finish _ nt | Unslotted Finish _ nt | Accounted _ _ nt => nt
  | Marked _ | Begun _ _ | Running _ _ | Refused _ | Sent => None
  end.

(** The device and the memory once the thread has made up its mind: what the
    stores that it is about to do make of them. *)
Definition settled (p : pc) (x : dicedev_device) : dicedev_device :=
  match p with
  | Accounted Finish _ _ | Freed _ | Unfenced _ =>
      x <| fence_state := DICEDEV_FENCE_STATE_NONE |> <| running_task := None |>
  | Marked t => x <| running_task := Some t |>
  | _ => x
  end.
Definition freed_at (p : pc) (s : state) : state :=
  match p with Accounted _ t _ => s <| tasks := delete t (tasks s) |> | _ => s end.
Definition settle (p : pc) (x : dicedev_device) (s : state) : state :=
  upd_dev d (settled p x) (freed_at p s).

(** The iterator of task [t] has [n] words ahead. *)
Definition words_left (s : state) (t : ptr) (n : nat) : Prop :=
  ∃ ws, length ws = n ∧ ((∃ cmd, write_stream t cmd s ws) ∨ run_stream t s ws).

(** The variables of [__wt_run_task] are those of its task. *)
Definition frame_ok (s : state) (f : run_frame) : Prop :=
  fr_dev f = d ∧ ∃ task, tasks s !! fr_task f = Some task ∧
    task_ctx task = fr_ctx f ∧ buff_out task = fr_out f.

(** The output buffer of task [t] has a slot. *)
Definition out_bound (s : state) (t : ptr) : Prop :=
  ∃ slot, out_slot s t = Some slot ∧ slot ≠ DICEDEV_BUFFER_NO_SLOT.

(** An event was chosen for a reason. *)
Definition chosen_ok (e : wt_event) (nt : option ptr) (x : dicedev_device) (s : state) : Prop :=
  match e with
  | WT_EVENT_TASK_GET_NEXT => nt = None ∧ pending_tasks x ≠ []
  | WT_EVENT_TASK_BIND_SLOT => ∃ t, nt = Some t ∧ fence_state x = DICEDEV_FENCE_STATE_NONE ∧
      out_slot s t = Some DICEDEV_BUFFER_NO_SLOT ∧ 0 < free_slots x
  | WT_EVENT_TASK_RUN => ∃ t, nt = Some t ∧ fence_state x = DICEDEV_FENCE_STATE_NONE ∧ out_bound s t
  | WT_EVENT_TASK_FINISH => fence_state x = DICEDEV_FENCE_STATE_REACHED
  | _ => True
  end.

Definition local (p : pc) (x : dicedev_device) (s : state) : Prop :=
  match p with
  | Chosen e nt => chosen_ok e nt x s
  | Destroying Drop _ nt | Unslotted Drop _ nt => nt = None
  | Destroying Finish t _ | Unslotted Finish t _ =>
      running_task x = Some t ∧ fence_state x = DICEDEV_FENCE_STATE_REACHED
  | Accounted w t nt =>
      match w with Drop => nt = None | Finish => running_task x = Some t end ∧ ∃ task ctx, tasks s !! t = Some task ∧
        ctxs s !! task_ctx task = Some ctx
  | Freed _ => running_task x ≠ None
  | Unfenced _ => fence_state x = DICEDEV_FENCE_STATE_NONE ∧ running_task x ≠ None
  | Marked t => running_task x = None ∧ fence_state x = DICEDEV_FENCE_STATE_WAITING ∧ out_bound s t
  | Begun f n => running_task x = Some (fr_task f) ∧ frame_ok s f ∧ out_bound s (fr_task f) ∧
      ∃ task, tasks s !! fr_task f = Some task ∧ n = task_bytes (body task)
  | Running f n => running_task x = Some (fr_task f) ∧ frame_ok s f ∧
      ∃ k, n = 4 * Z.of_nat k ∧ n < 2 ^ 64 ∧ words_left s (fr_task f) k
  | Refused f => running_task x = Some (fr_task f) ∧ frame_ok s f
  | Sent => running_task x ≠ None
  | _ => True
  end.

(** A reached fence never finds the thread asleep. *)
Definition awake (x : dicedev_device) : Prop :=
  fence_state x = DICEDEV_FENCE_STATE_REACHED → wt_sleeping x = false.

Definition pc_inv (p : pc) (s : state) : Prop := ∃ x,
  devs s !! d = Some x ∧ inv d (settle p x s) (settled p x) (held_at p) m mk ∧ local p x s ∧ awake x.

(** At a point without stores to come the invariant holds as it is. *)
Lemma settle_id p x s :
  devs s !! d = Some x → settled p x = x → freed_at p s = s → settle p x s = s.
Proof. intros Hd E1 E2. unfold settle. rewrite E1, E2. by apply upd_dev_id. Qed.

Lemma pc_inv_plain p x s :
  settled p x = x → freed_at p s = s →
  inv d s x (held_at p) m mk → local p x s → awake x → pc_inv p s.
Proof.
  intros E1 E2 Hi Hl Ha. destruct (inv_locks _ _ _ _ _ _ Hi) as (Hd & _). exists x.
  split_and!; try done. rewrite settle_id by done. by rewrite E1.
Qed.

(** The locks are free at every point, and the device is in service. *)
Lemma settled_same p x :
  same_table (settled p x) x ∧ slock (settled p x) = slock x ∧ feed_lock (settled p x) = feed_lock x ∧
  pending_tasks (settled p x) = pending_tasks x ∧ in_service (settled p x) = in_service x ∧
  bar (settled p x) = bar x.
Proof. by destruct p as [| | |[]|[]|[]| | | | | | | |]. Qed.

Lemma pc_inv_locks p x s :
  inv d (settle p x s) (settled p x) (held_at p) m mk →
  slock x = false ∧ feed_lock x = false ∧ in_service x = true.
Proof.
  intros [[[_ Hl Hf _] _ _ _] _ Hfa]. destruct (settled_same p x) as (_ & <- & <- & _ & <- & _). done.
Qed.

(** ** What the handler and the board change *)

Lemma words_left_stable s s' t n task task' :
  same_data s s' → tasks s !! t = Some task → tasks s' !! t = Some task' → body task' = body task →
  words_left s t n → words_left s' t n.
Proof.
  intros Hs Ht Ht' Eb (ws & Hn & Hw). exists ws. split; [done|]. destruct Hw as [[cmd Hw]|Hw].
  - left. exists cmd. by eapply (stream_stable (P := write_stream t cmd)).
  - right. by eapply (stream_stable (P := run_stream t)).
Qed.

Lemma words_left_same s s' t n :
  same_data s s' → tasks s' = tasks s → words_left s t n → words_left s' t n.
Proof.
  intros Hs Et Hw. assert (∃ task, tasks s !! t = Some task) as [task Ht].
  { destruct Hw as (ws & _ & [(cmd & task & w & Ht & _)|(task & r & buf & ptp & tbl & pp & hp & arr & L & no & off & q & Ht & _)]);
      eauto. }
  eapply words_left_stable; try done. by rewrite Et.
Qed.

(** What is known locally survives the failure of a context. *)
Lemma pc_inv_ctx_fail p s c ctx b :
  pc_inv p s → ctxs s !! c = Some ctx → pc_inv p (upd_ctx c (ctx <| ctx_failed := b |>) s).
Proof.
  intros (x & Hd & Hi & Hl & Ha) Hc. exists x. split; [done|]. split; [|split; [|done]].
  - destruct Hi as [Hmi Hfe Hfa]. split; [|done|done].
    assert (Hc' : ctxs (settle p x s) !! c = Some ctx) by (by destruct p).
    pose proof (mem_inv_ctx_fail d _ _ _ m mk c ctx b Hmi Hc') as Hmi'.
    by destruct p.
  - destruct p; try done; simpl in *.
    + destruct Hl as (Hf & task & ctx' & Ht & Hc'). split; [done|]. exists task.
      destruct (decide (c = task_ctx task)) as [->|]; [|exists ctx'; by rewrite lookup_insert_ne].
      eexists. by rewrite lookup_insert_eq.
    + destruct Hl as (? & ? & k & ? & ? & ?). split_and!; [done..|]. exists k. split_and!; [done..|].
      by apply (words_left_same s).
Qed.

(** Or a change of the device that stays within an interrupt's. *)
Lemma local_dev p s x y :
  local p x s → free_slots y = free_slots x → pending_tasks y = pending_tasks x →
  running_task y = running_task x →
  fence_state y = fence_state x ∨ fence_state y = DICEDEV_FENCE_STATE_REACHED ∧
    running_task x ≠ None ∧ (∀ nt, p ≠ Unfenced nt) ∧
    (settled p x = x → fence_state x ≠ DICEDEV_FENCE_STATE_NONE) →
  local p y (upd_dev d y s).
Proof.
  intros Hl Es Ep Er Hfe.
  destruct p as [|[]| |[]|[]|[]| | | | | | | |]; simpl in *; rewrite ?Ep, ?Er, ?Es; try done.
  - destruct Hl as (t & ? & Hf & ?). destruct Hfe as [->|(_ & _ & _ & Hn)]; [eauto|by destruct Hn].
  - destruct Hl as (t & ? & Hf & ?). destruct Hfe as [->|(_ & _ & _ & Hn)]; [eauto|by destruct Hn].
  - destruct Hfe as [->|(-> & _)]; done.
  - destruct Hl as [? ?]. destruct Hfe as [->|(-> & _)]; done.
  - destruct Hl as [? ?]. destruct Hfe as [->|(-> & _)]; done.
  - destruct Hfe as [->|(_ & _ & Hn & _)]; [done|by destruct (Hn nt)].
  - destruct Hl as (Hr & Hl). destruct Hfe as [->|(_ & Hn & _)]; done.
  - destruct Hl as (? & ? & k & ? & ? & ?). split_and!; [done..|]. exists k. split_and!; [done..|].
    by apply (words_left_same s).
Qed.

Lemma pc_inv_dev p s x y :
  devs s !! d = Some x → inv d (settle p x s) (settled p x) (held_at p) m mk → local p x s → awake x →
  same_table x y → slock y = slock x → feed_lock y = feed_lock x → pending_tasks y = pending_tasks x →
  running_task y = running_task x → in_service y = in_service x →
  fence_state y = fence_state x ∧ wt_sleeping y = wt_sleeping x ∨
  fence_state y = DICEDEV_FENCE_STATE_REACHED ∧ wt_sleeping y = false ∧ running_task x ≠ None ∧
    (∀ nt, p ≠ Unfenced nt) →
  pc_inv p (upd_dev d y s).
Proof.
  intros Hd Hi Hl Ha Et Es Ef Ep Er Efl Hfe. destruct (pc_inv_locks _ _ _ Hi) as (Hsl & Hfl & _).
  exists y. split; [apply devs_upd_dev|].
  assert (Hplain : fence_state x = DICEDEV_FENCE_STATE_NONE → settled p x = x → running_task x = None).
  { intros E1 E2. pose proof (inv_fence _ _ _ _ _ _ Hi) as Hf. rewrite E2 in Hf. by apply Hf. }
  split; [|split].
  - assert (E : settle p y (upd_dev d y s) = upd_dev d (settled p y) (settle p x s)).
    { unfold settle. destruct p; simpl; unfold upd_dev; rec_eq; by rewrite !insert_insert_eq. }
    rewrite E. eapply (inv_dev_only d _ (settled p x)); try done.
    + etrans; [apply (settled_same p x)|]. etrans; [exact Et|]. symmetry. apply (settled_same p y).
    + destruct (settled_same p y) as (_ & -> & _). congruence.
    + destruct (settled_same p y) as (_ & _ & -> & _). congruence.
    + destruct (settled_same p y) as (_ & _ & _ & -> & _), (settled_same p x) as (_ & _ & _ & -> & _). done.
    + by destruct p as [| | |[]|[]|[]| | | | | | | |].
    + destruct Hfe as [[Hfe _]|(Hfe & _ & Hne & _)];
        destruct p as [| | |[]|[]|[]| | | | | | | |]; simpl; auto; right; by rewrite Hfe.
    + destruct (settled_same p y) as (_ & _ & _ & _ & -> & _), (settled_same p x) as (_ & _ & _ & _ & -> & _). done.
  - eapply local_dev; try done; [by destruct Et|]. destruct Hfe as [[Hfe _]|(Hfe & _ & Hne & Hun)]; [by left|right].
    split_and!; try done. intros E Hn. by apply Hne, Hplain.
  - unfold awake. destruct Hfe as [[-> ->]|(_ & -> & _)]; done.
Qed.

(** ** The interrupt handler *)

(** Where the running task is freed already, and where the fence is reset. *)
Definition task_gone (p : pc) : bool := match p with Freed _ | Unfenced _ => true | _ => false end.
Definition fence_reset (p : pc) : bool := match p with Unfenced _ => true | _ => false end.

(** The interrupts that the handler can cope with while the thread is at [p]:
    fences and errors come while a task is running; no error comes once that
    task is freed, and no fence once its fence is reset. *)
Definition irq_ok (p : pc) (s : state) : Prop := ∀ x ist h,
  devs s !! d = Some x → istatus_of (bar x) = (ist, h) →
  (intr_fence ist = true → running_task x ≠ None ∧ fence_reset p = false) ∧
  (intr_error ist = true → running_task x ≠ None ∧ task_gone p = false).

(** Up to there, the running task and its context are alive. *)
Lemma running_alive p x s t :
  inv d (settle p x s) (settled p x) (held_at p) m mk → local p x s → running_task x = Some t →
  task_gone p = false → ∃ task ctx, tasks s !! t = Some task ∧ ctxs s !! task_ctx task = Some ctx.
Proof.
  intros [Hmi _ _] Hl Hr Hg.
  assert (Hplain : settled p x = x → ∃ task ctx, tasks (freed_at p s) !! t = Some task ∧
    ctxs s !! task_ctx task = Some ctx).
  { intros E. rewrite E in Hmi.
    destruct (mem_inv_finishable d _ _ _ m mk t Hmi) as (task & ctx & buf & [Ht Hc _ _ _ _ _ _ _]).
    { unfold in_flight. rewrite Hr. by left. }
    exists task, ctx. by destruct p. }
  destruct p as [| | |[]|[]|w ? ?| | | | | | | |]; try done; try by apply Hplain; simpl in *.
  - destruct Hl as [Hf Hl]. destruct w.
    + destruct (Hplain eq_refl) as (task & ctx & Ht & Hc). simpl in Ht. apply lookup_delete_Some in Ht as [_ Ht]. eauto.
    + rewrite Hr in Hf. by injection Hf as ->.
  - by destruct Hl as [? _]; simplify_eq.
Qed.

Lemma wp_isr_at p s :
  pc_inv p s → irq_ok p s → wp (dicedev_isr d) s (λ _ s', pc_inv p s' ∧ tasks s' = tasks s).
Proof.
  intros Hp Hok. pose proof Hp as (x & Hd & Hi & Hl & Ha). destruct (pc_inv_locks _ _ _ Hi) as (Hsl & Hfl & _).
  destruct (istatus_of (bar x)) as [ist h0] eqn:E. destruct (Hok x ist h0 Hd E) as [Hfence Herr].
  destruct (decide (ist = 0)) as [->|Hne].
  { eapply wp_isr_quiet; [done..|]. split; [|done]. eapply (pc_inv_dev p s x); try done. by left. }
  assert (Hdev : ∀ h s1, devs s1 !! d = Some x → pc_inv p s1 → pc_inv p (upd_dev d (dev_interrupted h ist x) s1)).
  { intros h s1 Hd1 (x1 & ? & Hi1 & Hl1 & Ha1). simplify_eq.
    eapply (pc_inv_dev p s1 x); try done; unfold dev_interrupted; destruct (intr_fence ist); try done; [|by left].
    right. destruct Hfence as [? Hr]; [done|]. split_and!; try done. by intros nt ->. }
  destruct (intr_error ist) eqn:Ee.
  - destruct Herr as [Hr Hg]; [done|]. destruct (running_task x) as [t|] eqn:Er; [|done].
    destruct (running_alive p x s t Hi Hl Er Hg) as (task & ctx & Ht & Hc).
    eapply wp_isr; try done. intros h. split; [|done]. apply Hdev; [done|]. by apply pc_inv_ctx_fail.
  - eapply wp_isr_benign; try done; [intros; by apply Hfence|]. intros h. split; [|done]. by apply Hdev.
Qed.

(** ** The stores of the board *)

(** A store to a page keeps the number of words ahead: a board that overwrites
    commands changes what they are, not where they end. *)
Lemma words_left_store s b v F q mq mq' t n :
  bufs_ok d s → buf_view s !! b = Some v → has_table s v F → q ∈ (fp_data F).*1 →
  dmas s !! q = Some mq → dp_handle mq' = dp_handle mq → length (dp_words mq') = length (dp_words mq) →
  words_left s t n → words_left (upd_dma q mq' s) t n.
Proof.
  intros Hbk Hv HF Hq Hm Eh El (ws & Hn & [[cmd Hw]|Hw]); [exists ws; eauto|].
  destruct Hw as (task & r & buf & ptp & tbl & pp & hp & arr & L & no & off & q0 & Ht & Hbd &
    Hb & Hp & Hpt & Hwf & Hno & Hoff & Hle & HL & Hpg & Hpre).
  set (G := mkFoot ptp tbl pp hp arr L).
  assert (HG : has_table s (life_of buf) G) by by split_and!.
  destruct (table_store d s b v F q mq mq' Hbk Hv HF Hq Hm Eh El (cBuff r) (life_of buf) G
    (buf_view_lookup _ _ _ Hb) HG) as (_ & _ & Hwf').
  unfold G in Hwf'. cbn [fp_tbl fp_page fp_bus fp_arr fp_data] in Hwf'.
  set (s' := upd_dma q mq' s) in *. set (k := (no * 1024 + off)%nat) in *.
  exists (take n (drop k (buffer_words s' L))). split.
  - apply prefix_length in Hpre. rewrite length_drop, (length_buffer_words _ _ _ _ _ _ Hwf) in Hpre.
    rewrite length_take, length_drop, (length_buffer_words _ _ _ _ _ _ Hwf'). lia.
  - right. exists task, r, buf, ptp, tbl, pp, hp, arr, L, no, off, q0. split_and!; try done.
    apply prefix_take.
Qed.

Lemma wp_store_at p s x q i v :
  pc_inv p s → devs s !! d = Some x → board_page s x q → 0 ≤ i < 1024 →
  wp (board_store q i v) s (λ _ s', pc_inv p s' ∧ tasks s' = tasks s).
Proof.
  intros (x' & Hd & Hi & Hl & Ha) Hd' Hq Hi0. assert (x' = x) as -> by congruence.
  assert (Hq' : board_page (settle p x s) (settled p x) q).
  { destruct Hq as (n & b & Hn & Hb). exists n, b. split; [by destruct (settled_same p x) as [[-> _] _]|].
    by destruct p. }
  destruct (board_page_table d _ _ _ m mk q Hi Hq') as (b & buf & F & mq & Hb & HF & Hin & Hm & Hlen).
  set (mq' := mq <| dp_words := <[Z.to_nat i := u32 v]> (dp_words mq) |>).
  assert (El : length (dp_words mq') = length (dp_words mq)) by apply length_insert.
  eapply (wp_board_store_page s q i v mq); [by destruct p|done|done|]. fold mq'. split; [|done].
  exists x. split; [done|]. split; [|split; [|done]].
  - pose proof (inv_page_store d _ _ _ m mk b buf F q mq _ Hi Hb HF Hin Hm El) as Hi'. by destruct p.
  - destruct p; try done; simpl in *. destruct Hl as (? & ? & k & ? & ? & ?). split_and!; [done..|].
    exists k. split_and!; [done..|]. unfold settle in *. simpl in *. rewrite upd_dev_id in * by done.
    eapply words_left_store; try done; [apply Hi|by apply buf_view_lookup].
Qed.

(** ** The steps of the thread *)

(** What a step relies on and the code does not check: a run has a non-empty
    range, and a GET_DIE command is not cut off by the end of the task. *)
Definition step_ok (p : pc) (s : state) : Prop :=
  match p with
  | Begun f _ => ∀ task r, tasks s !! fr_task f = Some task →
      body task = DICEDEV_TASK_TYPE_RUN r → 0 < tr_size r
  | Running f n => ∀ c0 s', dicedev_task_get_next_word (fr_task f) s = Done c0 s' →
      Z.land c0 DICEDEV_CMD_TYPE_MASK = DICEDEV_USER_CMD_TYPE_GET_DIE → 8 ≤ n
  | _ => True
  end.

(** The invariant of the point that the step leads to. *)
Abbreviation goes_on := (λ p' s', pc_inv p' s').

(** The event that the thread finds is one it can handle. *)
Lemma event_chosen x s nt :
  (∀ t, nt = Some t → is_Some (out_slot s t)) → chosen_ok (event_of x (nt ≫= out_slot s)) nt x s.
Proof.
  intros Hnt. unfold event_of. destruct (should_stop x); [done|]. destruct (should_park x); [done|].
  destruct nt as [t|]; simpl.
  - destruct (Hnt t eq_refl) as [slot E]. rewrite E. destruct (fence_state x) eqn:Ef; [|done|done].
    destruct (Z.eqb_spec slot DICEDEV_BUFFER_NO_SLOT) as [->|Hne].
    + destruct (Z.ltb_spec 0 (free_slots x)); [|done]. by exists t.
    + exists t. split_and!; try done. by exists slot.
  - destruct (fence_state x) eqn:Ef; [| |done]; by destruct (pending_tasks x) eqn:Ep; simpl; rewrite ?Ep.
Qed.

Lemma event_not_finish x nt : event_of x nt = WT_NO_EVENT → fence_state x ≠ DICEDEV_FENCE_STATE_REACHED.
Proof. unfold event_of. intros E Hf. rewrite Hf in E. by destruct (should_stop x), (should_park x). Qed.

Lemma wp_event_at s x nt (Q : wt_event → state → Prop) :
  inv d s x nt m mk → Q (event_of x (nt ≫= out_slot s)) s → wp (__wt_get_event (mkWt d nt)) s Q.
Proof.
  intros Hi HQ. destruct (inv_locks _ _ _ _ _ _ Hi) as (Hd & Hl & _).
  eapply wp_get_event; [done..|intros t ?; by eapply inv_out_slot|done].
Qed.

Lemma top_safe nt s : pc_inv (Top nt) s → safe (wt_step d (Top nt)) s goes_on.
Proof.
  intros (x & Hd & Hi & _ & Ha). rewrite settle_id in Hi by done. simpl in Hi.
  unfold wt_step. apply safe_bind. eapply safe_done; [unfold get_dev, fetch; by rewrite Hd|].
  apply safe_bind. destruct (negb (wt_sleeping x) || should_stop x); [|by apply safe_sleeps].
  eapply safe_done; [done|]. destruct (should_stop x).
  - eapply safe_done; [done|]. by eapply (pc_inv_plain _ x).
  - apply wp_safe. wp_step. eapply wp_event_at; [done|]. wp_step.
    eapply (pc_inv_plain _ x); try done. apply event_chosen. intros t ?. by eapply inv_out_slot.
Qed.

Lemma wp_sleep nt s :
  pc_inv (Chosen WT_NO_EVENT nt) s → wp (wt_step d (Chosen WT_NO_EVENT nt)) s goes_on.
Proof.
  intros (x & Hd & Hi & _ & Ha). rewrite settle_id in Hi by done. simpl in Hi.
  unfold wt_step, case_step. wp_step. eapply wp_event_at; [done|]. wp_step. apply wp_when.
  - intros E%bool_decide_eq_true. wp_mem. set (y := x <| wt_sleeping := true |>).
    eapply (pc_inv_plain _ y); try done.
    + destruct (inv_locks _ _ _ _ _ _ Hi) as (_ & ? & ?). eapply (inv_dev_only d s x); try done. by left.
    + intros Hf. by apply event_not_finish in E.
  - intros _. wp_step. by eapply (pc_inv_plain _ x).
Qed.

Lemma wp_next nt s :
  pc_inv (Chosen WT_EVENT_TASK_GET_NEXT nt) s →
  wp (wt_step d (Chosen WT_EVENT_TASK_GET_NEXT nt)) s goes_on.
Proof.
  intros (x & Hd & Hi & [-> Hp] & Ha). rewrite settle_id in Hi by done. simpl in Hi.
  destruct (inv_locks _ _ _ _ _ _ Hi) as (_ & Hl & Hf).
  destruct (pending_tasks x) as [|t rest] eqn:Ep; [done|].
  unfold wt_step, case_step. wp_step. eapply wp_lock_slock; [done..|]. unfold_mem. wp_step.
  eapply wp_fetch; [apply devs_upd_dev|]. simpl. rewrite Ep. wp_steps.
  eapply wp_unlock_slock; [apply devs_upd_dev|done|]. wp_step. rewrite !upd_dev_twice.
  set (y := dev_dequeue rest x).
  match goal with |- pc_inv _ (upd_dev d ?z s) => replace z with y by (destruct x; simpl in *; by subst) end.
  eapply (pc_inv_plain _ y); try done. destruct Hi as [Hmi Hfe Hfa]. split; [|done|done].
  assert (Hq : in_flight y (Some t) = in_flight x None) by (unfold in_flight; simpl; by rewrite Ep).
  simpl. rewrite Hq. by apply (mem_inv_dev d s x).
Qed.

Lemma wp_bind_at nt s :
  pc_inv (Chosen WT_EVENT_TASK_BIND_SLOT nt) s →
  wp (wt_step d (Chosen WT_EVENT_TASK_BIND_SLOT nt)) s goes_on.
Proof.
  intros (x & Hd & Hi & (t & -> & Hfe & Ho & Hfree) & Ha). rewrite settle_id in Hi by done. simpl in Hi.
  pose proof Ho as Ho'. unfold out_slot in Ho'.
  destruct (tasks s !! t) as [task|] eqn:Ht; simplify_eq/=.
  destruct (bufs s !! buff_out task) as [buf|] eqn:Hb; simplify_eq/=. pose proof Hi as [Hmi _ Hfa].
  destruct (life_table d _ _ _ _ _ (mi_life _ _ _ _ _ _ Hmi) Hb) as [Hbd (F & Hp & Hpt & _)].
  unfold wt_step, case_step, deref. wp_steps.
  eapply wp_wt_bind; [apply Hmi..|done|done|done|done|done|]. intros slot h Hs Hj. wp_step.
  set (y := dev_io h (feeds (bind_words slot buf (fp_tbl F))) (dev_bind slot (buff_out task) x)).
  eapply (pc_inv_plain _ y); try done. split; [|by apply Hi|done].
  apply (mem_inv_buf d s x y _ _ _ _ buf); try done; [apply Hmi..|].
  eapply (slots_ok_bind s _ d x); [apply Hmi|done..].
Qed.

Lemma wp_mark nt s :
  pc_inv (Chosen WT_EVENT_TASK_RUN nt) s → wp (wt_step d (Chosen WT_EVENT_TASK_RUN nt)) s goes_on.
Proof.
  intros (x & Hd & Hi & (t & -> & Hfe & Ho) & Ha). rewrite settle_id in Hi by done. simpl in Hi.
  pose proof Hi as [Hmi Hf Hfa]. assert (Hr : running_task x = None) by by apply Hf.
  unfold wt_step, case_step, deref. wp_mem. set (y := x <| fence_state := DICEDEV_FENCE_STATE_WAITING |>).
  exists y. split; [apply devs_upd_dev|]. split; [|done]. unfold settle. simpl. rewrite upd_dev_twice.
  split; [|done|done]. assert (Hq : in_flight (y <| running_task := Some t |>) None = in_flight x (Some t)).
  { unfold in_flight. simpl. by rewrite Hr. }
  rewrite Hq. apply (mem_inv_dev d s x); try done; apply Hmi.
Qed.

Lemma wp_finish nt s :
  pc_inv (Chosen WT_EVENT_TASK_FINISH nt) s → wp (wt_step d (Chosen WT_EVENT_TASK_FINISH nt)) s goes_on.
Proof.
  intros (x & Hd & Hi & Hfe & Ha). rewrite settle_id in Hi by done. simpl in Hi, Hfe.
  destruct (running_task x) as [t|] eqn:Hr; [|by rewrite (proj2 (inv_fence _ _ _ _ _ _ Hi) Hr) in Hfe].
  unfold wt_step, case_step. wp_mem. rewrite Hr. wp_steps. by eapply (pc_inv_plain _ x).
Qed.

Lemma wp_taken t s : pc_inv (Taken t) s → wp (wt_step d (Taken t)) s goes_on.
Proof.
  intros (x & Hd & Hi & _ & Ha). rewrite settle_id in Hi by done. simpl in Hi.
  destruct (mem_inv_finishable d s x _ m mk t (inv_mem _ _ _ _ _ _ Hi)) as (task & ctx & buf & [Ht Hc _ _ _ _ _ _ _]);
    [apply in_flight_next|].
  unfold wt_step. wp_mem. destruct (ctx_failed ctx); by eapply (pc_inv_plain _ x).
Qed.

(** The task under destruction, in front of the second section, is in the
    thread's hands or running. *)
Lemma doomed_in_flight w t nt x s :
  local (Destroying w t nt) x s → t ∈ in_flight x (held_at (Destroying w t nt)).
Proof.
  unfold in_flight. destruct w; simpl; [intros _; apply elem_of_app; right; by left|].
  intros [-> _]. by left.
Qed.

Lemma wp_destroying w t nt s : pc_inv (Destroying w t nt) s → wp (wt_step d (Destroying w t nt)) s goes_on.
Proof.
  intros (x & Hd & Hi & Hl & Ha). rewrite settle_id in Hi by done.
  assert (Es : settled (Destroying w t nt) x = x) by done. rewrite Es in Hi. pose proof Hi as [Hmi Hfe Hfa].
  destruct (mem_inv_finishable d s x _ m mk t Hmi) as (task & ctx & buf & Hfi); [by eapply doomed_in_flight|].
  pose proof Hfi as [Ht Hc Hcd Hb Hbd _ _ _ _]. unfold wt_step. wp_mem. rewrite Hcd.
  eapply wp_task_release_slot; [done|]. intros h fr. wp_step.
  destruct (dev_freed_same fr (slot_of buf) h x) as (E1 & E2 & E3 & E4).
  assert (E5 : wt_sleeping (dev_freed fr (slot_of buf) h x) = wt_sleeping x) by by destruct fr.
  set (y := dev_freed fr (slot_of buf) h x) in *.
  assert (Hi' : inv d (upd_dev d y (upd_buf (buff_out task) (buf_freed fr buf) s)) y
    (held_at (Destroying w t nt)) m mk).
  { split; [|by rewrite E1, E3|by rewrite E4]. unfold in_flight. rewrite E1, E2.
    by apply (mem_inv_unslot d s x _ _ _ t task ctx buf h). }
  eapply (pc_inv_plain _ y); [done|done|by destruct w| |by unfold awake; rewrite E3, E5].
  destruct w; simpl in *; [done|]. by rewrite E1, E3.
Qed.

Lemma wp_unslotted w t nt s : pc_inv (Unslotted w t nt) s → wp (wt_step d (Unslotted w t nt)) s goes_on.
Proof.
  intros (x & Hd & Hi & Hl & Ha). rewrite settle_id in Hi by done.
  assert (Es : settled (Unslotted w t nt) x = x) by done. rewrite Es in Hi. pose proof Hi as [Hmi Hfe Hfa].
  destruct (mem_inv_finishable d s x _ m mk t Hmi) as (task & ctx & buf & [Ht Hc Hcd Hb Hbd _ Hsl Hfl _]);
    [by eapply (doomed_in_flight w t nt x s)|].
  unfold wt_step. wp_step. eapply wp_task_account; [done..|]. wp_step.
  exists x. split; [done|]. split; [|split; [|done]].
  - assert (E : settle (Accounted w t nt) x (upd_buf (buff_out task) (buf_publish (task_results task) buf)
        (upd_ctx (task_ctx task) (ctx_done ctx) s)) =
      upd_dev d (settled (Accounted w t nt) x) (accounted t task ctx buf s)) by done.
    rewrite E. destruct w; simpl in *.
    + subst nt. assert (Hq : in_flight x (Some t) = option_list (running_task x) ++ t :: pending_tasks x) by done.
      rewrite Hq in Hmi. split; [|done|done].
      eapply (mem_inv_dev d _ x); [by apply mem_inv_account|done..].
    + destruct Hl as [Hr _].
      assert (Hq : in_flight x nt = [] ++ t :: option_list nt ++ pending_tasks x) by (unfold in_flight; by rewrite Hr).
      rewrite Hq in Hmi. split; [|done|done].
      eapply (mem_inv_dev d _ x); [by apply (mem_inv_account d s x [])|done..].
  - split; [by destruct w; [|destruct Hl]|]. exists task. eexists. split; [done|]. apply ctxs_upd_ctx.
Qed.

Lemma wp_accounted w t nt s : pc_inv (Accounted w t nt) s → wp (wt_step d (Accounted w t nt)) s goes_on.
Proof.
  intros (x & Hd & Hi & [Hr (task & ctx & Ht & Hc)] & Ha). unfold wt_step, kfree_task. wp_mem.
  destruct w; exists x; (split; [done|]); (split; [exact Hi|]); (split; [|done]); [done|].
  simpl. by rewrite Hr.
Qed.

Lemma wp_freed nt s : pc_inv (Freed nt) s → wp (wt_step d (Freed nt)) s goes_on.
Proof.
  intros (x & Hd & Hi & Hl & Ha). destruct (pc_inv_locks _ _ _ Hi) as (_ & _ & [_ Hfa]%in_service_true).
  unfold wt_step. wp_mem. apply wp_when; [congruence|]. intros _. wp_mem.
  eexists. split; [apply devs_upd_dev|]. split; [|done]. unfold settle in *. simpl in *. by rewrite upd_dev_twice.
Qed.

Lemma wp_unfenced nt s : pc_inv (Unfenced nt) s → wp (wt_step d (Unfenced nt)) s goes_on.
Proof.
  intros (x & Hd & Hi & [Hf Hl] & Ha). unfold wt_step. wp_mem.
  assert (E : settled (Unfenced nt) x = x <| running_task := None |>).
  { destruct x. simpl in *. by subst. }
  eapply (pc_inv_plain _ (x <| running_task := None |>)); try done. unfold settle in Hi. by rewrite E in Hi.
Qed.

(** *** Running a task *)

Lemma wp_marked t s : pc_inv (Marked t) s → wp (wt_step d (Marked t)) s goes_on.
Proof.
  intros (x & Hd & Hi & (Hr & Hf & Ho) & Ha). unfold settle in Hi. simpl in Hi.
  set (y := x <| running_task := Some t |>) in *.
  destruct (mem_inv_finishable d _ y _ m mk t (inv_mem _ _ _ _ _ _ Hi)) as (task & ctx & buf & [Ht Hc Hcd _ _ _ _ _ _]).
  { by left. }
  change (tasks s !! t = Some task) in Ht. change (ctxs s !! task_ctx task = Some ctx) in Hc.
  unfold wt_step. wp_mem. rewrite Hcd. wp_mem. fold y. eapply (pc_inv_plain _ y); try done.
  simpl. split_and!; try done; [|by exists task]. split; [done|]. by exists task.
Qed.

(** The running task, with its context and its output buffer. *)
Lemma frame_alive s x f :
  inv d s x None m mk → running_task x = Some (fr_task f) → frame_ok s f → ∃ task ctx buf,
    tasks s !! fr_task f = Some task ∧ task_ctx task = fr_ctx f ∧ buff_out task = fr_out f ∧
    ctxs s !! fr_ctx f = Some ctx ∧ bufs s !! fr_out f = Some buf ∧ task_ok s task.
Proof.
  intros [Hmi _ _] Hr (_ & task & Ht & <- & <-).
  destruct (mem_inv_finishable d s x _ m mk (fr_task f) Hmi) as (task' & ctx & buf & [Ht' Hc _ Hb _ _ _ _ _]).
  { unfold in_flight. rewrite Hr. by left. }
  simplify_eq. exists task, ctx, buf. split_and!; try done.
  by apply (qo_task _ _ _ (mi_queue _ _ _ _ _ _ Hmi) (fr_task f)).
Qed.

(** Moving the iterator of a task. *)
Lemma inv_body s x nt t task b' :
  inv d s x nt m mk → tasks s !! t = Some task → same_source (body task) b' →
  inv d (upd_task t (task <| body := b' |>) s) x nt m mk.
Proof.
  intros [Hmi Hfe Hfa] Ht Hs. split; [|done|done].
  pose proof (qo_task _ _ _ (mi_queue _ _ _ _ _ _ Hmi) t task Ht) as Htok.
  eapply (mem_inv_task d s x _ m mk t task); [done..|].
  pose proof (task_ok_ran s task b' (task_results task) Htok Hs) as Hok.
  rewrite u64_small in Hok by apply Htok. by destruct task.
Qed.

Lemma wp_init_it s t task :
  tasks s !! t = Some task → task_ok s task →
  (∀ r, body task = DICEDEV_TASK_TYPE_RUN r → 0 < tr_size r) →
  wp (dicedev_task_init_it t) s (λ _ s', ∃ b' k, same_source (body task) b' ∧
    s' = upd_task t (task <| body := b' |>) s ∧ task_bytes (body task) = 4 * Z.of_nat k ∧
    task_bytes (body task) < 2 ^ 64 ∧ words_left s' t k).
Proof.
  intros Ht [_ _ Hdata] Hpos. unfold dicedev_task_init_it. wp_mem. destruct (body task) as [w|r] eqn:Eb.
  - destruct Hdata as (ws & Hc & Hsz & Hlt). wp_step. eexists _, (length ws).
    split; [|split; [reflexivity|]]; [done|]. split_and!; try done. exists ws. split; [done|]. left. exists ws.
    eexists _, _. split; [apply tasks_upd_task|]. split; [done|]. simpl. split_and!; try done; lia.
  - destruct Hdata as (v & F & Hv & (HF1 & HF2 & Hwf) & Ho & Ho4 & Hs & Hs4 & Hle).
    apply buf_view_Some in Hv as (cbuf & Hcb & <-). specialize (Hpos r eq_refl).
    destruct (run_in_range _ _ _ _ _ _ _ _ Hwf Ho Hpos Hle) as [Hno Hlen].
    destruct (lookup_lt_is_Some_2 (fp_data F) _ Hno) as [q Hq].
    pose proof (ptw_size _ _ _ _ _ _ Hwf) as Hmax. unfold DICEDEV_MAX_BUFFER_SIZE, DICEDEV_PAGE_SIZE in Hmax.
    assert (Hnn : tr_offset r / PAGE_SIZE = Z.of_nat (Z.to_nat (tr_offset r / PAGE_SIZE)))
      by (unfold PAGE_SIZE; dlia).
    wp_step. rewrite Hnn. eapply wp_done; [by eapply (cbuff_page_ok s (cBuff r))|]. wp_step. rewrite <-Hnn.
    eexists _, (Z.to_nat (tr_size r / 4)). split; [|split; [reflexivity|]]; [done|].
    split; [simpl; dlia|]. split; [simpl; lia|].
    exists (run_words s (fp_data F) (tr_offset r) (tr_size r)). split; [done|]. right.
    eexists _, _, cbuf, (fp_pt F), (fp_tbl F), (fp_page F), (fp_bus F), (fp_arr F), (fp_data F), _, 0%nat, q.
    split; [apply tasks_upd_task|]. split; [reflexivity|]. simpl. split_and!; try done; [by apply (pt_wf_same s)| |lia|].
    + unfold PAGE_SIZE. dlia.
    + rewrite Nat.add_0_r. apply prefix_take.
Qed.

Lemma wp_begun f n s : pc_inv (Begun f n) s → step_ok (Begun f n) s → wp (wt_step d (Begun f n)) s goes_on.
Proof.
  intros (x & Hd & Hi & (Hr & Hfr & (slot & Ho & Hslot) & task0 & Ht0 & ->) & Ha) Hok.
  rewrite settle_id in Hi by done. simpl in Hi, Hok.
  destruct (frame_alive s x f Hi Hr Hfr) as (task & ctx & buf & Ht & Etc & Ebo & Hc & Hb & Htok).
  assert (task0 = task) as -> by congruence.
  unfold out_slot in Ho. rewrite Ht in Ho. simpl in Ho. rewrite Ebo, Hb in Ho. simplify_eq/=.
  unfold wt_step. wp_mem. apply wp_BUG_ON; [by apply Z.eqb_neq|]. wp_step.
  eapply wp_mono; [by eapply wp_init_it; [..|intros r ?; eapply Hok]|].
  intros _ s' (b' & k & Hs & -> & Ek & Hlt & Hw). wp_step. eapply (pc_inv_plain _ x); try done.
  - by apply inv_body.
  - simpl. split_and!; [done| |by exists k]. destruct Hfr as [? _]. split; [done|].
    eexists. split; [apply tasks_upd_task|]. done.
Qed.

Lemma wp_word_at s t k task (Q : Z → state → Prop) :
  words_left s t (S k) → tasks s !! t = Some task →
  (∀ c b', let s' := upd_task t (task <| body := b' |>) s in
     dicedev_task_get_next_word t s = Done c s' → same_source (body task) b' → words_left s' t k → Q c s') →
  wp (dicedev_task_get_next_word t) s Q.
Proof.
  intros (ws & Hn & Hw) Ht HQ. destruct ws as [|c ws]; [done|]. simpl in Hn.
  assert (Hnext : ∃ b', let s' := upd_task t (task <| body := b' |>) s in
    dicedev_task_get_next_word t s = Done c s' ∧ same_source (body task) b' ∧ words_left s' t k).
  { destruct Hw as [[cmd Hw]|Hw];
      [pose proof (stream_next (P := write_stream t cmd) s c ws Hw) as (task' & b' & Ht' & Hs & Hrun & Hw')
      |pose proof (stream_next (P := run_stream t) s c ws Hw) as (task' & b' & Ht' & Hs & Hrun & Hw')];
      assert (task' = task) as -> by congruence; exists b'; split_and!; try done; exists ws; (split; [lia|]);
      [left; by exists cmd|by right]. }
  destruct Hnext as (b' & Hrun & Hs & Hw'). eapply wp_done; [exact Hrun|]. by apply HQ.
Qed.

(** The running task, at any point of the translation loop. *)
Definition in_loop (f : run_frame) (s : state) : Prop := ∃ x,
  inv d s x None m mk ∧ running_task x = Some (fr_task f) ∧ frame_ok s f ∧ awake x.

Lemma in_loop_word f s task b' :
  in_loop f s → tasks s !! fr_task f = Some task → same_source (body task) b' →
  in_loop f (upd_task (fr_task f) (task <| body := b' |>) s).
Proof.
  intros (x & Hi & Hr & [Hfd (task' & Ht' & Ec & Eb)] & Ha) Ht Hs. assert (task' = task) as -> by congruence.
  exists x. split_and!; [by apply inv_body|done| |done]. split; [done|]. eexists. split; [apply tasks_upd_task|]. done.
Qed.

Lemma in_loop_credit f s task n :
  in_loop f s → tasks s !! fr_task f = Some task →
  in_loop f (upd_task (fr_task f) (task <| task_results := u64 n |>) s).
Proof.
  intros (x & [Hmi Hfe Hfa] & Hr & [Hfd (task' & Ht' & Ec & Eb)] & Ha) Ht. assert (task' = task) as -> by congruence.
  pose proof (qo_task _ _ _ (mi_queue _ _ _ _ _ _ Hmi) _ task Ht) as Htok.
  exists x. split_and!; [|done| |done].
  - split; [|done|done]. eapply (mem_inv_task d s x); [done..|].
    pose proof (task_ok_ran s task (body task) n Htok (reflexivity _)) as Hok. by destruct task.
  - split; [done|]. eexists. split; [apply tasks_upd_task|]. done.
Qed.

Lemma wp_in_loop_feed f s ws (Q : unit → state → Prop) :
  in_loop f s → (∀ y, in_loop f (upd_dev d y s) → Q tt (upd_dev d y s)) → wp (feed_cmd (fr_dev f) ws) s Q.
Proof.
  intros (x & Hi & Hr & [Hfd Hfr] & Ha) HQ. destruct (inv_locks _ _ _ _ _ _ Hi) as (Hd & Hl & Hf). rewrite Hfd.
  eapply wp_feed_cmd; [done..|]. intros h. apply HQ. exists (dev_io h (feeds ws) x).
  split_and!; try done. eapply (inv_dev_only d s x); try done. by left.
Qed.

Lemma wp_run_loop_turn f n k s :
  in_loop f s → n = 4 * Z.of_nat k → n < 2 ^ 64 → n ≠ 0 → words_left s (fr_task f) k →
  step_ok (Running f n) s →
  wp (run_loop_turn f n) s (λ r s', in_loop f s' ∧ match r with
    | Some n' => ∃ k', n' = 4 * Z.of_nat k' ∧ n' < n ∧ words_left s' (fr_task f) k'
    | None => True end).
Proof.
  intros Hin -> Hlt Hn0 Hw Hok. destruct k as [|k]; [done|].
  pose proof Hin as (x & Hi & Hr & Hfr & _).
  destruct (frame_alive s x f Hi Hr Hfr) as (task & _ & buf & Ht & _ & _ & _ & Hb & _).
  unfold run_loop_turn. wp_step. eapply wp_word_at; [done..|]. intros c0 b1 s1 Hrun Hs1 Hw1.
  assert (Hin1 : in_loop f s1) by by apply in_loop_word.
  specialize (Hok c0 s1 Hrun).
  assert (E4 : u64 (4 * Z.of_nat (S k) - 4) = 4 * Z.of_nat k) by (rewrite u64_small; lia).
  destruct (_ =? DICEDEV_USER_CMD_TYPE_NOP).
  { wp_step. split; [done|]. exists k. rewrite E4. split_and!; [done|lia|done]. }
  destruct (Z.eqb_spec (Z.land c0 DICEDEV_CMD_TYPE_MASK) DICEDEV_USER_CMD_TYPE_GET_DIE) as [Eg|_].
  - specialize (Hok Eg). destruct k as [|k]; [lia|]. destruct (Z.ltb_spec (4 * Z.of_nat (S (S k))) 4); [lia|].
    wp_step. eapply wp_word_at; [exact Hw1|apply tasks_upd_task|]. intros c1 b2 s2 _ Hs2 Hw2.
    assert (Hin2 : in_loop f s2) by (apply in_loop_word; [done|apply tasks_upd_task|done]).
    destruct (negb _); [by wp_step|]. wp_mem. destruct (negb _); [by wp_step|].
    wp_mem. set (task2 := task <| body := b1 |> <| body := b2 |>).
    assert (Ht2 : tasks s2 !! fr_task f = Some task2) by apply tasks_upd_task.
    assert (Hin3 := in_loop_credit f s2 task2 (task_results task2 + Z.land c0 GET_DIE_NUM_MASK) Hin2 Ht2).
    eapply wp_in_loop_feed; [exact Hin3|]. intros y Hin4. wp_step. split; [done|].
    exists k. rewrite u64_small by lia. split_and!; [lia|lia|].
    eapply (words_left_stable s2 _ _ _ task2); [done|exact Ht2|apply tasks_upd_task|done|done].
  - destruct (_ =? DICEDEV_USER_CMD_TYPE_NEW_SET); [|by wp_step]. destruct (negb _); [by wp_step|].
    wp_mem. eapply wp_in_loop_feed; [done|]. intros y Hin2. wp_step. split; [done|]. exists k. rewrite E4.
    split_and!; [done|lia|]. by apply (words_left_same s1).
Qed.

Lemma wp_running f n s :
  pc_inv (Running f n) s → step_ok (Running f n) s → wp (wt_step d (Running f n)) s goes_on.
Proof.
  intros (x & Hd & Hi & (Hr & Hfr & k & En & Hlt & Hw) & Ha) Hok. rewrite settle_id in Hi by done. simpl in Hi.
  cbn [wt_step]. destruct (Z.eqb_spec n 0).
  { wp_step. eapply (pc_inv_plain _ x); try done. simpl. by rewrite Hr. }
  wp_step. eapply wp_mono; [by eapply wp_run_loop_turn; [by exists x|..]|].
  intros [n'|] s' [(x' & Hi' & Hr' & Hfr' & Ha') Hleft]; wp_step; eapply (pc_inv_plain _ x'); try done.
  simpl. split_and!; [done..|]. destruct Hleft as (k' & ? & ? & ?). exists k'. split_and!; [done|lia|done].
Qed.

Lemma wp_refused f s : pc_inv (Refused f) s → wp (wt_step d (Refused f)) s goes_on.
Proof.
  intros (x & Hd & Hi & (Hr & Hfr) & Ha). rewrite settle_id in Hi by done. simpl in Hi.
  destruct (frame_alive s x f Hi Hr Hfr) as (task & ctx & buf & _ & _ & _ & Hc & _).
  unfold wt_step. wp_mem. eapply (pc_inv_plain _ x); try done; [|simpl; by rewrite Hr].
  destruct Hi as [Hmi Hfe Hfa]. split; [|done|done]. by apply mem_inv_ctx_fail.
Qed.

Lemma wp_sent s : pc_inv Sent s → wp (wt_step d Sent) s goes_on.
Proof.
  intros (x & Hd & Hi & Hr & Ha). rewrite settle_id in Hi by done. simpl in Hi.
  destruct (inv_locks _ _ _ _ _ _ Hi) as (_ & Hl & Hf).
  unfold wt_step. wp_step. eapply wp_wt_send_fence; [done..|]. intros h. wp_step.
  eapply (pc_inv_plain _ (dev_io h fence_log x)); try done. eapply (inv_dev_only d s x); try done. by left.
Qed.

(** Where the thread may sleep: with nothing to do, or parked. *)
Definition may_sleep (p : pc) : bool :=
  match p with Top _ | Chosen WT_PARK _ => true | _ => false end.

Lemma wp_wt_step p s :
  pc_inv p s → step_ok p s → may_sleep p = false → wp (wt_step d p) s goes_on.
Proof.
  intros Hp Hok Hs. destruct p as [nt|[] nt|t|w t nt|w t nt|w t nt|nt|nt|t|f n|f n|f| |nt]; try done.
  - by apply wp_sleep.
  - by apply wp_next.
  - by apply wp_bind_at.
  - by apply wp_mark.
  - by apply wp_finish.
  - by apply wp_taken.
  - by apply wp_destroying.
  - by apply wp_unslotted.
  - by apply wp_accounted.
  - by apply wp_freed.
  - by apply wp_unfenced.
  - by apply wp_marked.
  - by apply wp_begun.
  - by apply wp_running.
  - by apply wp_refused.
  - by apply wp_sent.
Qed.

Lemma wt_step_safe p s : pc_inv p s → step_ok p s → safe (wt_step d p) s goes_on.
Proof.
  intros Hp Hok. destruct (may_sleep p) eqn:Hs; [|by apply wp_safe, wp_wt_step].
  destruct p as [nt|[] nt| | | | | | | | | | | |]; try done. by apply top_safe.
Qed.

End PreemptSpec.
