(* ===== verification/Races.v ===== *)
(** Executions of the whole system in which the work thread is not atomic:
    system calls, the interrupt handler and the board come in between its
    steps.  They are safe, every turn of the thread ends, and what happens at
    the points where an interrupt is not expected. *)

From stdpp Require Import relations.
From S2P Require Import Prelude Cmd Types Utils Slots Pt Task Partial Stream Wt Buffer Base Syscall WtSpec BufferSpec IoctlSpec PciSpec Lifetime Invariant Thread Core Calls Release System Preempt PreemptSpec.

Section Races.
Context `{Hardware, Kernel}.
Variable d : ptr.

(** ** System calls between the steps of the thread *)

(** All points but one: there the task is accounted for and not freed yet. *)
Definition between (p : pc) : bool := match p with Accounted _ _ _ => false | _ => true end.

Section Frames.
Context `{!HardwareLaws, !KernelLaws}.

(** A frame keeps the number of words that a task has ahead. *)
Lemma words_left_frame s x hq m mk s' x' t task n :
  core d s x hq m mk → frame s x s' x' → tasks s !! t = Some task → words_left s t n → words_left s' t n.
Proof.
  intros Hc Hf Ht (ws & Hn & Hw). destruct (fm_task _ _ _ _ Hf t task Ht) as [Ht' [Hcm Hk]].
  destruct Hw as [(cmd & task0 & w & Ht0 & Hb & Hcmd & Hrest)|Hw].
  - exists ws. split; [done|]. left. exists cmd, task, w. simplify_eq. split_and!; try done; [|apply Hrest..].
    by eapply lookup_weaken.
  - destruct Hw as (task0 & r & buf & ptp & tbl & pp & hp & arr & L & no & off & q0 & Ht0 & Hbd &
      Hb & Hp & Hpt & Hwf & Hno & Hoff & Hle & HL & Hpg & Hpre). assert (task0 = task) as -> by congruence.
    destruct (core_task d _ _ _ _ _ t task Hc Ht) as [(l & Hl & _ & Hcb) _ _].
    destruct (Hk l Hl) as (l' & _ & Hl'). destruct (Hl' _ (Hcb r Hbd)) as [_ Htab].
    set (G := mkFoot ptp tbl pp hp arr L).
    destruct (Htab (life_of buf) G) as (v' & Hv' & Hp' & Hpt' & Hwf');
      [by apply buf_view_lookup|by split_and!|].
    apply buf_view_Some in Hv' as (buf' & Hb' & <-). unfold G in Hp', Hpt', Hwf'.
    cbn [fp_pt fp_tbl fp_page fp_bus fp_arr fp_data] in Hp', Hpt', Hwf'.
    exists (take n (drop (no * 1024 + off) (buffer_words s' L))). split.
    + apply prefix_length in Hpre. rewrite length_drop, (length_buffer_words _ _ _ _ _ _ Hwf) in Hpre.
      rewrite length_take, length_drop, (length_buffer_words _ _ _ _ _ _ Hwf'). lia.
    + right. exists task, r, buf', ptp, tbl, pp, hp, arr, L, no, off, q0. split_and!; try done. apply prefix_take.
Qed.

Lemma out_slot_alive s t slot : out_slot s t = Some slot → is_Some (tasks s !! t).
Proof. unfold out_slot. by destruct (tasks s !! t). Qed.

Lemma out_bound_frame s x s' x' t : frame s x s' x' → out_bound s t → out_bound s' t.
Proof.
  intros Hf (slot & Ho & Hn). exists slot. split; [|done].
  rewrite (fm_slot _ _ _ _ Hf); [done|by eapply out_slot_alive].
Qed.

Lemma frame_ok_frame s x s' x' f : frame s x s' x' → frame_ok d s f → frame_ok d s' f.
Proof.
  intros Hf [Hd (task & Ht & ?)]. split; [done|]. exists task.
  by destruct (fm_task _ _ _ _ Hf _ _ Ht).
Qed.

Lemma local_frame p s x hq m mk s' x' :
  core d s x hq m mk → frame s x s' x' → between p = true → local d p x s → local d p x' s'.
Proof.
  intros Hc Hf Hb Hl. pose proof Hf as [Er Ef _ Ep Efr _ Es].
  destruct p as [|[]| |[]|[]|[]| | | | | | | |]; simpl in *; rewrite ?Er, ?Ef; try done.
  - destruct Hl as [-> Hne]. split; [done|]. intros E. rewrite E in Ep. by apply prefix_nil_inv in Ep.
  - destruct Hl as (t & -> & Hfe & Ho & Hfree). exists t. split_and!; try done; [|lia].
    rewrite Es; [done|by eapply out_slot_alive].
  - destruct Hl as (t & -> & Hfe & Ho). exists t. split_and!; try done. by eapply out_bound_frame.
  - destruct Hl as (? & ? & Ho). split_and!; try done. by eapply out_bound_frame.
  - destruct Hl as (? & Hfr & Ho & task & Ht & ->). split_and!; try done;
      [by eapply frame_ok_frame|by eapply out_bound_frame|]. exists task. by destruct (fm_task _ _ _ _ Hf _ _ Ht).
  - destruct Hl as (? & Hfr & k & ? & ? & Hw). pose proof Hfr as [_ (task & Ht & _)].
    split_and!; try done; [by eapply frame_ok_frame|]. exists k. split_and!; try done. by eapply words_left_frame.
  - destruct Hl as [? ?]. split; [done|by eapply frame_ok_frame].
Qed.

(** What system calls depend on, at any such point. *)
Lemma pc_core p x s m mk :
  devs s !! d = Some x → inv d (settle d p x s) (settled p x) (held_at p) m mk → between p = true →
  core d s x (hand (settled p x) (held_at p)) m mk.
Proof.
  intros Hd Hi Hb. pose proof (inv_core _ _ _ _ _ _ Hi) as Hc.
  destruct (settled_same p x) as (Et & El & Ef & Ep & Efl & _). destruct (core_locks _ _ _ _ _ _ Hc) as (_ & Hsl & Hfl).
  assert (E : upd_dev d x (settle d p x s) = s).
  { unfold settle. rewrite upd_dev_twice. assert (freed_at p s = s) as -> by by destruct p. by apply upd_dev_id. }
  rewrite <-E. eapply core_dev; [exact Hc|done|congruence..].
Qed.

Lemma pc_inv_frame p x s m mk m' mk' x' s' :
  inv d (settle d p x s) (settled p x) (held_at p) m mk → awake x → between p = true → local d p x s →
  core d s x (hand (settled p x) (held_at p)) m mk →
  core d s' x' (hand (settled p x) (held_at p)) m' mk' → frame s x s' x' → pc_inv d m' mk' p s'.
Proof.
  intros [_ Hfe _] Ha Hb Hl Hc Hc' Hf. pose proof Hf as [Er Ef Hw _ _ _ _].
  destruct (core_locks _ _ _ _ _ _ Hc') as (Hd' & Hsl & Hfl).
  destruct (settled_same p x') as (Et & El & Efl & Ep & Eff & _). exists x'. split_and!; [done| | |].
  - assert (E : settle d p x' s' = upd_dev d (settled p x') s') by (unfold settle; by destruct p).
    assert (Ers : running_task (settled p x') = running_task (settled p x))
      by (destruct p as [| | |[]|[]|[]| | | | | | | |]; simpl; congruence).
    assert (Efs : fence_state (settled p x') = fence_state (settled p x))
      by (destruct p as [| | |[]|[]|[]| | | | | | | |]; simpl; congruence).
    rewrite E. split; [|by rewrite Ers, Efs|rewrite Eff; apply Hc'].
    rewrite <-hand_in_flight. unfold hand in *. rewrite Ers.
    destruct (core_dev d s' x' (settled p x') _ m' mk' Hc') as [? _]; try congruence; done.
  - by eapply (local_frame p s x).
  - unfold awake. rewrite Ef. auto.
Qed.

End Frames.

(** ** Executions *)

(** Who moves: the thread by one step, the handler (which holds the lock of the
    device throughout) by a whole run, the rest of the world by an action of
    System.v. *)
Inductive actor := TheThread | TheHandler | TheWorld.
#[global] Instance actor_eq_dec : EqDecision actor.
Proof. solve_decision. Defined.

(** The board may come at any point, system calls at all points but one; a
    suspension waits ([kthread_park]) until the thread has ended its turn. *)
Definition may_come (p : pc) (a : action) : bool :=
  match a with
  | AThread | AIrq => false
  | ABoard _ | ADma _ _ _ => true
  | ASuspend => match p with Top _ => true | _ => false end
  | _ => between p
  end.

Inductive fine : actor → pc * config → pc * config → Prop :=
  | fine_thread p σ p' σ' :
      step_ok p (mem σ) → lift (wt_step d p) σ = Done p' σ' → fine TheThread (p, σ) (p', σ')
  | fine_irq p σ σ' :
      irq_ok d p (mem σ) → act d AIrq σ = Done tt σ' → fine TheHandler (p, σ) (p, σ')
  | fine_world p σ a σ' :
      may_come p a = true → permitted d a σ → act d a σ = Done tt σ' → fine TheWorld (p, σ) (p, σ').

Definition fine_step (c c' : pc * config) : Prop := ∃ a, fine a c c'.

(** From the probe of the device on. *)
Definition fine_reachable (c : pc * config) : Prop :=
  ∃ σ0, booted d σ0 ∧ rtc fine_step (Top None, σ0) c.

(** The points between two turns. *)
Definition at_top (p : pc) : bool := match p with Top _ | Left _ => true | _ => false end.

(** An execution within one turn of the thread; the actors in order. *)
Inductive turn : list actor → pc * config → pc * config → Prop :=
  | turn_nil c : turn [] c c
  | turn_cons a l c c1 c' :
      at_top c.1 = false → fine a c c1 → turn l c1 c' → turn (a :: l) c c'.

(** How many steps the thread has left in its turn. *)
Definition words_of (s : state) (nt : option ptr) : nat :=
  match nt ≫= (tasks s !!.) with Some task => Z.to_nat (task_bytes (body task) / 4) | None => 0%nat end.
Definition rank (p : pc) (s : state) : nat :=
  match p with
  | Top _ | Left _ => 0
  | Chosen _ nt => 7 + words_of s nt
  | Taken _ => 6
  | Destroying _ _ _ => 5
  | Unslotted _ _ _ => 4
  | Accounted _ _ _ => 3
  | Freed _ => 2
  | Unfenced _ => 1
  | Marked t => 6 + words_of s (Some t)
  | Begun _ n => 5 + Z.to_nat (n / 4)
  | Running _ n => 3 + Z.to_nat (n / 4)
  | Refused _ => 2
  | Sent => 1
  end.

Section Theorems.
Context `{!HardwareLaws, !KernelLaws}.

(** The invariant keeps the arrays of the tasks alive. *)
Lemma inv_arrays m mk s x nt : inv d s x nt m mk → arrays_small s → arrays_alive s.
Proof.
  intros Hi Hs. split; [done|]. revert Hi. intros [[_ [_ _ Ht _] _ _] _ _] t task w Htask Eb.
  destruct (Ht t task Htask) as [_ _ Hdata]. rewrite Eb in Hdata. destruct Hdata as (ws & Hc & _). by exists ws.
Qed.

(** ** Every step is safe *)

Definition pc_ok (c : pc * config) : Prop := pc_inv d (refs c.2) (marked c.2) c.1 (mem c.2).

(** The tasks there are stay as they are. *)
Definition tasks_kept (s s' : state) : Prop :=
  ∀ t, is_Some (tasks s !! t) → tasks s' !! t = tasks s !! t.

Lemma thread_fine p σ :
  pc_ok (p, σ) → step_ok p (mem σ) → safe (lift (wt_step d p)) σ (λ p' σ', pc_ok (p', σ')).
Proof. intros Hp Hok. apply safe_lift. by apply (wt_step_safe d (refs σ) (marked σ)). Qed.

Lemma irq_fine p σ :
  pc_ok (p, σ) → irq_ok d p (mem σ) →
  safe (act d AIrq) σ (λ _ σ', pc_ok (p, σ') ∧ tasks_kept (mem σ) (mem σ')).
Proof.
  intros Hp Hok. unfold act. apply safe_bind, safe_lift, wp_safe.
  eapply wp_mono; [by apply (wp_isr_at d (refs σ) (marked σ) p)|]. intros r s' [Hp' Et].
  eapply safe_done; [done|]. split; [done|]. intros t _. simpl. by rewrite Et.
Qed.

Lemma world_fine p σ a :
  pc_ok (p, σ) → may_come p a = true → permitted d a σ →
  safe (act d a) σ (λ _ σ', pc_ok (p, σ') ∧ tasks_kept (mem σ) (mem σ')).
Proof.
  intros Hp Hm Ha. pose proof Hp as (x & Hd & Hi & Hl & Haw). simpl in Hd, Hi, Hl.
  destruct (between p) eqn:Hb.
  - pose proof (pc_core p x (mem σ) _ _ Hd Hi Hb) as Hc.
    eapply safe_mono; [apply (env_safe d σ a x _ Hc Ha); by intros ->|].
    intros _ σ' (_ & x' & Hc' & Hf). split; [by eapply (pc_inv_frame p x (mem σ))|].
    intros t [task Ht]. destruct (fm_task _ _ _ _ Hf t task Ht) as [-> _]. done.
  - destruct a; simpl in Hm; try congruence; try (by destruct p); unfold act.
    + apply safe_lift, wp_safe. wp_mem. split; [|done]. eapply (pc_inv_dev d _ _ p (mem σ) x); try done. by left.
    + destruct Ha as [(x' & Hd' & Hq) Hi0]. apply safe_bind, safe_lift, wp_safe.
      eapply wp_mono; [by eapply (wp_store_at d (refs σ) (marked σ) p (mem σ) x')|]. intros r s' [Hp' Et].
      eapply safe_done; [done|]. split; [done|]. intros t _. simpl. by rewrite Et.
Qed.

Lemma fine_ok a c c' : fine a c c' → pc_ok c → pc_ok c'.
Proof.
  intros Hf Hp. destruct Hf as [p σ p' σ' Hok E|p σ σ' Hok E|p σ a σ' Hm Ha E].
  - pose proof (thread_fine p σ Hp Hok) as Hs. unfold safe in Hs. by rewrite E in Hs.
  - pose proof (irq_fine p σ Hp Hok) as Hs. unfold safe in Hs. rewrite E in Hs. apply Hs.
  - pose proof (world_fine p σ a Hp Hm Ha) as Hs. unfold safe in Hs. rewrite E in Hs. apply Hs.
Qed.

Lemma fine_reachable_ok c : fine_reachable c → pc_ok c.
Proof.
  intros (σ0 & Hb & Hs). destruct (booted_idle d σ0 Hb) as (x & Hi & Hfe & En). rewrite En in Hi.
  assert (Hp : pc_ok (Top None, σ0)).
  { apply (pc_inv_plain d _ _ (Top None) x); [done|done|exact Hi|done|]. unfold awake. congruence. }
  clear Hb Hi. induction Hs as [|c1 c2 c3 [a Ha] _ IH]; [done|]. by eapply IH, fine_ok.
Qed.

(** C2: the driver is safe when its work thread is not atomic.  From the probe
    of the device on, whatever permitted system calls, wakeups of sleeping
    reads, interrupts and stores of the board come in between the steps of the
    thread: its next step returns, or the thread sleeps for lack of an event or
    in its parking place; the handler returns; a permitted action, a read that
    goes on after a sleep among them, returns or sleeps; a reached fence never
    finds the thread asleep; and between two turns the global invariant holds.
    As in [permitted], the release of a context waits for the reads that sleep
    on its waitqueue. *)
Theorem preempted_safe p σ :
  fine_reachable (p, σ) →
  (step_ok p (mem σ) →
     match wt_step d p (mem σ) with Done _ _ => True | Crash e => e = Sleeps ∧ may_sleep p = true end) ∧
  (irq_ok d p (mem σ) → ∃ r s', dicedev_isr d (mem σ) = Done r s') ∧
  (∀ a, may_come p a = true → permitted d a σ → act d a σ = Crash Sleeps ∨ ∃ σ', act d a σ = Done tt σ') ∧
  ∃ x, devs (mem σ) !! d = Some x ∧ awake x ∧
    ∀ nt, p = Top nt → inv d (mem σ) x nt (refs σ) (marked σ).
Proof.
  intros Hr. pose proof (fine_reachable_ok _ Hr) as Hok'. pose proof Hok' as Hp. unfold pc_ok in Hp. simpl in Hp. split_and!.
  - intros Hok. destruct (may_sleep p) eqn:Hs.
    + pose proof (wt_step_safe d _ _ p _ Hp Hok) as Hw. unfold safe in Hw. by destruct (wt_step d p (mem σ)).
    + pose proof (wp_wt_step d _ _ p _ Hp Hok Hs) as Hw. unfold wp in Hw. by destruct (wt_step d p (mem σ)).
  - intros Hok. destruct (wp_exists _ _ _ (wp_isr_at d _ _ p _ Hp Hok)) as (r & s' & ? & _). by exists r, s'.
  - intros a Hm Ha. pose proof (world_fine p σ a Hok' Hm Ha) as Hs. unfold safe in Hs.
    destruct (act d a σ) as [[] σ'|[]]; eauto; done.
  - destruct Hp as (x & Hd & Hi & _ & Ha). exists x. split_and!; try done. intros nt ->.
    by rewrite settle_id in Hi.
Qed.

(** ** Turns end *)

Lemma bind_Done {S A B} (k : M S A) (f : A → M S B) s b s' :
  (k ≫= f) s = Done b s' → ∃ a s1, k s = Done a s1 ∧ f a s1 = Done b s'.
Proof. unfold mbind, M_bind. destruct (k s) as [a s1|]; [eauto|done]. Qed.

Ltac inv_done H :=
  repeat (let H' := fresh "Hd" in apply bind_Done in H as (? & ? & H' & H)).
Ltac end_done H := injection H as <- <-; unfold rank; simpl; lia.

Lemma thread_rank m mk p s p' s' :
  pc_inv d m mk p s → step_ok p s → at_top p = false → wt_step d p s = Done p' s' →
  (S (rank p' s') ≤ rank p s)%nat.
Proof.
  intros Hp Hok Ht E. destruct p as [nt|e nt|t|w t nt|w t nt|w t nt|nt|nt|t|f n|f n|f| |nt]; try done;
    cbn [wt_step] in E.
  - destruct e; cbn [case_step] in E; inv_done E; try by end_done E.
    + destruct (pending_tasks _); [done|]. inv_done E. end_done E.
    + injection E as <- <-. unfold deref, get_dev, put_dev, fetch, modify in *.
      destruct nt as [t|]; simplify_eq. destruct (devs _ !! d); simplify_eq. unfold rank, words_of. simpl. lia.
  - inv_done E. injection E as <- <-. unfold rank. by destruct (ctx_failed _); simpl; lia.
  - inv_done E. end_done E.
  - inv_done E. end_done E.
  - inv_done E. injection E as <- <-. unfold rank. destruct w; simpl; lia.
  - inv_done E. end_done E.
  - inv_done E. end_done E.
  - inv_done E. injection E as <- <-. unfold get_task, fetch in *.
    destruct (tasks s !! t) as [task|] eqn:Et; simplify_eq. unfold rank, words_of. simpl. rewrite Et. lia.
  - inv_done E. end_done E.
  - destruct (Z.eqb_spec n 0) as [->|Hn]; [by end_done E|].
    destruct Hp as (x & Hd & Hi & (Hr & Hfr & k & En & Hlt & Hw) & Ha). rewrite settle_id in Hi by done.
    assert (Hturn := wp_run_loop_turn d m mk f n k s (ex_intro _ x (conj Hi (conj Hr (conj Hfr Ha)))) En Hlt Hn Hw Hok).
    apply bind_Done in E as (r & s1 & E & E'). unfold wp in Hturn. rewrite E in Hturn. injection E' as <- <-.
    unfold rank. destruct r as [n'|]; simpl; [|lia]. destruct Hturn as (_ & k' & -> & ? & _).
    rewrite En, !(Z.mul_comm 4), !Z.div_mul by done. lia.
  - inv_done E. end_done E.
  - inv_done E. end_done E.
Qed.

Lemma rank_kept p σ s' :
  pc_ok (p, σ) → tasks_kept (mem σ) s' → rank p s' = rank p (mem σ).
Proof.
  intros (x & Hd & Hi & Hl & _) Hk. simpl in *.
  assert (Hw : ∀ t, is_Some (tasks (mem σ) !! t) → words_of s' (Some t) = words_of (mem σ) (Some t)).
  { intros t Ht. unfold words_of. simpl. by rewrite Hk. }
  destruct p as [|e [t|]| | | | | | |t| | | | |]; try done; unfold rank; rewrite Hw; try done.
  - rewrite settle_id in Hi by done. destruct (inv_out_slot d _ _ _ _ _ t Hi eq_refl) as [slot Ho].
    by eapply out_slot_alive.
  - destruct Hl as (_ & _ & slot & Ho & _). by eapply out_slot_alive.
Qed.

Lemma fine_rank a c c' :
  fine a c c' → pc_ok c → at_top c.1 = false →
  ((if decide (a = TheThread) then 1 else 0) + rank c'.1 (mem c'.2) ≤ rank c.1 (mem c.2))%nat.
Proof.
  intros Hf Hp Ht. destruct Hf as [p σ p' σ' Hok E|p σ σ' Hok E|p σ a σ' Hm Ha E]; simpl in Ht |- *.
  - unfold lift in E. destruct (wt_step d p (mem σ)) as [q s1|] eqn:E1; [|done]. injection E as <- <-.
    exact (thread_rank _ _ p _ q s1 Hp Hok Ht E1).
  - pose proof (irq_fine p σ Hp Hok) as Hs. unfold safe in Hs. rewrite E in Hs.
    rewrite (rank_kept p σ) by (done || apply Hs). done.
  - pose proof (world_fine p σ a Hp Hm Ha) as Hs. unfold safe in Hs. rewrite E in Hs.
    rewrite (rank_kept p σ) by (done || apply Hs). done.
Qed.

(** C10: every turn of the thread ends.  However often it is interrupted, within
    a turn it makes at most as many steps as its rank says: seven, plus the
    number of words of the task it is about to run or is running. *)
Theorem turn_bounded c l c' :
  fine_reachable c → turn l c c' →
  (length (filter (λ a, a = TheThread) l) + rank c'.1 (mem c'.2) ≤ rank c.1 (mem c.2))%nat.
Proof.
  intros Hr Hturn. apply fine_reachable_ok in Hr as Hp. clear Hr.
  induction Hturn as [|a l c c1 c' Ht Hf _ IH]; [done|].
  pose proof (fine_rank a c c1 Hf Hp Ht). specialize (IH (fine_ok a c c1 Hf Hp)).
  rewrite filter_cons. case_decide; simpl in *; lia.
Qed.

(** ** Interrupts at the wrong moment *)

(** An error that finds the running task freed. *)
Lemma isr_error_freed s x ist h t :
  devs s !! d = Some x → slock x = false → istatus_of (bar x) = (ist, h) → intr_error ist = true →
  running_task x = Some t → tasks s !! t = None → dicedev_isr d s = Crash BadAccess.
Proof.
  intros Hd Hl E He Hr Ht. unfold istatus_of in E. unfold dicedev_isr.
  apply crash_after. eapply wp_lock_slock; [done..|]. apply crash_after.
  eapply wp_dicedev_ior; [apply devs_upd_dev|]. intros i h1 E1. simpl in E1. apply crash_after.
  eapply wp_dicedev_ior; [apply devs_upd_dev|]. intros en h2 E2. simpl in E2.
  rewrite E1, E2 in E. injection E as E _. apply crash_here. rewrite E.
  assert (Hne : ist ≠ 0) by (intros ->; done). destruct (Z.eqb_spec ist 0); [done|]. simpl.
  apply crash_after. eapply wp_dicedev_iow; [apply devs_upd_dev|]. intros h3. rewrite !upd_dev_twice.
  fold (intr_error ist). rewrite He. apply crash_here. cbn [when].
  apply crash_after. unfold get_dev. eapply wp_fetch; [apply devs_upd_dev|]. simpl. rewrite Hr.
  apply crash_after. apply wp_BUG_ON; [done|]. apply crash_after. unfold deref. wp_step.
  apply crash_here. unfold get_task, fetch. simpl. by rewrite Ht.
Qed.

(** C28: between the end of [__task_destroy] and the reset of [running_task] the
    device still points at the task that was freed: unless its address has been
    handed out again, an error interrupt makes the handler follow that pointer. *)
Theorem error_after_free p σ x ist h :
  fine_reachable (p, σ) → task_gone p = true → devs (mem σ) !! d = Some x →
  istatus_of (bar x) = (ist, h) → intr_error ist = true →
  ∃ t, running_task x = Some t ∧ (tasks (mem σ) !! t = None → dicedev_isr d (mem σ) = Crash BadAccess).
Proof.
  intros Hr Hg Hd E He. apply fine_reachable_ok in Hr as (y & Hd' & Hi & Hl & _). simpl in *.
  assert (y = x) as -> by congruence. destruct (pc_inv_locks _ _ _ _ _ _ Hi) as (Hsl & _).
  assert (Hrun : running_task x ≠ None) by (destruct p; done || apply Hl).
  destruct (running_task x) as [t|] eqn:Et; [|done]. exists t. split; [done|]. intros Ht. by eapply isr_error_freed.
Qed.

(** A fence interrupt between the last two stores of WT_EVENT_TASK_FINISH is
    taken for the fence of a task that is not running any more: the next turn
    of the thread runs into its [BUG_ON]. *)
Theorem fence_after_reset nt σ x ist h :
  fine_reachable (Unfenced nt, σ) → devs (mem σ) !! d = Some x → istatus_of (bar x) = (ist, h) →
  intr_fence ist = true → intr_error ist = false → should_stop x = false → should_park x = false →
  ∃ s1 s2, dicedev_isr d (mem σ) = Done true s1 ∧
    rtc (thread_step d) (Unfenced nt, s1) (Chosen WT_EVENT_TASK_FINISH nt, s2) ∧
    wt_step d (Chosen WT_EVENT_TASK_FINISH nt) s2 = Crash Bug.
Proof.
  intros Hr Hd E Hf He Hs Hk. apply fine_reachable_ok in Hr as (y & Hd' & Hi & (_ & Hrun) & _). simpl in *.
  assert (y = x) as -> by congruence. destruct (running_task x) as [t|] eqn:Hr; [|done].
  destruct (pc_inv_locks _ _ _ _ _ _ Hi) as (Hsl & _).
  assert (Hne : ist ≠ 0) by (intros ->; done).
  assert (Hisr : wp (dicedev_isr d) (mem σ) (λ r s1, r = true ∧ ∃ z, devs s1 !! d = Some z ∧
    fence_state z = DICEDEV_FENCE_STATE_REACHED ∧ wt_sleeping z = false ∧ should_stop z = false ∧
    should_park z = false)).
  { eapply (wp_isr_benign d (mem σ) x); try done; [by rewrite Hr|]. intros h'. split; [done|].
    eexists. split; [apply devs_upd_dev|]. unfold dev_interrupted. by rewrite Hf. }
  apply wp_exists in Hisr as (r & s1 & Hdone & -> & z & Hz & Hzf & Hzw & Hzs & Hzk).
  set (z' := z <| running_task := None |>). exists s1, (upd_dev d z' s1). split; [done|]. split.
  - apply (rtc_l _ _ (Top nt, upd_dev d z' s1)).
    { unfold thread_step. simpl. unfold get_dev, put_dev, fetch, modify, mbind, M_bind. rewrite Hz. reflexivity. }
    apply rtc_once. unfold thread_step. simpl.
    unfold __wt_get_event, get_dev, fetch, mbind, M_bind. simpl. rewrite lookup_insert_eq. simpl.
    rewrite Hzw, Hzs. simpl. rewrite lookup_insert_eq. simpl. by rewrite Hzs, Hzk, Hzf.
  - simpl. unfold get_dev, fetch, mbind, M_bind. simpl. by rewrite lookup_insert_eq.
Qed.

End Theorems.
End Races.
