(* ===== verification/Verdict.v ===== *)
(** The verdict on a context: which contexts have failed once the work thread
    has gone through its queue.  It is settled by the tasks that wait, and no
    iteration of the thread changes it. *)

From S2P Require Import Prelude Cmd Types Utils Slots Pt Task Stream Wt Buffer Base Syscall WtSpec BufferSpec IoctlSpec PciSpec Lifetime Invariant Thread Core Calls.

Section Verdict.
Context `{Hardware, Kernel, !HardwareLaws}.
Variable d : ptr.

(** ** What an iteration leaves alone *)

Lemma task_words_life s s' task ws :
  same_life s s' → (∀ w, body task = DICEDEV_TASK_TYPE_WRITE w → cmds s' !! tw_cmd w = cmds s !! tw_cmd w) →
  task_words s task ws → task_words s' task ws.
Proof.
  intros Hs Ec. unfold task_words. destruct (body task) as [w|r]; [by rewrite Ec|].
  intros (cbuf & ptp & tbl & pp & hp & arr & L & Hb & Hp & Hpt & Hwf & ? & ? & ? & ? & ? & ->).
  assert (Hv : buf_view s !! cBuff r = Some (life_of cbuf)) by by apply buf_view_lookup.
  rewrite (sl_buf _ _ Hs) in Hv. apply buf_view_Some in Hv as (cbuf0 & Hb0 & E).
  assert (Ep : buf_pt cbuf0 = buf_pt cbuf) by by injection E.
  destruct Hs as [_ _ _ _ _ E1 E2 E3].
  exists cbuf0, ptp, tbl, pp, hp, arr, L. split_and!; try done; [congruence|congruence| |].
  - by eapply (pt_wf_same s).
  - unfold run_words, buffer_words. do 4 f_equal. unfold page_words. by rewrite E3.
Qed.

(** The tasks in [l] and their commands are the same, and so are the sets but
    for their slots and their contents. *)
Record untouched (s s' : state) (l : list ptr) : Prop := {
  ut_words t task : t ∈ l → tasks s !! t = Some task → ∀ ws, task_words s task ws ↔ task_words s' task ws;
  ut_bufs : size (bufs s') = size (bufs s);
  ut_allowed b : allowed <$> bufs s' !! b = allowed <$> bufs s !! b;
  ut_tasks t : t ∈ l → tasks s' !! t = tasks s !! t;
}.

Lemma well_framed_untouched s s' l t : untouched s s' l → t ∈ l → well_framed s t → well_framed s' t.
Proof.
  intros [Ew _ _ Et] Hin Hw task. rewrite Et by done. intros Ht. destruct (Hw task Ht) as [Hpos Hall].
  split; [done|]. intros ws Hws. by apply Hall, (Ew t).
Qed.

Lemma untouched_trans s1 s2 s3 l : untouched s1 s2 l → untouched s2 s3 l → untouched s1 s3 l.
Proof.
  intros [A1 A2 A3 A4] [B1 B2 B3 B4]. split; [|congruence|congruence|intros t Ht; by rewrite B4, A4].
  intros t task Hin Ht ws. rewrite (A1 t task Hin Ht ws). apply (B1 t task); [done|by rewrite A4].
Qed.

Lemma same_life_untouched s s' l :
  same_life s s' → cmds s' = cmds s → size (bufs s') = size (bufs s) →
  (∀ b, allowed <$> bufs s' !! b = allowed <$> bufs s !! b) →
  (∀ t, t ∈ l → tasks s' !! t = tasks s !! t) → untouched s s' l.
Proof.
  intros Hs Ec Ez Ea Et. split; try done. intros t task _ _ ws.
  split; apply task_words_life; try done; intros w _; by rewrite Ec.
Qed.

Lemma allowed_insert (m : gmap ptr dicedev_buffer) b buf buf' b' :
  m !! b = Some buf → allowed buf' = allowed buf →
  allowed <$> <[b := buf']> m !! b' = allowed <$> m !! b'.
Proof.
  intros Hb E. destruct (decide (b' = b)) as [->|]; [|by rewrite lookup_insert_ne].
  rewrite lookup_insert_eq, Hb. simpl. by rewrite E.
Qed.

Lemma untouched_destroyed s t task ctx buf x h l :
  ctxs s !! task_ctx task = Some ctx → bufs s !! buff_out task = Some buf → t ∉ l →
  untouched s (destroyed_task t d task ctx buf x h s) l.
Proof.
  intros Hc Hb Hn. apply same_life_untouched; [by apply same_life_destroyed|done| | |].
  - simpl. by rewrite map_size_insert_Some by by eexists.
  - intros b. simpl. eapply allowed_insert; [done|]. by destruct (frees_slot task ctx buf).
  - intros t' Ht'. simpl. rewrite lookup_delete_ne; [done|]. by intros ->.
Qed.

(** Tasks that wait in the queue or in the hands of the thread. *)
Definition waiting (x : dicedev_device) (nt : option ptr) : list ptr := option_list nt ++ pending_tasks x.

Lemma untouched_dev s s' y l : untouched s s' l → untouched s (upd_dev d y s') l.
Proof.
  intros Hu. eapply untouched_trans; [exact Hu|]. by apply same_life_untouched; [apply (same_life_dev d)|..].
Qed.

Lemma effect_untouched s s' x x' nt nt' m mk :
  inv d s x nt m mk → wt_effect d s s' x x' nt nt' →
  untouched s s' (waiting x' nt') ∧ same_life s s' ∧ waiting x' nt' ⊆ waiting x nt ∧
  should_stop x' = should_stop x ∧ should_park x' = should_park x.
Proof.
  intros [[_ [Hnd _ _ _] _ _] _ _] He. unfold in_flight in Hnd. fold (waiting x nt) in Hnd.
  apply NoDup_app in Hnd as (_ & Hdis & Hnd). unfold waiting in *.
  destruct He as [_ -> -> ->|t rest -> -> Ep -> ->|t rest task ctx buf h -> -> Ep Ht Hc Hb _ -> ->|
    t task buf slot h l -> -> Ht Hb _ _ -> ->|t task ctx buf ws h b' r -> -> Hrun _ Ht Hc _ _ _ _ -> ->|
    t task ctx buf h -> Hrun _ Ht Hc Hb -> ->]; rewrite ?Ep in *; simpl in *.
  - split_and!; try done. by apply same_life_untouched.
  - split_and!; try done. by apply same_life_untouched.
  - apply NoDup_cons in Hnd as [Hn _]. set (y := dev_dequeue rest x).
    destruct (dev_freed_same (frees_slot task ctx buf) (slot_of buf) h y) as (_ & Er & _).
    rewrite Er. simpl. split_and!; [| |set_solver|by destruct (frees_slot task ctx buf)..].
    + eapply (untouched_trans _ (upd_dev d y s)); [by apply same_life_untouched|].
      by apply untouched_destroyed.
    + etrans; [apply (same_life_dev d s y)|by apply same_life_destroyed].
  - assert (Hs : same_life s (upd_buf (buff_out task) (buf_reset (buf_bind slot buf)) s)).
    { by eapply (same_life_buf s _ buf (buf_reset (buf_bind slot buf))). }
    split_and!; try done; [|etrans; [exact Hs|apply (same_life_dev d)]].
    apply untouched_dev, same_life_untouched; try done; [|intros b; by eapply allowed_insert].
    simpl. by rewrite map_size_insert_Some by by eexists.
  - apply NoDup_cons in Hnd as [Hn _].
    assert (Hs : same_life s (task_sent t task ctx x h b' r s)).
    { etrans; [by eapply (same_life_ctx s _ ctx (ctx <| ctx_failed := ctx_failed ctx || negb (tr_ok r) |>))|by split]. }
    split_and!; [|done|set_solver|done..]. apply same_life_untouched; try done.
    intros t' Ht'. simpl. rewrite lookup_insert_ne; [done|]. by intros ->.
  - assert (Hn : t ∉ waiting x nt) by (apply Hdis; rewrite Hrun; by left). unfold waiting in Hn.
    destruct (dev_freed_same (frees_slot task ctx buf) (slot_of buf) h x) as (_ & Er & _).
    rewrite Er. split_and!; [|etrans; [by apply same_life_destroyed|apply (same_life_dev d)]|done|
      by destruct (frees_slot task ctx buf)..].
    by apply untouched_dev, untouched_destroyed.
Qed.

(** The read position of a set moves back to the start or not at all. *)
Definition not_ahead (s s' : state) : Prop := ∀ b buf', bufs s' !! b = Some buf' → ∃ buf,
  bufs s !! b = Some buf ∧
  (rd_offset (reader buf') = rd_offset (reader buf) ∨ rd_offset (reader buf') = 0).

#[global] Instance not_ahead_preorder : PreOrder not_ahead.
Proof.
  split; [intros s b buf Hb; eauto|]. intros s1 s2 s3 H12 H23 b buf3 Hb.
  destruct (H23 b buf3 Hb) as (buf2 & Hb2 & E3). destruct (H12 b buf2 Hb2) as (buf1 & Hb1 & E2).
  exists buf1. split; [done|]. destruct E3, E2; [left|right..]; congruence.
Qed.

Lemma not_ahead_same s s' : bufs s' = bufs s → not_ahead s s'.
Proof. intros E b buf. rewrite E. eauto. Qed.

Lemma not_ahead_insert s s' b buf buf' :
  bufs s' = <[b := buf']> (bufs s) → bufs s !! b = Some buf →
  rd_offset (reader buf') = rd_offset (reader buf) ∨ rd_offset (reader buf') = 0 → not_ahead s s'.
Proof.
  intros E Hb Ho b0 buf0. rewrite E. destruct (decide (b0 = b)) as [->|].
  - rewrite lookup_insert_eq. intros [= <-]. eauto.
  - rewrite lookup_insert_ne by done. eauto.
Qed.

Lemma effect_not_ahead s s' x x' nt nt' : wt_effect d s s' x x' nt nt' → not_ahead s s'.
Proof.
  intros [_ _ -> _|t rest _ _ _ _ ->|t rest task ctx buf h _ _ _ Ht Hc Hb _ _ ->|
    t task buf slot h l _ _ Ht Hb _ _ _ ->|t task ctx buf ws h b' r _ _ _ _ Ht Hc _ _ _ _ _ ->|
    t task ctx buf h _ _ _ Ht Hc Hb _ ->]; [by apply not_ahead_same..| | |by apply not_ahead_same|];
    (eapply not_ahead_insert; [done|done|]); try by right.
  all: left; by destruct (frees_slot task ctx buf).
Qed.

(** ** Blame *)

Definition failed (s : state) (c : ptr) : Prop := ∃ ctx, ctxs s !! c = Some ctx ∧ ctx_failed ctx = true.

(** Task [t] of context [c] will make it fail: it has a command that the
    thread refuses, or the board reports an error ([err]) for it. *)
Definition blamed (err : ptr → bool) (s : state) (c t : ptr) : Prop := ∃ task,
  tasks s !! t = Some task ∧ task_ctx task = c ∧
  (err t = true ∨ ∃ buf ws, bufs s !! buff_out task = Some buf ∧ task_words s task ws ∧
     legal (allowed buf) ws = false).

(** A task of context [c] has its fence outstanding; the board will report an
    error for it. *)
Definition outstanding (err : ptr → bool) (s : state) (x : dicedev_device) (c : ptr) : Prop := ∃ t task,
  fence_state x = DICEDEV_FENCE_STATE_WAITING ∧ running_task x = Some t ∧
  tasks s !! t = Some task ∧ task_ctx task = c ∧ err t = true.

(** Context [c] has failed or is going to. *)
Definition condemned (err : ptr → bool) (s : state) (x : dicedev_device) (nt : option ptr) (c : ptr) : Prop :=
  failed s c ∨ outstanding err s x c ∨ ∃ t, t ∈ waiting x nt ∧ blamed err s c t.

Lemma untouched_sym s s' l : untouched s s' l → untouched s' s l.
Proof.
  intros [E1 E2 E3 E4]. split; [|done..|intros t Ht; symmetry; by apply E4].
  intros t task Hin Ht ws. rewrite E4 in Ht by done. symmetry. by apply (E1 t).
Qed.

Lemma blamed_untouched err s s' l c t : untouched s s' l → t ∈ l → blamed err s c t → blamed err s' c t.
Proof.
  intros [E1 _ E3 E4] Hin (task & Ht & Hc & Hwhy). exists task. rewrite E4 by done. split_and!; [done..|].
  destruct Hwhy as [He|(buf & ws & Hb & Hw & Hl)]; [by left|right].
  specialize (E3 (buff_out task)). rewrite Hb in E3. apply fmap_Some in E3 as (buf' & Hb' & Ea).
  exists buf', ws. rewrite <-Ea. split_and!; [done| |done]. by apply (E1 t task).
Qed.

Lemma failed_insert s s' c ctx ctx' c' :
  ctxs s !! c = Some ctx → ctxs s' = <[c := ctx']> (ctxs s) → ctx_failed ctx' = ctx_failed ctx →
  failed s' c' ↔ failed s c'.
Proof.
  intros Hc E Ef. unfold failed. rewrite E. destruct (decide (c' = c)) as [->|]; [|by rewrite lookup_insert_ne].
  rewrite lookup_insert_eq, Hc. split; intros (? & [= <-] & ?); eexists; (split; [done|congruence]).
Qed.

(** The tasks left in the queue are blamed as before. *)
Lemma blamed_iff err s s' l c :
  untouched s s' l → (∃ t, t ∈ l ∧ blamed err s c t) ↔ (∃ t, t ∈ l ∧ blamed err s' c t).
Proof.
  intros Hu. split; intros (t & Hin & Hb); exists t; (split; [done|]);
    (eapply blamed_untouched; [|exact Hin|exact Hb]); [done|by apply untouched_sym].
Qed.

Lemma not_outstanding err s x c :
  fence_state x ≠ DICEDEV_FENCE_STATE_WAITING → ¬ outstanding err s x c.
Proof. by intros Hf (t & task & ? & _). Qed.

Lemma outstanding_same err s s' x x' c :
  fence_state x' = fence_state x → running_task x' = running_task x →
  (∀ t, running_task x = Some t → tasks s' !! t = tasks s !! t) →
  outstanding err s' x' c ↔ outstanding err s x c.
Proof.
  intros Ef Er Et. unfold outstanding. rewrite Ef, Er.
  split; intros (t & task & ? & Hr & Ht & ? & ?); exists t, task; pose proof (Et t Hr); split_and!; congruence.
Qed.

(** A task of [c] that is blamed leaves the queue when [c] has failed. *)
Lemma blamed_cons err s c t l task ctx :
  tasks s !! t = Some task → ctxs s !! task_ctx task = Some ctx → ctx_failed ctx = true →
  failed s c ∨ (∃ t', t' ∈ t :: l ∧ blamed err s c t') ↔ failed s c ∨ (∃ t', t' ∈ l ∧ blamed err s c t').
Proof.
  intros Ht Hc Hf. split; intros [?|(t' & Hin & Hb)]; try (by left); [|right; exists t'; split; [by right|done]].
  apply elem_of_cons in Hin as [->|Hin]; [|by right; eauto]. left. destruct Hb as (task' & Ht' & <- & _).
  simplify_eq. by exists ctx.
Qed.

(** The words of a task are what memory says they are. *)
Lemma task_words_det s task ws ws' : task_words s task ws → task_words s task ws' → ws = ws'.
Proof.
  unfold task_words. destruct (body task) as [w|r].
  - intros (? & _) (? & _). congruence.
  - intros (cbuf & ptp & tbl & pp & hp & arr & L & Hb & Hp & Hpt & Hwf & _ & _ & _ & _ & _ & ->).
    intros (cbuf' & ptp' & tbl' & pp' & hp' & arr' & L' & Hb' & Hp' & Hpt' & Hwf' & _ & _ & _ & _ & _ & ->).
    simplify_eq. destruct Hwf as [_ Ha HL _ _ _ _ _ _ _], Hwf' as [_ Ha' HL' _ _ _ _ _ _ _].
    assert (E : page_of <$> L = page_of <$> L') by congruence.
    apply (inj (fmap page_of)) in E as ->. done.
Qed.

(** Sending task [t]: its context fails now if a command was refused, and
    later if the board reports an error. *)
Lemma sent_condemned err s x t task ctx buf ws h b' r l c (y := dev_io h (feeds (concat (tr_fed r)) ++ fence_log)
    (x <| fence_state := DICEDEV_FENCE_STATE_WAITING |> <| running_task := Some t |>)) :
  tasks s !! t = Some task → ctxs s !! task_ctx task = Some ctx → bufs s !! buff_out task = Some buf →
  task_words s task ws → translate (binded_slot buf) (allowed buf) ws = Some r →
  failed s c ∨ (∃ t', t' ∈ t :: l ∧ blamed err s c t') ↔
  failed (task_sent t task ctx x h b' r s) c ∨ outstanding err (task_sent t task ctx x h b' r s) y c ∨
  (∃ t', t' ∈ l ∧ blamed err s c t').
Proof.
  intros Ht Hc Hb Hw Htr. pose proof (translate_legal _ _ _ _ Htr) as Hl.
  assert (Hf : failed (task_sent t task ctx x h b' r s) c ↔ failed s c ∨ c = task_ctx task ∧ tr_ok r = false).
  { unfold failed. simpl. destruct (decide (c = task_ctx task)) as [->|Hne].
    - rewrite lookup_insert_eq, Hc. split.
      + intros (? & [= <-] & [?|?%negb_true_iff]%orb_true_iff); eauto.
      + intros [(? & [= <-] & E)|[_ E]]; eexists; (split; [done|simpl; rewrite E; by destruct (ctx_failed ctx)]).
    - rewrite lookup_insert_ne by done. split; [by left|]. by intros [?|[-> _]]. }
  assert (Ho : outstanding err (task_sent t task ctx x h b' r s) y c ↔ c = task_ctx task ∧ err t = true).
  { split.
    - intros (t' & task' & _ & [= <-] & Ht' & <- & ?). simpl in Ht'. rewrite lookup_insert_eq in Ht'. by simplify_eq.
    - intros [-> ?]. eexists t, _. simpl. by rewrite lookup_insert_eq. }
  rewrite Hf, Ho. split.
  - intros [?|(t' & [->|Hin]%elem_of_cons & Hbl)]; [by do 2 left| |by eauto].
    destruct Hbl as (task' & Ht' & <- & [?|(buf' & ws' & Hb' & Hw' & Hl')]); simplify_eq; [by eauto|].
    left. right. split; [done|]. rewrite <-(task_words_det s task ws ws' Hw Hw') in Hl'. congruence.
  - intros [[?|[-> E]]|[[-> ?]|(t' & Hin & Hbl)]]; [by left|right; exists t..|right; exists t'];
      (split; [set_solver|]); [exists task; split_and!; [done..|]|exists task; by eauto|done].
    right. exists buf, ws. split_and!; [done..|congruence].
Qed.

(** One iteration of the thread does not change the verdict. *)
Lemma effect_condemned err s s' x x' nt nt' m mk c :
  inv d s x nt m mk → wt_effect d s s' x x' nt nt' →
  condemned err s x nt c ↔ condemned err s' x' nt' c.
Proof.
  intros Hi He. destruct (effect_untouched _ _ _ _ _ _ _ _ Hi He) as (Hu & _).
  unfold condemned. rewrite <-(blamed_iff err s s' _ c Hu).
  destruct He as [_ -> -> ->|t rest -> -> Ep -> ->|t rest task ctx buf h -> -> Ep Ht Hc Hb Hf -> ->|
    t task buf slot h l -> -> Ht Hb Ef _ -> ->|t task ctx buf ws h b' r -> -> Hrun Ef Ht Hc Hb _ Hw Htr -> ->|
    t task ctx buf h -> Hrun Ef Ht Hc Hb -> ->].
  - done.
  - unfold waiting. rewrite Ep. done.
  - pose proof Hi as [[_ [Hnd _ _ _] _ _] _ _]. unfold in_flight in Hnd.
    apply NoDup_app in Hnd as (_ & Hdis & _).
    destruct (dev_freed_same (frees_slot task ctx buf) (slot_of buf) h (dev_dequeue rest x)) as (E1 & E2 & E3 & _).
    set (y := dev_dequeue rest x) in *. set (s' := destroyed_task _ _ _ _ _ _ _ _).
    pose proof (failed_insert s s' (task_ctx task) ctx (ctx_done ctx) c Hc eq_refl eq_refl) as E4.
    rewrite E4, (outstanding_same err s s' x (dev_freed _ _ _ y) c E3 E1).
    2:{ intros t' Hr. simpl. rewrite lookup_delete_ne; [done|].
        intros <-. apply (Hdis t); [rewrite Hr|rewrite Ep]; by left. }
    unfold waiting. rewrite E2, Ep. simpl. pose proof (blamed_cons err s c t rest task ctx Ht Hc Hf). tauto.
  - done.
  - assert (Ho : ¬ outstanding err s x c) by (apply not_outstanding; by rewrite Ef).
    rewrite <-(sent_condemned err s x t task ctx buf ws h b' r); try done. simpl. tauto.
  - match goal with |- context [upd_dev d ?y ?r] => set (y' := y); set (s' := upd_dev d y' r) end.
    pose proof (failed_insert s s' (task_ctx task) ctx (ctx_done ctx) c Hc eq_refl eq_refl) as E4.
    destruct (dev_freed_same (frees_slot task ctx buf) (slot_of buf) h x) as (_ & E2 & _).
    assert (Ho : ¬ outstanding err s x c) by (apply not_outstanding; by rewrite Ef).
    pose proof (not_outstanding err s' y' c ltac:(done)). unfold waiting. simpl. rewrite E2. tauto.
Qed.

(** Neither does the interrupt that answers the outstanding fence. *)
Lemma interrupted_condemned err s s' x x' nt t task ctx c :
  fence_state x = DICEDEV_FENCE_STATE_WAITING → running_task x = Some t →
  tasks s !! t = Some task → ctxs s !! task_ctx task = Some ctx →
  ctxs s' = <[task_ctx task := ctx <| ctx_failed := ctx_failed ctx || err t |>]> (ctxs s) →
  fence_state x' = DICEDEV_FENCE_STATE_REACHED → waiting x' nt = waiting x nt →
  untouched s s' (waiting x nt) → condemned err s x nt c ↔ condemned err s' x' nt c.
Proof.
  intros Ef Er Ht Hc Ec Ef' Ew Hu. unfold condemned. rewrite Ew, <-(blamed_iff err s s' _ c Hu).
  assert (Hf : failed s' c ↔ failed s c ∨ outstanding err s x c).
  { unfold failed. rewrite Ec. destruct (decide (c = task_ctx task)) as [->|Hne].
    - rewrite lookup_insert_eq, Hc. split.
      + intros (? & [= <-] & [?|?]%orb_true_iff); [by eauto|]. right. by exists t, task.
      + intros [(? & [= <-] & E)|(t' & task' & _ & ? & _ & _ & E)]; simplify_eq; eexists;
          (split; [done|simpl; rewrite E; by destruct (ctx_failed ctx)]).
    - rewrite lookup_insert_ne by done. split; [by left|].
      intros [?|(t' & task' & _ & ? & ? & <- & _)]; [done|]. simplify_eq. }
  pose proof (not_outstanding err s' x' c ltac:(by rewrite Ef')). tauto.
Qed.

End Verdict.
