(* ===== verification/Board.v ===== *)
(** What the board does on its own: it works through the commands it was fed,
    stores results in the sets bound to its slots and answers the fence. *)

From S2P Require Import Prelude Cmd Types Utils Slots Pt Task Stream Wt Buffer Base Syscall WtSpec BufferSpec IoctlSpec PciSpec Lifetime Invariant Thread Core Calls Release System Verdict.

Section Board.
Context `{Hardware, Kernel, !HardwareLaws, !KernelLaws}.
Variable d : ptr.

(** ** Results *)

(** Page, word and value. *)
Fixpoint deposit (l : list (ptr * Z * Z)) : M config unit :=
  match l with
  | [] => mret tt
  | (q, i, v) :: l => act d (ADma q i v);; deposit l
  end.

Lemma wp_lift {A} (m : K A) σ (Q : A → config → Prop) :
  wp m (mem σ) (λ a s, Q a (σ <| mem := s |>)) → wp (lift m) σ Q.
Proof. unfold wp, lift. by destruct (m (mem σ)). Qed.

Definition on_board (s : state) (x : dicedev_device) (e : ptr * Z * Z) : Prop :=
  board_page s x e.1.1 ∧ 0 ≤ e.1.2 < 1024.

Lemma wp_deposit l : ∀ σ x,
  inv d (mem σ) x (wt_next σ) (refs σ) (marked σ) → Forall (on_board (mem σ) x) l →
  wp (deposit l) σ (λ _ σ', ∃ D, σ' = σ <| mem := (mem σ) <| dmas := D |> |> ∧
    inv d (mem σ') x (wt_next σ) (refs σ) (marked σ) ∧
    ∀ q, q ∉ l.*1.*1 → D !! q = dmas (mem σ) !! q).
Proof.
  induction l as [|[[q i] v] l IH]; intros σ x Hi Hall; simpl.
  - wp_step. exists (dmas (mem σ)). split_and!; [by destruct σ as [[]]|done|done].
  - apply Forall_cons in Hall as [[Hq Hi0] Hall]. apply wp_bind. unfold act. apply wp_bind, wp_lift.
    eapply wp_mono; [by eapply wp_board_store|]. intros [] s' [Hi' [mq ->]]. wp_step.
    eapply wp_mono; [by eapply (IH (σ <| mem := upd_dma q mq (mem σ) |>) x)|].
    intros [] σ' (D & -> & Hi2 & Hsame). exists D. split_and!; [by destruct σ as [[]]|done|].
    intros q' [Hne Hnin]%not_elem_of_cons. rewrite Hsame by done. simpl. by rewrite lookup_insert_ne.
Qed.

(** ** Commands in memory *)

(** Page [q] belongs to the command buffer of run task [t]. *)
Definition command_page (s : state) (t q : ptr) : Prop := ∃ task r cbuf l pg,
  tasks s !! t = Some task ∧ body task = DICEDEV_TASK_TYPE_RUN r ∧ bufs s !! cBuff r = Some cbuf ∧
  pages_of s cbuf = Some l ∧ pg ∈ l ∧ page pg = Some q.

Lemma task_words_dma s D t task ws :
  (∀ b buf, bufs s !! b = Some buf → ∃ F, has_table (s <| dmas := D |>) (life_of buf) F) →
  tasks s !! t = Some task → (∀ q, command_page s t q → D !! q = dmas s !! q) →
  task_words s task ws → task_words (s <| dmas := D |>) task ws.
Proof.
  intros Htab Ht Hsame. unfold task_words. destruct (body task) as [w|r] eqn:Eb; [done|].
  intros (cbuf & ptp & tbl & pp & hp & arr & L & Hb & Hp & Hpt & Hwf & ? & ? & ? & ? & ? & ->).
  destruct (Htab _ _ Hb) as (F & Hp' & Hpt' & Hwf'). simpl in *.
  assert (Hl : pages_of s cbuf = Some (page_of <$> L)).
  { unfold pages_of. rewrite Hp. simpl. rewrite Hpt. simpl. destruct Hwf as [_ -> HL _ _ _ _ _ _ _]. done. }
  change (buf_pt cbuf = Some (fp_pt F)) in Hp'. simplify_eq.
  assert (EL : fp_data F = L).
  { destruct Hwf as [_ Ha HL _ _ _ _ _ _ _], Hwf' as [_ Ha' HL' _ _ _ _ _ _ _]. simpl in *.
    assert (E : page_of <$> fp_data F = page_of <$> L) by congruence. by apply (inj (fmap page_of)) in E. }
  rewrite EL in Hwf'. eexists cbuf, _, _, _, _, _, L. split_and!; try done.
  unfold run_words, buffer_words. do 3 f_equal. apply list_fmap_ext. intros i q Hq. unfold page_words. simpl.
  rewrite Hsame; [done|]. eexists task, r, cbuf, _, (page_of q). split_and!; try done.
  by eapply list_elem_of_fmap_2, list_elem_of_lookup_2.
Qed.

Lemma untouched_dma s D l :
  (∀ b buf, bufs s !! b = Some buf → ∃ F, has_table s (life_of buf) F) →
  (∀ b buf, bufs s !! b = Some buf → ∃ F, has_table (s <| dmas := D |>) (life_of buf) F) →
  (∀ t q, t ∈ l → command_page s t q → D !! q = dmas s !! q) →
  untouched s (s <| dmas := D |>) l.
Proof.
  intros H1t H2t Hsame. split; try done. intros t task Hin Ht ws. split.
  - by eapply task_words_dma; eauto.
  - pose proof (task_words_dma (s <| dmas := D |>) (dmas s) t task ws) as Hback.
    replace ((s <| dmas := D |>) <| dmas := dmas s |>) with s in Hback by by destruct s.
    apply Hback; try done. intros q Hq. symmetry. by eapply Hsame.
Qed.

(** ** Boards *)

(** When the work thread sleeps, the board stores [bm_stores] and raises its
    interrupt in state [bm_answer]. *)
Record board_model := mkBoardModel {
  bm_answer : config → hw;
  bm_stores : config → list (ptr * Z * Z) }.

(** A board that answers the fence of the running task once the fence was sent
    (its value written to the fence register, then the fence command fed, and
    not acknowledged since), with an error for the tasks of [err]; that stores results in the first [k] pages of the sets bound
    to its slots; and that does not overwrite commands which still wait. *)
Record board_ok (B : board_model) (err : ptr → bool) (k : nat) : Prop := {
  bo_pages : (k ≤ 1024)%nat;
  bo_answer σ x t : sys_inv d σ → devs (mem σ) !! d = Some x → running_task x = Some t →
    fence_due (mmio x) →
    ∃ ist h, istatus_of (bm_answer B σ) = (ist, h) ∧ intr_fence ist = true ∧ intr_error ist = err t;
  bo_stores σ x q i v : sys_inv d σ → devs (mem σ) !! d = Some x → (q, i, v) ∈ bm_stores B σ →
    (∃ n b, buff_slots x !! n = Some (Some b) ∧ page_of_buf k (mem σ) b q) ∧ 0 ≤ i < 1024 ∧
    ∀ t, t ∈ waiting x (wt_next σ) → ¬ command_page (mem σ) t q;
}.

(** Files, contexts, sets and page tables are the same, and so is every page
    that is not among the first [k] of a set; readers are not further on. *)
Record kept (k : nat) (s s' : state) : Prop := {
  kp_life : same_life (s <| dmas := dmas s' |>) s';
  kp_allowed b : allowed <$> bufs s' !! b = allowed <$> bufs s !! b;
  kp_page q : (∀ b, ¬ page_of_buf k s b q) → dmas s' !! q = dmas s !! q;
  kp_reader : not_ahead s s';
}.

Lemma kept_life k s s' :
  same_life s s' → (∀ b, allowed <$> bufs s' !! b = allowed <$> bufs s !! b) → not_ahead s s' → kept k s s'.
Proof. intros [? ? ? ? ? ? ? E] Ea Hr. split; [by split|done|intros q _; by rewrite E|done]. Qed.

(** Which pages a set has does not depend on their contents. *)
Lemma page_of_buf_kept k k' s s' b q : kept k s s' → page_of_buf k' s' b q → page_of_buf k' s b q.
Proof.
  intros [[_ Eb _ _ _ Ep Eg _] _ _ _] (buf & l & i & pg & Hb & Hl & ? & ? & ?).
  assert (Hv : buf_view s' !! b = Some (life_of buf)) by by apply buf_view_lookup.
  rewrite <-Eb in Hv. apply buf_view_Some in Hv as (buf0 & Hb0 & E).
  exists buf0, l, i, pg. split_and!; try done. rewrite <-Hl. unfold pages_of.
  assert (Et : buf_pt buf0 = buf_pt buf) by by injection E. rewrite Et. simpl in *. by rewrite Ep, Eg.
Qed.

Lemma kept_trans k s1 s2 s3 : kept k s1 s2 → kept k s2 s3 → kept k s1 s3.
Proof.
  intros HA HB. pose proof HA as [[A1 A2 A3 A4 A5 A6 A7 _] A8 A AR]. pose proof HB as [[B1 B2 B3 B4 B5 B6 B7 _] B8 B9 BR].
  split; [split; try done; by etrans|intros b; by rewrite B8| |by etrans].
  intros q Hq. rewrite B9, A; [done..|]. intros b Hb. apply (Hq b). by eapply page_of_buf_kept.
Qed.

Lemma kept_dma k s D : (∀ q, (∀ b, ¬ page_of_buf k s b q) → D !! q = dmas s !! q) → kept k s (s <| dmas := D |>).
Proof. intros HD. split; try done. by apply not_ahead_same. Qed.

End Board.
