(* ===== verification/Demand.v ===== *)
(** The demand for slots: the sets that hold one and those that a task in
    flight needs one for.  No iteration of the work thread adds to it, and
    while it is met a set without slot finds a free one. *)

From S2P Require Import Prelude Cmd Types Utils Slots Pt Task Stream Wt Buffer Base Syscall WtSpec BufferSpec IoctlSpec PciSpec Lifetime Invariant Thread.

(** ** Occupied slots *)

Definition occupants (l : list (option ptr)) : list ptr := omap id l.

Lemma occupants_count l : Z.of_nat (length (occupants l)) + count_null l = Z.of_nat (length l).
Proof. induction l as [|[b|] l IH]; simpl; lia. Qed.

Lemma occupants_nodup l :
  (∀ i j b, l !! i = Some (Some b) → l !! j = Some (Some b) → i = j) → NoDup (occupants l).
Proof.
  induction l as [|o l IH]; intros Hinj; [constructor|].
  assert (Hl : NoDup (occupants l)).
  { apply IH. intros i j b Hi Hj. assert (S i = S j) by by apply (Hinj _ _ b). lia. }
  destruct o as [b|]; [|done]. apply NoDup_cons. split; [|done].
  intros ([b'|] & Hin & E)%list_elem_of_omap; simplify_eq/=.
  apply list_elem_of_lookup in Hin as [i Hi]. by assert (0%nat = S i) by by apply (Hinj _ _ b).
Qed.

Section Demand.
Context `{Hardware, Kernel, !HardwareLaws}.
Variable d : ptr.

(** ** Demand *)

(** The output sets of the tasks [l]. *)
Definition outputs (s : state) (l : list ptr) : list ptr := omap (λ t, buff_out <$> tasks s !! t) l.

Definition demand (s : state) (x : dicedev_device) (nt : option ptr) : gset ptr :=
  list_to_set (occupants (buff_slots x) ++ outputs s (in_flight x nt)).

Lemma elem_of_occupants l b : b ∈ occupants l ↔ ∃ i, l !! i = Some (Some b).
Proof.
  unfold occupants. rewrite list_elem_of_omap. split.
  - intros ([b'|] & Hin & E); simplify_eq/=. by apply list_elem_of_lookup.
  - intros [i Hi]. exists (Some b). split; [by eapply list_elem_of_lookup_2|done].
Qed.

Lemma elem_of_demand s x nt b :
  b ∈ demand s x nt ↔ (∃ i, buff_slots x !! i = Some (Some b)) ∨
    ∃ t task, t ∈ in_flight x nt ∧ tasks s !! t = Some task ∧ buff_out task = b.
Proof.
  unfold demand, outputs. rewrite elem_of_list_to_set, elem_of_app, elem_of_occupants, list_elem_of_omap.
  apply or_iff_compat_l. split.
  - intros (t & Hin & E). apply fmap_Some in E as (task & ? & ->). eauto.
  - intros (t & task & Hin & Ht & <-). exists t. by rewrite Ht.
Qed.

(** While the demand is met a set that needs a slot finds a free one. *)
Lemma free_slot s x nt t task buf :
  slots_ok s d x → (size (demand s x nt) ≤ Z.to_nat DICEDEV_NUM_SLOTS)%nat →
  t ∈ in_flight x nt → tasks s !! t = Some task → bufs s !! buff_out task = Some buf →
  binded_slot buf = DICEDEV_BUFFER_NO_SLOT → 0 < free_slots x.
Proof.
  intros [Hlen Hfree Hent Hbound] Hsz Hin Ht Hb Hno.
  assert (Hnd : NoDup (buff_out task :: occupants (buff_slots x))).
  { apply NoDup_cons. split.
    - intros [i Hi]%elem_of_occupants. destruct (Hent i _ Hi) as (buf' & ? & _ & ?).
      simplify_eq. unfold DICEDEV_BUFFER_NO_SLOT in *. lia.
    - apply occupants_nodup. intros i j b' Hi Hj.
      destruct (Hent i b' Hi) as (? & ? & _ & ?), (Hent j b' Hj) as (? & ? & _ & ?). simplify_eq. lia. }
  assert (Hle : (size (list_to_set (C := gset ptr) (buff_out task :: occupants (buff_slots x))) ≤ size (demand s x nt))%nat).
  { apply subseteq_size. intros b. rewrite elem_of_list_to_set, elem_of_demand, elem_of_cons, elem_of_occupants.
    intros [->|?]; [right; by exists t, task|by left]. }
  rewrite size_list_to_set in Hle by done. simpl in Hle.
  pose proof (occupants_count (buff_slots x)). rewrite Hfree. lia.
Qed.

Lemma demand_mono s s' x x' nt nt' :
  (∀ i b, buff_slots x' !! i = Some (Some b) → b ∈ demand s x nt) →
  (∀ t task', t ∈ in_flight x' nt' → tasks s' !! t = Some task' →
     t ∈ in_flight x nt ∧ ∃ task, tasks s !! t = Some task ∧ buff_out task = buff_out task') →
  demand s' x' nt' ⊆ demand s x nt.
Proof.
  intros Hslot Hflight b. rewrite (elem_of_demand s'). intros [[i Hi]|(t & task' & Hin & Ht & <-)]; [eauto|].
  destruct (Hflight t task' Hin Ht) as (Hin' & task & Ht' & <-). apply elem_of_demand. right. by exists t, task.
Qed.

Lemma freed_slots fr slot h x i b :
  buff_slots (dev_freed fr slot h x) !! i = Some (Some b) → buff_slots x !! i = Some (Some b).
Proof.
  destruct fr; [|done]. simpl. intros [(_ & ? & _)|[_ ?]]%list_lookup_insert_Some; done.
Qed.

Lemma effect_demand s s' x x' nt nt' m mk :
  inv d s x nt m mk → wt_effect d s s' x x' nt nt' → demand s' x' nt' ⊆ demand s x nt.
Proof.
  intros _ He.
  destruct He as [_ -> -> ->|t rest -> -> Ep -> ->|t rest task ctx buf h -> -> Ep Ht Hc Hb _ -> ->|
    t task buf slot h l -> -> Ht Hb _ _ -> ->|t task ctx buf ws h b' r -> -> Hrun _ Ht Hc _ _ _ _ -> ->|
    t task ctx buf h -> Hrun _ Ht Hc Hb -> ->].
  - done.
  - apply demand_mono; [intros i b Hi; apply elem_of_demand; eauto|]. intros t' task' Hin Ht'. unfold in_flight in *.
    rewrite Ep. eauto.
  - apply demand_mono.
    + intros i b Hi%freed_slots. apply elem_of_demand. eauto.
    + intros t' task' Hin. simpl. intros [_ Ht']%lookup_delete_Some. split; [|eauto].
      destruct (dev_freed_same (frees_slot task ctx buf) (slot_of buf) h (dev_dequeue rest x)) as (E1 & E2 & _).
      unfold in_flight in *. rewrite E1, E2 in Hin. rewrite Ep. set_solver.
  - apply demand_mono.
    + simpl. intros i b. intros [(-> & [= <-] & _)|[_ ?]]%list_lookup_insert_Some; apply elem_of_demand; [|by eauto].
      right. exists t, task. split_and!; [apply in_flight_next|done..].
    + intros t' task' Hin Ht'. eauto.
  - apply demand_mono; [intros i b Hi; apply elem_of_demand; eauto|]. intros t' task' Hin. simpl.
    intros Hl. split.
    + unfold in_flight in *. simpl in Hin. rewrite Hrun. set_solver.
    + apply lookup_insert_Some in Hl as [[<- <-]|[_ ?]]; eauto.
  - apply demand_mono.
    + simpl. intros i b Hi%freed_slots. apply elem_of_demand. eauto.
    + intros t' task' Hin. simpl. intros [_ Ht']%lookup_delete_Some. split; [|eauto].
      destruct (dev_freed_same (frees_slot task ctx buf) (slot_of buf) h x) as (E1 & E2 & _).
      unfold in_flight in *. simpl in Hin. rewrite E2 in Hin. set_solver.
Qed.

End Demand.
