(* ===== verification/Drain.v ===== *)
(** The work thread empties its queue: with a board that answers the fence it
    was given, and slots for the sets that need one, every iteration of the thread
    and every interrupt brings the end nearer, by a measure of the work that
    is left. *)

From S2P Require Import Prelude Cmd Types Utils Slots Pt Task Stream Wt Buffer Base Syscall WtSpec BufferSpec IoctlSpec PciSpec Lifetime Invariant Thread Core Calls Release System Verdict Board Demand.

Section Drain.
Context `{Hardware, Kernel, !HardwareLaws, !KernelLaws}.
Variable d : ptr.

(** ** The work that is left *)

Definition weight_next (s : state) (t : ptr) : nat :=
  if decide (out_slot s t = Some DICEDEV_BUFFER_NO_SLOT) then 6 else 5.
Definition weight_fence (x : dicedev_device) : nat :=
  match fence_state x with
  | DICEDEV_FENCE_STATE_NONE => 0
  | DICEDEV_FENCE_STATE_WAITING => if wt_sleeping x then 3 else 4
  | DICEDEV_FENCE_STATE_REACHED => 2
  end.
Definition workload (s : state) (x : dicedev_device) (nt : option ptr) : nat :=
  (7 * length (pending_tasks x) + from_option (weight_next s) 0 nt + weight_fence x)%nat.

Lemma weight_next_bounds s t : (5 ≤ weight_next s t ≤ 6)%nat.
Proof. unfold weight_next. case_decide; lia. Qed.

(** The thread may work: it is neither stopped nor parked and sleeps only for
    a fence; there are slots for the sets that hold or need one; the commands
    of the waiting tasks are complete. *)
Record drainable (s : state) (x : dicedev_device) (nt : option ptr) : Prop := {
  dr_run : should_stop x = false ∧ should_park x = false;
  dr_sleep : wt_sleeping x = true → fence_state x = DICEDEV_FENCE_STATE_WAITING;
  dr_slots : (size (demand s x nt) ≤ Z.to_nat DICEDEV_NUM_SLOTS)%nat;
  dr_framed t : t ∈ waiting x nt → well_framed s t;
}.

(** An idle thread sleeps only because it waits for a fence. *)
Lemma sleep_waits s x nt m mk :
  inv d s x nt m mk → drainable s x nt → in_flight x nt ≠ [] →
  event_of x (nt ≫= out_slot s) = WT_NO_EVENT → fence_state x = DICEDEV_FENCE_STATE_WAITING.
Proof.
  intros Hi [[Hs Hp] _ Hsz _] Hbusy He. pose proof Hi as [[[_ _ _ Hok] _ _ _] Hfe _].
  unfold event_of in He. rewrite Hs, Hp in He. destruct (fence_state x) eqn:Ef; [|done|done].
  destruct Hfe as [Hrun _]. specialize (Hrun eq_refl). unfold in_flight in Hbusy. rewrite Hrun in Hbusy.
  destruct nt as [t|]; simpl in *; [|by destruct (pending_tasks x)].
  destruct (inv_out_slot d m mk s x _ t Hi eq_refl) as [slot Eo]. rewrite Eo in He.
  destruct (Z.eqb_spec slot DICEDEV_BUFFER_NO_SLOT) as [E|]; [|done]. subst slot. unfold out_slot in Eo.
  destruct (tasks s !! t) as [task|] eqn:Ht; [|done]. simpl in Eo.
  destruct (bufs s !! buff_out task) as [buf|] eqn:Hb; [|done]. simplify_eq/=.
  assert (0 < free_slots x) by (eapply (free_slot d s x (Some t) t task); try done; apply in_flight_next). destruct (Z.ltb_spec 0 (free_slots x)); [done|lia].
Qed.

Lemma out_slot_bound s t task buf slot y :
  tasks s !! t = Some task → bufs s !! buff_out task = Some buf →
  out_slot (upd_dev d y (upd_buf (buff_out task) (buf_reset (buf_bind slot buf)) s)) t ≠
    Some DICEDEV_BUFFER_NO_SLOT.
Proof.
  intros Ht Hb. unfold out_slot. simpl. rewrite Ht. simpl. rewrite lookup_insert_eq. simpl.
  unfold DICEDEV_BUFFER_NO_SLOT. intros [=]. lia.
Qed.

Lemma effect_decreases s s' x x' nt nt' m mk :
  inv d s x nt m mk → drainable s x nt → in_flight x nt ≠ [] → wt_sleeping x = false →
  wt_effect d s s' x x' nt nt' →
  (workload s' x' nt' < workload s x nt)%nat ∧
  (wt_sleeping x' = true → fence_state x' = DICEDEV_FENCE_STATE_WAITING).
Proof.
  intros Hi Hdr Hbusy Hw He. unfold workload, weight_fence. rewrite Hw.
  destruct He as [Hev -> -> ->|t rest -> -> Ep -> ->|t rest task ctx buf h -> -> Ep Ht Hc Hb _ -> ->|
    t task buf slot h l -> -> Ht Hb Ef Hno -> ->|t task ctx buf ws h b' r -> -> Hrun Ef Ht Hc _ _ _ _ -> ->|
    t task ctx buf h -> Hrun Ef Ht Hc Hb -> ->]; simpl.
  - pose proof (sleep_waits s x nt m mk Hi Hdr Hbusy Hev) as Ef. rewrite Ef. split; [|done].
    change (weight_next (upd_dev _ _ s)) with (weight_next s). lia.
  - rewrite Ep, Hw. pose proof (weight_next_bounds (upd_dev d (dev_dequeue rest x) s) t). simpl. split; [lia|done].
  - rewrite Ep. destruct (frees_slot task ctx buf); simpl; rewrite Hw; (split; [lia|done]).
  - rewrite Ef, Hw. split; [|done]. unfold weight_next. rewrite decide_False by by apply out_slot_bound.
    rewrite decide_True; [lia|]. unfold out_slot. rewrite Ht. simpl. rewrite Hb. simpl. by rewrite Hno.
  - rewrite Hw, Ef. pose proof (weight_next_bounds s t). split; [lia|done].
  - rewrite Ef. replace (pending_tasks (dev_freed _ _ _ x)) with (pending_tasks x)
      by by destruct (frees_slot task ctx buf).
    replace (wt_sleeping (dev_freed _ _ _ x)) with false by by destruct (frees_slot task ctx buf).
    split; [|done]. destruct nt as [t'|]; simpl; [|lia].
    match goal with |- context [weight_next ?st t'] =>
      pose proof (weight_next_bounds st t'); pose proof (weight_next_bounds s t') end. lia.
Qed.

(** ** Driving the thread *)

(** Thread and board take turns until no task is left or the fuel is used up:
    an awake thread runs; a sleeping one lets the board store its results and
    raise its interrupt. *)
Fixpoint drive (fuel : nat) (B : board_model) : M config unit :=
  match fuel with
  | O => mret tt
  | S fuel =>
      x ← lift (get_dev d);
      σ ← gets id;
      if decide (in_flight x (wt_next σ) = []) then mret tt
      else
        (if wt_sleeping x then deposit d (bm_stores B σ);; act d (ABoard (bm_answer B σ));; act d AIrq
         else act d AThread);;
        drive fuel B
  end.

(** On the way from memory [s0]: the contexts that have failed or will, with
    the board reporting the errors [err], are those of [V]. *)
Record ahead (err : ptr → bool) (V : ptr → Prop) (k : nat) (D0 : gset ptr) (s0 : state) (σ : config) (x : dicedev_device) : Prop := {
  ah_inv : inv d (mem σ) x (wt_next σ) (refs σ) (marked σ);
  ah_sent : fence_sent x;
  ah_drain : drainable (mem σ) x (wt_next σ);
  ah_kept : kept k s0 (mem σ);
  ah_demand : demand (mem σ) x (wt_next σ) ⊆ D0;
  ah_verdict c : V c ↔ condemned err (mem σ) x (wt_next σ) c;
}.

Definition nearer err V k D0 s0 (σ : config) (n : nat) : Prop := ∃ x,
  ahead err V k D0 s0 σ x ∧ (workload (mem σ) x (wt_next σ) < n)%nat.

Lemma drainable_untouched s s' x x' nt nt' :
  drainable s x nt → untouched s s' (waiting x' nt') → waiting x' nt' ⊆ waiting x nt →
  demand s' x' nt' ⊆ demand s x nt →
  should_stop x' = should_stop x → should_park x' = should_park x →
  (wt_sleeping x' = true → fence_state x' = DICEDEV_FENCE_STATE_WAITING) → drainable s' x' nt'.
Proof.
  intros [[Hs Hp] _ Hsz Hf] Hu Hsub Hde%subseteq_size Es Ep Hw.
  split; [split; congruence|done|lia|]. intros t Ht. eapply well_framed_untouched; [done..|]. by apply Hf, Hsub.
Qed.

Section Drive.
Variables (err : ptr → bool) (V : ptr → Prop) (k : nat) (D0 : gset ptr) (s0 : state) (B : board_model).
Hypothesis HB : board_ok d B err k.

Lemma wp_thread_nearer σ x :
  ahead err V k D0 s0 σ x → in_flight x (wt_next σ) ≠ [] → wt_sleeping x = false →
  wp (act d AThread) σ (λ _ σ', nearer err V k D0 s0 σ' (workload (mem σ) x (wt_next σ))).
Proof.
  intros [Hi Hse Hdr Hk HD HV] Hbusy Hw. destruct (inv_locks _ _ _ _ _ _ Hi) as (Hd & _). pose proof Hdr as [[Hs Hp] _ _ Hf].
  unfold act. wp_step. apply wp_bind, wp_lift. unfold thread_turn. wp_mem. rewrite Hw. simpl. wp_step.
  eapply wp_wt_iter; [done..| |].
  { intros t Ht _ _. apply Hf. unfold waiting. rewrite Ht. by left. }
  intros s' x' nt' Hi' He. wp_step. simpl. exists x'.
  destruct (effect_decreases _ _ _ _ _ _ _ _ Hi Hdr Hbusy Hw He) as [Hlt Hw'].
  destruct (effect_untouched d _ _ _ _ _ _ _ _ Hi He) as (Hu & Hs' & Hsub & Es & Ep).
  pose proof (effect_demand d _ _ _ _ _ _ _ _ Hi He) as Hde.
  split; [split|done]; [done|by eapply effect_sent|by eapply drainable_untouched|eapply kept_trans, kept_life; [done..|apply Hu|by eapply effect_not_ahead]|by etrans|].
  intros c. rewrite HV. by eapply effect_condemned.
Qed.

Lemma wp_stores_ahead σ x :
  ahead err V k D0 s0 σ x →
  wp (deposit d (bm_stores B σ)) σ (λ _ σ', ahead err V k D0 s0 σ' x ∧ wt_next σ' = wt_next σ ∧
    workload (mem σ') x (wt_next σ') = workload (mem σ) x (wt_next σ)).
Proof.
  intros [Hi Hse Hdr Hk HD HV]. destruct (inv_locks _ _ _ _ _ _ Hi) as (Hd & _).
  assert (Hsys : sys_inv d σ) by by exists x.
  eapply wp_mono; [eapply wp_deposit; [exact Hi|]|].
  { apply Forall_forall. intros [[q i] v] Hin.
    destruct (bo_stores _ _ _ _ HB σ x q i v Hsys Hd Hin) as ((n & b & Hn & Hq) & ? & _).
    split; [|done]. exists n, b. split; [done|]. destruct Hq as (buf & l & j & pg & ? & ? & ? & ? & ?).
    pose proof (bo_pages _ _ _ _ HB). exists buf, l, j, pg. split_and!; try done. lia. }
  intros [] σ' (D & -> & Hi' & Hsame). simpl. split; [|done].
  assert (Hst : ∀ q, q ∈ (bm_stores B σ).*1.*1 →
    (∃ b, page_of_buf k (mem σ) b q) ∧ ∀ t, t ∈ waiting x (wt_next σ) → ¬ command_page (mem σ) t q).
  { intros q ([q' i] & -> & ([[q'' i'] v] & -> & Hin)%list_elem_of_fmap)%list_elem_of_fmap.
    destruct (bo_stores _ _ _ _ HB σ x _ _ v Hsys Hd Hin) as ((n & b & _ & ?) & _ & ?). eauto. }
  assert (Hu : untouched (mem σ) ((mem σ) <| dmas := D |>) (waiting x (wt_next σ))).
  { pose proof Hi as [[_ _ Hlf _] _ _]. pose proof Hi' as [[_ _ Hlf' _] _ _].
    apply untouched_dma.
    - intros b buf Hb. by apply (life_table d _ _ _ b buf Hlf).
    - intros b buf Hb. by apply (life_table d _ _ _ b buf Hlf').
    - intros t q Ht Hcp. apply Hsame. intros Hin. by apply (proj2 (Hst q Hin) t). }
  split; [done|done|..].
  - by eapply drainable_untouched; [..|apply Hdr].
  - eapply kept_trans; [done|]. apply kept_dma. intros q Hq. apply Hsame. intros Hin.
    destruct (Hst q Hin) as [[b Hb] _]. by apply (Hq b).
  - done.
  - intros c. rewrite HV. unfold condemned. by rewrite (blamed_iff err _ _ _ c Hu).
Qed.

Lemma wp_irq_nearer σ x t h ist h' :
  ahead err V k D0 s0 σ x → wt_sleeping x = true → running_task x = Some t →
  istatus_of h = (ist, h') → intr_fence ist = true → intr_error ist = err t →
  wp (act d (ABoard h);; act d AIrq) σ (λ _ σ', nearer err V k D0 s0 σ' (workload (mem σ) x (wt_next σ))).
Proof.
  intros [Hi Hse Hdr Hk HD HV] Hw Er Eh Efe Ee. destruct (inv_locks _ _ _ _ _ _ Hi) as (Hd & Hl & Hfl).
  pose proof Hdr as [_ Hsl _ _]. specialize (Hsl Hw). pose proof (inv_board d _ x _ _ _ h Hi) as Hi1.
  pose proof Hi as [Hmi _ _].
  destruct (mem_inv_finishable d (mem σ) x _ _ _ t Hmi) as (task & ctx & buf & [Ht Hc _ _ _ _ _ _ _]).
  { unfold in_flight. rewrite Er. by left. }
  assert (Hne : ist ≠ 0) by (intros ->; by unfold intr_fence in Efe).
  unfold act. apply wp_bind, wp_lift. wp_mem. apply wp_lift. simpl.
  eapply (wp_isr d _ (x <| bar := h |>) ist h' t task ctx); try done; [apply devs_upd_dev|].
  intros h1. apply wp_ret. set (y := dev_interrupted h1 ist (x <| bar := h |>)). exists y. simpl. rewrite Ee.
  assert (Ey : y = (dev_io h1 [(DICEDEV_INTR, u32 ist)] (x <| bar := h |>))
    <| fence_state := DICEDEV_FENCE_STATE_REACHED |> <| wt_sleeping := false |>)
    by (unfold y, dev_interrupted; by rewrite Efe).
  set (s' := upd_dev d y _).
  assert (Hs : same_life (mem σ) s').
  { etrans; [by eapply (same_life_ctx (mem σ) _ ctx (ctx <| ctx_failed := ctx_failed ctx || err t |>))|].
    by split. }
  assert (Hu : untouched (mem σ) s' (waiting x (wt_next σ))) by by apply same_life_untouched.
  assert (Ew : waiting y (wt_next σ) = waiting x (wt_next σ)) by by rewrite Ey.
  split; [split|].
  - eapply (inv_dev_only d _ (x <| bar := h |>)); rewrite ?Ey; try done.
    + split; [|apply Hi1..]. apply mem_inv_ctx_fail; [apply Hi1|done].
    + right. simpl. by rewrite Er.
  - by apply sent_interrupted.
  - eapply (drainable_untouched (mem σ) s' x y); [done|simpl; by rewrite Ew|simpl; by rewrite Ey..].
  - eapply kept_trans, kept_life; [done..|]. by apply not_ahead_same.
  - by rewrite Ey.
  - intros c. rewrite HV. eapply (interrupted_condemned err (mem σ) _ x y _ t task ctx); try done; by rewrite Ey.
  - rewrite Ey. unfold workload, weight_fence. simpl. rewrite Hsl, Hw.
    change (weight_next s') with (weight_next (mem σ)). lia.
Qed.

(** A turn of the board. *)
Lemma wp_board_nearer σ x :
  ahead err V k D0 s0 σ x → wt_sleeping x = true →
  wp (deposit d (bm_stores B σ);; act d (ABoard (bm_answer B σ));; act d AIrq) σ
    (λ _ σ', nearer err V k D0 s0 σ' (workload (mem σ) x (wt_next σ))).
Proof.
  intros Ha Hw. pose proof Ha as [Hi Hse [_ Hsl _ _] _ _ _]. specialize (Hsl Hw).
  destruct (inv_locks _ _ _ _ _ _ Hi) as (Hd & _). pose proof Hi as [_ Hfe _].
  destruct (running_task x) as [t|] eqn:Er; [|rewrite Hsl in Hfe; by pose proof (proj2 Hfe eq_refl)].
  destruct (bo_answer _ _ _ _ HB σ x t) as (ist & h' & Eh & Efe & Ee); [by exists x|done|done|by apply Hse|].
  apply wp_bind. eapply wp_mono; [by apply wp_stores_ahead|]. intros [] σ' (Ha' & En & Ew). rewrite <-Ew.
  by eapply wp_irq_nearer.
Qed.

(** Nothing is left to do, and the contexts of [V] have failed. *)
Record drained (σ : config) : Prop := {
  dn_inv : sys_inv d σ;
  dn_kept : kept k s0 (mem σ);
  dn_tasks : tasks (mem σ) = ∅;
  dn_failed c : V c ↔ failed (mem σ) c;
  dn_count c ctx : ctxs (mem σ) !! c = Some ctx → task_count ctx = 0;
  dn_demand x : devs (mem σ) !! d = Some x → demand (mem σ) x (wt_next σ) ⊆ D0;
  dn_run x : devs (mem σ) !! d = Some x → should_stop x = false ∧ should_park x = false;
}.

Lemma ahead_drained σ x : ahead err V k D0 s0 σ x → in_flight x (wt_next σ) = [] → drained σ.
Proof.
  intros [Hi Hse [Hrun _ _ _] Hk HD HV] Hnil. destruct (inv_locks _ _ _ _ _ _ Hi) as (Hd & _).
  pose proof Hi as [[_ [_ Hq _ Hc] _ _] _ _]. rewrite Hnil in *.
  unfold in_flight in Hnil. apply app_eq_nil in Hnil as [Er Ew].
  split; [by exists x|done|..| |by intros y Hy; simplify_eq].
  - apply map_empty. intros t. apply eq_None_not_Some. rewrite <-Hq. by apply not_elem_of_nil.
  - intros c. rewrite HV. split; [|by left]. intros [?|[(t & task & _ & E & _)|(t & Hin & _)]]; [done|..].
    + by rewrite E in Er.
    + unfold waiting in Hin. rewrite Ew in Hin. by apply elem_of_nil in Hin.
  - intros c ctx Hctx. by destruct (Hc c ctx Hctx) as [_ -> _].
  - intros y Hy. by simplify_eq.
Qed.

Lemma wp_drive n : ∀ σ, nearer err V k D0 s0 σ (S n) → wp (drive n B) σ (λ _ σ', drained σ').
Proof.
  induction n as [|n IH]; intros σ (x & Ha & Hn);
    pose proof Ha as [Hi _ _ _ _ _]; destruct (inv_locks _ _ _ _ _ _ Hi) as (Hd & _); cbn [drive].
  - wp_step. eapply ahead_drained; [done|]. unfold workload, weight_fence in Hn. unfold in_flight.
    destruct (pending_tasks x); [|simpl in Hn; lia].
    destruct (wt_next σ) as [t|]; [pose proof (weight_next_bounds (mem σ) t); simpl in Hn; lia|].
    pose proof Hi as [_ Hfe _].
    destruct (fence_state x); [|destruct (wt_sleeping x); simpl in Hn; lia|simpl in Hn; lia].
    destruct Hfe as [-> _]; done.
  - apply wp_bind, wp_lift. wp_mem. replace (σ <| mem := mem σ |>) with σ by by destruct σ.
    simpl. case_decide as Hb; [wp_step; by eapply ahead_drained|].
    assert (Hmono : ∀ σ', nearer err V k D0 s0 σ' (workload (mem σ) x (wt_next σ)) → nearer err V k D0 s0 σ' (S n)).
    { intros σ' (x' & ? & ?). exists x'. split; [done|lia]. }
    apply wp_bind. destruct (wt_sleeping x) eqn:Hw.
    + eapply wp_mono; [by apply (wp_board_nearer σ x)|]. intros ? σ' Hn'. by apply IH, Hmono.
    + eapply wp_mono; [by apply (wp_thread_nearer σ x)|]. intros ? σ' Hn'. by apply IH, Hmono.
Qed.

End Drive.

(** Enough fuel for any configuration. *)
Definition drive_fuel (x : dicedev_device) : nat := 7 * length (pending_tasks x) + 10.

Lemma drives σ x B err k :
  sys_inv d σ → devs (mem σ) !! d = Some x → drainable (mem σ) x (wt_next σ) → board_ok d B err k →
  ∃ σ', drive (drive_fuel x) B σ = Done tt σ' ∧
    drained (condemned err (mem σ) x (wt_next σ)) k (demand (mem σ) x (wt_next σ)) (mem σ) σ'.
Proof.
  intros (y & Hi & Hse) Hx Hdr HB. destruct (inv_locks _ _ _ _ _ _ Hi) as (Hd & _). simplify_eq.
  assert (Hwp : wp (drive (drive_fuel x) B) σ
    (λ _ σ', drained (condemned err (mem σ) x (wt_next σ)) k (demand (mem σ) x (wt_next σ)) (mem σ) σ')).
  { eapply wp_drive; [done|]. exists x. split; [split; [done|done|done|by apply kept_life|done|done]|].
    unfold workload, weight_fence, drive_fuel. destruct (fence_state x), (wt_sleeping x), (wt_next σ) as [t|]; simpl;
      try pose proof (weight_next_bounds (mem σ) t); lia. }
  apply wp_run in Hwp as ([] & σ' & Hrun & Hdone). eauto.
Qed.

(** C8: the work thread finishes every task.  From any reachable configuration
    in which the thread is neither stopped nor parked and does not sleep past
    an event, the sets that hold a slot or are the output of a task in flight
    are no more than the slots, and the commands of the waiting tasks are
    complete, a board that answers each fence it is sent (and stores results in
    the sets bound to its slots, but not over commands that wait) drives the
    thread through the whole queue: within 7 turns per pending task, plus 10
    for the tasks under way, no task is left and every context is back at task
    count 0, so that every wait and every release that sleeps can go on. *)
Theorem queue_drains σ x B err k :
  reachable d σ → devs (mem σ) !! d = Some x → drainable (mem σ) x (wt_next σ) → board_ok d B err k →
  ∃ σ', drive (7 * length (pending_tasks x) + 10) B σ = Done tt σ' ∧
    tasks (mem σ') = ∅ ∧ ∀ c ctx, ctxs (mem σ') !! c = Some ctx → task_count ctx = 0.
Proof.
  intros Hre Hx Hdr HB. destruct (drives σ x B err k (reachable_inv d σ Hre) Hx Hdr HB) as (σ' & Hrun & Hdn).
  exists σ'. split; [done|]. by destruct Hdn.
Qed.

(** C11: fault isolation.  When the board drives the thread through the queue,
    a context ends up failed, so that its waits return -EIO, exactly if it had
    failed before, or one of its own tasks in the queue has a command that the
    thread refuses, or the board reports an error for one of its own tasks.
    The waits of every other context return 0, whatever the others submitted
    and the board reports about them; files, sets, page tables and every page
    but the first [k] of each set stay as they were. *)
Theorem drain_verdict σ x B err k :
  reachable d σ → devs (mem σ) !! d = Some x → drainable (mem σ) x (wt_next σ) → board_ok d B err k →
  ∃ σ', drive (7 * length (pending_tasks x) + 10) B σ = Done tt σ' ∧ kept k (mem σ) (mem σ') ∧
    ∀ c cnt, is_Some (ctxs (mem σ) !! c) → 0 ≤ cnt →
      (condemned err (mem σ) x (wt_next σ) c →
         dicedev_ioctl_wait c (Some {| w_cnt := cnt |}) (mem σ') = Done (- EIO) (mem σ')) ∧
      (¬ condemned err (mem σ) x (wt_next σ) c →
         dicedev_ioctl_wait c (Some {| w_cnt := cnt |}) (mem σ') = Done 0 (mem σ')).
Proof.
  intros Hre Hx Hdr HB.
  destruct (drives σ x B err k (reachable_inv d σ Hre) Hx Hdr HB) as (σ' & Hrun & [_ Hk _ HV H0c _ _]).
  exists σ'. split_and!; [done..|]. intros c cnt [ctx Hc] Hcnt.
  assert (Hc' : is_Some (ctxs (mem σ') !! c)).
  { apply ctx_view_lookup in Hc. pose proof (sl_ctx _ _ (kp_life _ _ _ Hk)) as E. change (ctx_view (mem σ) = ctx_view (mem σ')) in E.
    rewrite E in Hc. apply ctx_view_Some in Hc as (? & ? & _). by eexists. }
  destruct Hc' as [ctx' Hc']. rewrite (wait_run _ _ _ _ Hc'), (H0c _ _ Hc'). simpl.
  rewrite (proj2 (Z.ltb_ge cnt 0)), HV by done. unfold failed. rewrite Hc'.
  destruct (ctx_failed ctx') eqn:E; split; try done; intros Hf.
  - destruct Hf. by exists ctx'.
  - destruct Hf as (? & [= <-] & ?). congruence.
Qed.

End Drain.
