(* ===== verification/User.v ===== *)
(** User programs: system calls that may block, mappings, signals and exits,
    and the helpers of the tests (src/z3-tst/common.h).  A program may end
    early with an exit code and the message it prints. *)

From Stdlib Require Import String.
From S2P Require Import Prelude Cmd Types Utils Slots Pt Task Stream Wt Buffer Base Syscall WtSpec BufferSpec IoctlSpec PciSpec Lifetime Invariant Thread Core Calls Release System Verdict Board Demand Drain.

(** ** Programs *)

Section Programs.
Context `{Hardware, Kernel}.

Inductive uout (A : Type) :=
  | URet (a : A) (σ : config)
  | UExit (code : Z) (msg : string)
  | UFault (e : fault).
Arguments URet {A} a σ.
Arguments UExit {A} code msg.
Arguments UFault {A} e.

Definition U (A : Type) : Type := config → uout A.

#[global] Instance U_ret : MRet U := λ A a σ, URet a σ.
#[global] Instance U_bind : MBind U := λ A B f m σ,
  match m σ with
  | URet a σ' => f a σ'
  | UExit c w => UExit c w
  | UFault e => UFault e
  end.

Definition exit {A} (code : Z) (msg : string) : U A := λ _, UExit code msg.

(** A system call that does not block. *)
Definition ucall {A} (m : K A) : U A := λ σ,
  match m (mem σ) with
  | Done a s => URet a (σ <| mem := s |>)
  | Crash e => UFault e
  end.

(** for (int i = start; i < start + n; i++) *)
Fixpoint for_each (n : nat) (i : Z) (f : Z → U unit) : U unit :=
  match n with
  | O => mret tt
  | S n => f i;; for_each n (i + 1) f
  end.

(** The C library returns -1 for an error code. *)
Definition libc (r : Z) : Z := if r <? 0 then -1 else r.

Definition SIGSEGV {A} : U A := exit 139 "SIGSEGV".
Definition SIGBUS {A} : U A := exit 135 "SIGBUS".
Definition assert (b : bool) : U unit := if b then mret tt else exit 134 "assert".

(** ** Mappings *)

(** What is left of a mapping: bytes [pc_lo, pc_hi) of a file.  Each piece is
    a mapping of its own to the kernel and holds a reference to the file. *)
Record piece := mkPiece { pc_file : ptr; pc_lo : Z; pc_hi : Z }.

Definition page_align (n : Z) : Z := (n + 4095) / 4096 * 4096.

(** mmap of the first [len] bytes of a file; [None] is MAP_FAILED. *)
Definition mmap (fd len : Z) : U (option (list piece)) := λ σ,
  match sys_mmap fd (mem σ) with
  | Done r s =>
      URet ((λ p, [mkPiece p 0 (page_align len)]) <$> r.2)
        (σ <| mem := s |> <| refs := new_mapping r.2 ++ refs σ |>)
  | Crash e => UFault e
  end.

(** The parts of a piece outside of [off, stop). *)
Definition cut (off stop : Z) (p : piece) : list piece :=
  (if pc_lo p <? Z.min (pc_hi p) off then [mkPiece (pc_file p) (pc_lo p) (Z.min (pc_hi p) off)] else []) ++
  (if Z.max (pc_lo p) stop <? pc_hi p then [mkPiece (pc_file p) (Z.max (pc_lo p) stop) (pc_hi p)] else []).

(** The references to the file follow the number of parts. *)
Definition unmap_piece (off stop : Z) (p : piece) : U (list piece) := λ σ,
  match cut off stop p with
  | [] =>
      match fput (pc_file p) (mem σ) with
      | Done _ s => URet [] (σ <| mem := s |> <| refs := remove_one (pc_file p, Mapped) (refs σ) |>)
      | Crash e => UFault e
      end
  | [q] => URet [q] σ
  | qs =>
      match file_get (pc_file p) (mem σ) with
      | Done _ s => URet qs (σ <| mem := s |> <| refs := (pc_file p, Mapped) :: refs σ |>)
      | Crash e => UFault e
      end
  end.

Fixpoint unmap (off stop : Z) (m : list piece) : U (list piece) :=
  match m with
  | [] => mret []
  | p :: m => qs ← unmap_piece off stop p; rest ← unmap off stop m; mret (qs ++ rest)
  end.

(** munmap of [len] bytes at [off] of a mapping: the result of the call and
    what is left. *)
Definition munmap (m : list piece) (off len : Z) : U (Z * list piece) :=
  if (off mod 4096 =? 0) && (0 <? len)
  then m' ← unmap off (off + page_align len) m; mret (0, m')
  else mret (-1, m).

Definition in_piece (a : Z) (p : piece) : bool := (pc_lo p <=? a) && (a <? pc_hi p).
Definition mapped_file (m : list piece) (a : Z) : option ptr := pc_file <$> List.find (in_piece a) m.

(** The page of the byte at [a] of a mapping of file [p]. *)
Definition user_page (p : ptr) (a : Z) : K (option ptr) :=
  f ← get_file p;
  b ← deref (private_data f);
  r ← dicedev_buffer_vm_fault b (a / 4096);
  mret r.2.

(** The word at byte [a], and the byte at [a]; [None], [false]: SIGBUS. *)
Definition user_load (p : ptr) (a : Z) : K (option Z) :=
  pg ← user_page p a;
  match pg with
  | None => mret None
  | Some q => m ← get_dma q; w ← index (dp_words m) (a / 4 mod 1024); mret (Some w)
  end.
Definition byte_of (w k : Z) : Z := Z.land (Z.shiftr w (8 * k)) 255.
Definition set_byte (w k v : Z) : Z := Z.lor (Z.ldiff w (Z.shiftl 255 (8 * k))) (Z.shiftl (Z.land v 255) (8 * k)).
Definition user_store_byte (p : ptr) (a v : Z) : K bool :=
  w ← user_load p a;
  match w with
  | None => mret false
  | Some w => user_store p (a / 4) (set_byte w (a mod 4) v)
  end.

(** m[a], as a word or a byte. *)
Definition load (m : list piece) (a : Z) : U Z :=
  match mapped_file m a with
  | None => SIGSEGV
  | Some p => w ← ucall (user_load p a); match w with Some w => mret w | None => SIGBUS end
  end.
Definition load_byte (m : list piece) (a : Z) : U Z := w ← load m a; mret (byte_of w (a mod 4)).
Definition store_word (m : list piece) (a v : Z) : U unit :=
  match mapped_file m a with
  | None => SIGSEGV
  | Some p => ok ← ucall (user_store p (a / 4) v); if (ok : bool) then mret tt else SIGBUS
  end.
Definition store_byte (m : list piece) (a v : Z) : U unit :=
  match mapped_file m a with
  | None => SIGSEGV
  | Some p => ok ← ucall (user_store_byte p a v); if (ok : bool) then mret tt else SIGBUS
  end.

(** ((struct dice * ) m)[i] *)
Definition load_dice (m : list piece) (i : Z) : U dice :=
  v ← load m (8 * i);
  t ← load m (8 * i + 4);
  mret {| d_value := v; d_type := t |}.

(** A C pointer to a mapping that was not checked for MAP_FAILED. *)
Definition mapping_of (o : option (list piece)) : list piece := default [] o.

End Programs.
Arguments URet {H H0 A} a σ.
Arguments UExit {H H0 A} code msg.
Arguments UFault {H H0 A} e.

(** ** common.h *)

(** The argument blocks behind the pointers the tests pass. *)
Definition create_arg (size allowed : Z) : ioctl_arg :=
  mkIoctlArg (mkArg (Some {| cs_size := size; cs_allowed := allowed |}) None None None) None.
Definition run_arg (cfd addr size bfd : Z) : ioctl_arg :=
  mkIoctlArg (mkArg None (Some {| r_cfd := cfd; r_addr := addr; r_size := size; r_bfd := bfd |}) None None) None.
Definition wait_arg (cnt : Z) : ioctl_arg :=
  mkIoctlArg (mkArg None None (Some {| w_cnt := cnt |}) None) None.
Definition seed_arg (seed : Z) : ioctl_arg :=
  mkIoctlArg (mkArg None None None None) (Some {| sd_seed := seed |}).

(** Device [d0] is /dev/dicedev0 and [d1] /dev/dicedev1; [B] is the board of
    [d0]. *)
Section Common.
Context `{Hardware, Kernel}.
Variables (d0 d1 : ptr) (B : board_model).

(** A system call that may sleep: the work thread and the board go on, then
    the call is made again.  That is what resuming it amounts to here, because
    nothing but the thread and the board is active meanwhile: no file is closed
    and no context released. *)
Definition ublock {A} (m : K A) : U A := λ σ,
  match m (mem σ), devs (mem σ) !! d0 with
  | Done a s, _ => URet a (σ <| mem := s |>)
  | Crash Sleeps, Some x =>
      match drive d0 (drive_fuel x) B σ with
      | Done _ σ' => ucall m σ'
      | Crash e => UFault e
      end
  | Crash e, _ => UFault e
  end.

Definition syserr {A} (fmt : string) : U A := exit 1 fmt.

Definition do_open (path : ptr) : U Z :=
  r ← ucall (sys_open path);
  if libc r <? 0 then syserr "open" else mret (libc r).

Definition do_open0 : U Z := do_open d0.

Definition do_open1 : U Z := do_open d1.

Definition do_ioctl (fd req : Z) (arg : ioctl_arg) : U Z :=
  r ← ublock (sys_ioctl fd req arg); mret (libc r).

Definition do_create_buf (fd size allowed : Z) : U Z :=
  bfd ← do_ioctl fd DICEDEV_IOCTL_CREATE_SET (create_arg size allowed);
  if bfd <? 0 then syserr "create_buffer" else mret bfd.

Definition do_close (fd : Z) : U unit :=
  r ← ucall (sys_close fd);
  if libc r <? 0 then syserr "close" else mret tt.

(** What is left of the mapping is returned. *)
Definition do_munmap (m : list piece) (off len : Z) : U (list piece) :=
  r ← munmap m off len;
  if r.1 <? 0 then syserr "munmap" else mret r.2.

Definition do_run (fd cfd addr size bfd : Z) : U unit :=
  r ← do_ioctl fd DICEDEV_IOCTL_RUN (run_arg cfd addr size bfd);
  if r =? 0 then mret tt else syserr "run".

Definition do_run_with_err (fd cfd addr size bfd : Z) : U unit :=
  r ← do_ioctl fd DICEDEV_IOCTL_RUN (run_arg cfd addr size bfd);
  if r =? -1 then mret tt else syserr "run should fail".

Definition do_wait (fd cnt : Z) : U unit :=
  r ← do_ioctl fd DICEDEV_IOCTL_WAIT (wait_arg cnt);
  if r =? 0 then mret tt else syserr "wait".

Definition do_wait_for_err (fd cnt : Z) : U unit :=
  r ← do_ioctl fd DICEDEV_IOCTL_WAIT (wait_arg cnt);
  if r =? -1 then mret tt else syserr "wait should fail".

Definition do_run_and_wait_with_err (fd cfd addr size bfd : Z) : U unit :=
  r ← do_ioctl fd DICEDEV_IOCTL_RUN (run_arg cfd addr size bfd);
  if r =? 0 then do_wait_for_err fd 0 else syserr "run failed".

(** mmap(0, len, ...) with the check for MAP_FAILED that the tests make. *)
Definition map_or_err (fd len : Z) : U (list piece) :=
  buffer ← mmap fd len;
  match buffer with None => syserr "mmap" | Some m => mret m end.

End Common.
