(* ===== verification/UserSpec.v ===== *)
(** Rules for user programs: what a call of a test does to a session, which is
    a process with a context of its own, a set and a mapping of it, while no
    other task is in flight. *)

From Stdlib Require Import String.
From S2P Require Import Prelude Cmd Types Utils Slots Pt Task Stream Wt Buffer Base Syscall WtSpec BufferSpec IoctlSpec PciSpec Lifetime Invariant Thread Core Calls Release System Verdict Board Demand Drain User.

(** ** Programs *)

Section Uwp.
Context `{Hardware, Kernel}.

(** The program neither faults nor hangs; [Q] holds of its result, [E] of the
    code and the message it exits with. *)
Definition uwp {A} (m : U A) (σ : config) (Q : A → config → Prop) (E : Z → string → Prop) : Prop :=
  match m σ with
  | URet a σ' => Q a σ'
  | UExit c w => E c w
  | UFault _ => False
  end.

Lemma uwp_bind {A B} (m : U A) (f : A → U B) σ Q E :
  uwp m σ (λ a σ', uwp (f a) σ' Q E) E → uwp (m ≫= f) σ Q E.
Proof. unfold uwp, mbind, U_bind. by destruct (m σ). Qed.

Lemma uwp_ret {A} (a : A) σ (Q : A → config → Prop) E : Q a σ → uwp (mret a) σ Q E.
Proof. done. Qed.

Lemma uwp_mono {A} (m : U A) σ (Q Q' : A → config → Prop) E :
  uwp m σ Q E → (∀ a σ', Q a σ' → Q' a σ') → uwp m σ Q' E.
Proof. unfold uwp. destruct (m σ); eauto. Qed.

Lemma uwp_call {A} (m : K A) σ (Q : A → config → Prop) E :
  wp m (mem σ) (λ a s, Q a (σ <| mem := s |>)) → uwp (ucall m) σ Q E.
Proof. unfold uwp, ucall, wp. by destruct (m (mem σ)). Qed.

Lemma uwp_block {A} d B (m : K A) σ (Q : A → config → Prop) E :
  wp m (mem σ) (λ a s, Q a (σ <| mem := s |>)) → uwp (ublock d B m) σ Q E.
Proof. unfold uwp, ublock, wp. by destruct (m (mem σ)). Qed.

(** A call that sleeps is resumed when thread and board are done. *)
Lemma uwp_block_sleeps {A} d B (m : K A) σ x σ' (Q : A → config → Prop) E :
  m (mem σ) = Crash Sleeps → devs (mem σ) !! d = Some x → drive d (drive_fuel x) B σ = Done tt σ' →
  wp m (mem σ') (λ a s, Q a (σ' <| mem := s |>)) → uwp (ublock d B m) σ Q E.
Proof. intros Hs Hx Hdr Hm. unfold uwp, ublock. rewrite Hs, Hx, Hdr. by apply uwp_call. Qed.

(** The system refused a resource: a descriptor, a file, memory for a context
    or a set; or for a task, if the kernel refuses allocations at all. *)
Definition refused (code : Z) (msg : string) : Prop :=
  code = 1 ∧ ((msg = "open" ∨ msg = "create_buffer")%string ∨
    (msg = "run" ∨ msg = "run failed")%string ∧ ∃ n live e e', k_alloc n live e = (None, e')).

(** A program passes: it succeeds, or was refused a resource; [asserts] allows
    it to stop at an assertion about the dice. *)
Definition ends (asserts : bool) (code : Z) (msg : string) : Prop :=
  code = 0 ∨ refused code msg ∨ asserts = true ∧ code = 134 ∧ msg = "assert"%string.
Definition passes (asserts : bool) (m : U Z) (σ : config) : Prop :=
  uwp m σ (λ r _, r = 0) (ends asserts).

Lemma libc_neg r : r < 0 → libc r = -1.
Proof. unfold libc. by destruct (Z.ltb_spec r 0); [|lia]. Qed.
Lemma libc_nonneg r : 0 ≤ r → libc r = r.
Proof. unfold libc. by destruct (Z.ltb_spec r 0); [lia|]. Qed.

End Uwp.

(** ** Calls *)

Section Calls.
Context `{Hardware, Kernel, !HardwareLaws, !KernelLaws}.
Variables (d : ptr) (B : board_model) (a : bool).

Abbreviation E := (ends a).

(** A descriptor on the char device with the new context [c]. *)
Lemma uwp_open σ (Q : Z → config → Prop) :
  sys_inv d σ → permitted d AOpen σ →
  (∀ fd e c p, sys_inv d (σ <| mem := opened d (mem σ) e c p fd |>) → 0 ≤ fd → fds (mem σ) !! fd = None →
     files (mem σ) !! p = None → Q fd (σ <| mem := opened d (mem σ) e c p fd |>)) →
  uwp (do_open d) σ Q E.
Proof.
  intros (x & Hi & Hse) Hp HQ. apply uwp_bind, uwp_call.
  eapply wp_mono; [eapply (safe_wp _ _ _ (λ r s, r < 0 ∨ 0 ≤ r ∧ fds (mem σ) !! r = None ∧
      ∃ e c p, files (mem σ) !! p = None ∧ s = opened d (mem σ) e c p r)); [eapply (safe_framed d _ _ x _ _ _ (λ _, refs σ)); [exact Hi|done|eapply open_safe; by_core]|]|].
  - eapply (wp_sys_open d (mem σ)); [|intros; by left..]. intros fd e c p Hfd Hfr Hc Hpf. right. eauto 10.
  - intros r s [Hinv [Hneg|(Hpos & Hfd & e & c & p & Hpf & ->)]].
    + rewrite libc_neg by done. right. left. split; [done|]. by do 2 left.
    + rewrite libc_nonneg, (proj2 (Z.ltb_ge r 0)) by done. by apply HQ.
Qed.

(** An ioctl on the char device. *)
Lemma sys_ioctl_chr s fd c cmd arg :
  chr_open s fd c → sys_ioctl fd cmd arg s =
    (if cmd =? DICEDEV_IOCTL_CREATE_SET then dicedev_ioctl_create_set c (ua_create_set (ia_dev arg))
     else if cmd =? DICEDEV_IOCTL_RUN then dicedev_ioctl_run c (ua_run (ia_dev arg))
     else if cmd =? DICEDEV_IOCTL_WAIT then dicedev_ioctl_wait c (ua_wait (ia_dev arg))
     else if cmd =? DICEDEV_IOCTL_ENABLE_SEED_INCREMENT
     then dicedev_ioctl_seed_increment c (ua_seed_increment (ia_dev arg))
     else mret (- EINVAL)) s.
Proof.
  intros (p & f & Hfd & Hp & Hk & Hpd).
  unfold sys_ioctl, dispatch, fd_file, gets, get_file, fetch, mbind, M_bind.
  rewrite Hfd, Hp, Hk. simpl. unfold dicedev_ioctl, get_file, fetch, deref, mbind, M_bind. by rewrite Hp, Hpd.
Qed.

(** A request that is refused at once. *)
Lemma uwp_ioctl_refused σ fd req arg err (Q : Z → config → Prop) :
  sys_ioctl fd req arg (mem σ) = Done (- err) (mem σ) → 0 < err → Q (-1) σ →
  uwp (do_ioctl d B fd req arg) σ Q E.
Proof.
  intros Hrun Herr HQ. apply uwp_bind, uwp_block. eapply wp_done; [exact Hrun|]. apply uwp_ret.
  rewrite libc_neg by lia. by destruct σ.
Qed.

Lemma uwp_create σ fd c size allowed (Q : Z → config → Prop) :
  sys_inv d σ → chr_open (mem σ) fd c → 0 ≤ size ≤ DICEDEV_MAX_BUFFER_SIZE → allowed ≤ DICEDEV_MAX_ALLOWED →
  (∀ bfd s ctx, ctxs (mem σ) !! c = Some ctx → sys_inv d (σ <| mem := s |>) → 0 ≤ bfd →
     set_created (mem σ) s c ctx {| cs_size := size; cs_allowed := allowed |} bfd → Q bfd (σ <| mem := s |>)) →
  uwp (do_create_buf d B fd size allowed) σ Q E.
Proof.
  intros (x & Hi & Hse) Ho Hsz Hal HQ. destruct (chr_open_ctx _ _ _ _ _ _ _ _ Hi Ho) as (ctx & Hc & Hcd & _).
  apply uwp_bind, uwp_bind, uwp_block.
  set (cs := {| cs_size := size; cs_allowed := allowed |}) in *.
  eapply (wp_eq _ (dicedev_ioctl_create_set c (Some cs))); [exact (sys_ioctl_chr _ _ _ _ _ Ho)|].
  eapply wp_mono; [eapply (safe_wp _ _ _ (λ r s, r < 0 ∨ 0 ≤ r ∧ set_created (mem σ) s c ctx cs r));
    [eapply (safe_framed d _ _ x _ _ _ (λ _, refs σ)); [exact Hi|done|eapply create_set_safe; by_core]|]|].
  - pose proof Hi as [[[Hd Hl Hf Hok] _ _ _] _ _].
    eapply (wp_create_set (mem σ) c ctx x); [by split; rewrite ?Hcd|by split|intros; by right| |intros; by left].
    intros s _ _. left. done.
  - intros r s [Hinv [Hneg|[Hpos Hs]]]; simpl; apply uwp_ret.
    + rewrite libc_neg by done. right. left. split; [done|]. left. by right.
    + rewrite libc_nonneg, (proj2 (Z.ltb_ge r 0)) by done. by eapply HQ.
Qed.

Lemma chr_open_created s s' c ctx cs bfd fd c' :
  set_created s s' c ctx cs bfd → chr_open s fd c' → chr_open s' fd c'.
Proof.
  intros (b & buf & ptp & tbl & pp & hp & arr & L & q & _ & _ & _ & _ & _ & _ & _ & _ & _ & _ & _ &
        _ & Hq & Ef & Hfr & Efd & _) (p & f & Hfd & Hp & Hk & Hpd). exists p, f.
  rewrite Efd, Ef. split_and!; try done; rewrite lookup_insert_ne; congruence.
Qed.

Lemma uwp_close σ fd p f (Q : unit → config → Prop) :
  fds (mem σ) !! fd = Some p → files (mem σ) !! p = Some f →
  Q tt (σ <| mem := fput_done p f ((mem σ) <| fds := delete fd (fds (mem σ)) |>) |>) → uwp (do_close fd) σ Q E.
Proof.
  intros Hfd Hp HQ. apply uwp_bind, uwp_call. unfold sys_close, fd_file.
  wp_steps. rewrite Hfd. wp_steps. eapply wp_fput; [done|]. wp_step. exact HQ.
Qed.

(** Mapping a buffer. *)
Lemma sys_mmap_buffer s fd p n b :
  fds s !! fd = Some p → files s !! p = Some (mkFile FBuffer n (Some b)) →
  sys_mmap fd s = Done (0, Some p) (set_count p (mkFile FBuffer n (Some b)) (n + 1) s).
Proof.
  intros Hfd Hp. unfold sys_mmap, dispatch, fd_file, gets, get_file, fetch, mbind, M_bind.
  rewrite Hfd, Hp. simpl. unfold dicedev_buffer_mmap, get_file, fetch, mbind, M_bind. rewrite Hp. simpl.
  unfold file_get, get_file, fetch, mbind, M_bind. by rewrite Hp.
Qed.

Lemma uwp_map σ fd len p n b (Q : list piece → config → Prop) :
  sys_inv d σ → fds (mem σ) !! fd = Some p → files (mem σ) !! p = Some (mkFile FBuffer n (Some b)) →
  (let σ' := σ <| mem := set_count p (mkFile FBuffer n (Some b)) (n + 1) (mem σ) |> <| refs := (p, Mapped) :: refs σ |> in
   sys_inv d σ' → Q [mkPiece p 0 (page_align len)] σ') →
  uwp (map_or_err fd len) σ Q E.
Proof.
  intros (x & Hi & Hse) Hfd Hp HQ. apply uwp_bind. unfold uwp, mmap. rewrite (sys_mmap_buffer _ fd p n b Hfd Hp). simpl.
  apply HQ. pose proof (mmap_safe d (mem σ) x _ _ _ fd (inv_core _ _ _ _ _ _ Hi)) as Hs.
  apply (safe_framed d _ _ x _ _ _ (λ r, new_mapping r.2 ++ refs σ) _ Hi Hse) in Hs. unfold safe in Hs.
  rewrite (sys_mmap_buffer _ fd p n b Hfd Hp) in Hs. exact Hs.
Qed.

End Calls.
