(* ===== verification/Process.v ===== *)
(** A process at work: a context of its own, one or more sets, their mappings,
    while no other task is in flight.  Rules for the calls the tests make in
    such a session. *)

From Stdlib Require Import String.
From S2P Require Import Prelude Cmd Types Utils Slots Pt Task Stream Wt Buffer Base Syscall WtSpec BufferSpec IoctlSpec PciSpec Lifetime Invariant Thread Core Calls Release System Verdict Board Demand Drain User UserSpec.

Section Process.
Context `{Hardware, Kernel, !HardwareLaws, !KernelLaws}.
Variables (d : ptr) (B : board_model) (a : bool).

Abbreviation E := (ends a).

(** ** Sessions *)

(** No task is in flight and the work thread may run; the slots are taken by
    sets of [O]. *)
Record quiet (σ : config) (O : gset ptr) : Prop := {
  qu_inv : sys_inv d σ;
  qu_tasks : tasks (mem σ) = ∅;
  qu_run x : devs (mem σ) !! d = Some x → should_stop x = false ∧ should_park x = false;
  qu_slots x : devs (mem σ) !! d = Some x → list_to_set (occupants (buff_slots x)) ⊆ O;
  qu_room : (size O ≤ Z.to_nat DICEDEV_NUM_SLOTS)%nat;
}.

(** Descriptor [fd] is the char device with context [c], failed or not. *)
Record session (σ : config) (O : gset ptr) (fd : Z) (c : ptr) (bad : bool) : Prop := {
  ss_quiet : quiet σ O;
  ss_chr : chr_open (mem σ) fd c;
  ss_ctx : ∃ ctx, ctxs (mem σ) !! c = Some ctx ∧ ctx_failed ctx = bad;
}.

(** Descriptor [bfd] is set [b] of context [c], with file [p], page table [F]
    and allowed dice [al]. *)
Record has_set (s : state) (c : ptr) (bfd : Z) (p b : ptr) (F : foot) (al : Z) : Prop := {
  hs_fd : fds s !! bfd = Some p;
  hs_file : ∃ n, files s !! p = Some (mkFile FBuffer n (Some b));
  hs_buf : ∃ buf, bufs s !! b = Some buf ∧ buf_ctx buf = c ∧ allowed buf = al ∧ has_table s (life_of buf) F;
}.

(** File [p] is that of set [b] with page table [F], open or only mapped. *)
Definition mapped_set (s : state) (p b : ptr) (F : foot) : Prop :=
  (∃ n, files s !! p = Some (mkFile FBuffer n (Some b))) ∧
  ∃ buf, bufs s !! b = Some buf ∧ has_table s (life_of buf) F.

Lemma has_set_mapped s c bfd p b F al : has_set s c bfd p b F al → mapped_set s p b F.
Proof. intros [_ ? (buf & ? & _ & _ & ?)]. split; [done|]. by exists buf. Qed.

(** The set holds [ws] from word [off] on. *)
Definition words_at (s : state) (F : foot) (off : nat) (ws : list Z) : Prop :=
  take (length ws) (drop off (buffer_words s (fp_data F))) = ws.

Lemma quiet_same σ σ' O :
  quiet σ O → sys_inv d σ' → devs (mem σ') = devs (mem σ) → tasks (mem σ') = tasks (mem σ) → quiet σ' O.
Proof. intros [_ Et Hr Hs Hn] Hi Ed Et'. split; try done; [congruence|by rewrite Ed..]. Qed.

Lemma quiet_more σ O O' : quiet σ O → O ⊆ O' → (size O' ≤ Z.to_nat DICEDEV_NUM_SLOTS)%nat → quiet σ O'.
Proof. intros [Hi Et Hr Hs _] Hsub Hn. split; try done. intros x Hx. etrans; [by apply Hs|done]. Qed.

Lemma quiet_idle σ O x :
  quiet σ O → inv d (mem σ) x (wt_next σ) (refs σ) (marked σ) →
  running_task x = None ∧ wt_next σ = None ∧ pending_tasks x = [].
Proof.
  intros [_ Et _ _ _] [[_ [_ Hq _ _] _ _] _ _]. rewrite Et in Hq.
  assert (Hnil : in_flight x (wt_next σ) = []).
  { destruct (in_flight x (wt_next σ)) as [|t l]; [done|]. destruct (proj1 (Hq t)) as [? ?]; [by left|done]. }
  unfold in_flight in Hnil. destruct (running_task x), (wt_next σ), (pending_tasks x); done.
Qed.

(** ** Opening, creating, mapping *)

Lemma uwp_session_open σ O (Q : Z → config → Prop) :
  quiet σ O → permitted d AOpen σ →
  (∀ fd c σ', session σ' O fd c false → Q fd σ') → uwp (do_open d) σ Q E.
Proof.
  intros Hq Hp HQ. apply uwp_open; [apply Hq|done|]. intros fd e c p Hi Hfd _ _. eapply (HQ fd c). split.
  - by eapply quiet_same.
  - exists p, (mkFile FDicedev 1 (Some c)). simpl. by rewrite !lookup_insert_eq.
  - exists (new_ctx d). split; [apply lookup_insert_eq|done].
Qed.

Lemma uwp_session_create σ O fd c size al (Q : Z → config → Prop) :
  session σ O fd c false → 0 ≤ size ≤ DICEDEV_MAX_BUFFER_SIZE → 0 ≤ al < 2 ^ 32 →
  (Datatypes.S (base.size O) ≤ Z.to_nat DICEDEV_NUM_SLOTS)%nat →
  (∀ bfd p b F σ', session σ' (O ∪ {[b]}) fd c false → has_set (mem σ') c bfd p b F al →
     max_size (fp_tbl F) = size → bufs (mem σ) !! b = None →
     (∀ c' bfd' p' b' F' al', has_set (mem σ) c' bfd' p' b' F' al' → has_set (mem σ') c' bfd' p' b' F' al') →
     (∃ buf, bufs (mem σ') !! b = Some buf ∧ reader buf = mkReader 0 0) → Q bfd σ') →
  uwp (do_create_buf d B fd size al) σ Q E.
Proof.
  intros [Hq Ho (ctx & Hc & Hbad)] Hsz Hal Hn HQ. assert (Hmax : al ≤ DICEDEV_MAX_ALLOWED) by (change DICEDEV_MAX_ALLOWED with 8589934591; lia).
  eapply uwp_create; [apply Hq|done..|]. intros bfd s ctx0 Hc0 Hi Hbfd Hs. simplify_eq.
  pose proof (chr_open_created _ _ _ _ _ _ _ _ Hs Ho) as Ho'.
  destruct Hs as (b & buf & ptp & tbl & pp & hp & arr & L & q & Hb & Eb & [Hb' Hp Ht Hwf] & Esz & Ec & Ed' & _ & _ & Eal &
    _ & Erd & _ & Hqf & Ef & Hfr & Efd & Ectx & Ed & Et & _ & _ & Ept & _ & Epg & _ & Edm & _).
  eapply (HQ bfd q b (mkFoot ptp tbl pp hp arr L)); simpl; try done; [..|exists buf; by rewrite Eb, lookup_insert_eq].
  - split; [eapply quiet_more; [by eapply quiet_same|set_solver|]|done|].
    + pose proof (size_union_alt O {[b]}). etrans; [|exact Hn]. rewrite size_union_alt.
      assert (base.size ({[b]} ∖ O : gset ptr) ≤ 1)%nat; [|lia].
      rewrite <-(size_singleton (C := gset ptr) b). apply subseteq_size. set_solver.
    + simpl. rewrite Ectx, lookup_insert_eq. eexists. split; [done|]. by destruct ctx.
  - split; [by rewrite Efd, lookup_insert_eq|by rewrite Ef, lookup_insert_eq; eexists|].
    exists buf. split_and!; try done. rewrite Eal. by apply u32_small.
  - intros c' bfd' p' b' F' al' [Hfd' [n Hf'] (buf' & Hbuf' & ? & ? & HF')]. split.
    + rewrite Efd, lookup_insert_ne; [done|]. congruence.
    + exists n. rewrite Ef, lookup_insert_ne; [done|]. congruence.
    + exists buf'. split_and!; try done; [|by eapply has_table_mono].
      rewrite Eb, lookup_insert_ne; [done|]. congruence.
Qed.

Lemma uwp_session_map σ O fd c bad bfd p b F al len (Q : list piece → config → Prop) :
  session σ O fd c bad → has_set (mem σ) c bfd p b F al →
  (∀ σ', session σ' O fd c bad → bufs (mem σ') = bufs (mem σ) →
     (∀ c' bfd' p' b' F' al', has_set (mem σ) c' bfd' p' b' F' al' → has_set (mem σ') c' bfd' p' b' F' al') →
     Q [mkPiece p 0 (page_align len)] σ') →
  uwp (map_or_err bfd len) σ Q E.
Proof.
  intros [Hq (pc & fc & Hfd & Hpc & Hk & Hpd) Hc] [Hbfd [n Hp] _] HQ.
  eapply uwp_map; [apply Hq|done|done|]. intros σ' Hi. apply HQ; [split; [by eapply quiet_same| |done]|done|].
  - exists pc, fc. split_and!; try done. simpl. rewrite lookup_insert_ne; [done|]. intros ->. simplify_eq.
  - intros c' bfd' p' b' F' al' [Hfd' [n' Hf'] (buf' & Hbuf' & ? & ? & HF')]. split; [done| |].
    + simpl. destruct (decide (p' = p)) as [->|]; [rewrite lookup_insert_eq|rewrite lookup_insert_ne by done]; [|eauto].
      simplify_eq. by eexists.
    + exists buf'. split_and!; try done. by apply (has_table_eq (mem σ)).
Qed.

(** ** Loads and stores *)

(** All sets are still there. *)
Definition sets_kept (s s' : state) : Prop :=
  ∀ c bfd p b F al, has_set s c bfd p b F al → has_set s' c bfd p b F al.

(** Another set of the same memory has other pages. *)
Lemma other_pages s m mk c bfd p b F al c' bfd' p' b' F' al' q :
  life d s m mk → has_set s c bfd p b F al → has_set s c' bfd' p' b' F' al' → b ≠ b' →
  q ∈ (fp_data F).*1 → q ∉ (fp_data F').*1.
Proof.
  intros [Hbk _] [_ _ (buf & Hb & _ & _ & HF)] [_ _ (buf' & Hb' & _ & _ & HF')] Hne Hq Hq'.
  apply buf_view_lookup in Hb. apply buf_view_lookup in Hb'.
  destruct (bk_disj _ _ Hbk b b' _ _ F F' Hb Hb' Hne HF HF') as (_ & _ & Hdis). apply (Hdis q); by right.
Qed.

Lemma buffer_words_other s q mq L : q ∉ L.*1 → buffer_words (upd_dma q mq s) L = buffer_words s L.
Proof.
  intros Hq. unfold buffer_words. f_equal. apply list_fmap_ext. intros i q' Hi. unfold page_words. simpl.
  rewrite lookup_insert_ne; [done|]. intros ->. apply Hq. by eapply list_elem_of_fmap_2, list_elem_of_lookup_2.
Qed.

Lemma uwp_session_store σ O fd c bad bfd p b F al i v (Q : bool → config → Prop) :
  session σ O fd c bad → has_set (mem σ) c bfd p b F al → 0 ≤ i → i / 1024 < Z.of_nat (length (fp_data F)) →
  (∀ σ', session σ' O fd c bad → sets_kept (mem σ) (mem σ') →
     buffer_words (mem σ') (fp_data F) = <[Z.to_nat i := u32 v]> (buffer_words (mem σ) (fp_data F)) →
     (∀ c' bfd' p' b' F' al', has_set (mem σ) c' bfd' p' b' F' al' → b' ≠ b →
        buffer_words (mem σ') (fp_data F') = buffer_words (mem σ) (fp_data F')) →
     Q true σ') →
  uwp (ucall (user_store p i v)) σ Q E.
Proof.
  intros [Hq Ho Hc] Hset Hi0 Hlt HQ. pose proof Hset as [Hbfd [n Hp] (buf & Hb & _ & _ & HF)].
  pose proof (qu_inv _ _ Hq) as (x & Hi & Hsent). pose proof Hi as [[_ _ Hlf _] _ _]. apply uwp_call.
  eapply wp_mono; [eapply (wp_user_store d (mem σ) x _ _ _ p _ b buf F); by_core|]. intros ok s' Hpost.
  destruct ok; cycle 1.
  { destruct Hpost as [Hnone%lookup_ge_None _]. dlia. }
  destruct Hpost as (q & mq & Hqd & Hm & ->).
  pose proof Hqd as Hqin. apply list_elem_of_lookup_2, (list_elem_of_fmap_2 fst) in Hqin.
  assert (El : length (<[Z.to_nat (i mod 1024) := u32 v]> (dp_words mq)) = length (dp_words mq)) by apply length_insert.
  apply HQ.
  - split; [|done|done]. eapply quiet_same; [done| |done..]. exists x. split; [by eapply inv_page_store|done].
  - intros c' bfd' p' b' F' al' [? ? (buf' & Hb' & ? & ? & HF')]. split; try done. exists buf'. split_and!; try done.
    eapply (table_store d (mem σ) b (life_of buf) F q.1 mq); try done; [apply Hlf|by apply buf_view_lookup..].
  - destruct HF as (_ & _ & Hwf). by eapply buffer_words_store.
  - intros c' bfd' p' b' F' al' Hset' Hne. apply buffer_words_other. by eapply (other_pages _ _ _ c bfd p b).
Qed.

Lemma has_set_pages s c bfd p b F al :
  has_set s c bfd p b F al → Z.of_nat (length (fp_data F)) = pages_for (max_size (fp_tbl F)) ∧
  length (buffer_words s (fp_data F)) = (length (fp_data F) * 1024)%nat.
Proof.
  intros [_ _ (buf & _ & _ & _ & _ & _ & Hwf)]. split; [|by eapply length_buffer_words].
  destruct Hwf as [_ _ _ <- _ -> _ _ _ _]. done.
Qed.

(** Storing the word behind those that are known. *)
Lemma uwp_append m σ O fd c bad bfd p b F al off ws i v (Q : unit → config → Prop) :
  session σ O fd c bad → has_set (mem σ) c bfd p b F al → words_at (mem σ) F off ws →
  i = 4 * Z.of_nat (off + length ws) → mapped_file m i = Some p → i / 4096 < Z.of_nat (length (fp_data F)) →
  (∀ σ', session σ' O fd c bad → sets_kept (mem σ) (mem σ') → words_at (mem σ') F off (ws ++ [u32 v]) →
     (∀ c' bfd' p' b' F' al' off' ws', has_set (mem σ) c' bfd' p' b' F' al' → b' ≠ b →
        words_at (mem σ) F' off' ws' → words_at (mem σ') F' off' ws') →
     Q tt σ') →
  uwp (store_word m i v) σ Q E.
Proof.
  intros Hse Hset Hws -> Hm Hlt HQ. unfold store_word. rewrite Hm. apply uwp_bind.
  destruct (has_set_pages _ _ _ _ _ _ _ Hset) as [_ Hlen].
  eapply uwp_session_store; [done..|dlia|dlia|]. intros σ' Hse' Hk Hbw Hoth. apply uwp_ret. apply HQ; try done.
  - unfold words_at in *. rewrite Hbw. replace (Z.to_nat _) with (off + length ws)%nat by dlia.
    rewrite length_app. simpl. rewrite Nat.add_1_r, drop_insert_ge by lia.
    replace (off + length ws - off)%nat with (length ws) by lia.
    erewrite take_S_r; [|apply list_lookup_insert_eq; rewrite length_drop, Hlen; dlia].
    by rewrite take_insert_ge, Hws.
  - intros c' bfd' p' b' F' al' off' ws' Hset' Hne Hws'. unfold words_at in *. by erewrite Hoth.
Qed.

(** The first words of those that are known. *)
Lemma words_at_take s F off ws n : words_at s F off ws → words_at s F off (take n ws).
Proof.
  unfold words_at. intros Hw. rewrite length_take, <-(take_take _ n (length ws)). by rewrite Hw.
Qed.

(** A load changes nothing. *)
Lemma user_load_word s p b F i :
  mapped_set s p b F → 0 ≤ i → i / 4096 < Z.of_nat (length (fp_data F)) →
  ∃ w, buffer_words s (fp_data F) !! Z.to_nat (i / 4) = Some w ∧ user_load p i s = Done (Some w) s.
Proof.
  intros [[n Hp] (buf & Hb & HF1 & HF2 & Hwf)] Hi0 Hlt. pose proof (length_buffer_words _ _ _ _ _ _ Hwf) as Hlen.
  destruct (lookup_lt_is_Some_2 (buffer_words s (fp_data F)) (Z.to_nat (i / 4))) as [w Ew]; [rewrite Hlen; dlia|].
  exists w. split; [done|]. apply run_eq. unfold user_load, user_page. wp_mem.
  assert (Hbp : buf_pages s b buf (fp_pt F) (fp_tbl F) (fp_page F) (fp_bus F) (fp_arr F) (fp_data F)) by by split.
  pose proof (fault_page _ _ _ _ _ _ _ _ _ (i / 4096) Hbp ltac:(dlia)) as Hft.
  replace (Z.to_nat (i / 4)) with (Z.to_nat (i / 4096) * 1024 + Z.to_nat (i / 4 mod 1024))%nat in Ew by dlia.
  apply (buffer_words_lookup _ _ _ _ _ _ _ _ _ Hwf) in Ew as (q & mq & Eq & Hmq & Hw); [|dlia].
  rewrite Eq in Hft. eapply wp_done; [exact Hft|]. wp_step. simpl. wp_mem.
  replace (i / 4 mod 1024) with (Z.of_nat (Z.to_nat (i / 4 mod 1024))) by dlia.
  eapply wp_index; [exact Hw|]. by wp_step.
Qed.

Lemma uwp_load m σ p b F i (Q : Z → config → Prop) :
  mapped_set (mem σ) p b F → 0 ≤ i → mapped_file m i = Some p →
  i / 4096 < Z.of_nat (length (fp_data F)) → (∀ w, Q w σ) → uwp (load m i) σ Q E.
Proof.
  intros Hset Hi0 Hm Hlt HQ. destruct (user_load_word _ _ _ _ i Hset Hi0 Hlt) as (w & _ & Hrun).
  unfold load. rewrite Hm. apply uwp_bind, uwp_call. eapply wp_done; [exact Hrun|]. apply uwp_ret.
  replace (σ <| mem := mem σ |>) with σ by by destruct σ. apply HQ.
Qed.

(** A store of a byte is a store of the word it is in. *)
Lemma uwp_store_byte m σ O fd c bad bfd p b F al i v (Q : unit → config → Prop) :
  session σ O fd c bad → has_set (mem σ) c bfd p b F al → 0 ≤ i → mapped_file m i = Some p →
  i / 4096 < Z.of_nat (length (fp_data F)) →
  (∀ w σ', session σ' O fd c bad → sets_kept (mem σ) (mem σ') →
     buffer_words (mem σ) (fp_data F) !! Z.to_nat (i / 4) = Some w →
     buffer_words (mem σ') (fp_data F) =
       <[Z.to_nat (i / 4) := u32 (set_byte w (i mod 4) v)]> (buffer_words (mem σ) (fp_data F)) → Q tt σ') →
  uwp (store_byte m i v) σ Q E.
Proof.
  intros Hse Hset Hi0 Hm Hlt HQ.
  destruct (user_load_word _ _ _ _ i (has_set_mapped _ _ _ _ _ _ _ Hset) Hi0 Hlt) as (w & Hw & Hrun).
  unfold store_byte. rewrite Hm. apply uwp_bind.
  assert (Hst : uwp (ucall (user_store p (i / 4) (set_byte w (i mod 4) v))) σ
    (λ ok σ', uwp (if (ok : bool) then mret tt else SIGBUS) σ' Q E) E).
  { eapply uwp_session_store; [done..|dlia|dlia|]. intros σ' ? ? ? _. by eapply uwp_ret, HQ. }
  unfold uwp, ucall in *. unfold user_store_byte, mbind, M_bind. by rewrite Hrun.
Qed.

(** ** The seed, unmapping, closing *)

Lemma uwp_session_seed σ O fd c bad bfd p b F al v (Q : Z → config → Prop) :
  session σ O fd c bad → has_set (mem σ) c bfd p b F al →
  (∀ r σ', session σ' O fd c bad → sets_kept (mem σ) (mem σ') → dmas (mem σ') = dmas (mem σ) → Q r σ') →
  uwp (do_ioctl d B bfd DICEDEV_BUFFER_IOCTL_SEED (seed_arg v)) σ Q E.
Proof.
  intros [Hq Ho Hc] [Hbfd [n Hp] (buf & Hb & Hbc & Hal & HF)] HQ. pose proof (qu_inv _ _ Hq) as (x & Hi & Hsent).
  set (buf' := buf <| seed_chg := true |> <| seed := v |>). apply uwp_bind, uwp_block.
  eapply (wp_done _ _ 0 (upd_buf b buf' (mem σ))).
  { unfold sys_ioctl, dispatch, fd_file, gets, get_file, fetch, mbind, M_bind. rewrite Hbfd, Hp. simpl.
    unfold dicedev_buffer_ioctl, get_file, fetch, mbind, M_bind. rewrite Hp. simpl.
    unfold get_buf, fetch. by rewrite Hb. }
  apply uwp_ret, HQ; [|..|done].
  - split; [|done|done]. eapply quiet_same; [done| |done|done]. exists x. split; [|done].
    pose proof Hi as [[_ _ _ Hr] _ _]. eapply inv_buf_only; try done. exact (Hr b buf Hb).
  - intros c1 bfd1 p1 b1 F1 al1 [? ? (buf1 & Hb1 & ? & ? & ?)]. split; try done. simpl.
    destruct (decide (b1 = b)) as [->|Hne]; [exists buf'; rewrite lookup_insert_eq; simplify_eq|
      exists buf1; rewrite lookup_insert_ne by done]; (split_and!; try done); by apply (has_table_eq (mem σ)).
Qed.

(** The tail of a mapping goes, its file stays referenced. *)
Lemma uwp_unmap_part p lo hi off len q σ (Q : list piece → config → Prop) :
  off mod 4096 = 0 → 0 < len → cut off (off + page_align len) (mkPiece p lo hi) = [q] → Q [q] σ →
  uwp (do_munmap [mkPiece p lo hi] off len) σ Q E.
Proof.
  intros Ho Hl Hcut HQ. apply uwp_bind. unfold munmap. rewrite Ho, (proj2 (Z.ltb_lt 0 len)) by done. simpl.
  unfold uwp, mbind, U_bind, unmap_piece. rewrite Hcut. exact HQ.
Qed.

(** Calls at the end of a program: the files are still there. *)
Definition files_stay (σ σ' : config) : Prop :=
  ∀ p, is_Some (files (mem σ) !! p) → is_Some (files (mem σ') !! p).

Lemma uwp_unmap_all p lo hi off len σ (Q : list piece → config → Prop) :
  off mod 4096 = 0 → 0 < len → cut off (off + page_align len) (mkPiece p lo hi) = [] →
  is_Some (files (mem σ) !! p) →
  (∀ σ', fds (mem σ') = fds (mem σ) → files_stay σ σ' → Q [] σ') →
  uwp (do_munmap [mkPiece p lo hi] off len) σ Q E.
Proof.
  intros Ho Hl Hcut [f Hp] HQ. apply uwp_bind. unfold munmap. rewrite Ho, (proj2 (Z.ltb_lt 0 len)) by done. simpl.
  apply uwp_bind. unfold uwp, mbind, U_bind, unmap_piece. rewrite Hcut. simpl.
  assert (Hf : wp (fput p) (mem σ) (λ _ s, s = fput_done p f (mem σ))) by by eapply wp_fput.
  apply wp_run in Hf as ([] & s & -> & ->). simpl. apply HQ; [done|]. intros p' Hp'. simpl.
  destruct (decide (p' = p)) as [->|]; [by rewrite lookup_insert_eq|by rewrite lookup_insert_ne].
Qed.

Lemma uwp_close_fd σ fd p (Q : unit → config → Prop) :
  fds (mem σ) !! fd = Some p → is_Some (files (mem σ) !! p) →
  (∀ σ', (∀ fd', fd' ≠ fd → fds (mem σ') !! fd' = fds (mem σ) !! fd') → files_stay σ σ' → Q tt σ') →
  uwp (do_close fd) σ Q E.
Proof.
  intros Hfd [f Hp] HQ. eapply uwp_close; [done..|]. apply HQ.
  - intros fd' Hne. simpl. by rewrite lookup_delete_ne.
  - intros p' Hp'. simpl. destruct (decide (p' = p)) as [->|]; [by rewrite lookup_insert_eq|by rewrite lookup_insert_ne].
Qed.

Lemma session_fds σ O fd c bad bfd p b F al :
  session σ O fd c bad → has_set (mem σ) c bfd p b F al →
  is_Some (files (mem σ) !! p) ∧ fd ≠ bfd ∧
  ∃ q, fds (mem σ) !! fd = Some q ∧ is_Some (files (mem σ) !! q).
Proof.
  intros [_ (q & f & Hfd & Hq & Hk & _) _] [Hbfd [n Hp] _]. split_and!; [by eexists|by intros ->; simplify_eq|].
  exists q. split; [done|by eexists].
Qed.

(** close(bfd); munmap(buffer, len); close(fd); return 0 *)
Lemma uwp_leave σ O fd c bad bfd p b F al hi len :
  session σ O fd c bad → has_set (mem σ) c bfd p b F al → 0 < len →
  cut 0 (0 + page_align len) (mkPiece p 0 hi) = [] →
  uwp (do_close bfd;; do_munmap [mkPiece p 0 hi] 0 len;; do_close fd;; mret 0) σ (λ r _, r = 0) E.
Proof.
  intros Hse Hset Hl Hcut. destruct (session_fds _ _ _ _ _ _ _ _ _ _ Hse Hset) as (Hp & Hne & q & Hq & Hf).
  destruct Hset as [Hbfd _ _]. apply uwp_bind. eapply uwp_close_fd; [done..|]. intros σ1 Hfd1 Hst1. apply uwp_bind.
  apply uwp_unmap_all; [done..|by apply Hst1|]. intros σ2 Hfd2 Hst2. apply uwp_bind.
  eapply uwp_close_fd; [by rewrite Hfd2, Hfd1|by apply Hst2, Hst1|]. intros σ3 _ _. by apply uwp_ret.
Qed.

(** ** Running commands *)

Variable (e : bool) (k : nat).
Hypothesis HB : board_ok d B (λ _, e) k.

(** A task of context [c] is queued; it is going to fail or not. *)
Record queued (σ : config) (O : gset ptr) (fd : Z) (c : ptr) (bad : bool) : Prop := {
  qd_inv : sys_inv d σ;
  qd_dev : ∃ x, devs (mem σ) !! d = Some x ∧ drainable (mem σ) x (wt_next σ) ∧
    demand (mem σ) x (wt_next σ) ⊆ O ∧ (condemned (λ _, e) (mem σ) x (wt_next σ) c ↔ bad = true);
  qd_room : (size O ≤ Z.to_nat DICEDEV_NUM_SLOTS)%nat;
  qd_chr : chr_open (mem σ) fd c;
  qd_ctx : ∃ ctx, ctxs (mem σ) !! c = Some ctx ∧ 0 < task_count ctx;
}.

Lemma has_set_words s c bfd p b F al db addr size :
  has_set s c bfd p b F al → 0 ≤ addr → addr mod 4 = 0 → 0 < size → size mod 4 = 0 →
  addr + size ≤ max_size (fp_tbl F) →
  task_words s (run_task_of c b db addr size) (run_words s (fp_data F) addr size).
Proof.
  intros [_ _ (buf & Hb & _ & _ & HF1 & HF2 & Hwf)] ? ? ? ? ?. unfold task_words. simpl.
  eexists buf, _, _, _, _, _, (fp_data F). by split_and!.
Qed.

Lemma accepted_sets_kept s s' c cb db rc ctx x t : run_accepted s s' c cb db rc ctx x t → sets_kept s s'.
Proof.
  intros (_ & _ & _ & _ & Eb & Ept & Epg & _ & Edm & Ef & Efd & _) c' bfd' p' b' F' al' [? ? (buf' & ? & ? & ? & ?)].
  split; rewrite ?Efd, ?Ef; try done. exists buf'. rewrite Eb. split_and!; try done. by apply (has_table_eq s).
Qed.

(** The references that [fdget] takes. *)
Lemma sets_kept_fdgot fd s : sets_kept s (fdgot fd s).
Proof.
  intros c bfd p b F al [? [n Hp] (buf & ? & ? & ? & ?)]. destruct (fdgot_file fd s p _ Hp) as (n' & Hn & _).
  split; [done|by exists n'|]. exists buf. split_and!; try done. by apply (has_table_eq s).
Qed.

Lemma session_fdgot σ O fd c bad fd' :
  session σ O fd c bad → session (σ <| mem := fdgot fd' (mem σ) |>) O fd c bad.
Proof.
  intros [Hq (p & f & Hfd & Hp & Hk & Hpd) Hc]. split; [|by destruct (fdgot_file fd' _ p f Hp) as (n & Hn & _); eexists p, _|done].
  eapply quiet_same; [done| |done..]. destruct (qu_inv _ _ Hq) as (x & Hi & Hsent). exists x.
  destruct (framed_fdgot d (mem σ) x _ _ _ fd' (inv_core _ _ _ _ _ _ Hi)) as [Hc' Hf]. split; [by eapply inv_framed|done].
Qed.

Lemma session_borrowed σ O fd c bad rc :
  session σ O fd c bad → session (σ <| mem := run_borrowed rc (mem σ) |>) O fd c bad.
Proof.
  intros Hse. apply (session_fdgot _ _ _ _ _ (r_cfd rc)) in Hse.
  exact (session_fdgot _ _ _ _ _ (r_bfd rc) Hse).
Qed.

Lemma sets_kept_borrowed rc s : sets_kept s (run_borrowed rc s).
Proof. intros c bfd p b F al Hs. by apply sets_kept_fdgot, sets_kept_fdgot. Qed.

(** A task that was accepted in a session, seen by the work thread. *)
Lemma accepted_queued σ O fd c bfd p b F al addr size x s' t ctx (ws := run_words (mem σ) (fp_data F) addr size) :
  session σ O fd c false → has_set (mem σ) c bfd p b F al → b ∈ O →
  0 ≤ addr → addr mod 4 = 0 → 0 < size → size mod 4 = 0 → addr + size ≤ max_size (fp_tbl F) →
  framed ws = true → inv d (mem σ) x (wt_next σ) (refs σ) (marked σ) → sys_inv d (σ <| mem := s' |>) →
  ctxs (mem σ) !! c = Some ctx → ctx_dev ctx = d → ctx_failed ctx = false → task_count ctx = 0 →
  run_accepted (mem σ) s' c b b {| r_cfd := bfd; r_addr := addr; r_size := size; r_bfd := bfd |} ctx x t →
  queued (σ <| mem := s' |>) O fd c (e || negb (legal al ws)).
Proof.
  intros [Hq Ho Hc] Hset HbO Ha Ha4 Hs Hs4 Hle Hfr Hi Hi' Hctx Hcd Hbad Hcnt Hacc.
  pose proof (accepted_sets_kept _ _ _ _ _ _ _ _ _ Hacc) as Hk. pose proof (Hk _ _ _ _ _ _ Hset) as Hset'.
  destruct Hacc as (_ & Et & Ectx & Ed & Eb & _ & _ & _ & Edm & Ef & Efd & _). simpl in Et.
  destruct (quiet_idle _ _ _ Hq Hi) as (Er & En & Ep). pose proof Hq as [_ Et0 Hrun Hocc Hroom].
  destruct (inv_locks _ _ _ _ _ _ Hi) as (Hd & _). destruct (Hrun x Hd) as [Hst Hpk]. rewrite Hcd in Ed.
  set (y := dev_enqueue t x) in *. set (task := run_task_of c b b addr size) in *.
  assert (Hy : devs s' !! d = Some y) by (rewrite Ed; apply lookup_insert_eq).
  assert (Hw : waiting y None = [t]) by (unfold waiting; simpl; by rewrite Ep).
  assert (Ht : tasks s' !! t = Some task) by (rewrite Et; apply lookup_insert_eq).
  assert (Ews : run_words s' (fp_data F) addr size = ws).
  { unfold ws, run_words, buffer_words, page_words. by rewrite Edm. }
  assert (Htw : task_words s' task ws) by (rewrite <-Ews; by eapply has_set_words).
  assert (Hde : demand s' y None ⊆ O).
  { intros b'. rewrite elem_of_demand. intros [[j Hj]|(t' & task' & Hin & Ht' & <-)].
    - apply (Hocc x Hd), elem_of_list_to_set, elem_of_occupants. by exists j.
    - unfold in_flight in Hin. simpl in Hin. rewrite Er, Ep in Hin. apply list_elem_of_singleton in Hin as ->.
      rewrite Ht in Ht'. by simplify_eq. }
  split; try done; simpl; rewrite ?En.
  - exists y. split_and!; [done|split|done|].
    + done.
    + done.
    + etrans; [by apply subseteq_size|done].
    + intros t' Hin. rewrite Hw in Hin. apply list_elem_of_singleton in Hin as ->. intros task' Ht'.
      rewrite Ht in Ht'. simplify_eq. split; [by intros r [= <-]|].
      intros ws' Hw'. by rewrite <-(task_words_det _ _ _ _ Htw Hw').
    + destruct Hset' as [_ _ (buf & Hb & _ & Eal & _)].
      split.
      * intros [(ctx' & Hc' & Hf')|[(t' & task' & _ & Er' & _)|(t' & Hin & task' & Ht' & _ & Hwhy)]].
        -- rewrite Ectx, lookup_insert_eq in Hc'. simplify_eq. simpl in Hf'. congruence.
        -- simpl in Er'. congruence.
        -- rewrite Hw in Hin. apply list_elem_of_singleton in Hin as ->. rewrite Ht in Ht'. simplify_eq.
           destruct Hwhy as [->|(buf' & ws' & Hb' & Hw' & Hl)]; [done|]. simpl in Hb'. simplify_eq.
           rewrite (task_words_det _ _ _ _ Htw Hw'), Hl. by destruct e.
      * intros Hbl. right. right. exists t. rewrite Hw. split; [by left|]. exists task. split_and!; [done..|].
        apply orb_true_iff in Hbl as [?|Hl%negb_true_iff]; [by left|right]. exists buf, ws. by rewrite Eal.
  - destruct Ho as (pc & fc & ? & ? & ? & ?). exists pc, fc. by rewrite Efd, Ef.
  - rewrite Ectx, lookup_insert_eq. eexists. split; [done|]. simpl. by rewrite Hcnt.
Qed.

Lemma uwp_session_run σ O fd c bfd p b F al addr size (Q : Z → config → Prop)
    (ws := run_words (mem σ) (fp_data F) addr size) :
  session σ O fd c false → has_set (mem σ) c bfd p b F al → b ∈ O →
  0 ≤ addr < 2 ^ 32 → addr mod 4 = 0 → 0 < size < 2 ^ 32 → size mod 4 = 0 → addr + size ≤ max_size (fp_tbl F) →
  framed ws = true →
  (∀ σ', queued σ' O fd c (e || negb (legal al ws)) → sets_kept (mem σ) (mem σ') →
     dmas (mem σ') = dmas (mem σ) → Q 0 σ') →
  (∀ σ', (∃ n live e e', k_alloc n live e = (None, e')) → Q (-1) σ') →
  uwp (do_ioctl d B fd DICEDEV_IOCTL_RUN (run_arg bfd addr size bfd)) σ Q E.
Proof.
  intros Hse Hset HbO Ha Ha4 Hs Hs4 Hle Hfr HQ HQno. pose proof Hse as [Hq Ho (ctx & Hc & Hbad)].
  pose proof (qu_inv _ _ Hq) as (x & Hi & Hsent). destruct (inv_locks _ _ _ _ _ _ Hi) as (Hd & Hl & _).
  destruct (chr_open_ctx _ _ _ _ _ _ _ _ (inv_core _ _ _ _ _ _ Hi) Ho) as (ctx0 & Hc0 & Hcd & Hmk & Hall). simplify_eq.
  pose proof Hset as [Hbfd [n Hp] (buf & Hb & Hbc & _ & HF1 & HF2 & _)].
  assert (Hcnt : task_count ctx = 0).
  { pose proof Hi as [[_ [_ _ _ Hco] _ _] _ _]. destruct (Hco c ctx Hc) as [_ -> _].
    destruct (quiet_idle _ _ _ Hq Hi) as (Er & -> & Ep). unfold in_flight. by rewrite Er, Ep. }
  assert (Hbuf : fd_buf (mem σ) bfd b) by by exists p, (mkFile FBuffer n (Some b)).
  set (rc := {| r_cfd := bfd; r_addr := addr; r_size := size; r_bfd := bfd |}).
  assert (Hrt : run_target (mem σ) c rc b b buf buf (fp_pt F) (fp_tbl F) ctx x).
  { pose proof Hi as [[_ _ Hlf _] _ _]. destruct (life_table d _ _ _ b buf Hlf Hb) as [Hbd _].
    split; rewrite ?Hcd; try done. simpl. lia. }
  assert (Href : run_refusal c rc buf buf (fp_tbl F) ctx = None).
  { unfold run_refusal. rewrite decide_True by done. by rewrite Hbad. }
  apply uwp_bind, uwp_block. eapply wp_eq; [exact (sys_ioctl_chr _ _ _ _ _ Ho)|].
  eapply wp_mono; [eapply (safe_wp _ _ _ (λ r s',
      (r = 0 ∧ ∃ t, run_accepted (run_borrowed rc (mem σ)) s' c b b rc ctx x t) ∨
      (r < 0 ∧ ∃ n live e e', k_alloc n live e = (None, e'))));
    [eapply (safe_framed d _ _ x _ _ _ (λ _, refs σ) _ Hi Hsent), (run_safe d (mem σ) x _ _ _ fd c (Some rc)); [by_core..|]|]|].
  - intros rc' [= <-]. split_and!; [by exists p, (mkFile FBuffer n (Some b))..|simpl; lia|simpl; lia|simpl; lia|simpl; lia|].
    intros ctx' ?. simplify_eq. by rewrite Hcnt.
  - eapply wp_ioctl_run_ok; [done..| |].
    + intros t s' Hacc. left. eauto.
    + intros e' Hno. right. split; [done|]. eauto.
  - intros r s' [Hi' [(-> & t & Hacc)|[Hneg Hno]]]; simpl; apply uwp_ret.
    + rewrite libc_nonneg by done. pose proof (accepted_sets_kept _ _ _ _ _ _ _ _ _ Hacc) as Hk.
      apply HQ; [|intros ? ? ? ? ? ? ?; by apply Hk, sets_kept_borrowed|].
      * set (σ1 := σ <| mem := run_borrowed rc (mem σ) |>).
        destruct (framed_run_borrowed d (mem σ) x _ _ _ rc (inv_core _ _ _ _ _ _ Hi)) as [Hc1 Hf1].
        eapply (accepted_queued σ1); try done; [by apply session_borrowed|by apply sets_kept_borrowed|lia|lia|].
        by eapply (inv_framed d (mem σ)).
      * by destruct Hacc as (_ & _ & _ & _ & _ & _ & _ & _ & ? & _).
    + rewrite libc_neg by done. by apply HQno.
Qed.

(** The sets survive what thread and board do; their pages beyond the first
    [k] keep their words. *)
Lemma kept_buf s s' m mk b buf F :
  life d s' m mk → kept k s s' → bufs s !! b = Some buf → has_table s (life_of buf) F →
  ∃ buf', bufs s' !! b = Some buf' ∧ life_of buf' = life_of buf ∧ allowed buf' = allowed buf ∧
    has_table s' (life_of buf) F.
Proof.
  intros Hlf' [[_ Eb _ _ _ Ep Eg _] Ea _ _] Hb HF. simpl in *.
  assert (Hv : buf_view s' !! b = Some (life_of buf)).
  { rewrite <-Eb. by apply buf_view_lookup. }
  apply buf_view_Some in Hv as (buf' & Hb' & El). specialize (Ea b). rewrite Hb, Hb' in Ea. simpl in Ea.
  destruct (life_table d _ _ _ b buf' Hlf' Hb') as [_ [F' HF']]. rewrite El in HF'.
  pose proof (has_table_det s s' (life_of buf) F F' Ep Eg HF HF') as <-.
  exists buf'. split_and!; try done. congruence.
Qed.

Lemma kept_sets s s' m mk : life d s' m mk → kept k s s' → sets_kept s s'.
Proof.
  intros Hlf' Hk c bfd p b F al [Hfd [n Hp] (buf & Hb & Hbc & Hal & HF)].
  destruct (kept_buf _ _ _ _ _ _ _ Hlf' Hk Hb HF) as (buf' & Hb' & El & Ea & HF').
  pose proof (kp_life _ _ _ Hk) as [_ _ Ef Efd _ _ _ _]. simpl in *.
  split; [congruence|exists n; congruence|]. exists buf'. rewrite El. split_and!; try done; [|congruence].
  change (bl_ctx (life_of buf') = c). by rewrite El.
Qed.

Lemma kept_mapped s s' m mk p b F : life d s' m mk → kept k s s' → mapped_set s p b F → mapped_set s' p b F.
Proof.
  intros Hlf' Hk [[n Hp] (buf & Hb & HF)].
  destruct (kept_buf _ _ _ _ _ _ _ Hlf' Hk Hb HF) as (buf' & Hb' & El & _ & HF').
  pose proof (kp_life _ _ _ Hk) as [_ _ Ef _ _ _ _ _]. simpl in *.
  split; [exists n; congruence|]. exists buf'. by rewrite El.
Qed.

Lemma late_page s m mk c bfd p b F al i q b' :
  life d s m mk → has_set s c bfd p b F al → fp_data F !! i = Some q → (k ≤ i)%nat → ¬ page_of_buf k s b' q.1.
Proof.
  intros Hlf [_ _ (buf & Hb & _ & _ & HF)] Hq Hki (buf' & l & j & pg & Hb' & Hl & Hj & Hjk & Epg).
  destruct (life_table d _ _ _ b' buf' Hlf Hb') as [_ [F' HF']]. rewrite (pages_of_table _ _ _ HF') in Hl.
  injection Hl as <-. rewrite list_lookup_fmap in Hj. apply fmap_Some in Hj as (q' & Hq' & ->).
  simpl in Epg. injection Epg as Eq. destruct (decide (b' = b)) as [->|Hne].
  - simplify_eq. rewrite <-(has_table_inj _ _ _ _ HF HF') in Hq'. destruct HF as (_ & _ & Hwf).
    apply ptw_nodup, NoDup_cons in Hwf as [_ Hnd].
    assert (j = i); [|lia]. eapply NoDup_lookup; [exact Hnd|..]; rewrite list_lookup_fmap; [by rewrite Hq'|].
    rewrite Hq. simpl. by rewrite Eq.
  - destruct Hlf as [Hbk _]. apply buf_view_lookup in Hb. apply buf_view_lookup in Hb'.
    destruct (bk_disj _ _ Hbk b' b _ _ F' F Hb' Hb Hne HF' HF) as (_ & _ & Hdis). apply (Hdis q'.1).
    + right. by eapply list_elem_of_fmap_2, list_elem_of_lookup_2.
    + rewrite Eq. right. by eapply list_elem_of_fmap_2, list_elem_of_lookup_2.
Qed.

Lemma words_at_kept s s' m mk m' mk' c bfd p b F al off ws :
  life d s m mk → life d s' m' mk' → kept k s s' → has_set s c bfd p b F al → (k * 1024 ≤ off)%nat →
  words_at s F off ws → words_at s' F off ws.
Proof.
  intros Hlf Hlf' Hkept Hset Hoff Hws. pose proof (kept_sets _ _ _ _ Hlf' Hkept _ _ _ _ _ _ Hset) as Hset'.
  assert (Hdrop : drop off (buffer_words s' (fp_data F)) = drop off (buffer_words s (fp_data F))).
  { replace off with (k * 1024 + (off - k * 1024))%nat by lia. rewrite <-!drop_drop. f_equal.
    pose proof Hset as [_ _ (buf & ? & ? & ? & ? & ? & Hwf)]. destruct Hset' as [_ _ (buf' & ? & ? & ? & ? & ? & Hwf')].
    unfold buffer_words. rewrite !drop_concat by by eapply pt_wf_words. f_equal. rewrite <-!fmap_drop.
    apply list_fmap_ext. intros i q Hi. rewrite lookup_drop in Hi. unfold page_words.
    rewrite (kp_page _ _ _ Hkept); [done|]. intros b'.
    eapply late_page; [exact Hlf|exact Hset|exact Hi|lia]. }
  unfold words_at in *. by rewrite Hdrop.
Qed.

(** Thread and board finish the tasks that are queued. *)
Lemma queued_drives σ O fd c bad :
  queued σ O fd c bad →
  ∃ x σ', devs (mem σ) !! d = Some x ∧ drive d (drive_fuel x) B σ = Done tt σ' ∧
    session σ' O fd c bad ∧ kept k (mem σ) (mem σ') ∧
    ∀ c ctx, ctxs (mem σ') !! c = Some ctx → task_count ctx = 0.
Proof.
  intros [Hi (x & Hx & Hdr & HdO & Hcon) Hroom Ho (ctx & Hc & Hcnt)].
  destruct (drives d σ x B (λ _, e) k Hi Hx Hdr HB) as (σ' & Hrun & [Hi' Hk Ht' HV H0c HD Hrn]).
  exists x, σ'. split_and!; [done..| |done|done].
  assert (Ho' : chr_open (mem σ') fd c).
  { destruct Ho as (pc & fc & ? & ? & ? & ?). exists pc, fc.
    pose proof (kp_life _ _ _ Hk) as [_ _ Ef Efd _ _ _ _]. simpl in *. by rewrite <-Ef, <-Efd. }
  destruct Hi' as (x' & Hi' & Hse'). destruct (inv_locks _ _ _ _ _ _ Hi') as (Hd' & _).
  destruct (chr_open_ctx _ _ _ _ _ _ _ _ (inv_core _ _ _ _ _ _ Hi') Ho') as (ctx' & Hc' & _).
  split; [|done|].
  - split; try done; [by exists x'|]. intros y Hy. simplify_eq. etrans; [|exact HdO]. etrans; [|by apply HD].
    intros b'. rewrite elem_of_list_to_set, elem_of_occupants, elem_of_demand. by left.
  - exists ctx'. split; [done|]. apply eq_true_iff_eq. rewrite <-Hcon, HV. unfold failed. rewrite Hc'.
    split; [eauto|by intros (? & [= <-] & ?)].
Qed.

Lemma uwp_wait_kept σ O fd c bad (Q : Z → config → Prop) :
  queued σ O fd c bad →
  (∀ σ', session σ' O fd c bad → kept k (mem σ) (mem σ') → Q (if bad then -1 else 0) σ') →
  uwp (do_ioctl d B fd DICEDEV_IOCTL_WAIT (wait_arg 0)) σ Q E.
Proof.
  intros Hqd HQ. destruct (queued_drives _ _ _ _ _ Hqd) as (x & σ' & Hx & Hrun & Hse & Hk & H0c).
  pose proof Hqd as [_ _ _ Ho (ctx & Hc & Hcnt)]. pose proof Hse as [_ Ho' (ctx' & Hc' & Hbad)].
  apply uwp_bind. eapply uwp_block_sleeps; [|done|exact Hrun|].
  { rewrite (sys_ioctl_chr _ _ _ _ _ Ho). etrans; [apply (wait_run _ _ _ {| w_cnt := 0 |} Hc)|]. simpl.
    by rewrite (proj2 (Z.ltb_lt 0 _)). }
  eapply (wp_done _ _ (if bad then - EIO else 0) (mem σ')).
  { rewrite (sys_ioctl_chr _ _ _ _ _ Ho'). etrans; [apply (wait_run _ _ _ {| w_cnt := 0 |} Hc')|].
    rewrite (H0c _ _ Hc'). simpl. by rewrite Hbad. }
  apply uwp_ret. replace (σ' <| mem := mem σ' |>) with σ' by by destruct σ'.
  replace (libc (if bad then - EIO else 0)) with (if bad then -1 else 0) by by destruct bad.
  by apply HQ.
Qed.

Lemma uwp_session_wait σ O fd c bad (Q : Z → config → Prop) :
  queued σ O fd c bad →
  (∀ σ', session σ' O fd c bad → sets_kept (mem σ) (mem σ') →
     (∀ c' bfd' p' b' F' al' off ws, has_set (mem σ) c' bfd' p' b' F' al' → (k * 1024 ≤ off)%nat →
        words_at (mem σ) F' off ws → words_at (mem σ') F' off ws) →
     Q (if bad then -1 else 0) σ') →
  uwp (do_ioctl d B fd DICEDEV_IOCTL_WAIT (wait_arg 0)) σ Q E.
Proof.
  intros Hqd HQ. eapply uwp_wait_kept; [done|]. intros σ' Hse Hk.
  destruct (qd_inv _ _ _ _ _ Hqd) as (y & Hi & _), (qu_inv _ _ (ss_quiet _ _ _ _ _ Hse)) as (x' & Hi' & _).
  apply HQ; [done|eapply kept_sets; [apply Hi'|done]|].
  intros c' bfd' p' b' F' al' off ws Hset Hoff Hws. eapply (words_at_kept (mem σ)); try done; [apply Hi|apply Hi'].
Qed.

(** ** Runs and waits as the tests make them *)

Lemma run_words_at s F addr size ws :
  words_at s F (Z.to_nat (addr / 4096) * 1024) ws → size = 4 * Z.of_nat (length ws) →
  run_words s (fp_data F) addr size = ws.
Proof.
  intros Hws ->. unfold run_words, PAGE_SIZE. replace (Z.to_nat (4 * _ / 4)) with (length ws) by dlia. exact Hws.
Qed.

(** A request for known words: the first [n] words at page [pg] of the set. *)
Record known_run (s : state) (F : foot) (pg n : nat) (addr size : Z) (ws : list Z) : Prop := {
  kr_words : words_at s F (pg * 1024) ws;
  kr_addr : addr = 4096 * Z.of_nat pg;
  kr_size : size = 4 * Z.of_nat n;
  kr_num : (0 < n ≤ length ws)%nat;
  kr_fit : addr + size ≤ max_size (fp_tbl F) < 2 ^ 31;
  kr_framed : framed (take n ws) = true;
}.

Lemma uwp_known_run σ O fd c bfd p b F al pg n addr size ws (Q : Z → config → Prop) :
  session σ O fd c false → has_set (mem σ) c bfd p b F al → b ∈ O → known_run (mem σ) F pg n addr size ws →
  (∀ σ', queued σ' O fd c (e || negb (legal al (take n ws))) → sets_kept (mem σ) (mem σ') →
     words_at (mem σ') F (pg * 1024) ws → Q 0 σ') →
  (∀ σ', (∃ n live e e', k_alloc n live e = (None, e')) → Q (-1) σ') →
  uwp (do_ioctl d B fd DICEDEV_IOCTL_RUN (run_arg bfd addr size bfd)) σ Q E.
Proof.
  intros Hse Hset HbO [Hws -> -> Hn Hfit Hfr] HQ HQno.
  assert (Erw : run_words (mem σ) (fp_data F) (4096 * Z.of_nat pg) (4 * Z.of_nat n) = take n ws).
  { apply run_words_at; [|rewrite length_take; lia].
    replace (Z.to_nat (4096 * Z.of_nat pg / 4096)) with pg by dlia. by apply words_at_take. }
  eapply uwp_session_run; [done..|lia|dlia|lia|dlia|lia|by rewrite Erw| |done].
  rewrite Erw. intros σ' Hqd Hk Edm. apply HQ; [done|done|].
  unfold words_at, buffer_words, page_words in *. by rewrite Edm.
Qed.

Lemma uwp_do_run σ O fd c bfd p b F al pg n addr size ws (Q : unit → config → Prop) :
  session σ O fd c false → has_set (mem σ) c bfd p b F al → b ∈ O → known_run (mem σ) F pg n addr size ws →
  (∀ σ', queued σ' O fd c (e || negb (legal al (take n ws))) → sets_kept (mem σ) (mem σ') →
     words_at (mem σ') F (pg * 1024) ws → Q tt σ') →
  uwp (do_run d B fd bfd addr size bfd) σ Q E.
Proof.
  intros Hse Hset HbO Hkr HQ. apply uwp_bind. eapply uwp_known_run; [done..| |].
  - intros σ' ? ? ?. by apply uwp_ret, HQ.
  - intros σ' Hno. right. left. split; [done|]. right. by split; [left|].
Qed.

Lemma uwp_do_wait σ O fd c (Q : unit → config → Prop) :
  queued σ O fd c false →
  (∀ σ', session σ' O fd c false → sets_kept (mem σ) (mem σ') →
     (∀ c' bfd' p' b' F' al' off ws, has_set (mem σ) c' bfd' p' b' F' al' → (k * 1024 ≤ off)%nat →
        words_at (mem σ) F' off ws → words_at (mem σ') F' off ws) → Q tt σ') →
  uwp (do_wait d B fd 0) σ Q E.
Proof. intros Hqd HQ. apply uwp_bind. eapply uwp_session_wait; [done|]. intros. by apply uwp_ret, HQ. Qed.

Lemma uwp_do_wait_for_err σ O fd c (Q : unit → config → Prop) :
  queued σ O fd c true →
  (∀ σ', session σ' O fd c true → sets_kept (mem σ) (mem σ') → Q tt σ') →
  uwp (do_wait_for_err d B fd 0) σ Q E.
Proof. intros Hqd HQ. apply uwp_bind. eapply uwp_session_wait; [done|]. intros. by apply uwp_ret, HQ. Qed.

Lemma uwp_run_and_fail σ O fd c bfd p b F al pg n addr size ws (Q : unit → config → Prop) :
  session σ O fd c false → has_set (mem σ) c bfd p b F al → b ∈ O → known_run (mem σ) F pg n addr size ws →
  e || negb (legal al (take n ws)) = true →
  (∀ σ', session σ' O fd c true → has_set (mem σ') c bfd p b F al → Q tt σ') →
  uwp (do_run_and_wait_with_err d B fd bfd addr size bfd) σ Q E.
Proof.
  intros Hse Hset HbO Hkr Hbad HQ. apply uwp_bind. eapply uwp_known_run; [done..| |].
  - intros σ' Hqd Hk _. rewrite Hbad in Hqd. eapply uwp_do_wait_for_err; [done|]. intros σ2 Hse2 Hk2.
    by apply HQ; [|apply Hk2, Hk].
  - intros σ' Hno. right. left. split; [done|]. right. by split; [right|].
Qed.

End Process.
