(* ===== verification/Tests.v ===== *)
(** The tests of the repository (src/z3-tst) as user programs, except for the
    two that use io_uring. *)

From Stdlib Require Import String.
From S2P Require Import Prelude Cmd Types Utils Slots Pt Task Stream Wt Buffer Base Syscall WtSpec BufferSpec IoctlSpec PciSpec Lifetime Invariant Thread Core Calls Release System Verdict Board Demand Drain User.

(** DICEDEV_USER_CMD_GET_DIE_HEADER(num, type) as a word. *)
Definition GET_DIE (num : Z) (o : output_type) : Z :=
  u32 (DICEDEV_USER_CMD_GET_DIE_HEADER num (output_type_val o)).

Section Tests.
Context `{Hardware, Kernel}.
Variables (d0 d1 : ptr) (B : board_model).

Abbreviation do_open0 := (do_open0 d0).
Abbreviation do_open1 := (do_open1 d1).
Abbreviation do_create_buf := (do_create_buf d0 B).
Abbreviation do_ioctl := (do_ioctl d0 B).
Abbreviation do_run := (do_run d0 B).
Abbreviation do_run_with_err := (do_run_with_err d0 B).
Abbreviation do_wait := (do_wait d0 B).
Abbreviation do_wait_for_err := (do_wait_for_err d0 B).
Abbreviation do_run_and_wait_with_err := (do_run_and_wait_with_err d0 B).

(** uint32_t *cmd = buffer + base; cmd[i] = v *)
Definition set_cmd (buffer : list piece) (base i v : Z) : U unit := store_word buffer (base + 4 * i) v.

(** ** Requests that are refused *)

(** invalid_size.c *)
Definition invalid_size : U Z :=
  fd ← do_open0;
  bfd ← do_create_buf fd 0x1000 0;
  do_run_with_err fd bfd 0x1000 1 bfd;;
  do_close fd;;
  mret 0.

(** invalid_ioctl.c: the argument 0x01 points nowhere *)
Definition chk (fd req : Z) (err : string) : U unit :=
  r ← do_ioctl fd req bad_arg;
  if r =? -1 then mret tt else exit (-1) err.

Definition invalid_ioctl : U Z :=
  fd ← do_open0;
  chk fd DICEDEV_IOCTL_CREATE_SET "buffer_resize";;
  chk fd DICEDEV_IOCTL_RUN "create_buffer";;
  chk fd DICEDEV_IOCTL_WAIT "run";;
  do_close fd;;
  mret 0.

(** large_wait.c *)
Definition large_wait : U Z :=
  fd ← do_open0;
  do_wait fd 0xfffffff;;
  do_close fd;;
  mret 0.

(** overflow.c: the handler of SIGBUS ends the test with success *)
Fixpoint overflow_loop (n : nat) (i : Z) (buffer : list piece) (base : Z) : U unit :=
  match n with
  | O => mret tt
  | S n =>
      match mapped_file buffer (i + base) with
      | None => SIGSEGV
      | Some p =>
          ok ← ucall (user_store_byte p (i + base) 0x13);
          if (ok : bool) then overflow_loop n (i + 1) buffer base else exit 0 "signal_handler"
      end
  end.

Definition overflow : U Z :=
  fd ← do_open0;
  bfd ← do_create_buf fd 0x3000 0;
  buffer ← map_or_err bfd 0x4000;
  overflow_loop 4096 0 buffer 0x3000;;
  exit (-1) "Should not reach this point".

(** dumb_run.c: descriptor 1 is standard output *)
Definition dumb_run : U Z :=
  fd ← do_open0;
  bfd ← do_create_buf fd 0x3000 0;
  do_run fd bfd 0 4 bfd;;
  do_wait fd 0;;
  do_run_with_err fd 1 0 4 bfd;;
  let crap_fd := 1 in
  do_run_with_err fd bfd 0 4 crap_fd;;
  do_close bfd;;
  do_close fd;;
  mret 0.

(** crossmap.c *)
Definition crossmap : U Z :=
  fd ← do_open0;
  fd2 ← do_open1;
  bfd ← do_create_buf fd 0x3000 0;
  do_run fd bfd 0 4 bfd;;
  do_run_with_err fd2 bfd 0 4 bfd;;
  do_close bfd;;
  do_close fd;;
  do_close fd2;;
  mret 0.

(** example.c; its SIZE is 0x3000 *)
Definition example (SIZE : Z) : U Z :=
  fd0 ← do_open0;
  fd1 ← do_open1;
  bfd ← do_create_buf fd0 SIZE 0x20;
  buffer ← map_or_err bfd SIZE;
  for_each (Z.to_nat SIZE) 0 (λ i, store_byte buffer i 0x13);;
  for_each (Z.to_nat SIZE) 0 (λ i, b ← load_byte buffer i; if b =? 0x13 then mret tt else exit (-1) "");;
  do_munmap buffer 0 SIZE;;
  do_close bfd;;
  mret 0.

(** ** Commands that fail *)

(** invalid_cmd.c *)
Definition invalid_cmd : U Z :=
  fd ← do_open0;
  bfd ← do_create_buf fd 0x1000 0x0;
  buffer ← map_or_err bfd 0x1000;
  for_each 0x10 0 (λ i, store_byte buffer i (if i mod 2 =? 0 then 0xcd else 0xab));;
  do_run_and_wait_with_err fd bfd 0 0x10 bfd;;
  do_close bfd;;
  do_close fd;;
  mret 0.

(** page_fault.c *)
Definition page_fault : U Z :=
  fd ← do_open0;
  bfd ← do_create_buf fd 0x3000 0x20;
  buffer ← map_or_err bfd 0x3000;
  set_cmd buffer 0x1000 0 (GET_DIE 5000 FAIR);;
  set_cmd buffer 0x1000 1 0x20;;
  set_cmd buffer 0x1000 2 (GET_DIE 5000 FAIR);;
  set_cmd buffer 0x1000 3 0x20;;
  set_cmd buffer 0x1000 4 (GET_DIE 5000 FAIR);;
  set_cmd buffer 0x1000 5 0x20;;
  do_run_and_wait_with_err fd bfd 0x1000 (4 * 6) bfd;;
  do_close bfd;;
  do_munmap buffer 0 0x3000;;
  do_close fd;;
  mret 0.

(** not_allowed.c *)
Definition not_allowed : U Z :=
  fd ← do_open0;
  bfd ← do_create_buf fd 0x3000 0x22;
  buffer ← map_or_err bfd 0x3000;
  buffer ← do_munmap buffer 0x2000 0x1000;
  set_cmd buffer 0x1000 0 (GET_DIE 5 FAIR);;
  set_cmd buffer 0x1000 1 0x20;;
  do_run fd bfd 0x1000 (4 * 2) bfd;;
  do_wait fd 0;;
  set_cmd buffer 0x1000 2 (GET_DIE 5 FAIR);;
  set_cmd buffer 0x1000 3 0x2;;
  do_run fd bfd 0x1000 (4 * 2) bfd;;
  do_wait fd 0;;
  set_cmd buffer 0x1000 4 (GET_DIE 5 FAIR);;
  set_cmd buffer 0x1000 5 0x1;;
  do_run fd bfd 0x1000 (4 * 6) bfd;;
  do_wait_for_err fd 0;;
  do_close bfd;;
  do_munmap buffer 0 (0x3000 - 0x1000);;
  do_close fd;;
  mret 0.

(** ** Dice *)

(** get_die.c *)
Definition get_die : U Z :=
  fd ← do_open0;
  bfd ← do_create_buf fd 0x3000 0x20;
  buffer ← map_or_err bfd 0x3000;
  buffer ← do_munmap buffer 0x2000 0x1000;
  set_cmd buffer 0x1000 0 (GET_DIE 5 FAIR);;
  set_cmd buffer 0x1000 1 0x20;;
  set_cmd buffer 0x1000 2 (GET_DIE 5 FAIR);;
  set_cmd buffer 0x1000 3 0x20;;
  do_run fd bfd 0x1000 (4 * 4) bfd;;
  do_wait fd 0;;
  b0 ← load_dice buffer 0;
  assert ((d_value b0 =? 0) && (d_type b0 =? 5));;
  b7 ← load_dice buffer 7;
  assert ((d_value b7 =? 5) && (d_type b7 =? 5));;
  b3 ← load_dice buffer 3;
  assert ((d_value b3 =? 4) && (d_type b3 =? 5));;
  do_close bfd;;
  do_munmap buffer 0 (0x3000 - 0x1000);;
  do_close fd;;
  mret 0.

(** get_new_set.c *)
Definition get_new_set : U Z :=
  fd ← do_open0;
  bfd ← do_create_buf fd 0x3000 0x20;
  buffer ← map_or_err bfd 0x3000;
  buffer ← do_munmap buffer 0x2000 0x1000;
  set_cmd buffer 0x1000 0 (GET_DIE 5 FAIR);;
  set_cmd buffer 0x1000 1 0x20;;
  set_cmd buffer 0x1000 2 DICEDEV_USER_CMD_NEW_SET;;
  set_cmd buffer 0x1000 3 (GET_DIE 5 FAIR);;
  set_cmd buffer 0x1000 4 0x20;;
  do_run fd bfd 0x1000 (4 * 5) bfd;;
  do_wait fd 0;;
  for_each 5 0 (λ i,
    b ← load_dice buffer i;
    b' ← load_dice buffer (i + 5);
    assert ((d_value b =? d_value b') && (d_type b =? d_type b')));;
  do_close bfd;;
  do_munmap buffer 0 (0x3000 - 0x1000);;
  do_close fd;;
  mret 0.

(** get_set_tricks.c *)
Definition get_set_tricks : U Z :=
  fd ← do_open0;
  bfd ← do_create_buf fd 0x3000 0x20;
  buffer ← map_or_err bfd 0x3000;
  buffer ← do_munmap buffer 0x2000 0x1000;
  set_cmd buffer 0x1000 0 (GET_DIE 12 SNAKE_EYES);;
  set_cmd buffer 0x1000 1 0x20;;
  set_cmd buffer 0x1000 2 (GET_DIE 12 CHEAT_DICE);;
  set_cmd buffer 0x1000 3 0x20;;
  do_run fd bfd 0x1000 (4 * 4) bfd;;
  do_wait fd 0;;
  for_each 24 0 (λ i,
    b ← load_dice buffer i;
    if i <? 12 then assert ((d_value b =? 0) && (d_type b =? 5)) else assert (2 <? d_value b));;
  do_close bfd;;
  do_munmap buffer 0 (0x3000 - 0x1000);;
  do_close fd;;
  mret 0.

(** change_seed.c: the result of the seed ioctl is not looked at *)
Definition change_seed : U Z :=
  fd ← do_open0;
  bfd ← do_create_buf fd 0x3000 0x20;
  buffer ← map_or_err bfd 0x3000;
  buffer ← do_munmap buffer 0x2000 0x1000;
  do_ioctl bfd DICEDEV_BUFFER_IOCTL_SEED (seed_arg 0x123);;
  set_cmd buffer 0x1000 0 (GET_DIE 5 FAIR);;
  set_cmd buffer 0x1000 1 0x20;;
  set_cmd buffer 0x1000 2 (GET_DIE 5 FAIR);;
  set_cmd buffer 0x1000 3 0x20;;
  do_run fd bfd 0x1000 (4 * 4) bfd;;
  do_wait fd 0;;
  b7 ← load_dice buffer 7;
  assert ((d_value b7 =? 2) && (d_type b7 =? 5));;
  do_close bfd;;
  do_munmap buffer 0 (0x3000 - 0x1000);;
  do_close fd;;
  mret 0.

(** get_sets.c *)
Definition get_sets : U Z :=
  fd ← do_open0;
  bfd ← do_create_buf fd 0x3000 0x20;
  buffer ← map_or_err bfd 0x3000;
  buffer ← do_munmap buffer 0x2000 0x1000;
  bfd2 ← do_create_buf fd 0x3000 0x4;
  buffer2 ← map_or_err bfd2 0x3000;
  buffer2 ← do_munmap buffer2 0x2000 0x1000;
  do_ioctl bfd2 DICEDEV_BUFFER_IOCTL_SEED (seed_arg 0x123);;
  set_cmd buffer2 0x1000 0 (GET_DIE 5 FAIR);;
  set_cmd buffer2 0x1000 1 0x4;;
  set_cmd buffer2 0x1000 2 (GET_DIE 5 FAIR);;
  set_cmd buffer2 0x1000 3 0x4;;
  do_run fd bfd2 0x1000 (4 * 4) bfd2;;
  do_wait fd 0;;
  set_cmd buffer 0x1000 0 (GET_DIE 5 FAIR);;
  set_cmd buffer 0x1000 1 0x20;;
  set_cmd buffer 0x1000 2 (GET_DIE 5 FAIR);;
  set_cmd buffer 0x1000 3 0x20;;
  do_run fd bfd 0x1000 (4 * 4) bfd;;
  do_wait fd 0;;
  b7 ← load_dice buffer 7;
  assert ((d_value b7 =? 5) && (d_type b7 =? 5));;
  b7' ← load_dice buffer2 7;
  assert ((d_value b7' =? 2) && (d_type b7' =? 2));;
  do_close bfd;;
  do_munmap buffer 0 (0x3000 - 0x1000);;
  do_close bfd2;;
  do_munmap buffer2 0 (0x3000 - 0x1000);;
  do_close fd;;
  mret 0.

(** ** Many sets, many commands *)

(** large_alloc.c with [COUNT] sets; the arrays bfds and bufs are built by the
    first loop and read by the others *)
Fixpoint large_alloc_init (n : nat) (fd : Z) : U (list (Z * list piece)) :=
  match n with
  | O => mret []
  | S n =>
      bfd ← do_create_buf fd 4096 0x20;
      buf ← map_or_err bfd 4096;
      rest ← large_alloc_init n fd;
      mret ((bfd, buf) :: rest)
  end.
Fixpoint for_each_set (l : list (Z * list piece)) (f : Z → list piece → U unit) : U unit :=
  match l with
  | [] => mret tt
  | (bfd, buf) :: l => f bfd buf;; for_each_set l f
  end.

Definition large_alloc (COUNT : nat) : U Z :=
  fd ← do_open0;
  sets ← large_alloc_init COUNT fd;
  let cmd := default [] (snd <$> head sets) in
  let bfd0 := default 0 (fst <$> head sets) in
  set_cmd cmd 0 0 (GET_DIE 5 FAIR);;
  set_cmd cmd 0 1 0x20;;
  set_cmd cmd 0 2 (GET_DIE 5 FAIR);;
  set_cmd cmd 0 3 0x20;;
  for_each_set (tail sets) (λ bfd _, do_run fd bfd0 0 (4 * 4) bfd;; do_wait fd 0);;
  for_each_set (tail sets) (λ _ buf,
    b7 ← load_dice buf 7;
    b9 ← load_dice buf 9;
    assert ((d_value b7 =? 5) && (d_type b9 =? 5)));;
  for_each_set sets (λ bfd buf, do_munmap buf 0 4096;; do_close bfd);;
  do_close fd;;
  mret 0.

(** large_op.c with [CMDS] pairs of commands; the first mapping is not checked *)
Definition large_op (CMDS : Z) : U Z :=
  fd ← do_open0;
  bfd ← do_create_buf fd (CMDS * 5 * 4 * 8) 0x20;
  cmdfd ← do_create_buf fd (CMDS * 4 * 4) 0x20;
  buffer ← mmap bfd (CMDS * 4 * 8);
  cmd ← map_or_err cmdfd (CMDS * 4 * 4);
  for_each (Z.to_nat CMDS) 0 (λ i,
    set_cmd cmd 0 (i * 4) (GET_DIE 5 FAIR);;
    set_cmd cmd 0 (i * 4 + 1) 0x20;;
    set_cmd cmd 0 (i * 4 + 2) (GET_DIE 5 FAIR);;
    set_cmd cmd 0 (i * 4 + 3) 0x20);;
  do_run fd cmdfd 0 (4 * 4 * CMDS) bfd;;
  do_wait fd 0;;
  b ← load_dice (mapping_of buffer) 1001;
  assert ((d_value b =? 3) && (d_type b =? 5));;
  do_close bfd;;
  do_close cmdfd;;
  do_munmap cmd 0 (CMDS * 4 * 4);;
  do_close fd;;
  mret 0.

End Tests.
