(* ===== verification/Uring.v ===== *)
(** The two tests that use io_uring (src/z3-tst/io_uring.c and
    src/z3-tst/io_uring_read.c).  The library liburing and the kernel behind it
    are parameters: [Liburing] has the operations the tests call; nothing is
    assumed about them.  Suite.v runs the tests on concrete rings. *)

From Stdlib Require Import String.
From S2P Require Import Prelude Cmd Types Utils Slots Pt Task Stream Wt Buffer Base Syscall WtSpec BufferSpec IoctlSpec PciSpec Lifetime Invariant Thread Core Calls Release System Verdict Board Demand Drain User Tests.

(** ** Requests and completions *)

(** What io_uring_prep_write, io_uring_prep_read and io_uring_prep_close ask
    for: a write of command words, a read of one die, a close. *)
Inductive request :=
  | Write (fd : Z) (words : list Z)
  | Read (fd : Z)
  | Close (fd : Z).

(** An entry of the submission queue; a linked entry is completed before the
    next one is started. *)
Record sqe := mkSqe { sq_req : request; sq_link : bool }.

(** A completion: the result, and the die a read has stored. *)
Record cqe := mkCqe { res : Z; stored : option dice }.

Definition ECANCELED : Z := 125.

Section Requests.
Context `{Hardware, Kernel}.
Variables (d0 : ptr) (B : board_model).

(** The system call a request stands for. *)
Definition perform (q : request) : U cqe :=
  match q with
  | Write fd words => r ← ublock d0 B (sys_write fd (Some words) (4 * Z.of_nat (length words))); mret (mkCqe r None)
  | Read fd => r ← ublock d0 B (sys_read fd DICE_SIZE false); mret (mkCqe r.1 r.2)
  | Close fd => r ← ucall (sys_close fd); mret (mkCqe r None)
  end.

(** Entry [i] is linked to the one before it, which has failed. *)
Definition cancelled (l : list sqe) (results : gmap nat Z) (i : nat) : bool :=
  match i with
  | O => false
  | S j => match l !! j, results !! j with Some e, Some r => sq_link e && (r <? 0) | _, _ => false end
  end.

(** The entries of [l] at the positions [ord], one after the other. *)
Fixpoint serve (l : list sqe) (results : gmap nat Z) (ord : list nat) : U (list cqe) :=
  match ord with
  | [] => mret []
  | i :: ord =>
      match l !! i with
      | None => serve l results ord
      | Some e =>
          r ← if cancelled l results i then mret (mkCqe (- ECANCELED) None) else perform (sq_req e);
          rest ← serve l (<[i := res r]> results) ord;
          mret (r :: rest)
      end
  end.

(** ** liburing *)

(** The entry that io_uring_get_sqe returned last is the one that
    [io_uring_prep] and [sqe_link] (sqe->flags |= IOSQE_IO_LINK) fill in. *)
Class Liburing := {
  ring : Type;
  io_uring_queue_init : nat → ring;
  io_uring_get_sqe : ring → option ring;
  io_uring_prep : request → ring → ring;
  sqe_link : ring → ring;
  io_uring_submit : ring → U ring;
  io_uring_wait_cqe : ring → U (Z * cqe);
  io_uring_cqe_seen : ring → ring;
}.

End Requests.

(** ** The tests *)

Section UringTests.
Context `{Hardware, Kernel}.
Variables (d0 : ptr) (B : board_model).
Context `{!Liburing}.

Abbreviation do_open0 := (do_open0 d0).
Abbreviation do_create_buf := (do_create_buf d0 B).
Abbreviation do_wait := (do_wait d0 B).

(** sqe = io_uring_get_sqe(&ring); if (!sqe) { syserr(msg); } *)
Definition get_sqe (r : ring) (msg : string) : U ring :=
  match io_uring_get_sqe r with None => syserr msg | Some r => mret r end.

(** One turn of the loops that wait for completions: the result is checked
    and the completion marked as seen. *)
Definition next_cqe (r : ring) (msg : string) : U (ring * cqe) :=
  w ← io_uring_wait_cqe r;
  if w.1 <? 0 then syserr "wait_cqe"
  else if res w.2 <? 0 then syserr msg
  else mret (io_uring_cqe_seen r, w.2).

(** for (int i = 0; i < n; i++): what the reads store ends up in one variable,
    whose value is threaded through *)
Fixpoint wait_cqes (n : nat) (r : ring) (msg : string) (d : dice) : U (ring * dice) :=
  match n with
  | O => mret (r, d)
  | S n => p ← next_cqe r msg; wait_cqes n p.1 msg (default d (stored p.2))
  end.

(** io_uring.c; nothing is read, so the variable of [wait_cqes] plays no part *)
Definition io_uring : U Z :=
  let ring := io_uring_queue_init 8 in
  ring ← get_sqe ring "sqe";
  fd ← do_open0;
  bfd ← do_create_buf fd 0x3000 0x20;
  buffer ← map_or_err bfd 0x3000;
  buffer ← do_munmap buffer 0x2000 0x1000;
  let buf := [GET_DIE 5 FAIR; 0x20; GET_DIE 5 FAIR; 0x20] in
  let ring := io_uring_prep (Write bfd (take 2 buf)) ring in
  let ring := sqe_link ring in
  ring ← get_sqe ring "sqe";
  let ring := io_uring_prep (Write bfd (drop 2 buf)) ring in
  ring ← get_sqe ring "sqe";
  let ring := io_uring_prep (Close bfd) ring in
  ring ← io_uring_submit ring;
  wait_cqes 3 ring "async" {| d_value := 0; d_type := 0 |};;
  do_wait fd 0;;
  b7 ← load_dice buffer 7;
  assert ((d_value b7 =? 5) && (d_type b7 =? 5));;
  do_munmap buffer 0 (0x3000 - 0x1000);;
  do_close fd;;
  mret 0.

(** for (int i = 0; i < n; ++i): a read of one die is prepared *)
Fixpoint prep_reads (n : nat) (bfd : Z) (r : ring) : U ring :=
  match n with
  | O => mret r
  | S n => r ← get_sqe r "sqe3"; prep_reads n bfd (io_uring_prep (Read bfd) r)
  end.

(** io_uring_read.c; [d] is what the variable d holds before it is assigned.
    The flags of the first entry are set before it is checked, and before it is
    prepared. *)
Definition io_uring_read (d : dice) : U Z :=
  let ring := io_uring_queue_init 8 in
  fd ← do_open0;
  bfd ← do_create_buf fd 0x3000 0x20;
  buffer ← map_or_err bfd 0x3000;
  buffer ← do_munmap buffer 0x2000 0x1000;
  let buf := [GET_DIE 5 FAIR; 0x20; GET_DIE 5 FAIR; 0x20] in
  ring ← match io_uring_get_sqe ring with None => SIGSEGV | Some r => mret r end;
  let ring := sqe_link ring in
  let ring := io_uring_prep (Write bfd (take 2 buf)) ring in
  ring ← get_sqe ring "sqe2";
  let ring := io_uring_prep (Write bfd (drop 2 buf)) ring in
  ring ← io_uring_submit ring;
  p ← wait_cqes 2 ring "async1" d;
  ring ← prep_reads 3 bfd p.1;
  ring ← io_uring_submit ring;
  p ← wait_cqes 3 ring "async2" p.2;
  assert ((d_value p.2 =? 3) && (d_type p.2 =? 5));;
  ucall (sys_close bfd);;
  do_munmap buffer 0 (0x3000 - 0x1000);;
  do_close fd;;
  mret 0.

End UringTests.
