(* ===== verification/TestSpec.v ===== *)
(** The tests of the repository pass: those about refused requests in every
    reachable configuration, those about commands whenever no other task is in
    flight. *)

From Stdlib Require Import String.
From S2P Require Import Prelude Cmd Types Utils Slots Pt Task Stream Wt Buffer Base Syscall WtSpec BufferSpec IoctlSpec PciSpec Lifetime Invariant Thread Core Calls Release System Verdict Board Demand Drain User UserSpec Process Tests.

(** ** Refused requests *)

Section Refused.
Context `{Hardware, Kernel, !HardwareLaws, !KernelLaws}.
Variables (d : ptr) (B : board_model).

Lemma opened_chr s e c p fd : chr_open (opened d s e c p fd) fd c.
Proof. exists p, (mkFile FDicedev 1 (Some c)). simpl. by rewrite !lookup_insert_eq. Qed.

Lemma uwp_close_chr a σ fd c (Q : unit → config → Prop) :
  chr_open (mem σ) fd c → (∀ σ', Q tt σ') → uwp (do_close fd) σ Q (ends a).
Proof. intros (p & f & Hfd & Hp & _) HQ. eapply uwp_close; [done..|]. apply HQ. Qed.

Lemma invalid_size_passes σ : sys_inv d σ → permitted d AOpen σ → passes false (invalid_size d B) σ.
Proof.
  intros Hi Hp. apply uwp_bind, uwp_open; [done..|]. intros fd e c p Hi1 Hfd _ _.
  pose proof (opened_chr (mem σ) e c p fd) as Ho. apply uwp_bind.
  eapply uwp_create; [done|exact Ho|by vm_compute|by vm_compute|].
  intros bfd s' ctx _ Hi2 _ Hs. pose proof (chr_open_created _ _ _ _ _ _ _ _ Hs Ho) as Ho2. apply uwp_bind, uwp_bind.
  eapply (uwp_ioctl_refused _ _ _ _ _ _ _ EINVAL); [by rewrite (sys_ioctl_chr _ _ _ _ _ Ho2)|done|].
  apply uwp_ret, uwp_bind. eapply uwp_close_chr; [exact Ho2|done].
Qed.

Lemma invalid_ioctl_passes σ : sys_inv d σ → permitted d AOpen σ → passes false (invalid_ioctl d B) σ.
Proof.
  intros Hi Hp. apply uwp_bind, uwp_open; [done..|]. intros fd e c p Hi1 Hfd _ _.
  pose proof (opened_chr (mem σ) e c p fd) as Ho.
  do 3 (apply uwp_bind, uwp_bind;
    eapply (uwp_ioctl_refused _ _ _ _ _ _ _ EFAULT); [by rewrite (sys_ioctl_chr _ _ _ _ _ Ho)|done|]; apply uwp_ret).
  apply uwp_bind. eapply uwp_close_chr; [exact Ho|done].
Qed.

Lemma large_wait_passes σ : sys_inv d σ → permitted d AOpen σ → passes false (large_wait d B) σ.
Proof.
  intros Hi Hp. apply uwp_bind, uwp_open; [done..|]. intros fd e c p Hi1 Hfd _ _.
  pose proof (opened_chr (mem σ) e c p fd) as Ho.
  do 3 apply uwp_bind. apply uwp_block. eapply (wp_done _ _ 0).
  { rewrite (sys_ioctl_chr _ _ _ _ _ Ho). apply (wait_run _ c (new_ctx d) {| w_cnt := 0xfffffff |}).
    apply lookup_insert_eq. }
  apply uwp_ret, uwp_ret, uwp_bind. eapply (uwp_close_chr _ _ _ c); [done|done].
Qed.

(** A byte past the pages of the buffer. *)
Lemma store_byte_past s p n b buf ptp tbl pp hp arr L i v :
  files s !! p = Some (mkFile FBuffer n (Some b)) → buf_pages s b buf ptp tbl pp hp arr L →
  0 ≤ i → num_pages tbl ≤ i / 4096 → user_store_byte p i v s = Done false s.
Proof.
  intros Hp Hb Hi0 Hle. unfold user_store_byte, user_load, user_page, get_file, fetch, deref, mbind, M_bind.
  rewrite Hp. simpl. rewrite (fault_page _ _ _ _ _ _ _ _ _ (i / 4096) Hb) by dlia. destruct Hb as [_ _ _ Hwf].
  pose proof (page_in_range _ _ _ _ _ _ (i / 4096) Hwf ltac:(dlia)) as Hiff.
  destruct (L !! Z.to_nat (i / 4096)); [|done]. destruct Hiff as [Hlt _]. lapply Hlt; [lia|by eexists].
Qed.

Lemma uwp_overflow_loop a n i buffer base p σ (Q : unit → config → Prop) :
  n ≠ O → mapped_file buffer (i + base) = Some p →
  user_store_byte p (i + base) 0x13 (mem σ) = Done false (mem σ) →
  uwp (overflow_loop n i buffer base) σ Q (ends a).
Proof.
  intros Hn Hm Hs. destruct n as [|n]; [done|]. cbn [overflow_loop]. rewrite Hm. apply uwp_bind, uwp_call.
  eapply wp_done; [exact Hs|]. by left.
Qed.

Lemma overflow_passes σ : sys_inv d σ → permitted d AOpen σ → passes false (overflow d B) σ.
Proof.
  intros Hi Hp. apply uwp_bind, uwp_open; [done..|]. intros fd e c p Hi1 Hfd _ _.
  pose proof (opened_chr (mem σ) e c p fd) as Ho. apply uwp_bind.
  eapply uwp_create; [done|exact Ho|by vm_compute|by vm_compute|].
  intros bfd s' ctx _ Hi2 _ (b & buf & ptp & tbl & pp & hp & arr & L & q & _ & Eb & Hbp & Esz & _ & _ & _ & _ &
    _ & _ & _ & _ & Hq & Ef & _ & Efd & _).
  assert (Hfd' : fds s' !! bfd = Some q) by (rewrite Efd; apply lookup_insert_eq).
  assert (Hq' : files s' !! q = Some (mkFile FBuffer 2 (Some b))) by (rewrite Ef; apply lookup_insert_eq).
  apply uwp_bind. eapply (uwp_map d); [done|exact Hfd'|exact Hq'|]. intros σ' _. apply uwp_bind.
  eapply (uwp_overflow_loop _ _ _ _ _ q); [done|done|].
  eapply (store_byte_past _ q 3 b buf ptp tbl pp hp arr L).
  - apply lookup_insert_eq.
  - destruct Hbp as [? ? ? Hwf]. split; try done. by apply (pt_wf_same s').
  - done.
  - destruct Hbp as [_ _ _ Hwf]. rewrite (ptw_cover _ _ _ _ _ _ Hwf), Esz. by vm_compute.
Qed.


End Refused.

(** ** Commands *)

(** A byte other than the lowest leaves the type of a command alone. *)
Lemma set_byte_type w k v :
  0 ≤ k < 4 → Z.land (u32 (set_byte w k v)) 15 = if k =? 0 then Z.land v 15 else Z.land w 15.
Proof.
  intros Hk. unfold set_byte. change 15 with (Z.ones 4). change 255 with (Z.ones 8).
  apply Z.bits_inj'. intros n Hn.
  assert (Hz : Z.testbit (if k =? 0 then Z.land v (Z.ones 4) else Z.land w (Z.ones 4)) n =
    (if k =? 0 then Z.testbit v n else Z.testbit w n) && (n <? 4)).
  { destruct (k =? 0); rewrite Z.land_spec, Z.testbit_ones by lia;
      destruct (Z.leb_spec 0 n); simpl; done || lia. }
  rewrite Hz, Z.land_spec, u32_testbit, Z.lor_spec, Z.ldiff_spec, !Z.shiftl_spec, Z.land_spec, !Z.testbit_ones by lia.
  destruct (Z.ltb_spec n 4), (Z.leb_spec 0 n), (Z.ltb_spec n 32); simpl; rewrite ?andb_false_r; try done; try lia.
  rewrite !andb_true_r. destruct (Z.eqb_spec k 0) as [->|].
  - simpl. rewrite Z.sub_0_r. destruct (Z.leb_spec 0 n), (Z.ltb_spec n 8); simpl; try lia.
    by rewrite andb_false_r, andb_true_r.
  - destruct (Z.leb_spec 0 (n - 8 * k)); [lia|]. simpl. by rewrite !andb_false_r, andb_true_r, orb_false_r.
Qed.

(** A stream that starts with a word of an unknown type. *)
Lemma bad_stream w ws al : Z.land w 15 = 13 → framed (w :: ws) = true ∧ legal al (w :: ws) = false.
Proof. intros Hw. cbn [framed legal]. change DICEDEV_CMD_TYPE_MASK with 15. by rewrite Hw. Qed.

Section Commands.
Context `{Hardware, Kernel, !HardwareLaws, !KernelLaws}.
Variables (d : ptr) (B : board_model) (a : bool).

(** The first calls of most tests: a set is created and mapped. *)
Lemma uwp_create_map sz al σ O (K : Z → Z → list piece → U Z) Q :
  quiet d σ O → permitted d AOpen σ → 0 ≤ sz ≤ DICEDEV_MAX_BUFFER_SIZE → 0 ≤ al < 2 ^ 32 →
  (size O < Z.to_nat DICEDEV_NUM_SLOTS)%nat →
  (∀ fd c bfd p b F σ', session d σ' (O ∪ {[b]}) fd c false → has_set (mem σ') c bfd p b F al →
     max_size (fp_tbl F) = sz → uwp (K fd bfd [mkPiece p 0 (page_align sz)]) σ' Q (ends a)) →
  uwp (fd ← do_open0 d; bfd ← do_create_buf d B fd sz al; buffer ← map_or_err bfd sz; K fd bfd buffer) σ Q (ends a).
Proof.
  intros Hq Hp Hsz Hal Hn HK. apply uwp_bind. eapply uwp_session_open; [done..|]. intros fd c σ1 Hs1.
  apply uwp_bind. eapply uwp_session_create; [done..|].
  intros bfd p b F σ2 Hs2 Hset Hmax _ _ _. apply uwp_bind. eapply uwp_session_map; [done..|].
  intros σ3 Hs3 _ Hk. eapply HK; [done|by apply Hk|done].
Qed.

(** A set of three pages whose last page is unmapped again. *)
Lemma uwp_prologue al σ O (K : Z → Z → list piece → U Z) Q :
  quiet d σ O → permitted d AOpen σ → 0 ≤ al < 2 ^ 32 → (size O < Z.to_nat DICEDEV_NUM_SLOTS)%nat →
  (∀ fd c bfd p b F σ', session d σ' (O ∪ {[b]}) fd c false → has_set (mem σ') c bfd p b F al →
     max_size (fp_tbl F) = 0x3000 → uwp (K fd bfd [mkPiece p 0 0x2000]) σ' Q (ends a)) →
  uwp (fd ← do_open0 d; bfd ← do_create_buf d B fd 0x3000 al; buffer ← map_or_err bfd 0x3000;
       buffer ← do_munmap buffer 0x2000 0x1000; K fd bfd buffer) σ Q (ends a).
Proof.
  intros Hq Hp Hal Hn HK. apply (uwp_create_map _ _ _ O (λ fd bfd buffer, buffer ← do_munmap buffer 0x2000 0x1000;
    K fd bfd buffer)); [done|done|by vm_compute|done..|].
  intros fd c bfd p b F σ' Hse Hset Hsz. apply uwp_bind. eapply uwp_unmap_part; [done..|]. by eapply HK.
Qed.

Lemma set_page_list s c bfd p b F al n :
  has_set s c bfd p b F al → max_size (fp_tbl F) = 4096 * n → 0 ≤ n ≤ 1024 → Z.of_nat (length (fp_data F)) = n.
Proof.
  intros Hset Hsz Hn. destruct (has_set_pages _ _ _ _ _ _ _ Hset) as [-> _]. rewrite Hsz.
  destruct (pages_for_spec (4096 * n)); [|lia]. change DICEDEV_MAX_BUFFER_SIZE with (4096 * 1024). lia.
Qed.

Lemma uwp_load_dice m σ p b F n i (Q : dice → config → Prop) :
  mapped_set (mem σ) p b F → Z.of_nat (length (fp_data F)) = n →
  0 ≤ i → mapped_file m (8 * i) = Some p → mapped_file m (8 * i + 4) = Some p → 8 * i + 4 < 4096 * n →
  (∀ r, Q r σ) → uwp (load_dice m i) σ Q (ends a).
Proof.
  intros Hset Hlen Hi0 Hm1 Hm2 Hlt HQ. apply uwp_bind.
  eapply uwp_load; [done|lia|done|rewrite Hlen; dlia|]. intros v. apply uwp_bind.
  eapply uwp_load; [done|lia|done|rewrite Hlen; dlia|]. intros t. by apply uwp_ret.
Qed.

Lemma mapped_one p hi i : 0 ≤ i < hi → mapped_file [mkPiece p 0 hi] i = Some p.
Proof.
  intros Hi. unfold mapped_file, in_piece. simpl. by rewrite (proj2 (Z.leb_le 0 i)), (proj2 (Z.ltb_lt i hi)) by lia.
Qed.

(** A loop that keeps [I]. *)
Lemma uwp_for_each (I : Z → config → Prop) n i f σ (Q : unit → config → Prop) E :
  I i σ → (∀ j σ, i ≤ j < i + Z.of_nat n → I j σ → uwp (f j) σ (λ _ σ', I (j + 1) σ') E) →
  (∀ σ, I (i + Z.of_nat n) σ → Q tt σ) → uwp (for_each n i f) σ Q E.
Proof.
  revert i σ. induction n as [|n IH]; intros i σ HI Hf HQ; cbn [for_each].
  - apply uwp_ret, HQ. by rewrite Z.add_0_r.
  - apply uwp_bind. eapply uwp_mono; [apply Hf; [lia|done]|]. intros [] σ' HI'. apply IH; [done|..].
    + intros j σ2 Hj. apply Hf. lia.
    + intros σ2 HI2. apply HQ. by replace (i + Z.of_nat (S n)) with (i + 1 + Z.of_nat n) by lia.
Qed.

(** A loop that only looks at memory. *)
Lemma uwp_for_look n f σ (Q : unit → config → Prop) E :
  (∀ i, 0 ≤ i < Z.of_nat n → uwp (f i) σ (λ _ σ', σ' = σ) E) → Q tt σ → uwp (for_each n 0 f) σ Q E.
Proof.
  intros Hf HQ. eapply (uwp_for_each (λ _ σ', σ' = σ)); [done|..].
  - intros j ? Hj ->. by apply Hf.
  - by intros ? ->.
Qed.

Lemma uwp_assert b σ (Q : unit → config → Prop) : Q tt σ → uwp (assert b) σ Q (ends true).
Proof. intros HQ. destruct b; [done|]. by right; right. Qed.

End Commands.

(** [sets_step Hk σ]: the sets of [σ] are still there. *)
Ltac sets_step Hk σ :=
  repeat match goal with Hs : has_set (mem σ) _ _ _ _ _ _ |- _ => apply Hk in Hs end.

(** [cmd_step]: the next word behind those that are known is stored. *)
Ltac cmd_step :=
  match goal with
  | Hse : session ?d ?σ ?O ?fd ?c ?bad, Hset : has_set (mem ?σ) ?c ?bfd ?p ?b ?F ?al,
    Hw : words_at (mem ?σ) ?F ?off ?ws, Hlen : Z.of_nat (length (fp_data ?F)) = _ |- uwp _ ?σ _ _ =>
      let σ' := fresh "σ" in let Hk := fresh in
      apply uwp_bind; unfold set_cmd;
      eapply (uwp_append d _ _ σ O fd c bad bfd p b F al off ws);
      [exact Hse|exact Hset|exact Hw|reflexivity|reflexivity|rewrite Hlen; reflexivity|];
      intros σ' Hse' Hk Hw' _; sets_step Hk σ; clear Hse Hw Hk; rename Hse' into Hse, Hw' into Hw;
      cbn [app] in Hw
  end.

(** [run_step n]: the first [n] of the known words are run and the tests waits
    for success. *)
Ltac known_run_tac Hw :=
  split; [exact Hw|reflexivity|reflexivity|simpl; lia|
    match goal with Hsz : max_size _ = _ |- _ => rewrite Hsz; lia end|vm_compute; reflexivity].
Ltac run_step HB n :=
  match goal with
  | Hse : session ?d ?σ ?O ?fd ?c false, Hset : has_set (mem ?σ) ?c ?bfd ?p ?b ?F ?al,
    Hw : words_at (mem ?σ) ?F _ ?ws |- uwp _ ?σ _ _ =>
      let σ1 := fresh "σ" in let σ2 := fresh "σ" in let Hqd := fresh in let Hw' := fresh in
      let Hk := fresh in let Hk2 := fresh in let Hws := fresh in let Hse' := fresh in
      apply uwp_bind;
      eapply (uwp_do_run d _ _ _ _ HB σ O fd c bfd p b F al 1 n _ _ ws);
      [exact Hse|exact Hset|set_solver|known_run_tac Hw|];
      intros σ1 Hqd Hk Hw'; sets_step Hk σ; clear Hse Hw Hk;
      apply uwp_bind; eapply (uwp_do_wait d _ _ _ _ HB); [exact Hqd|];
      intros σ2 Hse' Hk2 Hws; rename Hse' into Hse, Hw' into Hw; try (eapply Hws in Hw; [|exact Hset|lia]);
      sets_step Hk2 σ1; clear Hqd Hk2 Hws
  end.
Ltac prologue O :=
  eapply (uwp_prologue _ _ _ _ _ O); [done..|];
  let fd := fresh "fd" in let c := fresh "c" in let bfd := fresh "bfd" in let p := fresh "p" in let b := fresh "b" in
  let F := fresh "F" in let σ1 := fresh "σ" in let Hse := fresh "Hse" in let Hset := fresh "Hset" in
  let Hsz := fresh "Hsz" in let Hlen := fresh "Hlen" in let Hw := fresh "Hw" in
  intros fd c bfd p b F σ1 Hse Hset Hsz;
  pose proof (set_page_list _ _ _ _ _ _ _ 3 Hset Hsz ltac:(lia)) as Hlen;
  assert (Hw : words_at (mem σ1) F 1024 []) by done.
Ltac assert_step :=
  match goal with
  | Hse : session ?d ?σ ?O ?fd ?c ?bad, Hset : has_set (mem ?σ) ?c ?bfd ?p ?b ?F ?al,
    Hlen : Z.of_nat (length (fp_data ?F)) = _ |- uwp _ ?σ _ _ =>
      apply uwp_bind;
      eapply (uwp_load_dice _ _ σ p b F);
      [exact (has_set_mapped _ _ _ _ _ _ _ Hset)|exact Hlen|lia|reflexivity|reflexivity|lia|];
      intros ?; apply uwp_bind, uwp_assert
  end.
Ltac leave_step :=
  match goal with
  | Hse : session ?d ?σ ?O ?fd ?c ?bad, Hset : has_set (mem ?σ) ?c ?bfd ?p ?b ?F ?al |- uwp _ ?σ _ _ =>
      eapply (uwp_leave d _ σ O fd c bad bfd p b F al); [exact Hse|exact Hset|lia|reflexivity]
  end.

Section Commands2.
Context `{Hardware, Kernel, !HardwareLaws, !KernelLaws}.
Variables (d : ptr) (B : board_model).

(** The state in which the tests issue commands: no task in flight, a free
    slot, a board that answers fences with errors ([e]) or without. *)
Variables (σ : config) (O : gset ptr) (k : nat).
Hypothesis (Hq : quiet d σ O) (Hp : permitted d AOpen σ) (Hn : (size O < Z.to_nat DICEDEV_NUM_SLOTS)%nat).

Lemma get_die_passes : board_ok d B (λ _, false) k → passes true (get_die d B) σ.
Proof.
  intros HB. prologue O. do 4 cmd_step. run_step HB 4%nat. do 3 assert_step. leave_step.
Qed.

Lemma get_new_set_passes : board_ok d B (λ _, false) k → passes true (get_new_set d B) σ.
Proof.
  intros HB. prologue O. do 5 cmd_step. run_step HB 5%nat.
  apply uwp_bind, uwp_for_look.
  - intros i Hi. do 2 (apply uwp_bind; eapply uwp_load_dice;
      [by eapply has_set_mapped|done|lia|apply mapped_one; lia|apply mapped_one; lia|lia|]; intros ?). by apply uwp_assert.
  - leave_step.
Qed.

Lemma get_set_tricks_passes : board_ok d B (λ _, false) k → passes true (get_set_tricks d B) σ.
Proof.
  intros HB. prologue O. do 4 cmd_step. run_step HB 4%nat.
  apply uwp_bind, uwp_for_look.
  - intros i Hi. apply uwp_bind; eapply uwp_load_dice;
      [by eapply has_set_mapped|done|lia|apply mapped_one; lia|apply mapped_one; lia|lia|]. intros ?. destruct (i <? 12); by apply uwp_assert.
  - leave_step.
Qed.

Lemma change_seed_passes : board_ok d B (λ _, false) k → passes true (change_seed d B) σ.
Proof.
  intros HB. prologue O. apply uwp_bind. eapply (uwp_session_seed d B); [done..|].
  intros _ σ2 Hse2 Hk _. apply Hk in Hset. clear Hse Hk Hw. rename Hse2 into Hse.
  assert (Hw : words_at (mem σ2) F 1024 []) by done.
  do 4 cmd_step. run_step HB 4%nat. assert_step. leave_step.
Qed.

Lemma page_fault_passes : board_ok d B (λ _, true) k → passes false (page_fault d B) σ.
Proof.
  intros HB. eapply (uwp_create_map _ _ _ _ _ _ O); [done|done|by vm_compute|done..|].
  intros fd c bfd p b F σ1 Hse Hset Hsz.
  pose proof (set_page_list _ _ _ _ _ _ _ 3 Hset Hsz ltac:(lia)) as Hlen.
  assert (Hw : words_at (mem σ1) F 1024 []) by done. do 6 cmd_step.
  apply uwp_bind. eapply (uwp_run_and_fail d _ _ _ _ HB _ _ _ _ _ _ _ _ _ 1 6); [done|done|set_solver|known_run_tac Hw|done|].
  intros σ' Hse2 Hset2. clear Hse Hset. leave_step.
Qed.

Lemma not_allowed_passes : board_ok d B (λ _, false) 1 → passes false (not_allowed d B) σ.
Proof.
  intros HB. prologue O. do 2 cmd_step. run_step HB 2%nat. do 2 cmd_step. run_step HB 2%nat. do 2 cmd_step.
  apply uwp_bind. eapply (uwp_do_run d _ _ _ _ HB _ _ _ _ _ _ _ _ _ 1 6); [done|done|set_solver|known_run_tac Hw|].
  intros σ' Hqd Hk _. apply Hk in Hset. clear Hse Hk. apply uwp_bind.
  eapply (uwp_do_wait_for_err d _ _ _ _ HB); [exact Hqd|].
  intros σ'' Hse3 Hk. apply Hk in Hset. leave_step.
Qed.

Lemma invalid_cmd_passes : board_ok d B (λ _, false) k → passes false (invalid_cmd d B) σ.
Proof.
  intros HB. eapply (uwp_create_map _ _ _ _ _ _ O); [done|done|by vm_compute|done..|].
  intros fd c bfd p b F σ1 Hse Hset Hsz.
  pose proof (set_page_list _ _ _ _ _ _ _ 1 Hset Hsz ltac:(lia)) as Hlen. change (page_align 0x1000) with 4096.
  destruct (has_set_pages _ _ _ _ _ _ _ Hset) as [_ Hbw].
  apply uwp_bind. eapply (uwp_for_each (λ j σ', session d σ' (O ∪ {[b]}) fd c false ∧ has_set (mem σ') c bfd p b F 0 ∧
    length (buffer_words (mem σ') (fp_data F)) = 1024%nat ∧
    (1 ≤ j → ∃ w, buffer_words (mem σ') (fp_data F) !! 0%nat = Some w ∧ Z.land w 15 = 13))).
  - split_and!; [done|done|lia|lia].
  - intros j σ2 Hj (Hse2 & Hset2 & Hl & Hw). eapply uwp_store_byte; [done..|lia|apply mapped_one; lia|dlia|].
    intros w σ3 Hse3 Hk Ew Ebw. split_and!; [done|by apply Hk|by rewrite Ebw, length_insert|].
    intros _. rewrite Ebw. destruct (decide (j < 4)) as [Hj4|].
    + replace (Z.to_nat (j / 4)) with 0%nat in * by dlia. rewrite list_lookup_insert_eq by lia.
      eexists. split; [done|]. rewrite set_byte_type by dlia. destruct (Z.eqb_spec (j mod 4) 0).
      * assert (j = 0) as -> by dlia. done.
      * destruct (Hw ltac:(dlia)) as (w' & Ew' & ?). congruence.
    + rewrite list_lookup_insert_ne by dlia. apply Hw. lia.
  - intros σ2 (Hse2 & Hset2 & Hl & Hw). destruct (Hw ltac:(lia)) as (w & Ew & Hty).
    destruct (buffer_words (mem σ2) (fp_data F)) as [|w' ws] eqn:Ebw; [done|]. injection Ew as ->.
    destruct (bad_stream w (take 3 ws) 0 Hty) as [Hfr Hle]. apply uwp_bind.
    eapply (uwp_run_and_fail d _ _ _ _ HB _ _ _ _ _ _ _ _ _ 0 4 _ _ (w :: take 3 ws)); [done|done|set_solver|..].
    + simpl in Hl. split; [|done|done| |by rewrite Hsz|].
      * unfold words_at. rewrite Ebw. simpl. rewrite length_take. by replace (3 `min` length ws)%nat with 3%nat by lia.
      * simpl. rewrite length_take. lia.
      * change (take 4 (w :: take 3 ws)) with (w :: take 3 (take 3 ws)). by rewrite take_take.
    + change (take 4 (w :: take 3 ws)) with (w :: take 3 (take 3 ws)). rewrite take_take.
      change (3 `min` 3)%nat with 3%nat. by rewrite Hle.
    + intros σ3 Hse3 Hset3. destruct (session_fds _ _ _ _ _ _ _ _ _ _ _ Hse3 Hset3) as (Hp3 & Hne & q & Hqf & Hf).
      destruct Hset3 as [Hbfd _ _]. apply uwp_bind. eapply uwp_close_fd; [done..|]. intros σ4 Hfd4 Hst4.
      apply uwp_bind. eapply uwp_close_fd; [by rewrite Hfd4|by apply Hst4|]. intros σ5 _ _. by apply uwp_ret.
Qed.

Lemma get_sets_passes :
  (Datatypes.S (size O) < Z.to_nat DICEDEV_NUM_SLOTS)%nat → board_ok d B (λ _, false) k → passes true (get_sets d B) σ.
Proof.
  intros Hn2 HB. prologue O. apply uwp_bind. eapply (uwp_session_create d B); [done|by vm_compute|done|..].
  { rewrite size_union_alt. etrans; [|exact Hn2].
    assert (size ({[b]} ∖ O : gset ptr) ≤ 1)%nat; [|lia].
    rewrite <-(size_singleton (C := gset ptr) b). apply subseteq_size. set_solver. }
  intros bfd2 p2 b2 F2 σ2 Hse2 Hset2 Hsz2 Hfr Hk _.
  assert (Hb : b ≠ b2) by (destruct Hset as [_ _ (buf & ? & _)]; congruence). apply Hk in Hset. clear Hse Hk Hw.
  apply uwp_bind. eapply (uwp_session_map d); [exact Hse2|exact Hset2|]. intros σ3 Hse _ Hk. sets_step Hk σ2. clear Hse2 Hk.
  apply uwp_bind. eapply uwp_unmap_part; [done..|].
  apply uwp_bind. eapply (uwp_session_seed d B); [exact Hse|exact Hset2|]. intros _ σ4 Hse2 Hk _. sets_step Hk σ3.
  clear Hse Hk. rename Hse2 into Hse.
  pose proof (set_page_list _ _ _ _ _ _ _ 3 Hset2 Hsz2 ltac:(lia)) as Hlen2.
  assert (Hw : words_at (mem σ4) F2 1024 []) by done. do 4 cmd_step. run_step HB 4%nat.
  clear Hw. match goal with H : session d ?σ _ _ _ _ |- _ => assert (Hw : words_at (mem σ) F 1024 []) by done end.
  do 4 cmd_step. run_step HB 4%nat. do 2 assert_step.
  destruct (session_fds _ _ _ _ _ _ _ _ _ _ _ Hse Hset) as (Hp1 & Hne & q & Hqf & Hf).
  destruct (session_fds _ _ _ _ _ _ _ _ _ _ _ Hse Hset2) as (Hp2 & Hne2 & _).
  destruct Hset as [Hbfd [n1 Hf1] _], Hset2 as [Hbfd2 [n2 Hf2] _]. clear Hse Hw.
  assert (Hne3 : bfd2 ≠ bfd) by (intros ->; simplify_eq).
  apply uwp_bind. eapply uwp_close_fd; [done..|]. intros σa Hfda Hsta. apply uwp_bind.
  apply uwp_unmap_all; [done..|by apply Hsta|]. intros σb Hfdb Hstb. apply uwp_bind.
  eapply uwp_close_fd; [by rewrite Hfdb, Hfda|by apply Hstb, Hsta|]. intros σc Hfdc Hstc. apply uwp_bind.
  apply uwp_unmap_all; [done..|by apply Hstc, Hstb, Hsta|]. intros σd Hfdd Hstd. apply uwp_bind.
  eapply uwp_close_fd; [by rewrite Hfdd, Hfdc, Hfdb, Hfda|by apply Hstd, Hstc, Hstb, Hsta|].
  intros σe _ _. by apply uwp_ret.
Qed.

End Commands2.

(** ** The theorems *)

Section Pass.
Context `{Hardware, Kernel, !HardwareLaws, !KernelLaws}.
Variables (d : ptr) (B : board_model).

(** The device is idle: no task in flight, the work thread may run, and [n]
    slots are free. *)
Definition idle (σ : config) (n : Z) : Prop :=
  tasks (mem σ) = ∅ ∧ ∃ x, devs (mem σ) !! d = Some x ∧ should_stop x = false ∧ should_park x = false ∧
    n ≤ free_slots x.

Lemma idle_quiet σ n :
  sys_inv d σ → idle σ n → 0 ≤ n →
  ∃ O, quiet d σ O ∧ Z.of_nat (size O) + n ≤ DICEDEV_NUM_SLOTS.
Proof.
  intros Hi (Et & x & Hx & Hs & Hpk & Hn) Hn0. exists (list_to_set (occupants (buff_slots x))).
  assert (Hsz : Z.of_nat (size (list_to_set (C := gset ptr) (occupants (buff_slots x)))) + n ≤ DICEDEV_NUM_SLOTS).
  { destruct Hi as (y & [[[Hy _ _ [Hlen Hfree Hent _]] _ _ _] _ _] & _). rewrite Hx in Hy. injection Hy as <-.
    rewrite size_list_to_set.
    - pose proof (occupants_count (buff_slots x)). unfold DICEDEV_NUM_SLOTS in *. lia.
    - apply occupants_nodup. intros i j b' Hbi Hbj.
      destruct (Hent i b' Hbi) as (? & ? & _ & ?), (Hent j b' Hbj) as (? & ? & _ & ?). simplify_eq. lia. }
  split; [|done]. split; try done; [by intros y Hy; simplify_eq..|lia].
Qed.


(** The dice tests (get_die, get_new_set, get_set_tricks, change_seed and
    get_sets, which uses two sets) do not fault, hang or fail in a call.  On an
    idle device, with a board that answers fences and stores nothing but in the
    first page of the sets bound to its slots, each ends with success or stops
    at one of its assertions about the values the board computed; which of the
    two is not said. *)
Theorem dice_tests_run σ :
  reachable d σ → permitted d AOpen σ → idle σ 2 → board_ok d B (λ _, false) 1 →
  passes true (get_die d B) σ ∧ passes true (get_new_set d B) σ ∧ passes true (get_set_tricks d B) σ ∧
  passes true (change_seed d B) σ ∧ passes true (get_sets d B) σ.
Proof.
  intros Hre Hp Hid HB. destruct (idle_quiet σ 2 (reachable_inv d σ Hre) Hid) as (O & Hq & Hn); [done|].
  unfold DICEDEV_NUM_SLOTS in Hn.
  assert (Hlt : (Datatypes.S (size O) < Z.to_nat DICEDEV_NUM_SLOTS)%nat) by (unfold DICEDEV_NUM_SLOTS; lia).
  assert (Hlt1 : (size O < Z.to_nat DICEDEV_NUM_SLOTS)%nat) by lia.
  split_and!; [by eapply get_die_passes|by eapply get_new_set_passes|by eapply get_set_tricks_passes|
    by eapply change_seed_passes|by eapply get_sets_passes].
Qed.

End Pass.
