(* ===== verification/Runs.v ===== *)
(** Checked runs of the system: boolean versions of the guards of the actions
    (sound, not complete), and the execution of a list of actions that checks
    them.  A run that completes ends in a reachable configuration. *)

From S2P Require Import Prelude Cmd Types Utils Slots Pt Task Stream Wt Buffer Base Syscall WtSpec BufferSpec IoctlSpec PciSpec Lifetime Invariant Thread Core Calls Release System Verdict Board Demand Drain.

Section Runs.
Context `{Hardware, Kernel}.
Variable d : ptr.

(** ** Guards *)

(** The words of a run task, read through the page table of its buffer. *)
Definition run_words_of (s : state) (r : dicedev_task_run) : option (list Z) :=
  buf ← bufs s !! cBuff r;
  l ← pages_of s buf;
  Some (take (Z.to_nat (tr_size r / 4)) (drop (Z.to_nat (tr_offset r / PAGE_SIZE) * 1024)
    (concat ((λ pg, match page pg ≫= (dmas s !!.) with Some m => dp_words m | None => [] end) <$> l)))).

Definition well_framedb (s : state) (t : ptr) : bool :=
  match tasks s !! t with
  | None => true
  | Some task =>
      match body task with
      | DICEDEV_TASK_TYPE_WRITE w => match cmds s !! tw_cmd w with Some ws => framed ws | None => true end
      | DICEDEV_TASK_TYPE_RUN r => (0 <? tr_size r) &&
          match run_words_of s r with Some ws => framed ws | None => true end
      end
  end.

Lemma run_words_of_spec s task r ws :
  body task = DICEDEV_TASK_TYPE_RUN r → task_words s task ws → run_words_of s r = Some ws.
Proof.
  intros Eb. unfold task_words. rewrite Eb.
  intros (cbuf & ptp & tbl & pp & hp & arr & L & Hb & Hp & Ht & [_ Ha Hg _ _ _ _ _ _ _] & _ & _ & _ & _ & _ & ->).
  unfold run_words_of, pages_of. rewrite Hb. simpl. rewrite Hp. simpl. rewrite Ht. simpl. rewrite Ha. simpl.
  rewrite Hg. simpl. unfold run_words, buffer_words. do 4 f_equal. rewrite <-list_fmap_compose.
  apply list_fmap_ext. intros i [q h] _. done.
Qed.

Lemma well_framedb_sound s t : well_framedb s t = true → well_framed s t.
Proof.
  unfold well_framedb. intros Hw task Ht. rewrite Ht in Hw. destruct (body task) as [w|r] eqn:Eb.
  - split; [done|]. intros ws. unfold task_words. rewrite Eb. intros (Hc & _). by rewrite Hc in Hw.
  - apply andb_true_iff in Hw as [Hs Hw]. split.
    + intros r' [= <-]. lia.
    + intros ws Hws. by rewrite (run_words_of_spec s task r ws Eb Hws) in Hw.
Qed.

(** The buffer file behind a descriptor. *)
Definition fd_is_bufferb (s : state) (fd : Z) : bool :=
  match fds s !! fd ≫= λ p, files s !! p with
  | Some f => bool_decide (f_kind f = FBuffer)
  | None => false
  end.

Definition counts_ok (s : state) : bool :=
  forallb (λ p, task_count p.2 + 1 <? 2 ^ 64) (map_to_list (ctxs s)).

Definition u32b (v : Z) : bool := (0 <=? v) && (v <? 2 ^ 32).

Definition run_request_okb (s : state) (rc : dicedev_ioctl_run_arg) : bool :=
  fd_is_bufferb s (r_cfd rc) && fd_is_bufferb s (r_bfd rc) &&
  u32b (r_addr rc) && u32b (r_size rc) && counts_ok s.

Definition write_request_okb (s : state) (words : option (list Z)) (count : Z) : bool :=
  counts_ok s &&
  (negb (count mod 4 =? 0) ||
   match words with
   | Some ws => (count =? 4 * Z.of_nat (length ws)) && (count <? 2 ^ 64) &&
       match k_alloc count (live s) (env s) with
       | (Some cmd, e) => match k_alloc sizeof_task ({[cmd]} ∪ live s) e with (Some _, _) => true | _ => false end
       | _ => false
       end
   | None => false
   end).

Definition dueb (s : state) (p : ptr) (k : file_kind) (P : ptr → bool) : bool :=
  bool_decide (p ∈ releasing s) &&
  match files s !! p with
  | Some f => bool_decide (f_kind f = k) && match private_data f with Some c => P c | None => false end
  | None => false
  end.

Definition no_readerb (s : state) (m : references) (c : ptr) : bool :=
  forallb (λ r, match r.2 with
    | Mapped => true
    | Asleep _ =>
        let o := f ← files s !! r.1; b ← private_data f; bufs s !! b in bool_decide (buf_ctx <$> o ≠ Some c)
    end) m.

Definition permittedb (a : action) (σ : config) : bool :=
  let s := mem σ in
  match a with
  | AThread => match wt_next σ with Some t => well_framedb s t | None => true end
  | ADma q i _ => match devs s !! d with
      | Some x => existsb (λ o, match o ≫= λ b, bufs s !! b ≫= pages_of s with
          | Some l => existsb (λ pg, bool_decide (page pg = Some q)) (take 1024 l)
          | None => false end) (buff_slots x)
      | None => false
      end && (0 <=? i) && (i <? 1024)
  | AIrq => match devs s !! d with
      | Some x => let ist := (istatus_of (bar x)).1 in
          negb (intr_error ist || intr_fence ist) || bool_decide (is_Some (running_task x))
      | None => true
      end
  | AOpen => forallb (λ p, bool_decide (is_Some (ctxs s !! buf_ctx p.2))) (map_to_list (bufs s))
  | AIoctl _ cmd arg => negb (cmd =? DICEDEV_IOCTL_RUN) ||
      match ua_run (ia_dev arg) with Some rc => run_request_okb s rc | None => true end
  | AWrite _ words count => write_request_okb s words count
  | AWake p fault => bool_decide ((p, Asleep fault) ∈ refs σ)
  | AMunmap p => bool_decide ((p, Mapped) ∈ refs σ)
  | AStore p i _ => bool_decide ((p, Mapped) ∈ refs σ) && (0 <=? i)
  | AReleaseBuffer p => dueb s p FBuffer (λ _, true)
  | AReleaseMark p => dueb s p FDicedev (λ c, bool_decide (c ∉ marked σ))
  | AReleaseFinish p => dueb s p FDicedev (λ c, bool_decide (c ∈ marked σ) && no_readerb s (refs σ) c)
  | _ => true
  end.

Lemma counts_ok_sound s c ctx :
  counts_ok s = true → ctxs s !! c = Some ctx → task_count ctx + 1 < 2 ^ 64.
Proof.
  unfold counts_ok. rewrite forallb_forall. intros Hall Hc. specialize (Hall (c, ctx)). simpl in Hall.
  apply Z.ltb_lt, Hall. by apply list_elem_of_In, elem_of_map_to_list.
Qed.

Lemma fd_is_bufferb_sound s fd : fd_is_bufferb s fd = true → fd_is_buffer s fd.
Proof.
  unfold fd_is_bufferb. destruct (fds s !! fd) as [p|] eqn:Hfd; [|done]. simpl.
  destruct (files s !! p) as [f|] eqn:Hp; [|done]. intros ?%bool_decide_eq_true. by exists p, f.
Qed.

Lemma run_request_okb_sound s c rc : run_request_okb s rc = true → run_request_ok s c rc.
Proof.
  unfold run_request_okb, u32b. rewrite !andb_true_iff.
  intros [[[[?%fd_is_bufferb_sound ?%fd_is_bufferb_sound] ?] ?] ?].
  split_and!; try done; try lia. intros ctx. by apply counts_ok_sound.
Qed.

Lemma write_request_okb_sound s words count :
  write_request_okb s words count = true → write_request_ok s words count.
Proof.
  unfold write_request_okb. rewrite andb_true_iff. intros [Hc Hw]. split; [|intros c ctx; by apply counts_ok_sound].
  intros H4. rewrite H4 in Hw. simpl in Hw. destruct words as [ws|]; [|done].
  apply andb_true_iff in Hw as [[? ?]%andb_true_iff Hk].
  destruct (k_alloc count (live s) (env s)) as [[cmd|] e] eqn:E1; [|done].
  destruct (k_alloc sizeof_task ({[cmd]} ∪ live s) e) as [[t|] e'] eqn:E2; [|done].
  exists ws, cmd, t. split_and!; [done|lia|lia|]. by exists e, e'.
Qed.

Lemma dueb_sound s p k (P : ptr → bool) (Q : ptr → Prop) :
  (∀ c, P c = true → Q c) → dueb s p k P = true → due s p k Q.
Proof.
  intros HP. unfold dueb. rewrite andb_true_iff, bool_decide_eq_true. intros [Hin Hf]. split; [done|].
  destruct (files s !! p) as [f|]; [|done]. apply andb_true_iff in Hf as [Hk%bool_decide_eq_true Hf].
  destruct (private_data f) as [c|] eqn:Hpd; [|done]. exists f, c. auto.
Qed.

Lemma no_readerb_sound s m c : no_readerb s m c = true → no_reader s m c.
Proof.
  unfold no_readerb. rewrite forallb_forall. intros Hall q fault g b buf Hin Hg Hpd Hb E.
  apply list_elem_of_In, Hall, bool_decide_eq_true in Hin. simpl in Hin. rewrite Hg in Hin. simpl in Hin.
  rewrite Hpd in Hin. simpl in Hin. rewrite Hb in Hin. simpl in Hin. congruence.
Qed.

Lemma permittedb_sound a σ : permittedb a σ = true → permitted d a σ.
Proof.
  destruct a; simpl; try done.
  - intros Hw x t _ Et _ _. rewrite Et in Hw. by apply well_framedb_sound.
  - rewrite !andb_true_iff. intros [[Hw ?] ?]. split; [|lia]. destruct (devs (mem σ) !! d) as [x|]; [|done].
    exists x. split; [done|]. apply existsb_exists in Hw as ([b|] & Hin & Hw); [|done]. simpl in Hw.
    apply list_elem_of_In, list_elem_of_lookup in Hin as [k Hk].
    destruct (bufs (mem σ) !! b) as [buf|] eqn:Hb; [|done]. simpl in Hw.
    destruct (pages_of (mem σ) buf) as [l|] eqn:Hl; [|done].
    apply existsb_exists in Hw as (pg & Hpg%list_elem_of_In & Eq%bool_decide_eq_true).
    apply list_elem_of_lookup in Hpg as [j Hpg]. apply lookup_take_Some in Hpg as [Hpg Hj].
    exists k, b. split; [done|]. by exists buf, l, j, pg.
  - intros Hw x ist h Hx Ei Eb. rewrite Hx, Ei in Hw. simpl in Hw. rewrite Eb in Hw. simpl in Hw.
    apply bool_decide_eq_true in Hw as [t ->]. done.
  - rewrite forallb_forall. intros Hall r s' c _ Hc _ b buf Hb E. specialize (Hall (b, buf)). simpl in Hall.
    assert (Hin : is_Some (ctxs (mem σ) !! buf_ctx buf)).
    { apply (bool_decide_eq_true _), Hall. by apply list_elem_of_In, elem_of_map_to_list. }
    rewrite E, Hc in Hin. by destruct Hin.
  - intros Hw c rc _ -> Er. rewrite Er in Hw. simpl in Hw. by apply run_request_okb_sound.
  - apply bool_decide_eq_true.
  - apply write_request_okb_sound.
  - apply bool_decide_eq_true.
  - rewrite andb_true_iff, bool_decide_eq_true. intros [? ?]. split; [done|lia].
  - by apply dueb_sound.
  - apply dueb_sound. intros c. apply bool_decide_eq_true.
  - apply dueb_sound. intros c [?%bool_decide_eq_true ?%no_readerb_sound]%andb_true_iff. done.
Qed.

(** ** Runs *)

Fixpoint run (l : list action) (σ : config) : option config :=
  match l with
  | [] => Some σ
  | a :: l =>
      if permittedb a σ then
        match act d a σ with
        | Done _ σ' => run l σ'
        | Crash _ => None
        end
      else None
  end.

Lemma run_reachable l σ σ' : reachable d σ → run l σ = Some σ' → reachable d σ'.
Proof.
  revert σ. induction l as [|a l IH]; intros σ Hr; simpl; [by intros [= <-]|].
  destruct (permittedb a σ) eqn:Hp; [|done]. destruct (act d a σ) as [[] σ1|] eqn:Ha; [|done].
  apply IH. destruct Hr as (σ0 & Hb & Hs). exists σ0. split; [done|].
  eapply rtc_r; [done|]. exists a. split; [by apply permittedb_sound|done].
Qed.

End Runs.
