(* ===== verification/Scenarios.v ===== *)
(** Concrete scenarios on the board and kernel of [Bench]: the theorems
    applied to memories built by running the driver's own routines. *)

From S2P Require Import Prelude Cmd Types Bench Utils Slots Pt Task Stream Wt Buffer Base WtSpec BufferSpec IoctlSpec PciSpec.

(** ** Page tables *)

(** One page table, still empty, at address 1. *)
Definition pt_start (e : list bool) : state :=
  (state0 e) <| pts := {[ 1%positive := mkPt (mkPage None 0) None 0 0 ]} |>.

Lemma pt_entry_roundtrip_witness :
  PRESENT (u32 (MAKE_PT_ENTRY 0xABCDEF1000)) = 1 ∧
  entry_addr (u32 (MAKE_PT_ENTRY 0xABCDEF1000)) = 0xABCDEF1000.
Proof. apply pt_entry_roundtrip; [lia|reflexivity]. Defined.

(** The third page allocation fails: the table page and the first data page
    are given back. *)
Lemma pt_init_all_or_nothing_witness :
  ∃ r s', dicedev_pt_init (Some 1%positive) 8192 (pt_start [false; false; false; true]) = Done r s' ∧
    ((r = 0 ∧ ∃ tbl pp hp arr L, pts s' !! 1%positive = Some tbl ∧ max_size tbl = 8192 ∧
        pt_wf s' tbl pp hp arr L ∧
        ∀ p, p ∈ pp :: L.*1 → dmas (pt_start [false; false; false; true]) !! p = None) ∨
     (r = - ENOMEM ∧ dmas s' = dmas (pt_start [false; false; false; true]) ∧
        pgarrs s' = pgarrs (pt_start [false; false; false; true]) ∧
        dom (pts s') = dom (pts (pt_start [false; false; false; true])))).
Proof.
  eapply (pt_init_all_or_nothing 1%positive); [reflexivity|].
  unfold DICEDEV_MAX_BUFFER_SIZE, DICEDEV_PAGE_SIZE. lia.
Defined.

Lemma pt_init_free_roundtrip_witness :
  ∃ s'', dicedev_pt_free (Some 1%positive)
      (exec (dicedev_pt_init (Some 1%positive) 5000) (pt_start [])) = Done tt s'' ∧
    dmas s'' = dmas (pt_start []) ∧ pgarrs s'' = pgarrs (pt_start []).
Proof.
  eapply (pt_init_free_roundtrip 1%positive _ 5000 (pt_start []));
    [reflexivity| |apply exec_run; vm_compute; reflexivity].
  unfold DICEDEV_MAX_BUFFER_SIZE, DICEDEV_PAGE_SIZE. lia.
Defined.

(** ** A session

    A board is probed (device 2), a process opens it (file 100, context 101),
    creates a set of two pages (buffer 102 behind descriptor 3 and file 108)
    and writes four words: GET_DIE of five rolls of die 0x20, NOP, NEW_SET. *)
Definition dev0 : ptr := 2.
Definition ctx0 : ptr := 101.
Definition buf0 : ptr := 102.
Definition chr0 : ptr := 100.
Definition fil0 : ptr := 108.
Definition tsk0 : ptr := 110.
Definition pages0 : list (ptr * Z) :=
  [(106%positive, 4096 * 106); (107%positive, 4096 * 107)].
Definition tbl0 : dicedev_page_table :=
  mkPt (page_of (104%positive, 4096 * 104)) (Some 105%positive) 2 8192.
Definition set_arg : dicedev_ioctl_create_set_arg := {| cs_size := 8192; cs_allowed := 0x24 |}.
Definition words0 : list Z := [0x52; 0x20; 0; 4].

Definition s_probed : state := exec (dicedev_probe (mkBoard 0 ∅)) (state0 []).
Definition s_opened : state :=
  exec (dicedev_open dev0 chr0) (s_probed <| files := {[ chr0 := mkFile FDicedev 1 None ]} |>).
Definition s_set : state := exec (dicedev_ioctl_create_set ctx0 (Some set_arg)) s_opened.
Definition s_written : state := exec (dicedev_buffer_write fil0 (Some words0) 16) s_set.
(** The work thread takes the task, binds the buffer, runs the task. *)
Definition s_taken : state := exec (wt_get_next dev0) s_written.
Definition s_bound : state := exec (wt_bind dev0 tsk0) s_taken.
Definition s_sent : state := exec (wt_run dev0 tsk0) s_bound.
(** The board raises the fence interrupt together with a command error. *)
Definition s_fence : state :=
  let x := default device0 (devs s_sent !! dev0) in
  upd_dev dev0 (x <| bar := mkBoard 0 {[ DICEDEV_INTR := 5; DICEDEV_INTR_ENABLE := 29 ]} |>) s_sent.
Definition s_reached : state := exec (dicedev_isr dev0) s_fence.
Definition s_done : state := exec (wt_finish dev0) s_reached.

(** The parts of a memory that the theorems mention. *)
Definition the_dev (s : state) : dicedev_device := default device0 (devs s !! dev0).
Definition the_ctx (s : state) : dicedev_context := default (mkCtx 1 true 0 []) (ctxs s !! ctx0).
Definition the_buf (s : state) : dicedev_buffer := default zero_buffer (bufs s !! buf0).
Definition the_task (s : state) : dicedev_task :=
  default (write_task 1 1 1 0) (tasks s !! tsk0).

Lemma lookup_default {A} (m : gmap ptr A) p a :
  bool_decide (is_Some (m !! p)) = true → m !! p = Some (default a (m !! p)).
Proof. intros Hb. apply bool_decide_eq_true in Hb as [b ->]. done. Qed.

Lemma the_dev_spec s d :
  (bool_decide (d = dev0) && bool_decide (is_Some (devs s !! dev0))) = true →
  devs s !! d = Some (the_dev s).
Proof.
  rewrite andb_true_iff, !bool_decide_eq_true. intros [-> [x Hx]]. unfold the_dev. by rewrite Hx.
Qed.

(** Evaluation of a closed goal. *)
Ltac conc :=
  lazymatch goal with
  | |- _ !! _ = Some (default _ _) => apply lookup_default; vm_compute; reflexivity
  | |- devs ?s !! _ = Some (the_dev ?s) => apply the_dev_spec; vm_compute; reflexivity
  | |- _ => vm_compute; reflexivity
  end.

(** A decision procedure for [slots_ok] on closed memories. *)
Definition slots_okb (s : state) (d : ptr) (x : dicedev_device) : bool :=
  (length (buff_slots x) =? 16)%nat && (free_slots x =? count_null (buff_slots x)) &&
  forallb (λ i, match buff_slots x !! i with
    | Some (Some b) => match bufs s !! b with
        | Some buf => bool_decide (buf_dev buf = d) && (binded_slot buf =? Z.of_nat i)
        | None => false end
    | _ => true end) (seq 0 16) &&
  forallb (λ p, negb (bool_decide (buf_dev p.2 = d)) ||
    (binded_slot p.2 =? DICEDEV_BUFFER_NO_SLOT) ||
    (0 <=? binded_slot p.2) &&
      bool_decide (buff_slots x !! Z.to_nat (binded_slot p.2) = Some (Some p.1)))
    (map_to_list (bufs s)).

Lemma slots_okb_sound s d x : slots_okb s d x = true → slots_ok s d x.
Proof.
  unfold slots_okb. rewrite !andb_true_iff, !forallb_forall. intros [[[Hl Hf] He] Hb].
  apply Nat.eqb_eq in Hl. split; [done|by apply Z.eqb_eq|..].
  - intros i b Hi. specialize (He i). rewrite Hi in He.
    destruct (bufs s !! b) as [buf|]; cycle 1.
    { lapply He; [done|]. apply in_seq. apply lookup_lt_Some in Hi. lia. }
    exists buf. lapply He; [|apply in_seq; apply lookup_lt_Some in Hi; lia].
    rewrite andb_true_iff, bool_decide_eq_true, Z.eqb_eq. tauto.
  - intros b buf Hbuf Hd. specialize (Hb (b, buf)). simpl in Hb.
    lapply Hb; [|by apply list_elem_of_In, elem_of_map_to_list].
    rewrite bool_decide_eq_true_2 by done. simpl.
    rewrite orb_true_iff, andb_true_iff, Z.eqb_eq, Z.leb_le, bool_decide_eq_true.
    intros [?|[? ?]]; [by left|right]. exists (Z.to_nat (binded_slot buf)). split; [lia|done].
Qed.

Lemma pt_wf0 s :
  pgarrs s !! 105%positive = Some (page_of <$> pages0) →
  (∃ ws, dmas s !! 104%positive = Some (mkDma (4096 * 104) ws) ∧ length ws = 1024%nat ∧
     take 2 ws = entry_of <$> pages0) →
  (∀ q, q ∈ pages0 → ∃ ws, dmas s !! q.1 = Some (mkDma q.2 ws) ∧ length ws = 1024%nat) →
  pt_wf s tbl0 104 (4096 * 104) 105 pages0.
Proof.
  intros Harr (ws & Hpp & Hlen & Htake) Hpages. split; try done.
  - by apply (bool_decide_unpack _).
  - repeat constructor; by vm_compute.
  - exists (mkDma (4096 * 104) ws). split; [done|]. split; [done|]. split; [done|].
    intros i q Hi. simpl. rewrite <-(take_drop 2 ws), Htake.
    apply lookup_app_l_Some. by rewrite list_lookup_fmap, Hi.
  - intros q Hq. destruct (Hpages q Hq) as (ws' & ? & ?). eexists. by split.
Qed.

Ltac solve_pt_wf :=
  apply pt_wf0; [conc|eexists; split; [conc|split; conc]|];
  intros q [->|[->|[]%elem_of_nil]%elem_of_cons]%elem_of_cons; eexists; (split; conc).

Lemma set_pages : buf_pages s_set buf0 (the_buf s_set) 103 tbl0 104 (4096 * 104) 105 pages0.
Proof. split; [conc..|solve_pt_wf]. Qed.

Lemma done_pages : buf_pages s_done buf0 (the_buf s_done) 103 tbl0 104 (4096 * 104) 105 pages0.
Proof. split; [conc..|solve_pt_wf]. Qed.

(** ** Slots and the work thread *)


Lemma runnable_bound :
  runnable s_bound tsk0 (the_task s_bound) (the_ctx s_bound) (the_dev s_bound) (the_buf s_bound).
Proof. split; [conc|conc|conc|conc|conc|by vm_compute|vm_compute; done]. Qed.

Lemma wt_run_task_write_refines_witness :
  ∃ s', __wt_run_task tsk0 s_bound = Done tt s' ∧
    ran s_bound s' tsk0 (the_task s_bound) (the_ctx s_bound) (the_dev s_bound)
      (mkTr [[0x52; 0x20]; [4]] 64 true).
Proof.
  eapply (wt_run_task_write_refines tsk0 s_bound _ _ _ _ (mkTWrite 109 16 0) words0);
    [exact runnable_bound|conc..].
Defined.

(** The same session with a run of the eight bytes at offset 4096. *)
Definition s_run : state :=
  upd_task tsk0 (run_task_of ctx0 buf0 buf0 4096 8) s_bound.

Lemma wt_run_task_run_refines_witness :
  ∃ s', __wt_run_task tsk0 s_run = Done tt s' ∧
    ran s_run s' tsk0 (the_task s_run) (the_ctx s_run) (the_dev s_run) (mkTr [] 0 true).
Proof.
  eapply (wt_run_task_run_refines tsk0 s_run (the_task s_run) (the_ctx s_run) (the_dev s_run)
    (the_buf s_run) (mkTRun buf0 4096 8 None 0 0 0) (the_buf s_run) 103 tbl0 104 (4096 * 104) 105
    pages0); [|conc|conc|conc|conc|solve_pt_wf|vm_compute; done|conc|conc|conc|vm_compute; done|conc].
  split; [conc|conc|conc|conc|conc|by vm_compute|vm_compute; done].
Defined.

(** A write of a single GET_DIE header. *)
Definition s_short : state := exec (wt_bind dev0 tsk0)
  (exec (wt_get_next dev0) (exec (dicedev_buffer_write fil0 (Some [0x52]) 4) s_set)).

Lemma wt_run_task_truncated_overread_witness : __wt_run_task tsk0 s_short = Crash BadAccess.
Proof.
  eapply (wt_run_task_truncated_overread tsk0 s_short (the_task s_short) (the_ctx s_short)
    (the_dev s_short) (the_buf s_short) (mkTWrite 109 4 0) [0x52]); [|conc..].
  split; [conc|conc|conc|conc|conc|by vm_compute|vm_compute; done].
Defined.

Lemma wt_bind_event_safe_witness :
  ∃ slot s', wt_bind dev0 tsk0 s_taken = Done tt s' ∧
    bound_to s_taken s' dev0 (buff_out (the_task s_taken)) (the_dev s_taken) (the_buf s_taken)
      tbl0 slot.
Proof.
  eapply (wt_bind_event_safe s_taken dev0 tsk0 (the_dev s_taken) (the_task s_taken)
    (the_buf s_taken) 103 tbl0); [conc|conc|conc|apply slots_okb_sound; conc|conc..|].
  apply run_eq. eapply (wp_get_event _ _ (the_dev s_taken)); [conc|conc| |split; [conc|reflexivity]].
  intros t [= <-]. by_dec.
Defined.

Lemma wt_exit_stops_iff_idle_witness :
  wt_exit dev0 s_set = Done tt s_set ∧ wt_exit dev0 s_written = Crash SelfDeadlock.
Proof.
  assert (E1 : pending_tasks (the_dev s_set) ++ option_list (running_task (the_dev s_set)) = [])
    by conc.
  assert (E2 : pending_tasks (the_dev s_written) ++ option_list (running_task (the_dev s_written))
    = [tsk0]) by conc.
  split.
  - rewrite (wt_exit_stops_iff_idle s_set dev0 (the_dev s_set)); [|conc|conc|].
    { rewrite E1, bool_decide_eq_true_2 by reflexivity. reflexivity. }
    rewrite E1. intros t []%elem_of_nil.
  - rewrite (wt_exit_stops_iff_idle s_written dev0 (the_dev s_written)); [|conc|conc|].
    { rewrite E2, bool_decide_eq_false_2 by discriminate. reflexivity. }
    rewrite E2. intros t ->%list_elem_of_singleton.
    exists (the_task s_written), (the_ctx s_written). split; [conc|split; conc].
Defined.

Lemma task_destroy_spec_witness :
  ∃ s' x' buf', __task_destroy tsk0 s_reached = Done tt s' ∧
    tasks s' = delete tsk0 (tasks s_reached) ∧ bufs s' = <[buf0 := buf']> (bufs s_reached) ∧
    slots_ok s' dev0 x' ∧ result_count (reader buf') = 64.
Proof.
  edestruct (task_destroy_spec s_reached tsk0 dev0 (the_task s_reached) (the_ctx s_reached)
    (the_buf s_reached) (the_dev s_reached))
    as (s' & x' & buf' & ? & ? & _ & ? & _ & ? & _ & _ & Hr & _).
  { split; [conc..|apply slots_okb_sound; conc]. }
  exists s', x', buf'. split; [done|]. split; [done|]. split; [done|]. split; [done|].
  rewrite Hr. by vm_compute.
Defined.

(** Two more writes: the queue holds three tasks. *)
Definition s_writes : state :=
  exec (dicedev_buffer_write fil0 (Some [0]) 4) (exec (dicedev_buffer_write fil0 (Some [4]) 4) s_set).
Definition s_emptied : state :=
  upd_dev dev0 ((the_dev s_writes) <| pending_tasks := [] |>) s_writes.

Lemma queue_fifo_witness :
  ∃ s' x', (add_tasks [(ctx0, 112%positive); (ctx0, 110%positive)];; take_tasks 2 dev0) s_emptied
      = Done [Some 112%positive; Some 110%positive] s' ∧
    devs s' !! dev0 = Some x' ∧ pending_tasks x' = [].
Proof.
  eapply (queue_fifo dev0 [(ctx0, 112%positive); (ctx0, 110%positive)] s_emptied (the_dev s_emptied));
    [conc|conc|conc|apply slots_okb_sound; conc|conc|].
  intros c t [E|[E|[]%elem_of_nil]%elem_of_cons]%elem_of_cons; simplify_eq;
    (eexists _, _, _; split_and!; conc).
Defined.

(** ** Buffers *)

Lemma vm_fault_in_bounds_witness :
  dicedev_buffer_vm_fault buf0 1 s_set = Done (0, Some 107%positive) s_set ∧
  dicedev_buffer_vm_fault buf0 2 s_set = Done (VM_FAULT_SIGBUS, None) s_set.
Proof.
  split.
  - by destruct (vm_fault_in_bounds _ _ _ _ _ _ _ _ _ 1 set_pages) as [-> _].
  - by destruct (vm_fault_in_bounds _ _ _ _ _ _ _ _ _ 2 set_pages) as [-> _].
Defined.

Lemma done_readable : readable s_done fil0 buf0 (the_buf s_done) (the_dev s_done) pages0.
Proof.
  split; [eexists; split; conc|do 5 eexists; exact done_pages|conc|conc| |intros _; by_dec].
  split; vm_compute; done.
Qed.

Lemma buffer_read_refines_witness :
  dicedev_buffer_read fil0 8 false s_done
    = read_spec s_done buf0 (the_buf s_done) pages0 false ∧
  dicedev_buffer_read fil0 7 false s_done = Done (- EINVAL, None) s_done.
Proof.
  split; by rewrite (buffer_read_refines s_done fil0 buf0 (the_buf s_done) (the_dev s_done) pages0)
    by exact done_readable.
Defined.

Lemma read_dice_in_order_witness :
  read_dice 3 fil0 s_done =
    Done (die_of (buffer_words s_done pages0) <$> [0; 1; 2]%nat)
      (upd_buf buf0 (buf_skip 3 (the_buf s_done)) s_done).
Proof.
  rewrite (read_dice_in_order 3 s_done fil0 buf0 (the_buf s_done) (the_dev s_done) pages0);
    [reflexivity|exact done_readable|vm_compute; done..].
Defined.

Lemma set_writable : writable s_set fil0 buf0 (the_buf s_set) (the_ctx s_set) (the_dev s_set).
Proof. split; [eexists; split; conc|conc..]. Qed.

Lemma buffer_write_enqueues_witness :
  ∃ s', dicedev_buffer_write fil0 (Some words0) 16 s_set = Done 16 s' ∧
    write_accepted s_set s' buf0 (the_buf s_set) (the_ctx s_set) (the_dev s_set) 109 tsk0 words0 16.
Proof.
  apply (buffer_write_enqueues s_set fil0); [exact set_writable|reflexivity|].
  eexists _, _. split; vm_compute; reflexivity.
Defined.

Lemma buffer_write_refused_witness :
  dicedev_buffer_write fil0 (Some words0) 15 s_set = Done (- EINVAL) s_set ∧
  dicedev_buffer_write fil0 None 16 s_set = Crash BadAccess.
Proof.
  destruct (buffer_write_refused s_set fil0 (mkFile FBuffer 2 (Some buf0)) buf0 (the_buf s_set)
    (Some words0) 15) as [H1 _]; [conc..|].
  destruct (buffer_write_refused s_set fil0 (mkFile FBuffer 2 (Some buf0)) buf0 (the_buf s_set)
    None 16) as (_ & _ & H2); [conc..|].
  split; [by apply H1|by eapply H2, set_writable].
Defined.

Lemma buffer_init_destroy_roundtrip_witness :
  ∃ s'', dicedev_buffer_destroy buf0
      (exec (dicedev_buffer_init ctx0 buf0 8192 0x24) (upd_buf buf0 zero_buffer s_opened))
      = Done tt s'' ∧
    pts s'' = pts s_opened ∧ pgarrs s'' = pgarrs s_opened ∧ dmas s'' = dmas s_opened ∧
    devs s'' = devs s_opened.
Proof.
  eapply (buffer_init_destroy_roundtrip s_opened _ ctx0 buf0 (the_ctx s_opened) zero_buffer
    (the_dev s_opened) 8192 0x24); [conc|conc|conc|conc|conc|apply slots_okb_sound; conc|
    vm_compute; done|apply exec_run; conc].
Defined.

(** ** ioctl and interrupts *)

Lemma create_set_all_or_nothing_witness :
  ∃ r s', dicedev_ioctl_create_set ctx0 (Some set_arg) s_opened = Done r s' ∧
    if decide (0 ≤ r) then set_created s_opened s' ctx0 (the_ctx s_opened) set_arg r
    else same_but_files s_opened s' ∧
      (r = - ENOMEM ∧ files s' = files s_opened ∨ file_leaked s_opened s').
Proof.
  pose proof (create_set_all_or_nothing s_opened ctx0 (the_ctx s_opened) (the_dev s_opened)
    (Some set_arg)) as Hc. simpl in Hc. destruct Hc as [_ Hc].
  { split; [conc|conc|conc|conc|apply slots_okb_sound; conc]. }
  apply Hc. split; vm_compute; [split; discriminate|discriminate].
Defined.

(** Run the eight bytes at offset 4096 of the set, results into the set. *)
Definition run_arg : dicedev_ioctl_run_arg :=
  {| r_cfd := 3; r_addr := 4096; r_size := 8; r_bfd := 3 |}.

(** The set and, under descriptor 7, the char device. *)
Definition s_chr_fd : state :=
  (upd_file 120 (mkFile FDicedev 1 (Some ctx0)) s_set) <| fds := <[7 := (120 : ptr)]> (fds s_set) |>.

(** The same set in a process with several threads. *)
Definition s_shared : state := s_set <| env := mkEnv [] true |>.

Lemma run_target0 :
  run_target s_shared ctx0 run_arg buf0 buf0 (the_buf s_set) (the_buf s_set) 103 tbl0
    (the_ctx s_set) (the_dev s_set).
Proof.
  assert (Hfd : fd_buf s_shared 3 buf0) by (eexists _, _; split; [conc|split; conc]).
  split; [exact Hfd|exact Hfd|conc|conc|conc|conc|conc|conc|intros _; conc|conc|..];
    vm_compute; done.
Qed.

(** Both references to the file of the set stay behind. *)
Lemma run_leaks :
  files s_shared !! fil0 = Some (mkFile FBuffer 2 (Some buf0)) ∧
  files (run_borrowed run_arg s_shared) !! fil0 = Some (mkFile FBuffer 4 (Some buf0)).
Proof. split; conc. Qed.

Lemma ioctl_run_spec_witness :
  (∃ s' t, dicedev_ioctl_run ctx0 (Some run_arg) s_shared = Done 0 s' ∧
     run_accepted (run_borrowed run_arg s_shared) s' ctx0 buf0 buf0 run_arg (the_ctx s_set) (the_dev s_set) t) ∨
  (∃ e, dicedev_ioctl_run ctx0 (Some run_arg) s_shared =
     Done (- ENOMEM) ((run_borrowed run_arg s_shared) <| env := e |>)).
Proof.
  pose proof (ioctl_run_spec s_shared ctx0 run_arg buf0 buf0 (the_buf s_set) (the_buf s_set) 103 tbl0
    (the_ctx s_set) (the_dev s_set)) as Hr.
  assert (E : run_refusal ctx0 run_arg (the_buf s_set) (the_buf s_set) tbl0 (the_ctx s_set) = None)
    by conc.
  rewrite E in Hr. apply Hr. exact run_target0.
Defined.

(** A closed descriptor for the commands, one for the output, and the
    descriptor of the char device in place of the commands. *)
Lemma ioctl_run_bad_fd_witness :
  dicedev_ioctl_run ctx0 (Some {| r_cfd := 9; r_addr := 0; r_size := 4; r_bfd := 3 |}) s_set
    = Crash BadAccess ∧
  dicedev_ioctl_run ctx0 (Some {| r_cfd := 3; r_addr := 0; r_size := 4; r_bfd := 9 |}) s_set
    = Crash BadAccess ∧
  dicedev_ioctl_run ctx0 (Some {| r_cfd := 7; r_addr := 0; r_size := 4; r_bfd := 3 |}) s_chr_fd
    = Crash BadAccess.
Proof.
  split; [|split].
  - apply ioctl_run_bad_fd; [conc|left; conc].
  - apply ioctl_run_bad_fd; [conc|right; conc].
  - destruct (ioctl_run_bad_fd s_chr_fd ctx0 {| r_cfd := 7; r_addr := 0; r_size := 4; r_bfd := 3 |}) as [_ Hchr]; [conc|].
    eapply (Hchr 120%positive (mkFile FDicedev 1 (Some ctx0)) ctx0 buf0); [conc..|]. eexists _, _. split; [conc|split; conc].
Defined.

Lemma ioctl_wait_spec_witness :
  dicedev_ioctl_wait ctx0 (Some {| w_cnt := 0 |}) s_written = Crash Sleeps ∧
  dicedev_ioctl_wait ctx0 (Some {| w_cnt := 0 |}) s_done = Done (- EIO) s_done.
Proof.
  split.
  - rewrite (ioctl_wait_spec s_written ctx0 (the_ctx s_written)) by conc.
    replace (task_count (the_ctx s_written)) with 1 by conc. reflexivity.
  - rewrite (ioctl_wait_spec s_done ctx0 (the_ctx s_done)) by conc.
    replace (task_count (the_ctx s_done)) with 0 by conc.
    replace (ctx_failed (the_ctx s_done)) with true by conc. reflexivity.
Defined.

Lemma seed_increment_spec_witness :
  (∃ h, dicedev_ioctl_seed_increment ctx0 (Some {| si_enable_increment := 1 |}) s_set =
    Done 0 (upd_dev (ctx_dev (the_ctx s_set))
      (dev_io h [(DICEDEV_INCREMENT_SEED, 1)] (the_dev s_set)) s_set)) ∧
  dicedev_ioctl_seed_increment ctx0 (Some {| si_enable_increment := 2 |}) s_set
    = Done (- EINVAL) s_set.
Proof.
  split.
  - apply (seed_increment_spec s_set ctx0 (the_ctx s_set) (the_dev s_set)
      {| si_enable_increment := 1 |}); [conc|conc|conc|simpl; lia].
  - apply (seed_increment_spec s_set ctx0 (the_ctx s_set) (the_dev s_set)
      {| si_enable_increment := 2 |}); [conc|conc|conc|simpl; lia].
Defined.

(** Fence and command error together. *)
Lemma isr_spec_witness :
  ∃ h, dicedev_isr dev0 s_fence = Done true (upd_dev dev0 (dev_interrupted h 5 (the_dev s_fence))
    (upd_ctx (task_ctx (the_task s_fence))
      ((the_ctx s_fence) <| ctx_failed := ctx_failed (the_ctx s_fence) || intr_error 5 |>) s_fence)).
Proof.
  eapply (isr_spec dev0 s_fence (the_dev s_fence) 5 (bar (the_dev s_fence)) tsk0
    (the_task s_fence) (the_ctx s_fence)); [conc|conc|reflexivity|conc..].
Defined.

(** The same interrupt with nothing running. *)
Definition s_stray : state :=
  upd_dev dev0 ((the_dev s_set)
    <| bar := mkBoard 0 {[ DICEDEV_INTR := 5; DICEDEV_INTR_ENABLE := 29 ]} |>) s_set.

Lemma isr_idle_bug_witness : dicedev_isr dev0 s_stray = Crash Bug.
Proof.
  eapply (isr_idle_bug dev0 s_stray (the_dev s_stray) 5 (bar (the_dev s_stray)));
    [conc|conc|reflexivity|conc..].
Defined.

(** ** Bringing devices up and down *)

Lemma state0_module_ok e : module_ok (state0 e).
Proof.
  split; simpl.
  - reflexivity.
  - by intros d r ?%elem_of_nil.
  - intros b buf. by rewrite lookup_empty.
Qed.

Lemma probe_outcomes_witness :
  ∃ r s', dicedev_probe (mkBoard 0 ∅) (state0 [false; false; false; true]) = Done r s' ∧
    probe_end (state0 [false; false; false; true]) s' r.
Proof. apply (probe_outcomes (state0 _)), state0_module_ok. Defined.

Definition board0 : @hw bench_hw := mkBoard 0 ∅.

Lemma remove_idle_gives_back_witness :
  dicedev_remove dev0 (probing (state0 []) dev0 0 (mkEnv [] false) (probed_device 0 board0) device_resources)
    = Done tt (state0 []).
Proof.
  apply (remove_idle_gives_back (state0 []) dev0 0 (mkEnv [] false) (probed_device 0 board0));
    [conc|conc|intros r; apply not_elem_of_nil|conc..].
Defined.

Lemma init_exit_roundtrip_witness :
  ∃ r s', dicedev_init (state0 []) = Done r s' ∧
    if decide (r = 0)
    then held s' = holding None [RPciDriver; RClass; RChrdevRegion] [] ∧
         ∃ s'', dicedev_exit s' = Done tt s'' ∧ held s'' = []
    else held s' = [].
Proof. apply (init_exit_roundtrip (state0 [])). intros r. apply not_elem_of_nil. Defined.

Lemma suspend_parks_resume_continues_witness :
  ∃ s1 x1 s2 x2 e,
    dicedev_suspend dev0 s_taken = Done 0 s1 ∧ devs s1 !! dev0 = Some x1 ∧ wt_sleeping x1 = false ∧
    mmio x1 = mmio (the_dev s_taken) ++ [(DICEDEV_INTR_ENABLE, 0); (DICEDEV_ENABLE, 0)] ∧
    __wt_get_event (mkWt dev0 (Some tsk0)) s1 = Done WT_PARK s1 ∧
    dicedev_resume dev0 s1 = Done 0 s2 ∧ devs s2 !! dev0 = Some x2 ∧
    mmio x2 = mmio x1 ++ [(DICEDEV_INTR_ENABLE, u32 DICEDEV_ACTIVE_INTR); (DICEDEV_ENABLE, 1)] ∧
    __wt_get_event (mkWt dev0 (Some tsk0)) s_taken = Done e s_taken ∧
    __wt_get_event (mkWt dev0 (Some tsk0)) s2 = Done e s2.
Proof.
  apply (suspend_parks_resume_continues s_taken dev0 (the_dev s_taken) (Some tsk0)); [conc..|].
  intros t [= <-]. by_dec.
Defined.
