(* ===== verification/Sessions.v ===== *)
(** Concrete runs of the whole system on the board and kernel of [Bench]: the
    theorems about reachable configurations applied to sessions of one and of
    two processes. *)

From Stdlib Require Import String.
From S2P Require Import Prelude Cmd Types Bench Utils Slots Pt Task Stream Wt Buffer Base Syscall WtSpec BufferSpec IoctlSpec PciSpec Lifetime Invariant Thread Core Calls Release System Verdict Board Demand Drain User UserSpec Process Tests TestSpec Runs Scenarios.

(** ** Runs from the probe on *)

Definition boot0 : config := mkConfig s_probed None [] [].

Lemma boot0_booted : booted dev0 boot0.
Proof.
  apply (booted_intro dev0 (state0 []) board0 0).
  - apply state0_module_ok.
  - by split.
  - done.
  - apply (exec_run (dicedev_probe board0) (state0 []) 0). vm_compute. reflexivity.
  - exists (the_dev s_probed). split; conc.
Qed.

(** The configuration after [l]; reachable when the run completes. *)
Definition after (l : list action) : config := default boot0 (run dev0 l boot0).

Lemma after_reachable l : bool_decide (is_Some (run dev0 l boot0)) = true → reachable dev0 (after l).
Proof.
  intros [σ Hr]%bool_decide_eq_true. unfold after. rewrite Hr. simpl.
  eapply (run_reachable dev0 l boot0); [|done]. exists boot0. split; [apply boot0_booted|done].
Qed.

Definition new_set (size : Z) : ioctl_arg :=
  mkIoctlArg (mkArg (Some {| cs_size := size; cs_allowed := 0x24 |}) None None None) None.
(** The board has reached the fence. *)
Definition fence_irq : board := mkBoard 0 {[ DICEDEV_INTR := 1; DICEDEV_INTR_ENABLE := 29 ]}.

(** *** A board that stores dice *)

(** The first pages of the sets bound to slots. *)
Definition bound_sets (s : state) (x : dicedev_device) : list (ptr * dicedev_buffer) :=
  omap (λ o, b ← o; buf ← bufs s !! b; l ← pages_of s buf; pg ← l !! 0%nat; q ← page pg; Some (q, buf)) (buff_slots x).

Definition dice_stores (q : ptr) (l : list dice) : list (ptr * Z * Z) :=
  concat (imap (λ i r, [(q, 2 * Z.of_nat i, d_value r); (q, 2 * Z.of_nat i + 1, d_type r)]) (take 512 l)).

(** Once no task waits, the board stores the dice [roll] in the sets that are
    bound; it raises its interrupt in state [h] if a fence was sent. *)
Definition sample_board (h : @hw bench_hw) (roll : dicedev_buffer → list dice) : board_model :=
  mkBoardModel (λ σ,
    match devs (mem σ) !! dev0 with
    | Some x => if decide (fence_due (mmio x)) then h else bar x
    | None => h
    end) (λ σ,
    match devs (mem σ) !! dev0 with
    | Some x =>
        if decide (waiting x (wt_next σ) = [])
        then concat ((λ p, dice_stores p.1 (roll p.2)) <$> bound_sets (mem σ) x) else []
    | None => []
    end).

Lemma dice_stores_in q l e : e ∈ dice_stores q l → e.1.1 = q ∧ 0 ≤ e.1.2 < 1024.
Proof.
  unfold dice_stores. intros (k & Hin & Hk)%list_elem_of_In%in_concat.
  apply list_elem_of_In, elem_of_lookup_imap in Hin as (i & r & -> & Hi). apply list_elem_of_In in Hk.
  apply lookup_lt_Some in Hi. rewrite length_take in Hi.
  apply elem_of_cons in Hk as [->|[->|[]%elem_of_nil]%elem_of_cons]; simpl; lia.
Qed.

Lemma sample_board_ok h roll ist h' :
  istatus_of h = (ist, h') → intr_fence ist = true →
  board_ok dev0 (sample_board h roll) (λ _, intr_error ist) 1.
Proof.
  intros Eh Ef. split; [lia|intros σ x t _ Hx _ Hdue; simpl; rewrite Hx, decide_True by done; by exists ist, h'|].
  intros σ x q i v _ Hx. simpl. rewrite Hx. case_decide as Hw; [|by intros ?%elem_of_nil].
  intros (l & Hl & Hin)%list_elem_of_In%in_concat. apply list_elem_of_In, list_elem_of_fmap in Hl as ([q' buf] & -> & Hb).
  apply list_elem_of_In, dice_stores_in in Hin as [Eq Hi]. simpl in Eq, Hi. subst q'.
  rewrite Hw. split_and!; [|lia..|intros t []%elem_of_nil].
  unfold bound_sets in Hb. apply list_elem_of_omap in Hb as ([b|] & Hs & E); [|done]. simpl in E.
  apply list_elem_of_lookup in Hs as [n Hs]. exists n, b. split; [done|].
  destruct (bufs (mem σ) !! b) as [buf'|] eqn:Hb; [|done]. simpl in E.
  destruct (pages_of (mem σ) buf') as [l'|] eqn:Hl'; [|done]. simpl in E.
  destruct (l' !! 0%nat) as [pg|] eqn:Hpg; [|done]. simpl in E. destruct (page pg) as [q'|] eqn:Hq; [|done].
  simplify_eq/=. exists buf, l', 0%nat, pg. split_and!; try done. lia.
Qed.

(** Ten dice with the value and type of the set. *)
Definition steady (v t : Z) : dicedev_buffer → list dice := λ _, replicate 10 {| d_value := v; d_type := t |}.
Definition board1 : board_model := sample_board fence_irq (steady 3 5).

Lemma board1_ok : board_ok dev0 board1 (λ _, false) 1.
Proof. by eapply (sample_board_ok _ _ 1). Qed.

(** ** A process maps a set *)

(** The char device is descriptor 3, the set of two pages descriptor 4; its
    file 11 is mapped. *)
Definition mapped : config :=
  after [AOpen; AIoctl 3 DICEDEV_IOCTL_CREATE_SET (new_set 8192); AMmap 4].

Lemma mapped_reachable : reachable dev0 mapped.
Proof. apply after_reachable. vm_compute. reflexivity. Qed.

Lemma reachable_safe_witness :
  act dev0 (AStore 11 5 7) mapped = Crash Sleeps ∨
  ∃ σ', act dev0 (AStore 11 5 7) mapped = Done tt σ' ∧ sys_inv dev0 σ'.
Proof.
  apply (reachable_safe dev0 mapped (AStore 11 5 7) mapped_reachable).
  apply permittedb_sound. vm_compute. reflexivity.
Defined.

Lemma reachable_well_typed_witness : well_typed dev0 mapped.
Proof. apply (reachable_well_typed dev0 mapped mapped_reachable). Defined.

(** Word 1500 is on the second page. *)
Lemma mapping_store_confined_witness :
  ∃ f b buf F ok s', files (mem mapped) !! 11%positive = Some f ∧ private_data f = Some b ∧
    bufs (mem mapped) !! b = Some buf ∧ has_table (mem mapped) (life_of buf) F ∧
    user_store 11 1500 7 (mem mapped) = Done ok s' ∧
    (if ok then 1500 / 1024 < Z.of_nat (length (fp_data F)) ∧
               buffer_words s' (fp_data F) = <[1500%nat := 7]> (buffer_words (mem mapped) (fp_data F))
     else Z.of_nat (length (fp_data F)) ≤ 1500 / 1024 ∧ s' = mem mapped) ∧
    ∀ b' buf' G, bufs (mem mapped) !! b' = Some buf' → has_table (mem mapped) (life_of buf') G →
      dmas s' !! fp_page G = dmas (mem mapped) !! fp_page G ∧
      (b' ≠ b → ∀ q, q ∈ fp_pages G → dmas s' !! q = dmas (mem mapped) !! q).
Proof.
  apply (mapping_store_confined dev0 mapped 11 1500 7 mapped_reachable); [by_dec|lia].
Defined.

(** ** A reader that sleeps

    One thread of a process writes a command to the set and reads: there is no
    result yet, and the reader goes to sleep.  Another one closes the char
    device; the task is run and finished. *)
Definition asleep : config :=
  after [AOpen; AIoctl 3 DICEDEV_IOCTL_CREATE_SET (new_set 8192); AWrite 4 (Some [0]) 4; ARead 4 8 false;
         AClose 3; AReleaseMark 3; AThread; AThread; AThread; AThread; ABoard fence_irq; AIrq; AThread].

Lemma asleep_reachable : reachable dev0 asleep.
Proof. apply after_reachable. vm_compute. reflexivity. Qed.

(** Woken up in time, the reader finds nothing to read. *)
Lemma asleep_wakes : refs <$> run dev0 [AWake 11 false; AReleaseFinish 3] asleep = Some [].
Proof. conc. Qed.

Lemma sleeping_reader_freed_witness :
  ∃ σ', act dev0 (AReleaseFinish 3) asleep = Done tt σ' ∧ act dev0 (AWake 11 false) σ' = Crash BadAccess.
Proof.
  eapply (sleeping_reader_freed dev0 asleep 3 _ 4 _ 11 false _ _ _ asleep_reachable);
    [by_dec|conc|conc|conc|by_dec|conc|conc|by_dec|conc|conc|conc|conc].
Defined.

(** ** Two writes *)

Definition two_writes : config :=
  after [AOpen; AIoctl 3 DICEDEV_IOCTL_CREATE_SET (new_set 8192);
         AWrite 4 (Some words0) 16; AWrite 4 (Some [4]) 4; AThread].

Lemma two_writes_reachable : reachable dev0 two_writes.
Proof. apply after_reachable. vm_compute. reflexivity. Qed.

Lemma reachable_accounting_witness :
  (∀ c ctx, ctxs (mem two_writes) !! c = Some ctx →
     task_count ctx = count (mem two_writes) c (in_flight (the_dev (mem two_writes)) (wt_next two_writes))) ∧
  NoDup (in_flight (the_dev (mem two_writes)) (wt_next two_writes)) ∧
  (∀ t, t ∈ in_flight (the_dev (mem two_writes)) (wt_next two_writes) ↔ is_Some (tasks (mem two_writes) !! t)) ∧
  (fence_state (the_dev (mem two_writes)) = DICEDEV_FENCE_STATE_NONE ↔
   running_task (the_dev (mem two_writes)) = None) ∧
  slock (the_dev (mem two_writes)) = false ∧ feed_lock (the_dev (mem two_writes)) = false.
Proof. apply (reachable_accounting dev0 two_writes); [apply two_writes_reachable|conc]. Defined.

(** A boolean version of [drainable]. *)
Definition drainableb (s : state) (x : dicedev_device) (nt : option ptr) : bool :=
  negb (should_stop x) && negb (should_park x) &&
  (negb (wt_sleeping x) || bool_decide (fence_state x = DICEDEV_FENCE_STATE_WAITING)) &&
  (size (demand s x nt) <=? Z.to_nat DICEDEV_NUM_SLOTS)%nat && forallb (well_framedb s) (waiting x nt).

Lemma drainableb_sound s x nt : drainableb s x nt = true → drainable s x nt.
Proof.
  unfold drainableb. rewrite !andb_true_iff, !negb_true_iff, orb_true_iff, bool_decide_eq_true, negb_true_iff.
  intros [[[[? ?] Hw] Hn%Nat.leb_le] Hf]. split; [done|destruct Hw; congruence|done|].
  intros t Ht. apply well_framedb_sound. rewrite forallb_forall in Hf. by apply Hf, list_elem_of_In.
Qed.

Lemma two_writes_drainable : drainable (mem two_writes) (the_dev (mem two_writes)) (wt_next two_writes).
Proof. apply drainableb_sound. vm_compute. reflexivity. Qed.

Lemma queue_drains_witness :
  ∃ σ', drive dev0 (7 * length (pending_tasks (the_dev (mem two_writes))) + 10) board1 two_writes = Done tt σ' ∧
    tasks (mem σ') = ∅ ∧ ∀ c ctx, ctxs (mem σ') !! c = Some ctx → task_count ctx = 0.
Proof.
  eapply (queue_drains dev0 two_writes (the_dev (mem two_writes)) board1 (λ _, false) 1);
    [apply two_writes_reachable|conc|apply two_writes_drainable|apply board1_ok].
Defined.

(** *** A good and a bad client

    Contexts 4 and 6; the second submits a command that does not exist. *)
Definition two_clients : config :=
  after [AOpen; AOpen; AIoctl 3 DICEDEV_IOCTL_CREATE_SET (new_set 4096); AIoctl 4 DICEDEV_IOCTL_CREATE_SET (new_set 4096);
         AWrite 5 (Some words0) 16; AWrite 6 (Some [13]) 4; AThread].

Lemma two_clients_reachable : reachable dev0 two_clients.
Proof. apply after_reachable. vm_compute. reflexivity. Qed.

Definition bad_client_task : dicedev_task := mkTask (DICEDEV_TASK_TYPE_WRITE (mkTWrite 21 4 0)) 6 0 13.

Lemma bad_client : condemned (λ _, false) (mem two_clients) (the_dev (mem two_clients)) (wt_next two_clients) 6.
Proof.
  right. right. exists 22%positive. split; [by_dec|]. exists bad_client_task. split_and!; [conc|done|right].
  exists (default (mkBuf None 1 1 None false 0 false 0 0 0 (mkReader 0 0)) (bufs (mem two_clients) !! 13%positive)), [13].
  split_and!; [conc| |by vm_compute]. split_and!; [conc|done|done].
Qed.

Lemma good_client : ¬ condemned (λ _, false) (mem two_clients) (the_dev (mem two_clients)) (wt_next two_clients) 4.
Proof.
  intros [(ctx & Hc & Hf)|[(t & task & Hf & _)|(t & Hin & task & Ht & Hc & [Hf|(buf & ws & Hb & Hw & Hl)])]].
  - assert (E : ctx_failed <$> ctxs (mem two_clients) !! 4%positive = Some false) by conc.
    rewrite Hc in E. simpl in E. congruence.
  - assert (E : fence_state (the_dev (mem two_clients)) = DICEDEV_FENCE_STATE_NONE) by conc. congruence.
  - done.
  - assert (Hq : waiting (the_dev (mem two_clients)) (wt_next two_clients) = [20; 22]%positive) by conc. rewrite Hq in Hin.
    apply elem_of_cons in Hin as [->|[->|[]%elem_of_nil]%elem_of_cons].
    + assert (Et : tasks (mem two_clients) !! 20%positive = Some (mkTask (DICEDEV_TASK_TYPE_WRITE (mkTWrite 19 16 0)) 4 0 7)) by conc.
      rewrite Ht in Et. injection Et as ->. destruct Hw as (Hw & _).
      assert (Ew : cmds (mem two_clients) !! 19%positive = Some words0) by conc. simpl in Hw. rewrite Hw in Ew. injection Ew as ->.
      assert (Eb : allowed <$> bufs (mem two_clients) !! 7%positive = Some 0x24) by conc.
      simpl in Hb. rewrite Hb in Eb. injection Eb as Ea. rewrite Ea in Hl. vm_compute in Hl. discriminate Hl.
    + assert (Et : tasks (mem two_clients) !! 22%positive = Some bad_client_task) by conc. rewrite Ht in Et.
      injection Et as ->. discriminate Hc.
Qed.

(** The wait of the first client returns 0, that of the second -EIO. *)
Lemma drain_verdict_witness :
  ∃ σ', drive dev0 (7 * length (pending_tasks (the_dev (mem two_clients))) + 10) board1 two_clients = Done tt σ' ∧
    kept 1 (mem two_clients) (mem σ') ∧
    dicedev_ioctl_wait 4 (Some {| w_cnt := 0 |}) (mem σ') = Done 0 (mem σ') ∧
    dicedev_ioctl_wait 6 (Some {| w_cnt := 0 |}) (mem σ') = Done (- EIO) (mem σ').
Proof.
  destruct (drain_verdict dev0 two_clients (the_dev (mem two_clients)) board1 (λ _, false) 1) as (σ' & Hrun & Hk & Hv);
    [apply two_clients_reachable|conc|apply drainableb_sound; vm_compute; reflexivity|apply board1_ok|].
  exists σ'. split_and!; [done..| |].
  - apply (Hv 4%positive 0); [by_dec|done|apply good_client].
  - apply (Hv 6%positive 0); [by_dec|done|apply bad_client].
Defined.

(** ** All slots taken

    Two processes open the device (contexts 4 and 6); the first fills its 16
    sets, which keeps 16 slots bound; the second writes to a set of its own
    (buffer 135, task 142), for which no slot is left: the thread sleeps.  The
    first process closes the device. *)
Definition one_task : list action :=
  [AThread; AThread; AThread; AThread; ABoard fence_irq; AIrq; AThread].
Definition fill_slots : list action :=
  [AOpen; AOpen] ++
  concat ((λ i, [AIoctl (if (i <? 16)%nat then 3 else 4) DICEDEV_IOCTL_CREATE_SET (new_set 4096);
                 AWrite (Z.of_nat (5 + i)) (Some [0]) 4]) <$> seq 0 17) ++
  AThread :: concat (replicate 16 one_task) ++ [AThread; AClose 3; AReleaseMark 3].
Definition full : config := after fill_slots.

Lemma full_reachable : reachable dev0 full.
Proof. apply after_reachable. vm_compute. reflexivity. Qed.

Definition full_rest : list ptr := [119; 111; 103; 95; 87; 79; 71; 63; 55; 47; 39; 31; 23; 15; 7]%positive.

Lemma full_closing : closing (mem full) (marked full) 4 3 (mkFile FDicedev 0 (Some 4%positive)) (127%positive :: full_rest).
Proof.
  split; [by_dec| |by_dec|split_and!; conc].
  exists (mkCtx 2 false 0 (127%positive :: full_rest)). split_and!; conc.
Qed.

Lemma close_buffer_lost_wakeup_witness :
  event_of (the_dev (mem full)) (out_slot (mem full) 142) = WT_NO_EVENT ∧
  ∃ s' x', close_buffer dev0 4 127 full_rest (mem full) = Done tt s' ∧ devs s' !! dev0 = Some x' ∧
    free_slots x' = 1 ∧ event_of x' (out_slot s' 142) = WT_EVENT_TASK_BIND_SLOT ∧ wt_sleeping x' = true.
Proof.
  destruct (reachable_inv dev0 full full_reachable) as (x & Hi & _).
  assert (Ex : x = the_dev (mem full)).
  { destruct (inv_locks _ _ _ _ _ _ Hi) as (Hd & _). unfold the_dev. by rewrite Hd. }
  assert (En : wt_next full = Some 142%positive) by conc. rewrite Ex, En in Hi.
  eapply (close_buffer_lost_wakeup dev0 (mem full) _ 142 _ _ 4 3 _ 127 full_rest _ Hi full_closing);
    [conc|vm_compute; discriminate|conc..].
Defined.

(** ** The tests on a freshly probed device *)

Lemma boot0_reachable : reachable dev0 boot0.
Proof. exists boot0. split; [apply boot0_booted|done]. Qed.


Lemma boot0_open : permitted dev0 AOpen boot0.
Proof. apply permittedb_sound. vm_compute. reflexivity. Qed.

Lemma boot0_idle n : n ≤ 16 → idle dev0 boot0 n.
Proof. intros Hn. split; [conc|]. exists (the_dev (mem boot0)). split_and!; [conc|conc|conc|exact Hn]. Qed.

(** The board reports a memory error. *)
Definition error_irq : board := mkBoard 0 {[ DICEDEV_INTR := 9; DICEDEV_INTR_ENABLE := 29 ]}.


Lemma dice_tests_run_witness :
  passes true (get_die dev0 board1) boot0 ∧ passes true (get_new_set dev0 board1) boot0 ∧
  passes true (get_set_tricks dev0 board1) boot0 ∧ passes true (change_seed dev0 board1) boot0 ∧
  passes true (get_sets dev0 board1) boot0.
Proof.
  exact (dice_tests_run dev0 board1 boot0 boot0_reachable boot0_open (boot0_idle 2 ltac:(lia)) board1_ok).
Defined.
