(* ===== verification/Interrupts.v ===== *)
(** Concrete executions in which system calls, interrupts and the board come in
    between the steps of the work thread: checked runs in small steps, and the
    theorems of Preempt.v and Races.v applied to a session on the board and
    kernel of [Bench]. *)

From stdpp Require Import relations.
From S2P Require Import Prelude Cmd Types Bench Utils Slots Pt Task Partial Stream Wt Buffer Base Syscall WtSpec BufferSpec IoctlSpec PciSpec Lifetime Invariant Thread Core Calls Release System Preempt Issued PreemptSpec Races Verdict Board Demand Drain User UserSpec Process Tests TestSpec Runs Scenarios Sessions.

Section Moves.
Context `{Hardware, Kernel}.
Variable d : ptr.

(** ** Checked runs in small steps *)

Inductive move :=
  | MThread                       (** a step of the thread *)
  | MIrq                          (** the interrupt handler *)
  | MAct (a : action).            (** a system call, or the board *)

Definition mover (a : move) : actor :=
  match a with MThread => TheThread | MIrq => TheHandler | MAct _ => TheWorld end.

(** Boolean versions of the guards. *)
Definition step_okb (p : pc) (s : state) : bool :=
  match p with
  | Begun f _ =>
      match body <$> tasks s !! fr_task f with Some (DICEDEV_TASK_TYPE_RUN r) => 0 <? tr_size r | _ => true end
  | Running f n =>
      match dicedev_task_get_next_word (fr_task f) s with
      | Done c0 _ => negb (Z.land c0 DICEDEV_CMD_TYPE_MASK =? DICEDEV_USER_CMD_TYPE_GET_DIE) || (8 <=? n)
      | Crash _ => true
      end
  | _ => true
  end.

Definition irq_okb (p : pc) (s : state) : bool :=
  match devs s !! d with
  | Some x =>
      let ist := (istatus_of (bar x)).1 in
      let running := bool_decide (is_Some (running_task x)) in
      implb (intr_fence ist) (running && negb (fence_reset p)) &&
      implb (intr_error ist) (running && negb (task_gone p))
  | None => true
  end.

Lemma step_okb_sound p s : step_okb p s = true → step_ok p s.
Proof.
  destruct p; try done; simpl.
  - intros Hb task r Ht Eb. rewrite Ht in Hb. simpl in Hb. rewrite Eb in Hb. lia.
  - intros Hb c0 s' E Eg. rewrite E in Hb. apply orb_true_iff in Hb as [Hb|Hb]; [|lia].
    apply negb_true_iff, Z.eqb_neq in Hb. done.
Qed.

Lemma irq_okb_sound p s : irq_okb p s = true → irq_ok d p s.
Proof.
  unfold irq_okb. intros Hb x ist h Hd E. rewrite Hd, E in Hb. simpl in Hb.
  apply andb_true_iff in Hb as [Hf He].
  split; intros Ei; [rewrite Ei in Hf|rewrite Ei in He]; simpl in *;
    [apply andb_true_iff in Hf as [[t ->]%bool_decide_eq_true ?%negb_true_iff]
    |apply andb_true_iff in He as [[t ->]%bool_decide_eq_true ?%negb_true_iff]]; done.
Qed.

Definition ended {S A} (r : outcome S A) : option (A * S) :=
  match r with Done a s => Some (a, s) | Crash _ => None end.

Definition take_move (a : move) (c : pc * config) : option (pc * config) :=
  let (p, σ) := c in
  match a with
  | MThread => if step_okb p (mem σ) then ended (lift (wt_step d p) σ) else None
  | MIrq => if irq_okb p (mem σ) then r ← ended (act d AIrq σ); Some (p, r.2) else None
  | MAct a => if may_come p a && permittedb d a σ then r ← ended (act d a σ); Some (p, r.2) else None
  end.

Lemma take_move_fine a c c' : take_move a c = Some c' → fine d (mover a) c c'.
Proof.
  destruct c as [p σ]. destruct a as [| |a]; unfold take_move, mover.
  - destruct (step_okb p (mem σ)) eqn:Hb; [|done]. destruct (lift _ σ) as [p' σ'|] eqn:E; [|done].
    intros [= <-]. constructor; [by apply step_okb_sound|done].
  - destruct (irq_okb p (mem σ)) eqn:Hb; [|done]. destruct (act d AIrq σ) as [[] σ'|] eqn:E; [|done].
    intros [= <-]. constructor; [by apply irq_okb_sound|done].
  - destruct (may_come p a && permittedb d a σ) eqn:Hb; [|done]. apply andb_true_iff in Hb as [Hm Hp].
    destruct (act d a σ) as [[] σ'|] eqn:E; [|done]. intros [= <-].
    by apply (fine_world _ p σ a); [|apply permittedb_sound|].
Qed.

Fixpoint moves (l : list move) (c : pc * config) : option (pc * config) :=
  match l with
  | [] => Some c
  | a :: l => take_move a c ≫= moves l
  end.

Lemma moves_steps l c c' : moves l c = Some c' → rtc (fine_step d) c c'.
Proof.
  revert c. induction l as [|a l IH]; intros c; simpl; [by intros [= <-]|].
  intros (c1 & Ha & Hl)%bind_Some. eapply rtc_l; [|by apply IH]. eexists. by apply take_move_fine.
Qed.

(** The same within one turn. *)
Fixpoint turn_moves (l : list move) (c : pc * config) : option (pc * config) :=
  match l with
  | [] => Some c
  | a :: l => if at_top c.1 then None else take_move a c ≫= turn_moves l
  end.

Lemma turn_moves_turn l c c' : turn_moves l c = Some c' → turn d (mover <$> l) c c'.
Proof.
  revert c. induction l as [|a l IH]; intros c; simpl; [intros [= <-]; constructor|].
  destruct (at_top c.1) eqn:Ht; [done|]. intros (c1 & Ha & Hl)%bind_Some.
  econstructor; [done|by apply take_move_fine|by apply IH].
Qed.

End Moves.

(** ** A session *)

(** From the probe on: a process opens the device, creates a set and writes a
    task; the thread takes it, binds the set and chooses to run the task. *)
Definition start : pc * config := (Top None, boot0).
Definition opening : list move :=
  MAct <$> [AOpen; AIoctl 3 DICEDEV_IOCTL_CREATE_SET (new_set 8192); AWrite 4 (Some words0) 16].
Definition moved (l : list move) : pc * config := default start (moves dev0 (opening ++ l) start).

Lemma moved_reachable l :
  bool_decide (is_Some (moves dev0 (opening ++ l) start)) = true → fine_reachable dev0 (moved l).
Proof.
  intros [c Hc]%bool_decide_eq_true. exists boot0. split; [apply boot0_booted|].
  unfold moved. rewrite Hc. by eapply (moves_steps dev0 (opening ++ l)).
Qed.

(** One turn of the thread, uninterrupted: the set is bound to a slot. *)
Lemma thread_turn_refines_witness :
  attains dev0 ((r ← thread_turn dev0 (wt_next two_writes); mret (turn_end (wt_next two_writes) r)) (mem two_writes))
    (Top (wt_next two_writes)) (mem two_writes).
Proof.
  apply (thread_turn_refines dev0 (wt_next two_writes) (mem two_writes)).
  destruct (reachable_inv dev0 two_writes two_writes_reachable) as (x & Hi & _). eapply inv_arrays; [done|by_dec].
Defined.

(** A stream that ends inside its second command: the turn that reads the
    first one feeds it, the whole loop then reads past the end. *)
Definition s_cut : state := exec (dicedev_task_init_it tsk0) (exec (wt_bind dev0 tsk0)
  (exec (wt_get_next dev0) (exec (dicedev_buffer_write fil0 (Some [0x52; 0x20; 0x52]) 12) s_set))).
Definition cut_frame : run_frame := mkFrame tsk0 ctx0 dev0 buf0.
Definition s_cut1 : state := exec (wt_step dev0 (Running cut_frame 12)) s_cut.

Lemma loop_issued_witness :
  match wt_run_loop 10 tsk0 dev0 buf0 12 s_cut with Crash BadAccess => true | _ => false end = true ∧
  length (mmio (the_dev s_cut1)) = (length (mmio (the_dev s_cut)) + 2)%nat ∧
  ∃ h c, (c = [] ∨ issued (binded_slot (the_buf s_cut)) (allowed (the_buf s_cut)) c) ∧
    devs s_cut1 !! dev0 = Some (dev_io h (feeds c) (the_dev s_cut)).
Proof.
  split; [conc|]. split; [conc|].
  destruct (loop_issued dev0 cut_frame s_cut (the_buf s_cut) (the_dev s_cut)) as [Hturn _]; [conc|conc|by_dec|].
  eapply (Hturn 12 (Running cut_frame 4)). apply (exec_run _ s_cut). conc.
Defined.


(** The first command of the task is fed; the board stores a die and reports a
    memory error, which the handler sees in the middle of the task; there the
    process also maps the set and queues a second task. *)
Definition amid : list move :=
  replicate 10 MThread ++ [MAct (ADma 9 0 3); MAct (ABoard error_irq); MAct (AMmap 4);
                          MAct (AWrite 4 (Some [4]) 4); MIrq].

Lemma amid_reachable : fine_reachable dev0 (moved amid).
Proof. apply moved_reachable. vm_compute. reflexivity. Qed.

(** The thread goes on with the task of the failed context, and a close of the
    set comes in between. *)
Lemma preempted_safe_witness :
  (moved amid).1 = Running (mkFrame 13 4 2 5) 8 ∧
  (ctx_failed <$> ctxs (mem (moved amid).2) !! 4%positive) = Some true ∧
  match wt_step dev0 (moved amid).1 (mem (moved amid).2) with
  | Done _ _ => True
  | Crash e => e = Sleeps ∧ may_sleep (moved amid).1 = true
  end ∧
  (act dev0 (AClose 4) (moved amid).2 = Crash Sleeps ∨ ∃ σ', act dev0 (AClose 4) (moved amid).2 = Done tt σ').
Proof.
  pose proof amid_reachable as Hs. rewrite (surjective_pairing (moved amid)) in Hs.
  destruct (preempted_safe dev0 _ _ Hs) as (Hstep & _ & Hact & _).
  split_and!; [conc|conc| |].
  - apply Hstep, step_okb_sound. vm_compute. reflexivity.
  - apply Hact; [conc|]. apply permittedb_sound. vm_compute. reflexivity.
Defined.

(** The rest of the turn in which the task is run, with a write and an
    interrupt. *)
Definition chosen_run : pc * config := moved (replicate 6 MThread).
Definition rest_of_turn : list move :=
  replicate 4 MThread ++ [MAct (AWrite 4 (Some [4]) 4); MAct (ABoard error_irq); MIrq] ++ replicate 4 MThread.
Definition turn_over : pc * config := default start (turn_moves dev0 rest_of_turn chosen_run).

Lemma turn_bounded_witness :
  turn_over.1 = Top None ∧ rank chosen_run.1 (mem chosen_run.2) = 11%nat ∧
  (length (filter (λ a, a = TheThread) (mover <$> rest_of_turn)) + rank turn_over.1 (mem turn_over.2) ≤
   rank chosen_run.1 (mem chosen_run.2))%nat.
Proof.
  split_and!; [conc|conc|].
  apply (turn_bounded dev0 chosen_run (mover <$> rest_of_turn) turn_over).
  - apply moved_reachable. vm_compute. reflexivity.
  - apply turn_moves_turn. unfold turn_over.
    assert (Hr : bool_decide (is_Some (turn_moves dev0 rest_of_turn chosen_run)) = true) by conc.
    apply bool_decide_eq_true in Hr as [c ->]. done.
Defined.

(** The task is run and its fence is reached; the thread has freed the task when
    the board reports an error. *)
Definition too_late : list move :=
  replicate 14 MThread ++ [MAct (ABoard fence_irq); MIrq] ++ replicate 5 MThread ++ [MAct (ABoard error_irq)].

Lemma error_after_free_witness :
  (moved too_late).1 = Freed None ∧ dicedev_isr dev0 (mem (moved too_late).2) = Crash BadAccess.
Proof.
  split; [conc|].
  destruct (error_after_free dev0 (moved too_late).1 (moved too_late).2 (the_dev (mem (moved too_late).2)) 9 error_irq)
    as (t & Hr & Hcrash); [|conc..|].
  - rewrite <-surjective_pairing. apply moved_reachable. vm_compute. reflexivity.
  - apply Hcrash. vm_compute in Hr. injection Hr as <-. conc.
Defined.
