(* ===== verification/Suite.v ===== *)
(** The test suite on the bench: two devices, standard output as descriptor 1,
    and for every test a board that computes the dice the test asks for. *)

From Stdlib Require Import String.
From S2P Require Import Prelude Cmd Types Bench Utils Slots Pt Task Stream Wt Buffer Base Syscall WtSpec BufferSpec IoctlSpec PciSpec Lifetime Invariant Thread Core Calls Release System Verdict Board Demand Drain User UserSpec Process Tests Uring TestSpec Runs Scenarios Sessions.

Definition dev1 : ptr := 3.
Definition two_devices : state := exec (dicedev_probe board0) s_probed.
Definition stdout : ptr := 4.
Definition bench2 : config := mkConfig (two_devices <| files := {[ stdout := mkFile FOther 1 None ]} |>
  <| fds := {[ 1 := stdout ]} |>) None [] [].

(** The code a test ends with; [None] when it faults or hangs. *)
Definition exit_code (m : U Z) (σ : config) : option Z :=
  match m σ with
  | URet r _ => Some r
  | UExit c _ => Some c
  | UFault _ => None
  end.

(** The dice [f 0], [f 1], ... in every bound set. *)
Definition rolls (n : nat) (f : Z → dicedev_buffer → dice) (buf : dicedev_buffer) : list dice :=
  (λ i, f (Z.of_nat i) buf) <$> seq 0 n.
Definition rolling (n : nat) (f : Z → dicedev_buffer → dice) : board_model := sample_board fence_irq (rolls n f).

(** What get_die.c, get_new_set.c and the others expect of their dice. *)
Definition die_values : board_model := rolling 10 (λ i _, {| d_value := nth (Z.to_nat i) [0; 1; 2; 4; 3; 0; 1; 5; 2; 3] 0; d_type := 5 |}).
Definition same_values : board_model := rolling 10 (λ i _, {| d_value := i mod 5; d_type := 5 |}).
Definition tricks : board_model := rolling 24 (λ i _, {| d_value := if i <? 12 then 0 else 3 + i mod 3; d_type := 5 |}).
Definition seeded : board_model := rolling 10 (λ _ buf, {| d_value := if seed buf =? 0x123 then 2 else 5;
  d_type := if allowed buf =? 4 then 2 else 5 |}).

(** Dice 512 to 1001 of a set lie in its second page. *)
Definition second_pages (r : dice) : board_model :=
  mkBoardModel (λ _, fence_irq) (λ σ,
    match devs (mem σ) !! dev0 with
    | Some x => concat ((λ q, dice_stores q (replicate 490 r)) <$> omap (λ o,
        b ← o; buf ← bufs (mem σ) !! b; l ← pages_of (mem σ) buf; pg ← l !! 1%nat; page pg) (buff_slots x))
    | None => []
    end).

(** The whole programs run to their end, also those that use a second device or
    descriptor, more sets than slots, or hundreds of command words (example.c
    with SIZE = 64, large_op.c with CMDS = 130, large_alloc.c with COUNT = 18). *)
Lemma suite_passes :
  exit_code (example dev0 dev1 board1 64) bench2 = Some 0 ∧
  exit_code (crossmap dev0 dev1 board1) bench2 = Some 0 ∧
  exit_code (dumb_run dev0 board1) bench2 = Some 0 ∧
  exit_code (get_die dev0 die_values) bench2 = Some 0 ∧
  exit_code (get_new_set dev0 same_values) bench2 = Some 0 ∧
  exit_code (get_set_tricks dev0 tricks) bench2 = Some 0 ∧
  exit_code (change_seed dev0 seeded) bench2 = Some 0 ∧
  exit_code (get_sets dev0 seeded) bench2 = Some 0 ∧
  exit_code (large_alloc dev0 (rolling 10 (λ _ _, {| d_value := 5; d_type := 5 |})) 18) bench2 = Some 0 ∧
  exit_code (large_op dev0 (second_pages {| d_value := 3; d_type := 5 |}) 130) bench2 = Some 0.
Proof. vm_compute. done. Qed.

(** A board that rolls other dice ends the same programs at their assertions. *)
Lemma suite_asserts :
  exit_code (get_die dev0 board1) bench2 = Some 134 ∧
  exit_code (change_seed dev0 board1) bench2 = Some 134 ∧
  exit_code (large_op dev0 board1 130) bench2 = Some 134.
Proof. vm_compute. done. Qed.

(** ** A ring *)

(** Entries, completions and the number of entries that fit; the entries are
    served in the order [f] gives. *)
Record plain_ring := mkRing { pr_queue : list sqe; pr_done : list cqe; pr_size : nat }.

Definition on_last (f : sqe → sqe) (r : plain_ring) : plain_ring :=
  mkRing (removelast (pr_queue r) ++ (f <$> option_list (last (pr_queue r)))) (pr_done r) (pr_size r).

Definition plain_uring (B : board_model) (f : list sqe → list nat) : Liburing := {|
  ring := plain_ring;
  io_uring_queue_init n := mkRing [] [] n;
  io_uring_get_sqe r :=
    if decide (length (pr_queue r) < pr_size r)%nat
    then Some (mkRing (pr_queue r ++ [mkSqe (Close (-1)) false]) (pr_done r) (pr_size r)) else None;
  io_uring_prep q := on_last (λ e, mkSqe q (sq_link e));
  sqe_link := on_last (λ e, mkSqe (sq_req e) true);
  io_uring_submit r :=
    cs ← serve dev0 B (pr_queue r) ∅ (f (pr_queue r)); mret (mkRing [] (pr_done r ++ cs) (pr_size r));
  io_uring_wait_cqe r := match pr_done r with [] => λ _, UFault Sleeps | c :: _ => mret (0, c) end;
  io_uring_cqe_seen r := mkRing (pr_queue r) (tail (pr_done r)) (pr_size r) |}.

Definition fifo (l : list sqe) : list nat := seq 0 (length l).

(** The tests on this ring: dice as io_uring.c expects them, other dice, the
    close overtaking the second write, and reads completed backwards. *)
Lemma uring_suite :
  (let L := plain_uring die_values fifo in exit_code (io_uring dev0 die_values) bench2) = Some 0 ∧
  (let L := plain_uring board1 fifo in exit_code (io_uring dev0 board1) bench2) = Some 134 ∧
  (let L := plain_uring die_values (λ _, [0; 2; 1]%nat) in exit_code (io_uring dev0 die_values) bench2) = Some 1 ∧
  (let L := plain_uring board1 (λ l, rev (fifo l)) in
   exit_code (io_uring_read dev0 board1 {| d_value := 0; d_type := 0 |}) bench2) = Some 0.
Proof. vm_compute. done. Qed.
